(** * The ASE sprite container codec (src/file/ase_format.cpp)

    A shallow embedding of the chunk based reader and writer of the
    .ase format, and the properties of the format driver, the palette
    chunks, the layer tree builder and the cel chunks.

    Conventions of the embedding.
    - C scalars are integers [Z] with the conversions written out:
      [int] is 32 bit two's complement ([to_int]), [uint32_t],
      [uint16_t], [uint8_t] are reductions modulo a power of two, [long]
      (file offsets) is wide enough for every offset that occurs.
    - A [FILE*] is the byte contents of the stream together with its
      cursor; the sticky error flag is carried along unchanged.
    - Undefined behaviour of the C++ program (a null [this], an index
      past the end of a vector, a failed [ASSERT]) is the outcome
      [Crash]; a loop that may not terminate is run on fuel and running
      out of it is the outcome [OutOfFuel]. *)

From Stdlib Require Import ZArith List Lia Bool String QArith Floats.SpecFloat.
From stdpp Require Import base option list.
Import ListNotations.

#[local] Open Scope Z_scope.

(** ** C scalar types *)

Definition to_int (z : Z) : Z := (z + 2 ^ 31) mod 2 ^ 32 - 2 ^ 31.
Definition to_short (z : Z) : Z := (z + 2 ^ 15) mod 2 ^ 16 - 2 ^ 15.
Definition to_uint32 (z : Z) : Z := z mod 2 ^ 32.
Definition to_uint16 (z : Z) : Z := z mod 2 ^ 16.
Definition to_uint8 (z : Z) : Z := z mod 2 ^ 8.

Arguments to_int : simpl never.
Arguments to_short : simpl never.
Arguments to_uint32 : simpl never.
Arguments to_uint16 : simpl never.
Arguments to_uint8 : simpl never.

Definition INT_MAX : Z := 2 ^ 31 - 1.
Definition EOF : Z := -1.

Definition ASE_FILE_MAGIC : Z := 0xA5E0.
Definition ASE_FILE_FRAME_MAGIC : Z := 0xF1FA.

Definition ASE_FILE_CHUNK_FLI_COLOR2 : Z := 4.
Definition ASE_FILE_CHUNK_FLI_COLOR : Z := 11.
Definition ASE_FILE_CHUNK_LAYER : Z := 0x2004.
Definition ASE_FILE_CHUNK_CEL : Z := 0x2005.
Definition ASE_FILE_CHUNK_MASK : Z := 0x2016.
Definition ASE_FILE_CHUNK_PATH : Z := 0x2017.

Definition ASE_FILE_RAW_CEL : Z := 0.
Definition ASE_FILE_LINK_CEL : Z := 1.
Definition ASE_FILE_COMPRESSED_CEL : Z := 2.

(** Outcome of a piece of the program that can leave defined behaviour
    or loop. *)
Inductive result (A : Type) : Type :=
| Ok (a : A)
| Crash
| OutOfFuel.
Arguments Ok {A} a.
Arguments Crash {A}.
Arguments OutOfFuel {A}.

(** ** Streams *)

Record FILE : Type := mkFILE {
  contents : list Z;      (* the bytes of the file *)
  cursor : Z;             (* file position indicator *)
  ferror : bool           (* sticky error indicator *)
}.

Definition ftell (f : FILE) : Z := cursor f.

(** [fseek(f, off, SEEK_SET)]: a negative offset makes the call fail
    and leaves the position where it was; a position past the end is
    allowed. *)
Definition fseek (f : FILE) (off : Z) : FILE :=
  if off <? 0 then f
  else mkFILE (contents f) off (ferror f).

Definition byte_at (f : FILE) (p : Z) : option Z :=
  if p <? 0 then None else contents f !! Z.to_nat p.

Definition fgetc (f : FILE) : Z * FILE :=
  match byte_at f (cursor f) with
  | Some b => (to_uint8 b, mkFILE (contents f) (cursor f + 1) (ferror f))
  | None => (EOF, f)
  end.

(** Modelled from the spec: [fgetw] and [fgetl] of file/file.h, the
    little-endian 16 and 32 bit reads of the primitive codec.  They
    answer [EOF] when the stream ends inside the value, which is what
    [ase_file_read_string] tests for. *)
Definition fgetw (f : FILE) : Z * FILE :=
  let '(b1, f) := fgetc f in
  if b1 =? EOF then (EOF, f) else
  let '(b2, f) := fgetc f in
  if b2 =? EOF then (EOF, f) else
  (Z.lor (Z.shiftl b2 8) b1, f).

Definition fgetl (f : FILE) : Z * FILE :=
  let '(b1, f) := fgetc f in
  if b1 =? EOF then (EOF, f) else
  let '(b2, f) := fgetc f in
  if b2 =? EOF then (EOF, f) else
  let '(b3, f) := fgetc f in
  if b3 =? EOF then (EOF, f) else
  let '(b4, f) := fgetc f in
  if b4 =? EOF then (EOF, f) else
  (Z.lor (Z.shiftl b4 24) (Z.lor (Z.shiftl b3 16) (Z.lor (Z.shiftl b2 8) b1)), f).

Fixpoint ase_file_read_padding (f : FILE) (bytes : nat) : FILE :=
  match bytes with
  | O => f
  | S n => ase_file_read_padding (snd (fgetc f)) n
  end.

(** [string.push_back(fgetc(f))] keeps the low eight bits. *)
Fixpoint read_chars (f : FILE) (n : nat) : list Z * FILE :=
  match n with
  | O => ([], f)
  | S n' =>
      let '(c, f) := fgetc f in
      let '(cs, f) := read_chars f n' in
      (to_uint8 c :: cs, f)
  end.

Definition ase_file_read_string (f : FILE) : list Z * FILE :=
  let '(length, f) := fgetw f in
  if length =? EOF then ([], f)
  else read_chars f (Z.to_nat length).

(** [std::string::c_str()] handed to a [const char*] parameter: the
    text stops at the first zero byte. *)
Fixpoint c_str (s : list Z) : list Z :=
  match s with
  | [] => []
  | c :: s' => if c =? 0 then [] else c :: c_str s'
  end.

(** ** The document model

    The classes of raster/ (Sprite, Layer, Cel, Palette, Image, Stock)
    are used by the codec through their accessors only. *)

Inductive PixelFormat : Type := IMAGE_RGB | IMAGE_GRAYSCALE | IMAGE_INDEXED.

(** Modelled from the spec: the colour packing helpers of
    raster/image.h.  A colour is a 32 bit word with red in the low byte
    and alpha in the high byte; every component is a [uint8_t]. *)
Definition _rgba (r g b a : Z) : Z :=
  Z.lor (to_uint8 r)
    (Z.lor (Z.shiftl (to_uint8 g) 8)
       (Z.lor (Z.shiftl (to_uint8 b) 16) (Z.shiftl (to_uint8 a) 24))).
Definition _rgba_getr (c : Z) : Z := Z.land (Z.shiftr c 0) 0xff.
Definition _rgba_getg (c : Z) : Z := Z.land (Z.shiftr c 8) 0xff.
Definition _rgba_getb (c : Z) : Z := Z.land (Z.shiftr c 16) 0xff.
Definition _rgba_geta (c : Z) : Z := Z.land (Z.shiftr c 24) 0xff.

Definition _graya (k a : Z) : Z := Z.lor (to_uint8 k) (Z.shiftl (to_uint8 a) 8).
Definition _graya_getv (c : Z) : Z := Z.land (Z.shiftr c 0) 0xff.
Definition _graya_geta (c : Z) : Z := Z.land (Z.shiftr c 8) 0xff.

(** Modelled from the spec: the 6 bit to 8 bit scaling table
    [_rgb_scale_6] of the legacy palette chunk (64 entries). *)
Definition _rgb_scale_6 : list Z :=
  map (fun i => 4 * i + i / 16) (map Z.of_nat (seq 0 64)).

(** *** Palettes *)

Record Palette : Type := mkPalette {
  pal_frame : Z;          (* frame at which the palette becomes active *)
  pal_colors : list Z
}.

Definition pal_size (p : Palette) : Z := Z.of_nat (length (pal_colors p)).

Definition setFrame (p : Palette) (frame : Z) : Palette :=
  mkPalette frame (pal_colors p).

Definition getEntry (p : Palette) (i : Z) : option Z :=
  if i <? 0 then None else pal_colors p !! Z.to_nat i.

(** Modelled from the spec: [Palette::setEntry] overwrites one entry of
    the ordered entry list; an index outside the list is not a defined
    store. *)
Definition setEntry (p : Palette) (i : Z) (color : Z) : option Palette :=
  if (0 <=? i) && (i <? pal_size p)
  then Some (mkPalette (pal_frame p) (<[Z.to_nat i := color]> (pal_colors p)))
  else None.

(** Modelled from the spec: [Palette::countDiff], the number of entries
    in which two palettes differ; entries that only one of them has
    count as different. *)
Fixpoint count_diff (a b : list Z) : Z :=
  match a, b with
  | [], _ => Z.of_nat (length b)
  | _, [] => Z.of_nat (length a)
  | x :: a', y :: b' => (if x =? y then 0 else 1) + count_diff a' b'
  end.

Definition countDiff (p other : Palette) : Z :=
  count_diff (pal_colors p) (pal_colors other).

(** *** Images and the stock *)

Record Image : Type := mkImage {
  img_format : PixelFormat;
  img_w : Z;
  img_h : Z;
  img_pixels : list Z     (* row-major, [img_w * img_h] pixels *)
}.

(** Modelled from the spec: [Image::create], a fresh pixel buffer of
    the given size. *)
Definition Image_create (fmt : PixelFormat) (w h : Z) : Image :=
  mkImage fmt w h (replicate (Z.to_nat (w * h)) 0).

(** Modelled from the spec: [Image::createCopy], a new image that is a
    full copy of the pixels of its argument. *)
Definition Image_createCopy (src : Image) : Image :=
  mkImage (img_format src) (img_w src) (img_h src) (img_pixels src).

Definition image_putpixel_fast (im : Image) (x y : Z) (c : Z) : Image :=
  mkImage (img_format im) (img_w im) (img_h im)
    (<[Z.to_nat (y * img_w im + x) := c]> (img_pixels im)).

Definition image_getpixel_fast (im : Image) (x y : Z) : Z :=
  default 0 (img_pixels im !! Z.to_nat (y * img_w im + x)).

(** Modelled from the spec: the image pool.  A handle is the position
    of the image in the pool; [addImage] stores the image in a new slot
    and answers its handle.  A cel is constructed with handle 0
    ([new Cel(frame, 0)]) before an image is attached to it, so slot 0
    of a new pool holds no image. *)
Abbreviation Stock := (list (option Image)).

Definition new_Stock : Stock := [None].

Definition getImage (st : Stock) (index : Z) : option Image :=
  if index <? 0 then None else mjoin (st !! Z.to_nat index).

Definition addImage (st : Stock) (im : Image) : Stock * Z :=
  (st ++ [Some im], Z.of_nat (length st)).


(** *** Cels and layers *)

Record Cel : Type := mkCel {
  cel_frame : Z;
  cel_image : Z;          (* handle into the stock *)
  cel_x : Z;
  cel_y : Z;
  cel_opacity : Z
}.

Definition new_Cel (frame image : Z) : Cel := mkCel frame image 0 0 255.
Definition setPosition (c : Cel) (x y : Z) : Cel :=
  mkCel (cel_frame c) (cel_image c) x y (cel_opacity c).
Definition setOpacity (c : Cel) (opacity : Z) : Cel :=
  mkCel (cel_frame c) (cel_image c) (cel_x c) (cel_y c) opacity.
Definition setImage (c : Cel) (image : Z) : Cel :=
  mkCel (cel_frame c) image (cel_x c) (cel_y c) (cel_opacity c).

#[local] Unset Elimination Schemes.
Inductive Layer : Type :=
| LayerImage (flags : Z) (name : list Z) (cels : list Cel)
| LayerFolder (flags : Z) (name : list Z) (layers : list Layer).
#[local] Set Elimination Schemes.

Definition isImage (l : Layer) : bool :=
  match l with LayerImage _ _ _ => true | LayerFolder _ _ _ => false end.
Definition isFolder (l : Layer) : bool :=
  match l with LayerImage _ _ _ => false | LayerFolder _ _ _ => true end.
Definition getFlags (l : Layer) : Z :=
  match l with LayerImage fl _ _ | LayerFolder fl _ _ => fl end.
Definition getName (l : Layer) : list Z :=
  match l with LayerImage _ n _ | LayerFolder _ n _ => n end.
Definition setFlags (l : Layer) (fl : Z) : Layer :=
  match l with
  | LayerImage _ n cs => LayerImage fl n cs
  | LayerFolder _ n ls => LayerFolder fl n ls
  end.
Definition setName (l : Layer) (n : list Z) : Layer :=
  match l with
  | LayerImage fl _ cs => LayerImage fl n cs
  | LayerFolder fl _ ls => LayerFolder fl n ls
  end.
Definition getCels (l : Layer) : list Cel :=
  match l with LayerImage _ _ cs => cs | LayerFolder _ _ _ => [] end.
Definition getLayers (l : Layer) : list Layer :=
  match l with LayerImage _ _ _ => [] | LayerFolder _ _ ls => ls end.

Definition new_LayerImage : Layer := LayerImage 0 [] [].
Definition new_LayerFolder : Layer := LayerFolder 0 [] [].

(** [LayerImage::getCel]: the cel of the layer at a frame. *)
Definition getCel (l : Layer) (frame : Z) : option Cel :=
  find (fun c => cel_frame c =? frame) (getCels l).

(** Modelled from the spec: [LayerImage::addCel] keeps the cel list
    ordered by frame; the cel goes in front of the first cel of a later
    frame. *)
Fixpoint insert_cel (c : Cel) (cs : list Cel) : list Cel :=
  match cs with
  | [] => [c]
  | d :: cs' => if cel_frame c <? cel_frame d then c :: d :: cs'
                else d :: insert_cel c cs'
  end.

Definition addCel (l : Layer) (c : Cel) : Layer :=
  match l with
  | LayerImage fl n cs => LayerImage fl n (insert_cel c cs)
  | LayerFolder fl n ls => LayerFolder fl n ls
  end.

(** A [Layer*] is the position of the layer in the tree: the child
    indices on the way up to the root folder, nearest first.  The root
    folder is [[]].  The parent link of a layer is therefore the tail
    of its pointer, and the root has none. *)
Abbreviation LayerPtr := (list nat).

Definition getParent (p : LayerPtr) : option LayerPtr :=
  match p with
  | [] => None
  | _ :: up => Some up
  end.

(** The layer found by going down from [l] along a path of child
    indices, outermost first. *)
Fixpoint layer_at (l : Layer) (path : list nat) : option Layer :=
  match path with
  | [] => Some l
  | i :: path' =>
      match getLayers l !! i with
      | Some c => layer_at c path'
      | None => None
      end
  end.

Definition deref (root : Layer) (p : LayerPtr) : option Layer :=
  layer_at root (rev p).

(** Rebuilds the tree with [g] applied to the layer at the path. *)
Fixpoint layer_update (l : Layer) (path : list nat) (g : Layer -> Layer) : Layer :=
  match path with
  | [] => g l
  | i :: path' =>
      match l with
      | LayerFolder fl n ls =>
          match ls !! i with
          | Some c => LayerFolder fl n (<[i := layer_update c path' g]> ls)
          | None => l
          end
      | LayerImage _ _ _ => l
      end
  end.

(** [LayerFolder::addLayer]: the layer becomes the last child of the
    folder and its parent link is set to the folder.  Calling it on
    something that is not a folder is not defined. *)
Definition addLayer (root : Layer) (folder : LayerPtr) (layer : Layer)
  : option (Layer * LayerPtr) :=
  match deref root folder with
  | Some (LayerFolder _ _ ls) =>
      Some (layer_update root (rev folder)
              (fun l => match l with
                        | LayerFolder fl n ls' => LayerFolder fl n (ls' ++ [layer])
                        | LayerImage _ _ _ => l
                        end),
            length ls :: folder)
  | _ => None
  end.

(** Modelled from the spec: [Sprite::indexToLayer].  Layers are
    numbered in the order in which their chunks are written, that is in
    preorder from the children of the root folder on; the root folder
    itself answers to index -1. *)
Fixpoint index2layer (l : Layer) (p : LayerPtr) (index count : Z)
  : option LayerPtr * Z :=
  if index =? count then (Some p, count)
  else
    match l with
    | LayerFolder _ _ ls =>
        (fix children (ls : list Layer) (i : nat) (count : Z) : option LayerPtr * Z :=
           match ls with
           | [] => (None, count)
           | c :: ls' =>
               match index2layer c (i :: p) index count with
               | (Some q, count') => (Some q, count')
               | (None, count') => children ls' (S i) count'
               end
           end) ls 0%nat (count + 1)
    | LayerImage _ _ _ => (None, count + 1)
    end.

(** *** Sprites *)

Record Sprite : Type := mkSprite {
  spr_format : PixelFormat;
  spr_width : Z;
  spr_height : Z;
  spr_transparent : Z;
  spr_frames : Z;                 (* total number of frames *)
  spr_frlen : list Z;             (* duration of every frame *)
  spr_palettes : list Palette;    (* ordered by frame *)
  spr_folder : Layer;             (* root of the layer tree *)
  spr_stock : Stock
}.

(** Modelled from the spec: the constructor of [Sprite]: one frame, one
    palette of [ncolors] opaque black entries at frame 0, an empty root
    folder and a new stock. *)
Definition new_Sprite (fmt : PixelFormat) (w h ncolors : Z) : Sprite :=
  mkSprite fmt w h 0 1 [100]
    [mkPalette 0 (replicate (Z.to_nat ncolors) (_rgba 0 0 0 255))]
    new_LayerFolder new_Stock.

Definition getTotalFrames (s : Sprite) : Z := spr_frames s.
Definition getPixelFormat (s : Sprite) : PixelFormat := spr_format s.
Definition getFolder (s : Sprite) : LayerPtr := [].

(** Modelled from the spec: the per-frame duration list of a sprite and
    its setters. *)
Definition setTotalFrames (s : Sprite) (frames : Z) : Sprite :=
  mkSprite (spr_format s) (spr_width s) (spr_height s) (spr_transparent s)
    frames (resize (Z.to_nat frames) 100 (spr_frlen s))
    (spr_palettes s) (spr_folder s) (spr_stock s).

Definition setDurationForAllFrames (s : Sprite) (msecs : Z) : Sprite :=
  mkSprite (spr_format s) (spr_width s) (spr_height s) (spr_transparent s)
    (spr_frames s) (replicate (length (spr_frlen s)) msecs)
    (spr_palettes s) (spr_folder s) (spr_stock s).

Definition setFrameDuration (s : Sprite) (frame msecs : Z) : Sprite :=
  if (0 <=? frame) && (frame <? spr_frames s) then
    mkSprite (spr_format s) (spr_width s) (spr_height s) (spr_transparent s)
      (spr_frames s) (<[Z.to_nat frame := msecs]> (spr_frlen s))
      (spr_palettes s) (spr_folder s) (spr_stock s)
  else s.

Definition getFrameDuration (s : Sprite) (frame : Z) : option Z :=
  if frame <? 0 then None else spr_frlen s !! Z.to_nat frame.

Definition setTransparentColor (s : Sprite) (index : Z) : Sprite :=
  mkSprite (spr_format s) (spr_width s) (spr_height s) index
    (spr_frames s) (spr_frlen s) (spr_palettes s) (spr_folder s) (spr_stock s).

Definition set_folder (s : Sprite) (root : Layer) : Sprite :=
  mkSprite (spr_format s) (spr_width s) (spr_height s) (spr_transparent s)
    (spr_frames s) (spr_frlen s) (spr_palettes s) root (spr_stock s).

Definition set_stock (s : Sprite) (st : Stock) : Sprite :=
  mkSprite (spr_format s) (spr_width s) (spr_height s) (spr_transparent s)
    (spr_frames s) (spr_frlen s) (spr_palettes s) (spr_folder s) st.

Definition set_palettes (s : Sprite) (ps : list Palette) : Sprite :=
  mkSprite (spr_format s) (spr_width s) (spr_height s) (spr_transparent s)
    (spr_frames s) (spr_frlen s) ps (spr_folder s) (spr_stock s).

Definition indexToLayer (s : Sprite) (index : Z) : option LayerPtr :=
  fst (index2layer (spr_folder s) [] index (-1)).

(** Modelled from the spec: [Sprite::getPalette], the palette that is
    active at a frame: the last one whose frame is not after it. *)
Fixpoint palette_at (ps : list Palette) (frame : Z) (found : option Palette)
  : option Palette :=
  match ps with
  | [] => found
  | p :: ps' =>
      if frame <? pal_frame p then found
      else palette_at ps' frame (Some p)
  end.

Definition getPalette (s : Sprite) (frame : Z) : option Palette :=
  palette_at (spr_palettes s) frame None.

(** Modelled from the spec: [Sprite::setPalette(pal, true)].  The
    colours of the palette that already starts at the frame of [pal]
    are replaced wholesale; otherwise a copy of [pal] is put at its
    place in the frame order. *)
Fixpoint put_palette (ps : list Palette) (pal : Palette) : list Palette :=
  match ps with
  | [] => [pal]
  | other :: ps' =>
      if pal_frame pal =? pal_frame other then pal :: ps'
      else if pal_frame pal <? pal_frame other then pal :: other :: ps'
      else other :: put_palette ps' pal
  end.

Definition setPalette (s : Sprite) (pal : Palette) : Sprite :=
  set_palettes s (put_palette (spr_palettes s) pal).

(** ** The file operation

    The progress sink receives [(float)position / (float)size]; the
    quotient is recorded by its two integer operands.  The error sink
    receives a format string and its arguments. *)

Record FileOp : Type := mkFileOp {
  fop_oneframe : bool;
  fop_stop : Z -> bool;                 (* the cancel flag, as seen after each frame *)
  fop_progress_log : list (Z * Z);
  fop_error_log : list (string * list Z);
  fop_document : option Sprite
}.

Definition fop_progress (fop : FileOp) (num den : Z) : FileOp :=
  mkFileOp (fop_oneframe fop) (fop_stop fop)
    (fop_progress_log fop ++ [(num, den)]) (fop_error_log fop) (fop_document fop).

Definition fop_error (fop : FileOp) (msg : string) (args : list Z) : FileOp :=
  mkFileOp (fop_oneframe fop) (fop_stop fop)
    (fop_progress_log fop) (fop_error_log fop ++ [(msg, args)]) (fop_document fop).

Definition fop_is_stop (fop : FileOp) (frame : Z) : bool := fop_stop fop frame.

Definition set_document (fop : FileOp) (s : Sprite) : FileOp :=
  mkFileOp (fop_oneframe fop) (fop_stop fop)
    (fop_progress_log fop) (fop_error_log fop) (Some s).

(** ** Headers *)

Record ASE_Header : Type := mkHeader {
  h_pos : Z;
  h_size : Z;             (* uint32_t *)
  h_magic : Z;            (* uint16_t *)
  h_frames : Z;
  h_width : Z;
  h_height : Z;
  h_depth : Z;
  h_flags : Z;
  h_speed : Z;
  h_next : Z;
  h_frit : Z;
  h_transparent_index : Z;
  h_ignore : Z * Z * Z;
  h_ncolors : Z
}.

Record ASE_FrameHeader : Type := mkFrameHeader {
  fh_size : Z;            (* uint32_t *)
  fh_magic : Z;           (* uint16_t *)
  fh_chunks : Z;          (* uint16_t *)
  fh_duration : Z         (* uint16_t *)
}.

(** [None] is the [false] of the C function: the magic number is not
    the one of the format and the rest of the header is not read. *)
Definition ase_file_read_header (f : FILE) : option ASE_Header * FILE :=
  let pos := ftell f in
  let '(size, f) := fgetl f in
  let '(magic, f) := fgetw f in
  if negb (to_uint16 magic =? ASE_FILE_MAGIC) then (None, f)
  else
    let '(frames, f) := fgetw f in
    let '(width, f) := fgetw f in
    let '(height, f) := fgetw f in
    let '(depth, f) := fgetw f in
    let '(flags, f) := fgetl f in
    let '(speed, f) := fgetw f in
    let '(next, f) := fgetl f in
    let '(frit, f) := fgetl f in
    let '(transparent_index, f) := fgetc f in
    let '(i0, f) := fgetc f in
    let '(i1, f) := fgetc f in
    let '(i2, f) := fgetc f in
    let '(ncolors, f) := fgetw f in
    let ncolors := to_uint16 ncolors in
    let ncolors := if ncolors =? 0 then 256 else ncolors in
    (Some (mkHeader pos (to_uint32 size) (to_uint16 magic) (to_uint16 frames)
             (to_uint16 width) (to_uint16 height) (to_uint16 depth)
             (to_uint32 flags) (to_uint16 speed) (to_uint32 next) (to_uint32 frit)
             (to_uint8 transparent_index)
             (to_uint8 i0, to_uint8 i1, to_uint8 i2) ncolors),
     fseek f (pos + 128)).

Definition ase_file_read_frame_header (f : FILE) : ASE_FrameHeader * FILE :=
  let '(size, f) := fgetl f in
  let '(magic, f) := fgetw f in
  let '(chunks, f) := fgetw f in
  let '(duration, f) := fgetw f in
  let f := ase_file_read_padding f 6 in
  (mkFrameHeader (to_uint32 size) (to_uint16 magic) (to_uint16 chunks)
     (to_uint16 duration), f).

(** ** Palette chunks *)

(** The loop [for (c=skip; c<skip+size; c++)] of a packet: [n] entries
    are still to be read and [c] is the entry that comes next.  [scale]
    is what is done to a component before it is packed. *)
Fixpoint read_color_entries (scale : Z -> option Z) (n : nat) (c : Z)
    (f : FILE) (pal : Palette) : result (Palette * FILE) :=
  match n with
  | O => Ok (pal, f)
  | S n' =>
      let '(r, f) := fgetc f in
      let '(g, f) := fgetc f in
      let '(b, f) := fgetc f in
      match scale r, scale g, scale b with
      | Some r', Some g', Some b' =>
          match setEntry pal c (_rgba r' g' b' 255) with
          | Some pal' => read_color_entries scale n' (c + 1) f pal'
          | None => Crash
          end
      | _, _, _ => Crash
      end
  end.

(** The loop over the packets; [skip] is the running index. *)
Fixpoint read_color_packets (scale : Z -> option Z) (packets : nat) (skip : Z)
    (f : FILE) (pal : Palette) : result (Palette * FILE) :=
  match packets with
  | O => Ok (pal, f)
  | S packets' =>
      let '(s, f) := fgetc f in
      let skip := skip + s in
      let '(size, f) := fgetc f in
      let size := if size =? 0 then 256 else size in
      match read_color_entries scale (Z.to_nat size) skip f pal with
      | Ok (pal, f) => read_color_packets scale packets' skip f pal
      | Crash => Crash
      | OutOfFuel => OutOfFuel
      end
  end.

Definition scale_6 (c : Z) : option Z :=
  if c <? 0 then None else _rgb_scale_6 !! Z.to_nat c.

Definition ase_file_read_color_chunk (f : FILE) (sprite : Sprite) (frame : Z)
  : result (Palette * FILE) :=
  match getPalette sprite frame with
  | None => Crash
  | Some p =>
      let pal := setFrame p frame in
      let '(packets, f) := fgetw f in
      read_color_packets scale_6 (Z.to_nat packets) 0 f pal
  end.

Definition ase_file_read_color2_chunk (f : FILE) (sprite : Sprite) (frame : Z)
  : result (Palette * FILE) :=
  match getPalette sprite frame with
  | None => Crash
  | Some p =>
      let pal := setFrame p frame in
      let '(packets, f) := fgetw f in
      read_color_packets Some (Z.to_nat packets) 0 f pal
  end.

(** ** Layer chunks *)

Definition ase_file_read_layer_chunk (f : FILE) (sprite : Sprite)
    (previous_layer : LayerPtr) (current_level : Z)
  : result (FILE * Sprite * LayerPtr * Z) :=
  let '(flags, f) := fgetw f in
  let '(layer_type, f) := fgetw f in
  let '(child_level, f) := fgetw f in
  let '(_, f) := fgetw f in           (* default width *)
  let '(_, f) := fgetw f in           (* default height *)
  let '(_, f) := fgetw f in           (* blend mode *)
  let f := ase_file_read_padding f 4 in
  let '(name, f) := ase_file_read_string f in
  let layer :=
    if layer_type =? 0 then Some new_LayerImage
    else if layer_type =? 1 then Some new_LayerFolder
    else None in
  match layer with
  | None => Ok (f, sprite, previous_layer, current_level)
  | Some layer =>
      let layer := setName (setFlags layer flags) (c_str name) in
      let folder :=
        if child_level =? current_level then
          getParent previous_layer
        else if child_level >? current_level then
          Some previous_layer
        else
          match getParent previous_layer with
          | Some up => getParent up
          | None => None
          end in
      match folder with
      | None => Crash
      | Some folder =>
          match addLayer (spr_folder sprite) folder layer with
          | None => Crash
          | Some (root, p) => Ok (f, set_folder sprite root, p, child_level)
          end
      end
  end.

(** ** Pixel I/O *)

Definition read_pixel (fmt : PixelFormat) (f : FILE) : Z * FILE :=
  match fmt with
  | IMAGE_RGB =>
      let '(r, f) := fgetc f in
      let '(g, f) := fgetc f in
      let '(b, f) := fgetc f in
      let '(a, f) := fgetc f in
      (_rgba r g b a, f)
  | IMAGE_GRAYSCALE =>
      let '(k, f) := fgetc f in
      let '(a, f) := fgetc f in
      (_graya k a, f)
  | IMAGE_INDEXED =>
      let '(c, f) := fgetc f in
      (to_uint8 c, f)
  end.

(** Modelled from the spec: [ImageTraits::scanline_size], the bytes of
    one row: 4 bytes a pixel for RGBA, 2 for grayscale with alpha, 1 for
    indexed. *)
Definition scanline_size (fmt : PixelFormat) (w : Z) : Z :=
  match fmt with
  | IMAGE_RGB => 4 * w
  | IMAGE_GRAYSCALE => 2 * w
  | IMAGE_INDEXED => w
  end.

Definition buf_get (buffer : list Z) (i : nat) : Z := default 0 (buffer !! i).

(** [read_scanline]: the pixels of one row decoded from a byte buffer. *)
Fixpoint read_scanline (fmt : PixelFormat) (w : nat) (buffer : list Z) : list Z :=
  match w with
  | O => []
  | S w' =>
      match fmt with
      | IMAGE_RGB =>
          _rgba (buf_get buffer 0) (buf_get buffer 1) (buf_get buffer 2) (buf_get buffer 3)
          :: read_scanline fmt w' (drop 4 buffer)
      | IMAGE_GRAYSCALE =>
          _graya (buf_get buffer 0) (buf_get buffer 1)
          :: read_scanline fmt w' (drop 2 buffer)
      | IMAGE_INDEXED =>
          buf_get buffer 0 :: read_scanline fmt w' (drop 1 buffer)
      end
  end.

(** [write_scanline]: the bytes of one row of pixels. *)
Fixpoint write_scanline (fmt : PixelFormat) (pixels : list Z) : list Z :=
  match pixels with
  | [] => []
  | c :: pixels' =>
      match fmt with
      | IMAGE_RGB =>
          _rgba_getr c :: _rgba_getg c :: _rgba_getb c :: _rgba_geta c
          :: write_scanline fmt pixels'
      | IMAGE_GRAYSCALE =>
          _graya_getv c :: _graya_geta c :: write_scanline fmt pixels'
      | IMAGE_INDEXED =>
          to_uint8 c :: write_scanline fmt pixels'
      end
  end.

(** *** Raw images *)

Fixpoint read_raw_row (n : nat) (x y : Z) (f : FILE) (image : Image) : Image * FILE :=
  match n with
  | O => (image, f)
  | S n' =>
      let '(c, f) := read_pixel (img_format image) f in
      read_raw_row n' (x + 1) y f (image_putpixel_fast image x y c)
  end.

Fixpoint read_raw_rows (n : nat) (y : Z) (f : FILE) (image : Image)
    (fop : FileOp) (header : ASE_Header) : Image * FILE * FileOp :=
  match n with
  | O => (image, f, fop)
  | S n' =>
      let '(image, f) := read_raw_row (Z.to_nat (img_w image)) 0 y f image in
      let fop := fop_progress fop (ftell f) (h_size header) in
      read_raw_rows n' (y + 1) f image fop header
  end.

Definition read_raw_image (f : FILE) (image : Image) (fop : FileOp)
    (header : ASE_Header) : Image * FILE * FileOp :=
  read_raw_rows (Z.to_nat (img_h image)) 0 f image fop header.

(** *** zlib

    The compression library is outside of the repository.  Its
    sessions are taken as they are used: a session type, the input
    assignment ([next_in], [avail_in]) and one call of [inflate] or
    [deflate], which answers the error code and the bytes it stored at
    [next_out] (at most [avail_out] of them are kept). *)

Record Zlib : Type := mkZlib {
  z_stream : Type;
  inflateInit : Z * z_stream;
  deflateInit : Z * z_stream;
  z_set_input : z_stream -> list Z -> z_stream;
  inflate : z_stream -> Z -> Z * list Z * z_stream;        (* avail_out *)
  deflate : z_stream -> Z -> Z -> Z * list Z * z_stream;   (* flush, avail_out *)
  inflateEnd : z_stream -> Z;
  deflateEnd : z_stream -> Z
}.

Definition Z_OK : Z := 0.
Definition Z_STREAM_END : Z := 1.
Definition Z_BUF_ERROR : Z := -5.
Definition Z_NO_FLUSH : Z := 0.
Definition Z_FINISH : Z := 4.

Definition zlib_error_ok (err : Z) : bool :=
  (err =? Z_OK) || (err =? Z_STREAM_END) || (err =? Z_BUF_ERROR).

(** [size_t] is 64 bits wide. *)
Definition to_size_t (z : Z) : Z := z mod 2 ^ 64.

(** [fread(buffer, 1, n, f)]. *)
Definition fread (f : FILE) (n : Z) : list Z * FILE :=
  if cursor f <? 0 then ([], f)
  else
    let bytes := take (Z.to_nat n) (drop (Z.to_nat (cursor f)) (contents f)) in
    (map to_uint8 bytes,
     mkFILE (contents f) (cursor f + Z.of_nat (length bytes)) (ferror f)).

(** What a function that can throw [base::Exception] hands back. *)
Inductive thrown : Type :=
| NoThrow
| Throw (what : string) (args : list Z).

(** The bytes produced so far are kept as the filled prefix
    [uncompressed] of the output vector, whose size is [capacity]. *)
Fixpoint inflate_drain (zl : Zlib) (fuel : nat) (zs : z_stream zl)
    (scanline : Z) (capacity : Z) (uncompressed : list Z)
  : result (thrown * z_stream zl * list Z) :=
  match fuel with
  | O => OutOfFuel
  | S fuel' =>
      let '(err, out, zs) := inflate zl zs scanline in
      let out := take (Z.to_nat scanline) out in
      if negb (zlib_error_ok err) then
        Ok (Throw "ZLib error %d in inflate()." [err], zs, uncompressed)
      else
        let uncompressed_bytes := Z.of_nat (length out) in
        if (0 <? uncompressed_bytes)
           && (capacity <? Z.of_nat (length uncompressed) + uncompressed_bytes)
        then Ok (Throw "Bad compressed image." [], zs, uncompressed)
        else
          let uncompressed := uncompressed ++ out in
          if scanline - uncompressed_bytes =? 0
          then inflate_drain zl fuel' zs scanline capacity uncompressed
          else Ok (NoThrow, zs, uncompressed)
  end.

Fixpoint inflate_blocks (zl : Zlib) (fuel : nat) (zs : z_stream zl)
    (f : FILE) (chunk_end : Z) (fop : FileOp) (header : ASE_Header)
    (scanline capacity : Z) (uncompressed : list Z)
  : result (thrown * z_stream zl * list Z * FILE * FileOp) :=
  match fuel with
  | O => OutOfFuel
  | S fuel' =>
      let over := chunk_end <? to_size_t (ftell f + 4096) in
      let input_bytes := if over then to_size_t (chunk_end - ftell f) else 4096 in
      if over && negb (input_bytes <? 4096) then Crash     (* ASSERT *)
      else if over && (input_bytes =? 0) then Ok (NoThrow, zs, uncompressed, f, fop)
      else
        let '(compressed, f) := fread f input_bytes in
        let zs := z_set_input zl zs compressed in
        match inflate_drain zl fuel' zs scanline capacity uncompressed with
        | Ok (NoThrow, zs, uncompressed) =>
            let fop := fop_progress fop (ftell f) (h_size header) in
            inflate_blocks zl fuel' zs f chunk_end fop header scanline capacity uncompressed
        | Ok (Throw what args, zs, uncompressed) =>
            Ok (Throw what args, zs, uncompressed, f, fop)
        | Crash => Crash
        | OutOfFuel => OutOfFuel
        end
  end.

(** The rows of the image decoded from the flat output vector; bytes
    that were never produced are the zeros the vector was created
    with. *)
Definition decode_rows (fmt : PixelFormat) (w h : Z) (uncompressed : list Z) : list Z :=
  flat_map
    (fun y => read_scanline fmt (Z.to_nat w)
                (drop (y * Z.to_nat (scanline_size fmt w)) uncompressed))
    (seq 0 (Z.to_nat h)).

Definition set_pixels (im : Image) (px : list Z) : Image :=
  mkImage (img_format im) (img_w im) (img_h im) px.

Definition read_compressed_image (zl : Zlib) (fuel : nat) (f : FILE) (image : Image)
    (chunk_end : Z) (fop : FileOp) (header : ASE_Header)
  : result (thrown * Image * FILE * FileOp) :=
  let '(err, zs) := inflateInit zl in
  if negb (err =? Z_OK) then
    Ok (Throw "ZLib error %d in inflateInit()." [err], image, f, fop)
  else
    let scanline := scanline_size (img_format image) (img_w image) in
    let capacity := img_h image * scanline in
    match inflate_blocks zl fuel zs f chunk_end fop header scanline capacity [] with
    | Ok (NoThrow, zs, uncompressed, f, fop) =>
        let image :=
          set_pixels image
            (decode_rows (img_format image) (img_w image) (img_h image) uncompressed) in
        let err := inflateEnd zl zs in
        if negb (err =? Z_OK) then
          Ok (Throw "ZLib error %d in inflateEnd()." [err], image, f, fop)
        else Ok (NoThrow, image, f, fop)
    | Ok (Throw what args, _, _, f, fop) => Ok (Throw what args, image, f, fop)
    | Crash => Crash
    | OutOfFuel => OutOfFuel
    end.

(** ** Cel chunks *)

Definition add_cel_at (sprite : Sprite) (layer : LayerPtr) (cel : Cel) : Sprite :=
  set_folder sprite
    (layer_update (spr_folder sprite) (rev layer) (fun l => addCel l cel)).

Definition store_image (sprite : Sprite) (cel : Cel) (image : Image) : Sprite * Cel :=
  let '(st, handle) := addImage (spr_stock sprite) image in
  (set_stock sprite st, setImage cel handle).

(** The fixed fields at the start of a cel chunk ("read chunk data"),
    up to and with its seven bytes of padding. *)
Record CelData : Type := mkCelData {
  cd_layer_index : Z;
  cd_x : Z;
  cd_y : Z;
  cd_opacity : Z;
  cd_cel_type : Z
}.

Definition read_cel_data (f : FILE) : CelData * FILE :=
  let '(layer_index, f) := fgetw f in
  let '(x, f) := fgetw f in
  let x := to_short x in
  let '(y, f) := fgetw f in
  let y := to_short y in
  let '(opacity, f) := fgetc f in
  let '(cel_type, f) := fgetw f in
  let f := ase_file_read_padding f 7 in
  (mkCelData layer_index x y opacity cel_type, f).

Definition ase_file_read_cel_chunk (zl : Zlib) (fuel : nat) (f : FILE)
    (sprite : Sprite) (frame : Z) (pixelFormat : PixelFormat) (fop : FileOp)
    (header : ASE_Header) (chunk_end : Z)
  : result (option Cel * FILE * Sprite * FileOp) :=
  let '(data, f) := read_cel_data f in
  let layer_index := cd_layer_index data in
  let x := cd_x data in
  let y := cd_y data in
  let opacity := cd_opacity data in
  let cel_type := cd_cel_type data in
  match indexToLayer sprite layer_index with
  | None =>
      Ok (None, f, sprite,
          fop_error fop "Frame %d didn't found layer with index %d\n" [frame; layer_index])
  | Some layer =>
      match deref (spr_folder sprite) layer with
      | None => Crash
      | Some l =>
          if negb (isImage l) then
            Ok (None, f, sprite,
                fop_error fop
                  "Invalid .ase file (frame %d in layer %d which does not contain images\n"
                  [frame; layer_index])
          else
            let cel := setOpacity (setPosition (new_Cel frame 0) x y) opacity in
            if cel_type =? ASE_FILE_RAW_CEL then
              let '(w, f) := fgetw f in
              let '(h, f) := fgetw f in
              if (0 <? w) && (0 <? h) then
                let image := Image_create pixelFormat w h in
                let '(image, f, fop) := read_raw_image f image fop header in
                let '(sprite, cel) := store_image sprite cel image in
                Ok (Some cel, f, add_cel_at sprite layer cel, fop)
              else Ok (Some cel, f, add_cel_at sprite layer cel, fop)
            else if cel_type =? ASE_FILE_LINK_CEL then
              let '(link_frame, f) := fgetw f in
              match getCel l link_frame with
              | Some link =>
                  match getImage (spr_stock sprite) (cel_image link) with
                  | None => Crash
                  | Some src =>
                      let image := Image_createCopy src in
                      let '(sprite, cel) := store_image sprite cel image in
                      Ok (Some cel, f, add_cel_at sprite layer cel, fop)
                  end
              | None => Ok (None, f, sprite, fop)
              end
            else if cel_type =? ASE_FILE_COMPRESSED_CEL then
              let '(w, f) := fgetw f in
              let '(h, f) := fgetw f in
              if (0 <? w) && (0 <? h) then
                let image := Image_create pixelFormat w h in
                match read_compressed_image zl fuel f image chunk_end fop header with
                | Ok (t, image, f, fop) =>
                    let fop :=
                      match t with
                      | NoThrow => fop
                      | Throw what args => fop_error fop what args
                      end in
                    let '(sprite, cel) := store_image sprite cel image in
                    Ok (Some cel, f, add_cel_at sprite layer cel, fop)
                | Crash => Crash
                | OutOfFuel => OutOfFuel
                end
              else Ok (Some cel, f, add_cel_at sprite layer cel, fop)
            else Ok (Some cel, f, add_cel_at sprite layer cel, fop)
      end
  end.

(** ** Mask chunks *)

Record Mask : Type := mkMask {
  mask_name : list Z;
  mask_x : Z;
  mask_y : Z;
  mask_w : Z;
  mask_h : Z;
  mask_bitmap : list Z        (* one entry a pixel, row-major *)
}.

(** [image_putpixel] on the bitmap of the mask: a pixel outside of the
    bitmap is left out. *)
Definition mask_putpixel (m : Mask) (x y : Z) (c : Z) : Mask :=
  if (0 <=? x) && (0 <=? y) && (x <? mask_w m) && (y <? mask_h m) then
    mkMask (mask_name m) (mask_x m) (mask_y m) (mask_w m) (mask_h m)
      (<[Z.to_nat (y * mask_w m + x) := c]> (mask_bitmap m))
  else m.

Fixpoint mask_put_bits (n : nat) (c : Z) (u v byte : Z) (m : Mask) : Mask :=
  match n with
  | O => m
  | S n' =>
      mask_put_bits n' (c + 1) u v byte
        (mask_putpixel m (u * 8 + c) v (Z.land byte (Z.shiftl 1 (7 - c))))
  end.

Fixpoint mask_read_row (n : nat) (u v : Z) (f : FILE) (m : Mask) : Mask * FILE :=
  match n with
  | O => (m, f)
  | S n' =>
      let '(byte, f) := fgetc f in
      mask_read_row n' (u + 1) v f (mask_put_bits 8 0 u v byte m)
  end.

Fixpoint mask_read_rows (n : nat) (v : Z) (w : Z) (f : FILE) (m : Mask) : Mask * FILE :=
  match n with
  | O => (m, f)
  | S n' =>
      let '(m, f) := mask_read_row (Z.to_nat ((w + 7) / 8)) 0 v f m in
      mask_read_rows n' (v + 1) w f m
  end.

Definition ase_file_read_mask_chunk (f : FILE) : Mask * FILE :=
  let '(x, f) := fgetw f in
  let '(y, f) := fgetw f in
  let '(w, f) := fgetw f in
  let '(h, f) := fgetw f in
  let f := ase_file_read_padding f 8 in
  let '(name, f) := ase_file_read_string f in
  let mask := mkMask (c_str name) x y w h (replicate (Z.to_nat (w * h)) 0) in
  mask_read_rows (Z.to_nat h) 0 w f mask.

(** ** The load driver *)

(** What the frame loop of [onLoad] carries from chunk to chunk. *)
Record LoadState : Type := mkLoad {
  ld_file : FILE;
  ld_fop : FileOp;
  ld_sprite : Sprite;
  ld_last_layer : LayerPtr;
  ld_current_level : Z
}.

(** The [switch (chunk_type)] of the chunk loop. *)
Definition dispatch_chunk (zl : Zlib) (fuel : nat) (header : ASE_Header) (frame : Z)
    (chunk_pos chunk_size chunk_type : Z) (st : LoadState) : result LoadState :=
  let f := ld_file st in
  let fop := ld_fop st in
  let sprite := ld_sprite st in
  if (chunk_type =? ASE_FILE_CHUNK_FLI_COLOR) || (chunk_type =? ASE_FILE_CHUNK_FLI_COLOR2) then
    match getPixelFormat sprite with
    | IMAGE_INDEXED =>
        match getPalette sprite frame with
        | None => Crash
        | Some prev_pal =>
            match (if chunk_type =? ASE_FILE_CHUNK_FLI_COLOR
                   then ase_file_read_color_chunk f sprite frame
                   else ase_file_read_color2_chunk f sprite frame) with
            | Ok (pal, f) =>
                let sprite :=
                  if 0 <? countDiff prev_pal pal then setPalette sprite pal else sprite in
                Ok (mkLoad f fop sprite (ld_last_layer st) (ld_current_level st))
            | Crash => Crash
            | OutOfFuel => OutOfFuel
            end
        end
    | _ =>
        Ok (mkLoad f
              (fop_error fop "Warning: was found a color chunk in non-8bpp file\n" [])
              sprite (ld_last_layer st) (ld_current_level st))
    end
  else if chunk_type =? ASE_FILE_CHUNK_LAYER then
    match ase_file_read_layer_chunk f sprite (ld_last_layer st) (ld_current_level st) with
    | Ok (f, sprite, last_layer, current_level) =>
        Ok (mkLoad f fop sprite last_layer current_level)
    | Crash => Crash
    | OutOfFuel => OutOfFuel
    end
  else if chunk_type =? ASE_FILE_CHUNK_CEL then
    match ase_file_read_cel_chunk zl fuel f sprite frame (getPixelFormat sprite) fop header
            (to_size_t (to_int (chunk_pos + chunk_size))) with
    | Ok (_, f, sprite, fop) =>
        Ok (mkLoad f fop sprite (ld_last_layer st) (ld_current_level st))
    | Crash => Crash
    | OutOfFuel => OutOfFuel
    end
  else if chunk_type =? ASE_FILE_CHUNK_MASK then
    let '(_, f) := ase_file_read_mask_chunk f in
    Ok (mkLoad f fop sprite (ld_last_layer st) (ld_current_level st))
  else if chunk_type =? ASE_FILE_CHUNK_PATH then
    Ok st
  else
    Ok (mkLoad f
          (fop_error fop "Warning: Unsupported chunk type %d (skipping)\n" [chunk_type])
          sprite (ld_last_layer st) (ld_current_level st)).

Definition set_file (st : LoadState) (f : FILE) : LoadState :=
  mkLoad f (ld_fop st) (ld_sprite st) (ld_last_layer st) (ld_current_level st).

Definition set_fop (st : LoadState) (fop : FileOp) : LoadState :=
  mkLoad (ld_file st) fop (ld_sprite st) (ld_last_layer st) (ld_current_level st).

Definition set_sprite (st : LoadState) (s : Sprite) : LoadState :=
  mkLoad (ld_file st) (ld_fop st) s (ld_last_layer st) (ld_current_level st).

(** One turn of the chunk loop: the chunk header, the handler of the
    chunk, and the seek to the end of the chunk. *)
Definition read_chunk (zl : Zlib) (fuel : nat) (header : ASE_Header) (frame : Z)
    (st : LoadState) : result LoadState :=
  let chunk_pos := to_int (ftell (ld_file st)) in
  let st := set_fop st (fop_progress (ld_fop st) chunk_pos (h_size header)) in
  let '(chunk_size, f) := fgetl (ld_file st) in
  let chunk_size := to_int chunk_size in
  let '(chunk_type, f) := fgetw f in
  match dispatch_chunk zl fuel header frame chunk_pos chunk_size chunk_type (set_file st f) with
  | Ok st => Ok (set_file st (fseek (ld_file st) (to_int (chunk_pos + chunk_size))))
  | Crash => Crash
  | OutOfFuel => OutOfFuel
  end.

Fixpoint read_chunks (zl : Zlib) (fuel : nat) (header : ASE_Header) (frame : Z)
    (chunks : nat) (st : LoadState) : result LoadState :=
  match chunks with
  | O => Ok st
  | S chunks' =>
      match read_chunk zl fuel header frame st with
      | Ok st => read_chunks zl fuel header frame chunks' st
      | Crash => Crash
      | OutOfFuel => OutOfFuel
      end
  end.

(** One turn of the frame loop, up to the seek to the end of the frame.
    The sum [frame_pos + frame_header.size] of an [int] and a
    [uint32_t] is an [unsigned int]. *)
Definition read_frame (zl : Zlib) (fuel : nat) (header : ASE_Header) (frame : Z)
    (st : LoadState) : result LoadState :=
  let frame_pos := to_int (ftell (ld_file st)) in
  let st := set_fop st (fop_progress (ld_fop st) frame_pos (h_size header)) in
  let '(frame_header, f) := ase_file_read_frame_header (ld_file st) in
  let st := set_file st f in
  let chunks_read :=
    if fh_magic frame_header =? ASE_FILE_FRAME_MAGIC then
      let st :=
        if 0 <? fh_duration frame_header
        then set_sprite st (setFrameDuration (ld_sprite st) frame (fh_duration frame_header))
        else st in
      read_chunks zl fuel header frame (Z.to_nat (fh_chunks frame_header)) st
    else Ok st in
  match chunks_read with
  | Ok st => Ok (set_file st (fseek (ld_file st) (to_uint32 (frame_pos + fh_size frame_header))))
  | Crash => Crash
  | OutOfFuel => OutOfFuel
  end.

(** The frame loop; [n] frames are left and [frame] is the next one. *)
Fixpoint load_frames (zl : Zlib) (fuel : nat) (header : ASE_Header) (n : nat)
    (frame : Z) (st : LoadState) : result LoadState :=
  match n with
  | O => Ok st
  | S n' =>
      match read_frame zl fuel header frame st with
      | Ok st =>
          if fop_oneframe (ld_fop st) then Ok st
          else if fop_is_stop (ld_fop st) frame then Ok st
          else load_frames zl fuel header n' (frame + 1) st
      | Crash => Crash
      | OutOfFuel => OutOfFuel
      end
  end.

Definition header_format (header : ASE_Header) : PixelFormat :=
  if h_depth header =? 32 then IMAGE_RGB
  else if h_depth header =? 16 then IMAGE_GRAYSCALE
  else IMAGE_INDEXED.

(** The sprite [onLoad] sets up from the header before the first frame
    is read. *)
Definition header_sprite (header : ASE_Header) : Sprite :=
  let sprite := new_Sprite (header_format header) (h_width header) (h_height header)
                  (h_ncolors header) in
  let sprite := setTotalFrames sprite (h_frames header) in
  let sprite := setDurationForAllFrames sprite (h_speed header) in
  setTransparentColor sprite (h_transparent_index header).

(** What [onLoad] hands back: its boolean, the file operation with the
    document, the progress and the error reports, and the state the
    load ended in, when a sprite was built. *)
Record Loaded : Type := mkLoaded {
  ret : bool;
  out_fop : FileOp;
  final : option LoadState
}.

(** [file] is the outcome of opening the file. *)
Definition onLoad (zl : Zlib) (fuel : nat) (file : option FILE) (fop : FileOp)
  : result Loaded :=
  match file with
  | None => Ok (mkLoaded false fop None)
  | Some f =>
      match ase_file_read_header f with
      | (None, f) => Ok (mkLoaded false (fop_error fop "Error reading header\n" []) None)
      | (Some header, f) =>
          let sprite := header_sprite header in
          match load_frames zl fuel header (Z.to_nat (getTotalFrames sprite)) 0
                  (mkLoad f fop sprite (getFolder sprite) (-1)) with
          | Ok st =>
              let fop := set_document (ld_fop st) (ld_sprite st) in
              if ferror (ld_file st)
              then Ok (mkLoaded false (fop_error fop "Error reading file.\n" []) (Some st))
              else Ok (mkLoaded true fop (Some st))
          | Crash => Crash
          | OutOfFuel => OutOfFuel
          end
      end
  end.

(** A newly opened stream. *)
Definition open_file (bytes : list Z) : FILE := mkFILE bytes 0 false.

(** ** Writing to a stream *)

(** The byte [b] stored at position [i]; a position past the end is
    reached over zero bytes. *)
Definition write_at (l : list Z) (i : nat) (b : Z) : list Z :=
  if decide (i < length l)%nat then <[i := b]> l
  else l ++ replicate (i - length l) 0 ++ [b].

Definition fputc (c : Z) (f : FILE) : FILE :=
  if cursor f <? 0 then f
  else mkFILE (write_at (contents f) (Z.to_nat (cursor f)) (to_uint8 c))
         (cursor f + 1) (ferror f).

(** Modelled from the spec: [fputw] and [fputl] of file/file.h, the
    little-endian 16 and 32 bit writes of the primitive codec. *)
Definition fputw (w : Z) (f : FILE) : FILE :=
  let f := fputc (Z.land w 0xff) f in
  fputc (Z.land (Z.shiftr w 8) 0xff) f.

Definition fputl (l : Z) (f : FILE) : FILE :=
  let f := fputc (Z.land l 0xff) f in
  let f := fputc (Z.land (Z.shiftr l 8) 0xff) f in
  let f := fputc (Z.land (Z.shiftr l 16) 0xff) f in
  fputc (Z.land (Z.shiftr l 24) 0xff) f.

(** [fwrite(buffer, 1, n, f)] of a buffer of [n] bytes. *)
Definition fwrite (bytes : list Z) (f : FILE) : FILE :=
  fold_left (fun f b => fputc b f) bytes f.

Fixpoint ase_file_write_padding (f : FILE) (bytes : nat) : FILE :=
  match bytes with
  | O => f
  | S n => ase_file_write_padding (fputc 0 f) n
  end.

Definition ase_file_write_string (f : FILE) (s : list Z) : FILE :=
  let f := fputw (Z.of_nat (length s)) f in
  fold_left (fun f c => fputc c f) s f.

Arguments fputc : simpl never.
Arguments fputw : simpl never.
Arguments fputl : simpl never.
Arguments fwrite : simpl never.
Arguments ase_file_write_padding : simpl never.
Arguments ase_file_write_string : simpl never.

(** Outcome of a piece of the writer: it can also end by a thrown
    [base::Exception], which [onSave] does not catch. *)
Inductive saved (A : Type) : Type :=
| Saved (a : A)
| SaveThrow (what : string) (args : list Z)
| SaveCrash
| SaveOutOfFuel.
Arguments Saved {A} a.
Arguments SaveThrow {A} what args.
Arguments SaveCrash {A}.
Arguments SaveOutOfFuel {A}.

Definition saved_bind {A B : Type} (m : saved A) (k : A -> saved B) : saved B :=
  match m with
  | Saved a => k a
  | SaveThrow what args => SaveThrow what args
  | SaveCrash => SaveCrash
  | SaveOutOfFuel => SaveOutOfFuel
  end.

Notation "'let*' x ':=' m 'in' k" := (saved_bind m (fun x => k))
  (at level 10, x pattern, m at level 100, k at level 200, only parsing).

(** What the writing routines share: the stream, the frame header of
    [onSave] that [current_frame_header] points to (or the null
    pointer), and the statics [chunk_type] and [chunk_start]. *)
Record SaveState : Type := mkSave {
  sv_file : FILE;
  sv_frame_header : ASE_FrameHeader;
  sv_current : bool;            (* current_frame_header != NULL *)
  sv_chunk_type : Z;
  sv_chunk_start : Z
}.

Definition sv_set_file (st : SaveState) (f : FILE) : SaveState :=
  mkSave f (sv_frame_header st) (sv_current st) (sv_chunk_type st) (sv_chunk_start st).

(** *** Headers *)

Definition format_depth (fmt : PixelFormat) : Z :=
  match fmt with
  | IMAGE_RGB => 32
  | IMAGE_GRAYSCALE => 16
  | IMAGE_INDEXED => 8
  end.

Definition ase_file_prepare_header (f : FILE) (sprite : Sprite)
  : saved (ASE_Header * FILE) :=
  match getPalette sprite 0 with
  | None => SaveCrash
  | Some pal =>
      let pos := ftell f in
      Saved (mkHeader pos 0 ASE_FILE_MAGIC (to_uint16 (getTotalFrames sprite))
               (to_uint16 (spr_width sprite)) (to_uint16 (spr_height sprite))
               (format_depth (getPixelFormat sprite)) 0
               (to_uint16 (default 0 (getFrameDuration sprite 0))) 0 0
               (to_uint8 (spr_transparent sprite)) (0, 0, 0)
               (to_uint16 (pal_size pal)),
             fseek f (pos + 128))
  end.

Definition ase_file_write_header (f : FILE) (header : ASE_Header) : FILE :=
  let size := to_uint32 (ftell f - h_pos header) in
  let f := fseek f (h_pos header) in
  let f := fputl size f in
  let f := fputw (h_magic header) f in
  let f := fputw (h_frames header) f in
  let f := fputw (h_width header) f in
  let f := fputw (h_height header) f in
  let f := fputw (h_depth header) f in
  let f := fputl (h_flags header) f in
  let f := fputw (h_speed header) f in
  let f := fputl (h_next header) f in
  let f := fputl (h_frit header) f in
  let f := fputc (h_transparent_index header) f in
  let '(i0, i1, i2) := h_ignore header in
  let f := fputc i0 f in
  let f := fputc i1 f in
  let f := fputc i2 f in
  let f := fputw (h_ncolors header) f in
  fseek f (h_pos header + size).

(** The field [size] of the frame header keeps the start of the frame
    until the header is written. *)
Definition ase_file_prepare_frame_header (st : SaveState) : SaveState :=
  let f := sv_file st in
  let pos := to_int (ftell f) in
  mkSave (fseek f (to_int (pos + 16)))
    (mkFrameHeader (to_uint32 pos) ASE_FILE_FRAME_MAGIC 0 0)
    true (sv_chunk_type st) (sv_chunk_start st).

Definition ase_file_write_frame_header (st : SaveState) : SaveState :=
  let f := sv_file st in
  let frame_header := sv_frame_header st in
  let pos := to_int (fh_size frame_header) in
  let end_ := to_int (ftell f) in
  let size := to_uint32 (end_ - pos) in
  let f := fseek f pos in
  let f := fputl size f in
  let f := fputw (fh_magic frame_header) f in
  let f := fputw (fh_chunks frame_header) f in
  let f := fputw (fh_duration frame_header) f in
  let f := ase_file_write_padding f 6 in
  let f := fseek f end_ in
  mkSave f
    (mkFrameHeader size (fh_magic frame_header) (fh_chunks frame_header)
       (fh_duration frame_header))
    false (sv_chunk_type st) (sv_chunk_start st).

Definition set_duration (st : SaveState) (duration : Z) : SaveState :=
  let fh := sv_frame_header st in
  mkSave (sv_file st)
    (mkFrameHeader (fh_size fh) (fh_magic fh) (fh_chunks fh) (to_uint16 duration))
    (sv_current st) (sv_chunk_type st) (sv_chunk_start st).

(** *** Chunk framing *)

Definition ase_file_write_start_chunk (type : Z) (st : SaveState) : saved SaveState :=
  if sv_current st then
    let fh := sv_frame_header st in
    let chunk_start := to_int (ftell (sv_file st)) in
    Saved (mkSave (fseek (sv_file st) (to_int (chunk_start + 6)))
             (mkFrameHeader (fh_size fh) (fh_magic fh) (to_uint16 (fh_chunks fh + 1))
                (fh_duration fh))
             true type chunk_start)
  else SaveCrash.

Definition ase_file_write_close_chunk (st : SaveState) : SaveState :=
  let f := sv_file st in
  let chunk_end := to_int (ftell f) in
  let chunk_size := to_int (chunk_end - sv_chunk_start st) in
  let f := fseek f (sv_chunk_start st) in
  let f := fputl chunk_size f in
  let f := fputw (sv_chunk_type st) f in
  sv_set_file st (fseek f chunk_end).

Arguments ase_file_write_close_chunk : simpl never.

(** *** Palette chunk *)

Definition put_rgb (f : FILE) (color : Z) : FILE :=
  let f := fputc (_rgba_getr color) f in
  let f := fputc (_rgba_getg color) f in
  fputc (_rgba_getb color) f.

Definition ase_file_write_color2_chunk (pal : Palette) (st : SaveState) : saved SaveState :=
  let* st := ase_file_write_start_chunk ASE_FILE_CHUNK_FLI_COLOR2 st in
  let f := sv_file st in
  let f := fputw 1 f in
  let f := fputc 0 f in
  let f := fputc (if pal_size pal =? 256 then 0 else pal_size pal) f in
  let f := fold_left put_rgb (pal_colors pal) f in
  Saved (ase_file_write_close_chunk (sv_set_file st f)).

(** *** Layer chunks *)

(** The loop that counts the parent links above a parent. *)
Fixpoint count_parents (parent : LayerPtr) (child_level : Z) : Z :=
  match parent with
  | [] => child_level + 1
  | _ :: up => count_parents up (child_level + 1)
  end.

Definition layer_child_level (p : LayerPtr) : Z :=
  match getParent p with
  | None => -1
  | Some parent => count_parents parent (-1)
  end.

(** Modelled from the spec: the blend mode of an image layer; the
    layers of this model keep the normal mode. *)
Definition getBlendMode (l : Layer) : Z := 0.

Definition ase_file_write_layer_chunk (l : Layer) (p : LayerPtr) (st : SaveState)
  : saved SaveState :=
  let* st := ase_file_write_start_chunk ASE_FILE_CHUNK_LAYER st in
  let f := sv_file st in
  let f := fputw (getFlags l) f in
  let f := fputw (if isImage l then 0 else if isFolder l then 1 else -1) f in
  let f := fputw (layer_child_level p) f in
  let f := fputw 0 f in
  let f := fputw 0 f in
  let f := fputw (if isImage l then getBlendMode l else 0) f in
  let f := ase_file_write_padding f 4 in
  let f := ase_file_write_string f (getName l) in
  Saved (ase_file_write_close_chunk (sv_set_file st f)).

Fixpoint ase_file_write_layers (l : Layer) (p : LayerPtr) (st : SaveState)
  : saved SaveState :=
  let* st := ase_file_write_layer_chunk l p st in
  match l with
  | LayerFolder _ _ ls =>
      (fix children (ls : list Layer) (i : nat) (st : SaveState) : saved SaveState :=
         match ls with
         | [] => Saved st
         | c :: ls' =>
             let* st := ase_file_write_layers c (i :: p) st in
             children ls' (S i) st
         end) ls 0%nat st
  | LayerImage _ _ _ => Saved st
  end.

(** *** Cel chunks *)

(** The pixels of row [y] of an image. *)
Definition image_row (im : Image) (y : Z) : list Z :=
  take (Z.to_nat (img_w im)) (drop (Z.to_nat (y * img_w im)) (img_pixels im)).

(** The loop [do ... while (zstream.avail_out == 0)] of one row. *)
Fixpoint deflate_drain (zl : Zlib) (fuel : nat) (zs : z_stream zl) (flush : Z)
    (f : FILE) : saved (z_stream zl * FILE) :=
  match fuel with
  | O => SaveOutOfFuel
  | S fuel' =>
      let '(err, out, zs) := deflate zl zs flush 4096 in
      let out := take 4096 out in
      if negb (zlib_error_ok err) then SaveThrow "ZLib error %d in deflate()." [err]
      else
        let output_bytes := Z.of_nat (length out) in
        let* f :=
          if 0 <? output_bytes then
            let f := fwrite out f in
            if ferror f then SaveThrow "Error writing compressed image pixels.\n" []
            else Saved f
          else Saved f in
        if 4096 - output_bytes =? 0
        then deflate_drain zl fuel' zs flush f
        else Saved (zs, f)
  end.

Fixpoint deflate_rows (zl : Zlib) (fuel : nat) (zs : z_stream zl) (image : Image)
    (n : nat) (y : Z) (f : FILE) : saved (z_stream zl * FILE) :=
  match n with
  | O => Saved (zs, f)
  | S n' =>
      let scanline := write_scanline (img_format image) (image_row image y) in
      let zs := z_set_input zl zs scanline in
      let flush := if y =? img_h image - 1 then Z_FINISH else Z_NO_FLUSH in
      let* (zs, f) := deflate_drain zl fuel zs flush f in
      deflate_rows zl fuel zs image n' (y + 1) f
  end.

Definition write_compressed_image (zl : Zlib) (fuel : nat) (f : FILE) (image : Image)
  : saved FILE :=
  let '(err, zs) := deflateInit zl in
  if negb (err =? Z_OK) then SaveThrow "ZLib error %d in deflateInit()." [err]
  else
    let* (zs, f) := deflate_rows zl fuel zs image (Z.to_nat (img_h image)) 0 f in
    let err := deflateEnd zl zs in
    if negb (err =? Z_OK) then SaveThrow "ZLib error %d in deflateEnd()." [err]
    else Saved f.

(** Modelled from the spec: [Sprite::layerToIndex], the number of the
    layer in the order of the layer chunks, see [indexToLayer]; -1 for
    a pointer to no layer of the sprite. *)
Fixpoint layer2index (l : Layer) (p : LayerPtr) (find_layer : LayerPtr) (count : Z)
  : option Z * Z :=
  if bool_decide (p = find_layer) then (Some count, count)
  else
    match l with
    | LayerFolder _ _ ls =>
        (fix children (ls : list Layer) (i : nat) (count : Z) : option Z * Z :=
           match ls with
           | [] => (None, count)
           | c :: ls' =>
               match layer2index c (i :: p) find_layer count with
               | (Some n, count') => (Some n, count')
               | (None, count') => children ls' (S i) count'
               end
           end) ls 0%nat (count + 1)
    | LayerImage _ _ _ => (None, count + 1)
    end.

Definition layerToIndex (s : Sprite) (layer : LayerPtr) : Z :=
  default (-1) (fst (layer2index (spr_folder s) [] layer (-1))).

(** [cel_type] is the constant [ASE_FILE_COMPRESSED_CEL]: of the
    [switch (cel_type)] only that case is ever taken. *)
Definition ase_file_write_cel_chunk (zl : Zlib) (fuel : nat) (cel : Cel)
    (layer : LayerPtr) (sprite : Sprite) (st : SaveState) : saved SaveState :=
  let layer_index := layerToIndex sprite layer in
  let cel_type := ASE_FILE_COMPRESSED_CEL in
  let* st := ase_file_write_start_chunk ASE_FILE_CHUNK_CEL st in
  let f := sv_file st in
  let f := fputw layer_index f in
  let f := fputw (cel_x cel) f in
  let f := fputw (cel_y cel) f in
  let f := fputc (cel_opacity cel) f in
  let f := fputw cel_type f in
  let f := ase_file_write_padding f 7 in
  let* f :=
    match getImage (spr_stock sprite) (cel_image cel) with
    | Some image =>
        let f := fputw (img_w image) f in
        let f := fputw (img_h image) f in
        write_compressed_image zl fuel f image
    | None =>
        let f := fputw 0 f in
        Saved (fputw 0 f)
    end in
  Saved (ase_file_write_close_chunk (sv_set_file st f)).

Fixpoint ase_file_write_cels (zl : Zlib) (fuel : nat) (sprite : Sprite) (l : Layer)
    (p : LayerPtr) (frame : Z) (st : SaveState) : saved SaveState :=
  let* st :=
    match l with
    | LayerImage _ _ _ =>
        match getCel l frame with
        | Some cel => ase_file_write_cel_chunk zl fuel cel p sprite st
        | None => Saved st
        end
    | LayerFolder _ _ _ => Saved st
    end in
  match l with
  | LayerFolder _ _ ls =>
      (fix children (ls : list Layer) (i : nat) (st : SaveState) : saved SaveState :=
         match ls with
         | [] => Saved st
         | c :: ls' =>
             let* st := ase_file_write_cels zl fuel sprite c (i :: p) frame st in
             children ls' (S i) st
         end) ls 0%nat st
  | LayerImage _ _ _ => Saved st
  end.

(** *** The save driver *)

(** The test of [onSave] for the palette chunk of a frame. *)
Definition palette_due (sprite : Sprite) (frame : Z) : saved bool :=
  match getPixelFormat sprite with
  | IMAGE_INDEXED =>
      if frame =? 0 then Saved true
      else
        match getPalette sprite (frame - 1), getPalette sprite frame with
        | Some prev, Some pal => Saved (0 <? countDiff prev pal)
        | _, _ => SaveCrash
        end
  | _ => Saved false
  end.

Fixpoint write_root_layers (ls : list Layer) (i : nat) (st : SaveState)
  : saved SaveState :=
  match ls with
  | [] => Saved st
  | l :: ls' =>
      let* st := ase_file_write_layers l [i] st in
      write_root_layers ls' (S i) st
  end.

(** One turn of the frame loop of [onSave]. *)
Definition save_frame (zl : Zlib) (fuel : nat) (sprite : Sprite) (frame : Z)
    (st : SaveState) (fop : FileOp) : saved (SaveState * FileOp) :=
  let st := ase_file_prepare_frame_header st in
  let st := set_duration st (default 0 (getFrameDuration sprite frame)) in
  let* due := palette_due sprite frame in
  let* st :=
    if due then
      match getPalette sprite frame with
      | Some pal => ase_file_write_color2_chunk pal st
      | None => SaveCrash
      end
    else Saved st in
  let* st :=
    if frame =? 0 then write_root_layers (getLayers (spr_folder sprite)) 0 st
    else Saved st in
  let* st := ase_file_write_cels zl fuel sprite (spr_folder sprite) [] frame st in
  let st := ase_file_write_frame_header st in
  let fop :=
    if 1 <? getTotalFrames sprite
    then fop_progress fop (frame + 1) (getTotalFrames sprite)
    else fop in
  Saved (st, fop).

Fixpoint save_frames (zl : Zlib) (fuel : nat) (sprite : Sprite) (n : nat) (frame : Z)
    (st : SaveState) (fop : FileOp) : saved (SaveState * FileOp) :=
  match n with
  | O => Saved (st, fop)
  | S n' =>
      let* (st, fop) := save_frame zl fuel sprite frame st fop in
      save_frames zl fuel sprite n' (frame + 1) st fop
  end.

(** [onSave] on a newly created file. *)
Definition onSave (zl : Zlib) (fuel : nat) (sprite : Sprite) (fop : FileOp)
  : saved (bool * FILE * FileOp) :=
  let f := open_file [] in
  let* (header, f) := ase_file_prepare_header f sprite in
  let st := mkSave f (mkFrameHeader 0 0 0 0) false 0 0 in
  let* (st, fop) :=
    save_frames zl fuel sprite (Z.to_nat (getTotalFrames sprite)) 0 st fop in
  let f := ase_file_write_header (sv_file st) header in
  if ferror f then Saved (false, f, fop_error fop "Error writing file.\n" [])
  else Saved (true, f, fop).

(** ** Building streams for examples *)

Definition le16 (z : Z) : list Z := [z mod 256; (z / 256) mod 256].
Definition le32 (z : Z) : list Z :=
  [z mod 256; (z / 256) mod 256; (z / 65536) mod 256; (z / 16777216) mod 256].
Definition zeros (n : nat) : list Z := replicate n 0.

Definition new_fop : FileOp := mkFileOp false (fun _ => false) [] [] None.

(** A document header of 128 bytes. *)
Definition header_bytes (size frames width height depth speed ncolors : Z) : list Z :=
  le32 size ++ le16 ASE_FILE_MAGIC ++ le16 frames ++ le16 width ++ le16 height
  ++ le16 depth ++ le32 0 ++ le16 speed ++ le32 0 ++ le32 0 ++ [0; 0; 0; 0]
  ++ le16 ncolors ++ zeros 94.

Definition frame_header_bytes (size chunks duration : Z) : list Z :=
  le32 size ++ le16 ASE_FILE_FRAME_MAGIC ++ le16 chunks ++ le16 duration ++ zeros 6.

Definition chunk_bytes (type : Z) (body : list Z) : list Z :=
  le32 (6 + Z.of_nat (length body)) ++ le16 type ++ body.

Definition layer_body (flags layer_type child_level : Z) (name : list Z) : list Z :=
  le16 flags ++ le16 layer_type ++ le16 child_level ++ le16 0 ++ le16 0 ++ le16 0
  ++ zeros 4 ++ le16 (Z.of_nat (length name)) ++ name.

Definition cel_header_bytes (layer_index x y opacity cel_type : Z) : list Z :=
  le16 layer_index ++ le16 x ++ le16 y ++ [opacity] ++ le16 cel_type ++ zeros 7.

(** A zlib that stores: the output of a session is its input. *)
Definition zlib_store : Zlib :=
  mkZlib (list Z) (Z_OK, []) (Z_OK, [])
    (fun _ input => input)
    (fun zs avail_out =>
       (if bool_decide (zs = []) then Z_BUF_ERROR else Z_OK,
        take (Z.to_nat avail_out) zs, drop (Z.to_nat avail_out) zs))
    (fun zs flush avail_out =>
       (if bool_decide (zs = []) then Z_BUF_ERROR else Z_OK,
        take (Z.to_nat avail_out) zs, drop (Z.to_nat avail_out) zs))
    (fun _ => Z_OK) (fun _ => Z_OK).


(** ** Vocabulary of the statements *)

(** The 16 bit little-endian word stored at an offset of a byte
    sequence, when both of its bytes are there. *)
Definition stored_u16 (bytes : list Z) (off : nat) : option Z :=
  match bytes !! off, bytes !! S off with
  | Some lo, Some hi => Some (to_uint8 lo + 256 * to_uint8 hi)
  | _, _ => None
  end.

(** The chunk type codes the driver has a handler for. *)
Definition known_chunk_type (t : Z) : bool :=
  (t =? ASE_FILE_CHUNK_FLI_COLOR) || (t =? ASE_FILE_CHUNK_FLI_COLOR2)
  || (t =? ASE_FILE_CHUNK_LAYER) || (t =? ASE_FILE_CHUNK_CEL)
  || (t =? ASE_FILE_CHUNK_MASK) || (t =? ASE_FILE_CHUNK_PATH).

(** A stream that does not start with the magic number of the format. *)
Definition not_ase_bytes : list Z := le32 134 ++ [0x47; 0x49; 0x46; 0x38; 0x39; 0x61].

(** Whether a layer index of a cel chunk names an image layer of the
    sprite. *)
Definition resolves_to_image_layer (sprite : Sprite) (index : Z) : bool :=
  match indexToLayer sprite index with
  | Some p =>
      match deref (spr_folder sprite) p with
      | Some l => isImage l
      | None => false
      end
  | None => false
  end.

Definition example_header : ASE_Header :=
  mkHeader 0 1000 ASE_FILE_MAGIC 2 4 4 8 0 100 0 0 0 (0, 0, 0) 256.

(** The state of the chunk loop at a position of a stream. *)
Definition load_state_at (bytes : list Z) (pos : Z) (sprite : Sprite)
    (last_layer : LayerPtr) (level : Z) : LoadState :=
  mkLoad (mkFILE bytes pos false) new_fop sprite last_layer level.

(** A frame with one chunk of a type code that is not in use. *)
Definition unknown_chunk_stream : list Z :=
  header_bytes 159 1 4 4 8 100 0
  ++ frame_header_bytes 31 1 0 ++ chunk_bytes 0x2018 [1; 2; 3; 4; 5; 6; 7; 8; 9].

Definition unknown_chunk_state : LoadState :=
  load_state_at unknown_chunk_stream 144 (header_sprite example_header) [] (-1).

(** A cel chunk for layer 3 of a sprite that has no layers. *)
Definition dangling_cel_stream : list Z :=
  header_bytes 170 1 4 4 8 100 0
  ++ frame_header_bytes 42 1 0
  ++ chunk_bytes ASE_FILE_CHUNK_CEL (cel_header_bytes 3 0 0 255 0 ++ le16 0 ++ le16 0).

Definition dangling_cel_state : LoadState :=
  load_state_at dangling_cel_stream 144 (header_sprite example_header) [] (-1).




(** Going up a number of parent links from a layer. *)
Fixpoint walk_up (n : nat) (p : LayerPtr) : option LayerPtr :=
  match n with
  | O => Some p
  | S n' => getParent p ≫= walk_up n'
  end.

(** Four layer chunks: group A at level 0, group B at level 1, image
    layer C at level 2, and image layer D back at level 0. *)
Definition nested_layers_stream : list Z :=
  header_bytes 244 1 4 4 8 100 0
  ++ frame_header_bytes 116 4 0
  ++ chunk_bytes ASE_FILE_CHUNK_LAYER (layer_body 0 1 0 [65])
  ++ chunk_bytes ASE_FILE_CHUNK_LAYER (layer_body 0 1 1 [66])
  ++ chunk_bytes ASE_FILE_CHUNK_LAYER (layer_body 0 0 2 [67])
  ++ chunk_bytes ASE_FILE_CHUNK_LAYER (layer_body 0 0 0 [68]).

Definition nested_layers_state : LoadState :=
  load_state_at nested_layers_stream 144 (header_sprite example_header) [] (-1).

(** The 32 bit little-endian length stored at the cursor, when its four
    bytes are there: the declared size of the chunk or frame that
    starts at the cursor. *)
Definition declared_length (f : FILE) : option Z :=
  match byte_at f (cursor f), byte_at f (cursor f + 1),
        byte_at f (cursor f + 2), byte_at f (cursor f + 3) with
  | Some b1, Some b2, Some b3, Some b4 =>
      Some (to_uint8 b1 + 256 * to_uint8 b2 + 65536 * to_uint8 b3
            + 16777216 * to_uint8 b4)
  | _, _, _, _ => None
  end.

(** A chunk without a handler whose declared size is 0x80000000. *)
Definition huge_chunk_stream : list Z :=
  header_bytes 159 1 4 4 8 100 0
  ++ frame_header_bytes 31 2 0
  ++ le32 0x80000000 ++ le16 0x2018 ++ [1; 2; 3; 4; 5; 6; 7; 8; 9].

Definition huge_chunk_state : LoadState :=
  load_state_at huge_chunk_stream 144 (header_sprite example_header) [] (-1).

(** The frame headers the frame loop reads, in the order of the frames
    it gets to. *)
Fixpoint frame_headers_read (zl : Zlib) (fuel : nat) (header : ASE_Header) (n : nat)
    (frame : Z) (st : LoadState) : list ASE_FrameHeader :=
  match n with
  | O => []
  | S n' =>
      fst (ase_file_read_frame_header (ld_file st))
      :: match read_frame zl fuel header frame st with
         | Ok st =>
             if fop_oneframe (ld_fop st) then []
             else if fop_is_stop (ld_fop st) frame then []
             else frame_headers_read zl fuel header n' (frame + 1) st
         | Crash | OutOfFuel => []
         end
  end.

(** The duration of a frame after a load, from the legacy speed field
    of the document header and the header of the frame, if the load got
    to it. *)
Definition loaded_duration (speed : Z) (fh : option ASE_FrameHeader) : Z :=
  match fh with
  | Some fh =>
      if (fh_magic fh =? ASE_FILE_FRAME_MAGIC) && (0 <? fh_duration fh)
      then fh_duration fh
      else speed
  | None => speed
  end.

(** The chunk handlers do not touch the frame count and the durations. *)
Definition same_timing (s s' : Sprite) : Prop :=
  spr_frames s' = spr_frames s /\ spr_frlen s' = spr_frlen s.

(** Two frames without chunks: the first stores the duration 0, the
    second the duration 250; the legacy speed of the document is 100. *)
Definition two_frames_stream : list Z :=
  header_bytes 160 2 4 4 8 100 0
  ++ frame_header_bytes 16 0 0 ++ frame_header_bytes 16 0 250.

(** [reads f f']: [f'] is [f] after some reads. *)
Definition reads (f f' : FILE) : Prop :=
  contents f' = contents f /\ ferror f' = ferror f /\ cursor f <= cursor f'.

(** *** Progress reports *)


(** Every element is related to the one after it. *)
Fixpoint chain {A : Type} (R : A -> A -> Prop) (l : list A) : Prop :=
  match l with
  | a :: (b :: _) as t => R a b /\ chain R t
  | _ => True
  end.




(** The invariant of the progress reports: the positions reported so
    far do not decrease, none of them is above [c], and all of them
    were reported against the same size. *)
Definition log_ok (den : Z) (log : list (Z * Z)) (c : Z) : Prop :=
  chain Z.le (map fst log) /\ Forall (fun p => fst p <= c /\ snd p = den) log.

(** A piece of the loader that only reads on from [f] and reports
    positions it has reached. *)
Definition step_ok (den : Z) (f : FILE) (fop : FileOp) (f' : FILE) (fop' : FileOp) : Prop :=
  reads f f'
  /\ (log_ok den (fop_progress_log fop) (cursor f) ->
      log_ok den (fop_progress_log fop') (cursor f')).

(** *** Palette packets *)

(** The stream after the cursor. *)
Definition stream_from (f : FILE) : list Z :=
  if cursor f <? 0 then [] else drop (Z.to_nat (cursor f)) (contents f).

Definition advance (f : FILE) (n : Z) : FILE :=
  mkFILE (contents f) (cursor f + n) (ferror f).

(** A packet of a palette chunk as the format describes it: the skip
    count byte, the size byte, and the colour triples. *)
Record Packet : Type := mkPacket {
  pk_skip : Z;
  pk_size : Z;
  pk_colors : list (Z * Z * Z)
}.

(** The number of entries of a packet: a size byte of 0 means 256. *)
Definition packet_count (p : Packet) : Z :=
  if pk_size p =? 0 then 256 else pk_size p.

Definition triple_bytes (c : Z * Z * Z) : list Z :=
  let '(r, g, b) := c in [r; g; b].

Definition packet_bytes (p : Packet) : list Z :=
  [pk_skip p; pk_size p] ++ flat_map triple_bytes (pk_colors p).

Definition is_byte (b : Z) : Prop := 0 <= b < 256.

Definition triple_wf (c : Z * Z * Z) : Prop :=
  let '(r, g, b) := c in is_byte r /\ is_byte g /\ is_byte b.

Definition packet_wf (p : Packet) : Prop :=
  is_byte (pk_skip p) /\ is_byte (pk_size p)
  /\ Z.of_nat (length (pk_colors p)) = packet_count p
  /\ Forall triple_wf (pk_colors p).

(** The decoding of the packets as the format describes it: a running
    index that starts at 0 is advanced by the skip count of each
    packet, and the entries of the packet are written from that index
    on, as opaque colours. *)
Fixpoint write_entries (index : nat) (colors : list (Z * Z * Z)) (entries : list Z)
  : list Z :=
  match colors with
  | [] => entries
  | (r, g, b) :: colors' =>
      write_entries (S index) colors' (<[index := _rgba r g b 255]> entries)
  end.

Fixpoint decode_packets (packets : list Packet) (index : Z) (entries : list Z)
  : list Z :=
  match packets with
  | [] => entries
  | p :: packets' =>
      let index := index + pk_skip p in
      decode_packets packets' index (write_entries (Z.to_nat index) (pk_colors p) entries)
  end.

Definition packets_length (packets : list Packet) : Z :=
  Z.of_nat (length (flat_map packet_bytes packets)).

Definition opaque_color (c : Z * Z * Z) : Z :=
  let '(r, g, b) := c in _rgba r g b 255.

(** Every packet stays inside a palette of [size] entries. *)
Fixpoint packets_fit (packets : list Packet) (index size : Z) : Prop :=
  match packets with
  | [] => True
  | p :: packets' =>
      index + pk_skip p + packet_count p <= size
      /\ packets_fit packets' (index + pk_skip p) size
  end.

(** A sprite with a palette of four entries, and a palette chunk body
    of two packets: one entry at index 1, then, two further on, one
    entry at index 3. *)
Definition small_palette_sprite : Sprite :=
  mkSprite IMAGE_INDEXED 4 4 0 1 [100]
    [mkPalette 0 (replicate 4 (_rgba 0 0 0 255))]
    new_LayerFolder new_Stock.

Definition two_packets : list Packet :=
  [mkPacket 1 1 [(10, 20, 30)]; mkPacket 2 1 [(40, 50, 60)]].

Definition two_packets_file : FILE :=
  open_file (le16 2 ++ flat_map packet_bytes two_packets).

(** *** What a stream holds after writing *)

Definition file_length (f : FILE) : Z := Z.of_nat (length (contents f)).

(** The bytes [bytes] are in the file from position [p] on. *)
Definition holds (f : FILE) (p : Z) (bytes : list Z) : Prop :=
  0 <= p
  /\ forall k b, bytes !! k = Some b -> contents f !! (Z.to_nat p + k)%nat = Some b.

(** [wrote f f' bytes]: [f'] is [f] after [bytes] were put one after
    the other from the cursor of [f] on; the bytes of [f] before and
    after them are kept, and the file has grown as far as needed. *)
Definition wrote (f f' : FILE) (bytes : list Z) : Prop :=
  0 <= cursor f
  /\ cursor f' = cursor f + Z.of_nat (length bytes)
  /\ ferror f' = ferror f
  /\ holds f' (cursor f) bytes
  /\ (forall q b, q < cursor f \/ cursor f' <= q ->
                  byte_at f q = Some b -> byte_at f' q = Some b)
  /\ file_length f <= file_length f'
  /\ file_length f' <= Z.max (file_length f) (cursor f')
  /\ (bytes <> [] -> cursor f' <= file_length f').

(** The two and four bytes [fputw] and [fputl] put. *)
Definition word_bytes (w : Z) : list Z :=
  [to_uint8 (Z.land w 0xff); to_uint8 (Z.land (Z.shiftr w 8) 0xff)].

Definition long_bytes (l : Z) : list Z :=
  [to_uint8 (Z.land l 0xff); to_uint8 (Z.land (Z.shiftr l 8) 0xff);
   to_uint8 (Z.land (Z.shiftr l 16) 0xff); to_uint8 (Z.land (Z.shiftr l 24) 0xff)].

(** *** What the writer emits *)

(** The chunks of a frame: type code and body each. *)
Definition chunks_bytes (cs : list (Z * list Z)) : list Z :=
  flat_map (fun c => chunk_bytes (fst c) (snd c)) cs.

(** A frame as it lies in the file: its header, with the size of the
    whole frame and the chunk count as a [uint16_t], and its chunks. *)
Definition frame_bytes (fr : Z * list (Z * list Z)) : list Z :=
  let '(duration, cs) := fr in
  frame_header_bytes (16 + Z.of_nat (length (chunks_bytes cs)))
    (to_uint16 (Z.of_nat (length cs))) duration
  ++ chunks_bytes cs.

(** The colour triple that is written for a palette entry. *)
Definition rgb_of (color : Z) : Z * Z * Z :=
  (_rgba_getr color, _rgba_getg color, _rgba_getb color).

(** The one packet that covers a palette: skip count 0, the size of the
    palette as the size byte (0 for 256), and every entry. *)
Definition whole_palette_packet (pal : Palette) : Packet :=
  mkPacket 0 (to_uint8 (if pal_size pal =? 256 then 0 else pal_size pal))
    (map rgb_of (pal_colors pal)).

(** The body of a palette chunk with that packet alone. *)
Definition color2_body (pal : Palette) : list Z :=
  le16 1 ++ packet_bytes (whole_palette_packet pal).

(** The stream only got longer, and its cursor is a position. *)
Definition grew (f f' : FILE) : Prop :=
  0 <= cursor f' /\ file_length f <= file_length f'.

(** The writer is inside a frame, at a position from which it goes on
    writing: at the end of the file or in the room left for headers. *)
Definition ready (st : SaveState) : Prop :=
  sv_current st = true
  /\ 0 <= cursor (sv_file st)
  /\ file_length (sv_file st) <= cursor (sv_file st)
  /\ cursor (sv_file st) <= file_length (sv_file st) + 144
  /\ 0 <= fh_chunks (sv_frame_header st) < 65536.

(** Every offset of the file is an [int], with room for the headers
    that are left out and written last. *)
Definition fits (f : FILE) : Prop := file_length f + 160 <= INT_MAX.

(** The chunks [cs] were written one after the other and counted in
    the frame header. *)
Definition emitted (st st' : SaveState) (cs : list (Z * list Z)) : Prop :=
  wrote (sv_file st) (sv_file st') (chunks_bytes cs)
  /\ sv_current st' = true
  /\ fh_size (sv_frame_header st') = fh_size (sv_frame_header st)
  /\ fh_magic (sv_frame_header st') = fh_magic (sv_frame_header st)
  /\ fh_duration (sv_frame_header st') = fh_duration (sv_frame_header st)
  /\ fh_chunks (sv_frame_header st')
     = to_uint16 (fh_chunks (sv_frame_header st) + Z.of_nat (length cs))
  /\ (cs <> [] -> cursor (sv_file st') = file_length (sv_file st')).

(** A piece of the writer that emits chunks whose type codes are all
    in [P]. *)
Definition emitter (W : SaveState -> saved SaveState) (P : Z -> Prop) : Prop :=
  forall st st',
    W st = Saved st' ->
    0 <= cursor (sv_file st) ->
    grew (sv_file st) (sv_file st')
    /\ (ready st -> fits (sv_file st') ->
        exists cs, emitted st st' cs /\ Forall (fun c => P (fst c)) cs).

(** *** The palette chunks of a saved sprite *)

(** The palette of frame [f] is not the one of the frame before it:
    [f] is the first frame, or the entries of the two palettes differ. *)
Definition palette_changes_at (sprite : Sprite) (f : Z) : Prop :=
  f = 0
  \/ exists prev pal,
       getPalette sprite (f - 1) = Some prev
       /\ getPalette sprite f = Some pal
       /\ pal_colors prev <> pal_colors pal.

(** A chunk of one of the two palette kinds. *)
Definition is_palette_chunk (c : Z * list Z) : Prop :=
  fst c = ASE_FILE_CHUNK_FLI_COLOR2 \/ fst c = ASE_FILE_CHUNK_FLI_COLOR.

(** The chunks [cs] of frame [f]: where the palette changes, a first
    chunk of the direct-value kind that holds the one packet of the
    palette of the frame, and no palette chunk after it; no palette
    chunk at all where the palette stays. *)
Definition frame_chunks_ok (sprite : Sprite) (f : Z) (cs : list (Z * list Z)) : Prop :=
  exists rest,
    Forall (fun c => ~ is_palette_chunk c) rest
    /\ ((palette_changes_at sprite f
         /\ exists pal, getPalette sprite f = Some pal
              /\ cs = (ASE_FILE_CHUNK_FLI_COLOR2, color2_body pal) :: rest)
        \/ (~ palette_changes_at sprite f /\ cs = rest)).

(** The writer is between two frames: at the end of the file, or, with
    nothing written yet, behind the room of the document header. *)
Definition between_frames (f : FILE) : Prop :=
  0 <= cursor f /\ file_length f <= cursor f <= file_length f + 128.

(** An indexed sprite of three frames with one layer; its palette
    changes at frame 2. *)
Definition three_frames_sprite : Sprite :=
  mkSprite IMAGE_INDEXED 4 4 0 3 [100; 100; 100]
    [mkPalette 0 [_rgba 0 0 0 255; _rgba 255 255 255 255];
     mkPalette 2 [_rgba 0 0 0 255; _rgba 255 0 0 255]]
    (LayerFolder 0 [] [LayerImage 1 [76; 49] []]) new_Stock.

(** *** Raw images, written

    [write_pixel] of the three [PixelIO] classes and [write_raw_image];
    the class is the one of the pixel format of the image. *)
Definition write_pixel (fmt : PixelFormat) (f : FILE) (c : Z) : FILE :=
  match fmt with
  | IMAGE_RGB =>
      let f := fputc (_rgba_getr c) f in
      let f := fputc (_rgba_getg c) f in
      let f := fputc (_rgba_getb c) f in
      fputc (_rgba_geta c) f
  | IMAGE_GRAYSCALE =>
      let f := fputc (_graya_getv c) f in
      fputc (_graya_geta c) f
  | IMAGE_INDEXED => fputc c f
  end.

Fixpoint write_raw_row (n : nat) (x y : Z) (f : FILE) (image : Image) : FILE :=
  match n with
  | O => f
  | S n' =>
      write_raw_row n' (x + 1) y
        (write_pixel (img_format image) f (image_getpixel_fast image x y)) image
  end.

Fixpoint write_raw_rows (n : nat) (y : Z) (f : FILE) (image : Image) : FILE :=
  match n with
  | O => f
  | S n' =>
      write_raw_rows n' (y + 1)
        (write_raw_row (Z.to_nat (img_w image)) 0 y f image) image
  end.

Definition write_raw_image (f : FILE) (image : Image) : FILE :=
  write_raw_rows (Z.to_nat (img_h image)) 0 f image.

(** *** Round trips *)

(** A colour with its alpha component replaced by 255. *)
Definition with_full_alpha (c : Z) : Z :=
  _rgba (_rgba_getr c) (_rgba_getg c) (_rgba_getb c) 255.

(** The values a pixel of each format can hold. *)
Definition pixel_in_range (fmt : PixelFormat) (c : Z) : Prop :=
  match fmt with
  | IMAGE_RGB => 0 <= c < 2 ^ 32
  | IMAGE_GRAYSCALE => 0 <= c < 2 ^ 16
  | IMAGE_INDEXED => 0 <= c < 2 ^ 8
  end.

(** The writer inside the first frame of a new file, behind the room
    of the two headers. *)
Definition first_frame_state : SaveState :=
  mkSave (mkFILE [] 144 false) (mkFrameHeader 128 ASE_FILE_FRAME_MAGIC 0 100) true 0 0.

Definition two_colors : Palette :=
  mkPalette 0 [_rgba 10 20 30 255; _rgba 255 0 0 255].

(** The entry of the scaling table for a component. *)
Definition scaled_6 (r : Z) : Z := default 0 (_rgb_scale_6 !! Z.to_nat r).

Definition scale_triple (c : Z * Z * Z) : Z * Z * Z :=
  let '(r, g, b) := c in (scaled_6 r, scaled_6 g, scaled_6 b).

(** A packet with every component replaced by its table entry. *)
Definition scale_packet (p : Packet) : Packet :=
  mkPacket (pk_skip p) (pk_size p) (map scale_triple (pk_colors p)).

(** The components of a triple are 6 bit values. *)
Definition six_bit (c : Z * Z * Z) : Prop :=
  let '(r, g, b) := c in 0 <= r < 64 /\ 0 <= g < 64 /\ 0 <= b < 64.

(** What the document header alone decides about a sprite: its pixel
    format, its size, its transparent index and its number of frames. *)
Definition same_canvas (s s' : Sprite) : Prop :=
  spr_format s' = spr_format s /\ spr_width s' = spr_width s
  /\ spr_height s' = spr_height s /\ spr_transparent s' = spr_transparent s
  /\ spr_frames s' = spr_frames s.

(** The body of the layer chunk of a layer: flags, kind, child level,
    the default width and height, the blend mode, four bytes of
    padding, and the name behind its length. *)
Definition layer_chunk_body (l : Layer) (p : LayerPtr) : list Z :=
  word_bytes (getFlags l)
  ++ word_bytes (if isImage l then 0 else if isFolder l then 1 else -1)
  ++ word_bytes (layer_child_level p)
  ++ word_bytes 0 ++ word_bytes 0
  ++ word_bytes (if isImage l then getBlendMode l else 0)
  ++ replicate 4 0
  ++ word_bytes (Z.of_nat (length (getName l))) ++ map to_uint8 (getName l).

(** What a layer chunk hands on of a layer: its kind, its flags as a
    16 bit value and its name up to the first zero character; cels and
    children are not part of the chunk. *)
Definition chunk_layer (l : Layer) : Layer :=
  setName
    (setFlags (if isImage l then new_LayerImage else new_LayerFolder)
       (to_uint16 (getFlags l)))
    (c_str (map to_uint8 (getName l))).

(** The fixed fields at the start of the body of a cel chunk. *)
Definition cel_chunk_head (layer_index : Z) (cel : Cel) : list Z :=
  word_bytes layer_index ++ word_bytes (cel_x cel) ++ word_bytes (cel_y cel)
  ++ [to_uint8 (cel_opacity cel)] ++ word_bytes ASE_FILE_COMPRESSED_CEL
  ++ replicate 7 0.

(** The options of a file operation, which the codec reads and the
    document it is given; progress and error reports are left out. *)
Definition same_options (fop fop' : FileOp) : Prop :=
  fop_oneframe fop' = fop_oneframe fop /\ fop_stop fop' = fop_stop fop
  /\ fop_document fop' = fop_document fop.

(** The frame header that stands in front of a written frame. *)
Definition frame_header_of (fr : Z * list (Z * list Z)) : ASE_FrameHeader :=
  mkFrameHeader (16 + Z.of_nat (length (chunks_bytes (snd fr)))) ASE_FILE_FRAME_MAGIC
    (to_uint16 (Z.of_nat (length (snd fr)))) (fst fr).

(** The duration of frame [i] as a frame header stores it. *)
Definition stored_duration (sprite : Sprite) (i : nat) : Z :=
  to_uint16 (default 0 (getFrameDuration sprite (Z.of_nat i))).

(** An indexed sprite of three frames whose second frame has the
    duration 0. *)
Definition zero_duration_sprite : Sprite :=
  mkSprite IMAGE_INDEXED 4 4 0 3 [120; 0; 250]
    [mkPalette 0 [_rgba 0 0 0 255; _rgba 255 255 255 255]]
    (LayerFolder 0 [] [LayerImage 1 [76; 49] []]) new_Stock.

(** An RGB sprite of two frames with one layer. *)
Definition two_frames_rgb_sprite : Sprite :=
  mkSprite IMAGE_RGB 2 2 0 2 [100; 100]
    [mkPalette 0 [_rgba 0 0 0 255; _rgba 255 255 255 255]]
    (LayerFolder 0 [] [LayerImage 1 [65] []]) new_Stock.

(** The layers of the tree under [l], each with its pointer: a folder
    comes before its children, and the children come in their order. *)
Fixpoint layers_preorder (l : Layer) (p : LayerPtr) : list (Layer * LayerPtr) :=
  (l, p)
  :: match l with
     | LayerFolder _ _ ls =>
         (fix children (ls : list Layer) (i : nat) : list (Layer * LayerPtr) :=
            match ls with
            | [] => []
            | c :: ls' => layers_preorder c (i :: p) ++ children ls' (S i)
            end) ls 0%nat
     | LayerImage _ _ _ => []
     end.

(** The layer chunk of the layer at a pointer. *)
Definition layer_chunk (lp : Layer * LayerPtr) : Z * list Z :=
  (ASE_FILE_CHUNK_LAYER, layer_chunk_body (fst lp) (snd lp)).

(** A piece of the writer that emits the chunks [cs], whatever state it
    starts from. *)
Definition emits (W : SaveState -> saved SaveState) (cs : list (Z * list Z)) : Prop :=
  forall st st',
    W st = Saved st' ->
    0 <= cursor (sv_file st) ->
    grew (sv_file st) (sv_file st')
    /\ (ready st -> fits (sv_file st') -> emitted st st' cs).

(** A tree of layers: a folder with two image layers and a folder of
    one image layer, at the first place under the root. *)
Definition nested_layers : Layer :=
  LayerFolder 1 [71]
    [LayerImage 3 [97] []; LayerFolder 1 [72] [LayerImage 3 [98] []];
     LayerImage 1 [99] []].

(** The pixel format is kept and, unless it is the indexed one, so are
    the palettes. *)
Definition same_palettes (s s' : Sprite) : Prop :=
  spr_format s' = spr_format s
  /\ (spr_format s <> IMAGE_INDEXED -> spr_palettes s' = spr_palettes s).

(** An RGB file of one frame whose only chunk is a palette chunk of one
    red entry. *)
Definition rgb_palette_stream : list Z :=
  header_bytes 157 1 4 4 32 100 2
  ++ frame_header_bytes 29 1 0
  ++ chunk_bytes ASE_FILE_CHUNK_FLI_COLOR2 (le16 1 ++ [0; 1; 255; 0; 0]).

(** A layer without its cels or children: its kind, its flags and its
    name. *)
Definition without_cels (l : Layer) : Layer :=
  match l with
  | LayerImage fl n _ => LayerImage fl n []
  | LayerFolder fl n _ => LayerFolder fl n []
  end.

(** The layers directly under the root folder of a sprite, each
    without its cels or children. *)
Definition top_layers (s : Sprite) : list Layer :=
  map without_cels (getLayers (spr_folder s)).

(** The state of the chunk loop when the header of a frame was read:
    the position was reported, the stream is sixteen bytes further, and
    a duration above 0 was taken over. *)
Definition in_frame (header : ASE_Header) (frame d : Z) (st : LoadState) : LoadState :=
  let st1 :=
    mkLoad (advance (ld_file st) 16)
      (fop_progress (ld_fop st) (cursor (ld_file st)) (h_size header))
      (ld_sprite st) (ld_last_layer st) (ld_current_level st) in
  if 0 <? d then set_sprite st1 (setFrameDuration (ld_sprite st) frame d) else st1.

(** The layer chunks of layers that lie directly under the root folder,
    the first of them at place [i]. *)
Fixpoint root_layer_chunks (ls : list Layer) (i : nat) : list (Z * list Z) :=
  match ls with
  | [] => []
  | l :: ls' => layer_chunk (l, [i]) :: root_layer_chunks ls' (S i)
  end.

(** The state of the chunk loop when a chunk header was read at
    [chunk_pos]: the position was reported and the stream is six bytes
    further. *)
Definition in_chunk (header : ASE_Header) (st : LoadState) : LoadState :=
  mkLoad (advance (ld_file st) 6)
    (fop_progress (ld_fop st) (cursor (ld_file st)) (h_size header))
    (ld_sprite st) (ld_last_layer st) (ld_current_level st).

(** A piece of the writer that emits chunks of which [Q] holds. *)
Definition emits_in (W : SaveState -> saved SaveState)
    (Q : list (Z * list Z) -> Prop) : Prop :=
  forall st st',
    W st = Saved st' ->
    0 <= cursor (sv_file st) ->
    grew (sv_file st) (sv_file st')
    /\ (ready st -> fits (sv_file st') -> exists cs, emitted st st' cs /\ Q cs).

(** The chunk writes of a frame behind its palette chunk: the layers,
    in the first frame, and the cels of the frame. *)
Definition write_frame_body (zl : Zlib) (fuel : nat) (sprite : Sprite) (frame : Z)
    (st : SaveState) : saved SaveState :=
  saved_bind
    (if frame =? 0 then write_root_layers (getLayers (spr_folder sprite)) 0 st
     else Saved st)
    (fun st => ase_file_write_cels zl fuel sprite (spr_folder sprite) [] frame st).

(** The chunks of a frame: at most one palette chunk, of the
    direct-value kind, and behind it chunks of which [Q] holds. *)
Definition frame_layout (Q : list (Z * list Z) -> Prop) (cs : list (Z * list Z))
  : Prop :=
  exists cs1 cs2,
    cs = cs1 ++ cs2
    /\ (cs1 = [] \/ exists body, cs1 = [(ASE_FILE_CHUNK_FLI_COLOR2, body)])
    /\ Q cs2.

(** At most [n] chunks, all of them cel chunks. *)
Definition cels_upto (n : nat) (cs : list (Z * list Z)) : Prop :=
  Forall (fun c => fst c = ASE_FILE_CHUNK_CEL) cs /\ (length cs <= n)%nat.

(** The chunks behind the palette chunk in a frame of a sprite whose
    layers all lie directly under the root folder: in the first frame
    the layer chunks, one for a layer, and then at most one cel chunk
    for a layer. *)
Definition flat_body (layers : list Layer) (frame : Z) (cs : list (Z * list Z))
  : Prop :=
  exists cels,
    cs = (if frame =? 0 then root_layer_chunks layers 0 else []) ++ cels
    /\ cels_upto (length layers) cels.

(** An indexed sprite of two frames whose layers all lie directly under
    the root folder: an image layer with a cel at frame 0, flags above
    16 bits and a zero character in its name, an empty folder, and an
    image layer with a cel at frame 1. *)
Definition flat_layers_sprite : Sprite :=
  mkSprite IMAGE_INDEXED 2 1 0 2 [100; 100]
    [mkPalette 0 [_rgba 0 0 0 255; _rgba 255 255 255 255]]
    (LayerFolder 0 []
       [LayerImage 65537 [66; 71; 0; 33] [mkCel 0 1 0 0 255];
        LayerFolder 1 [70] [];
        LayerImage 2 [84] [mkCel 1 1 1 0 128]])
    [None; Some (mkImage IMAGE_INDEXED 2 1 [0; 1])].

(** *** Reports that do not go back *)









(** *** A saved file read as frames *)

(** [frames] is the file from offset 128 on, read as [n] frames of
    chunks: the bytes of the frames lie there one frame after the
    other, and the duration of every frame and the type code of every
    chunk are the 16 bit values that the file stores. *)
Definition saved_frames (out : FILE) (n : nat)
    (frames : list (Z * list (Z * list Z))) : Prop :=
  length frames = n
  /\ holds out 128 (flat_map frame_bytes frames)
  /\ Forall (fun fr => 0 <= fst fr < 65536
                       /\ Forall (fun c => 0 <= fst c < 65536) (snd fr)) frames.

(** Layer chunks and cel chunks only. *)
Definition layers_and_cels (cs : list (Z * list Z)) : Prop :=
  Forall (fun c => fst c = ASE_FILE_CHUNK_LAYER \/ fst c = ASE_FILE_CHUNK_CEL) cs.

(** The chunks of a frame as [onSave] writes them: where its test for
    the palette chunk holds, a first chunk of the direct-value kind
    with the one packet of the palette of the frame; then chunks of
    which [Q] holds. *)
Definition frame_parts (sprite : Sprite) (frame : Z)
    (Q : list (Z * list Z) -> Prop) (cs : list (Z * list Z)) : Prop :=
  exists due cs2,
    palette_due sprite frame = Saved due
    /\ Q cs2
    /\ if due : bool
       then exists pal,
              getPalette sprite frame = Some pal
              /\ cs = (ASE_FILE_CHUNK_FLI_COLOR2, color2_body pal) :: cs2
       else cs = cs2.

(** ** Proof automation *)

(** Case analysis on everything the outcome in [H] is computed from. *)
Ltac break_result H :=
  repeat match type of H with
         | context [match ?x with _ => _ end] => destruct x eqn:?; try discriminate
         | context [if ?x then _ else _] => destruct x eqn:?; try discriminate
         end.
(** * Properties *)

(** ** Scalars and bytes *)

Lemma to_uint8_range z : 0 <= to_uint8 z < 256.
Proof. unfold to_uint8. change (2 ^ 8) with 256. apply Z.mod_pos_bound. lia. Qed.

Lemma to_uint8_small z : 0 <= z < 256 -> to_uint8 z = z.
Proof. intros H. unfold to_uint8. change (2 ^ 8) with 256. apply Z.mod_small. lia. Qed.

Lemma to_uint8_idem z : to_uint8 (to_uint8 z) = to_uint8 z.
Proof. apply to_uint8_small, to_uint8_range. Qed.

Lemma to_uint8_not_EOF z : (to_uint8 z =? EOF) = false.
Proof. pose proof (to_uint8_range z). unfold EOF. apply Z.eqb_neq. lia. Qed.

Lemma to_int_small z : - 2 ^ 31 <= z <= INT_MAX -> to_int z = z.
Proof.
  unfold to_int, INT_MAX. intros H.
  rewrite Z.mod_small by lia. lia.
Qed.

(** A value put above [n] low bits: the bitwise or is a sum. *)
Lemma lor_shiftl_low hi lo n :
  0 <= n -> 0 <= lo < 2 ^ n -> Z.lor (Z.shiftl hi n) lo = hi * 2 ^ n + lo.
Proof.
  intros Hn Hlo.
  rewrite Z.shiftl_mul_pow2 by lia.
  rewrite <- Z.lxor_lor, <- Z.add_nocarry_lxor; try reflexivity.
  all: apply Z.bits_inj'; intros k Hk; rewrite Z.land_spec, Z.bits_0.
  all: destruct (Z.lt_ge_cases k n) as [Hlt | Hge].
  all: try (rewrite Z.mul_pow2_bits_low by lia; reflexivity).
  all: destruct (Z.eq_dec lo 0) as [-> | Hnz];
    [ rewrite Z.bits_0; apply andb_false_r | ].
  all: rewrite (Z.bits_above_log2 lo k); [ apply andb_false_r | lia | ].
  all: apply Z.log2_lt_pow2; [ lia | ].
  all: apply Z.lt_le_trans with (2 ^ n); [ lia | ].
  all: apply Z.pow_le_mono_r; lia.
Qed.

Lemma word_of_bytes b1 b2 :
  0 <= b1 < 256 -> 0 <= b2 < 256 ->
  Z.lor (Z.shiftl b2 8) b1 = b1 + 256 * b2.
Proof.
  intros H1 H2. rewrite lor_shiftl_low by (change (2 ^ 8) with 256; lia).
  change (2 ^ 8) with 256. lia.
Qed.

Lemma long_of_bytes b1 b2 b3 b4 :
  0 <= b1 < 256 -> 0 <= b2 < 256 -> 0 <= b3 < 256 -> 0 <= b4 < 256 ->
  Z.lor (Z.shiftl b4 24) (Z.lor (Z.shiftl b3 16) (Z.lor (Z.shiftl b2 8) b1))
  = b1 + 256 * b2 + 65536 * b3 + 16777216 * b4.
Proof.
  intros H1 H2 H3 H4.
  rewrite (word_of_bytes b1 b2) by lia.
  rewrite (lor_shiftl_low b3) by (change (2 ^ 16) with 65536; lia).
  rewrite (lor_shiftl_low b4) by (change (2 ^ 24) with 16777216; lia).
  change (2 ^ 16) with 65536. change (2 ^ 24) with 16777216. lia.
Qed.

(** ** Reading moves the cursor forward and nothing else *)

Lemma fgetc_some f b :
  byte_at f (cursor f) = Some b ->
  fgetc f = (to_uint8 b, mkFILE (contents f) (cursor f + 1) (ferror f)).
Proof. unfold fgetc. intros ->. reflexivity. Qed.

Lemma fgetc_none f : byte_at f (cursor f) = None -> fgetc f = (EOF, f).
Proof. unfold fgetc. intros ->. reflexivity. Qed.

Lemma fgetc_value f : fst (fgetc f) = EOF \/ 0 <= fst (fgetc f) < 256.
Proof.
  unfold fgetc. destruct (byte_at f (cursor f)); simpl.
  - right. apply to_uint8_range.
  - left. reflexivity.
Qed.

Lemma reads_refl f : reads f f.
Proof. unfold reads. auto with zarith. Qed.

Lemma reads_trans f g h : reads f g -> reads g h -> reads f h.
Proof. unfold reads. intros (? & ? & ?) (? & ? & ?). repeat split; try congruence; lia. Qed.

Lemma fgetc_reads f : reads f (snd (fgetc f)).
Proof.
  unfold fgetc. destruct (byte_at f (cursor f)); simpl; unfold reads; simpl;
    auto with zarith.
Qed.

Lemma fgetw_reads f : reads f (snd (fgetw f)).
Proof.
  unfold fgetw.
  pose proof (fgetc_reads f) as H1. destruct (fgetc f) as [b1 f1]; simpl in H1.
  destruct (b1 =? EOF); [ exact H1 | ].
  pose proof (fgetc_reads f1) as H2. destruct (fgetc f1) as [b2 f2]; simpl in H2.
  destruct (b2 =? EOF); simpl; eapply reads_trans; eauto.
Qed.

Lemma fgetl_reads f : reads f (snd (fgetl f)).
Proof.
  unfold fgetl.
  pose proof (fgetc_reads f) as H1. destruct (fgetc f) as [b1 f1]; simpl in H1.
  destruct (b1 =? EOF); [ exact H1 | ].
  pose proof (fgetc_reads f1) as H2. destruct (fgetc f1) as [b2 f2]; simpl in H2.
  destruct (b2 =? EOF); [ simpl; eapply reads_trans; eauto | ].
  pose proof (fgetc_reads f2) as H3. destruct (fgetc f2) as [b3 f3]; simpl in H3.
  destruct (b3 =? EOF); [ simpl; eauto using reads_trans | ].
  pose proof (fgetc_reads f3) as H4. destruct (fgetc f3) as [b4 f4]; simpl in H4.
  destruct (b4 =? EOF); simpl; eauto using reads_trans.
Qed.

Lemma padding_reads n f : reads f (ase_file_read_padding f n).
Proof.
  revert f. induction n as [| n IH]; intros f; simpl.
  - apply reads_refl.
  - eapply reads_trans; [ apply fgetc_reads | apply IH ].
Qed.

Lemma read_chars_reads n f : reads f (snd (read_chars f n)).
Proof.
  revert f. induction n as [| n IH]; intros f; simpl.
  - apply reads_refl.
  - pose proof (fgetc_reads f) as H1. destruct (fgetc f) as [c f1]; simpl in H1.
    pose proof (IH f1) as H2. destruct (read_chars f1 n) as [cs f2]; simpl in *.
    eapply reads_trans; eauto.
Qed.

Lemma read_string_reads f : reads f (snd (ase_file_read_string f)).
Proof.
  unfold ase_file_read_string.
  pose proof (fgetw_reads f) as H1. destruct (fgetw f) as [len f1]; simpl in H1.
  destruct (len =? EOF); simpl; [ exact H1 | ].
  eapply reads_trans; [ exact H1 | apply read_chars_reads ].
Qed.

Lemma fread_reads f n : reads f (snd (fread f n)).
Proof.
  unfold fread. destruct (cursor f <? 0); simpl; unfold reads; simpl;
    auto with zarith.
Qed.

(** ** The document header *)

Lemma magic_word lo hi :
  to_uint16 (Z.lor (Z.shiftl (to_uint8 hi) 8) (to_uint8 lo))
  = to_uint8 lo + 256 * to_uint8 hi.
Proof.
  pose proof (to_uint8_range lo). pose proof (to_uint8_range hi).
  rewrite word_of_bytes by assumption.
  unfold to_uint16. change (2 ^ 16) with 65536. apply Z.mod_small. lia.
Qed.

Lemma read_header_magic bytes :
  fst (ase_file_read_header (open_file bytes)) = None
  <-> stored_u16 bytes 4 <> Some ASE_FILE_MAGIC.
Proof.
  unfold ase_file_read_header, stored_u16.
  destruct bytes as [| b0 [| b1 [| b2 [| b3 [| b4 [| b5 rest]]]]]];
    unfold fgetl, fgetw, fgetc, byte_at, open_file; simpl;
    rewrite ?to_uint8_not_EOF; simpl; rewrite ?to_uint8_not_EOF; simpl;
    try (split; [ discriminate | reflexivity ]).
  rewrite magic_word.
  destruct (to_uint8 b4 + 256 * to_uint8 b5 =? ASE_FILE_MAGIC) eqn:E; simpl.
  - apply Z.eqb_eq in E. split; [ | congruence ].
    repeat match goal with
           | |- context [let '(_, _) := ?e in _] => destruct e as [? ?]
           end.
    simpl. discriminate.
  - apply Z.eqb_neq in E. split; [ congruence | reflexivity ].
Qed.

(** C4.  Reading the document header fails exactly when the 16 bit word
    stored at offset 4 is not the magic number 0xA5E0 (a stream too
    short to hold it included), and then [onLoad] gives up at once: it
    answers [false] with the one error report, no sprite was built, and
    neither a frame nor a chunk was read (nothing was sent to the
    progress sink, no load state exists). *)
Theorem header_magic_mismatch_aborts (zl : Zlib) (fuel : nat) (bytes : list Z)
    (fop : FileOp) :
  (fst (ase_file_read_header (open_file bytes)) = None
   <-> stored_u16 bytes 4 <> Some ASE_FILE_MAGIC)
  /\ (stored_u16 bytes 4 <> Some ASE_FILE_MAGIC ->
      onLoad zl fuel (Some (open_file bytes)) fop
      = Ok (mkLoaded false (fop_error fop "Error reading header\n" []) None)).
Proof.
  split; [ apply read_header_magic | ].
  intros H. apply read_header_magic in H.
  unfold onLoad. destruct (ase_file_read_header (open_file bytes)) as [[h |] f'];
    simpl in H; [ discriminate | reflexivity ].
Qed.

Lemma header_magic_mismatch_aborts_witness :
  stored_u16 not_ase_bytes 4 <> Some ASE_FILE_MAGIC
  /\ onLoad zlib_store 0 (Some (open_file not_ase_bytes)) new_fop
     = Ok (mkLoaded false (fop_error new_fop "Error reading header\n" []) None).
Proof.
  assert (H : stored_u16 not_ase_bytes 4 <> Some ASE_FILE_MAGIC)
    by (vm_compute; discriminate).
  split; [ exact H | ].
  exact (proj2 (header_magic_mismatch_aborts zlib_store 0 not_ase_bytes new_fop) H).
Defined.

(** ** Chunks without a handler *)

(** ** The layer tree *)

Lemma Layer_ind' (P : Layer -> Prop) :
  (forall fl n cs, P (LayerImage fl n cs)) ->
  (forall fl n ls, Forall P ls -> P (LayerFolder fl n ls)) ->
  forall l, P l.
Proof.
  intros HI HF. fix IH 1. intros [fl n cs | fl n ls].
  - apply HI.
  - apply HF. induction ls as [| c ls IHls]; constructor; [ apply IH | exact IHls ].
Qed.

Lemma layer_at_app l path path' :
  layer_at l (path ++ path') = layer_at l path ≫= fun c => layer_at c path'.
Proof.
  revert l. induction path as [| i path IH]; intros l; simpl; [ reflexivity | ].
  destruct (getLayers l !! i); simpl; [ apply IH | reflexivity ].
Qed.

(** A pointer found by its index points into the tree. *)
Lemma index2layer_valid l :
  forall p index count q count',
    index2layer l p index count = (Some q, count') ->
    exists path, q = rev path ++ p /\ is_Some (layer_at l path).
Proof.
  induction l as [fl n cs | fl n ls IH] using Layer_ind';
    intros p index count q count' H; simpl in H.
  - destruct (index =? count); [ | discriminate ].
    injection H as <- <-. exists []. split; [ reflexivity | simpl; eauto ].
  - destruct (index =? count).
    { injection H as <- <-. exists []. split; [ reflexivity | simpl; eauto ]. }
    match type of H with
    | ?F ls 0%nat _ = _ =>
        assert (Haux : forall rest pre i cnt,
                   ls = pre ++ rest -> length pre = i ->
                   F rest i cnt = (Some q, count') ->
                   exists path, q = rev path ++ p
                                /\ is_Some (layer_at (LayerFolder fl n ls) path))
    end.
    { induction rest as [| c rest IHrest]; intros pre i cnt Hpre Hlen Hr;
        [ discriminate | ].
      assert (Hc : ls !! i = Some c).
      { rewrite Hpre, lookup_app_r by lia.
        replace (i - length pre)%nat with 0%nat by lia. reflexivity. }
      destruct (index2layer c (i :: p) index cnt) as [[q' |] cnt'] eqn:E.
      - injection Hr as <- <-.
        rewrite Forall_lookup in IH.
        destruct (IH _ _ Hc _ _ _ _ _ E) as (path & -> & Hp).
        exists (i :: path). split.
        + simpl. rewrite <- app_assoc. reflexivity.
        + simpl. rewrite Hc. exact Hp.
      - apply (IHrest (pre ++ [c]) (S i) cnt'); [ | | exact Hr ].
        + rewrite <- app_assoc. exact Hpre.
        + rewrite length_app. simpl. lia. }
    apply (Haux ls [] 0%nat _ eq_refl eq_refl H).
Qed.

Lemma indexToLayer_deref sprite index p :
  indexToLayer sprite index = Some p -> is_Some (deref (spr_folder sprite) p).
Proof.
  unfold indexToLayer, deref. intros H.
  destruct (index2layer (spr_folder sprite) [] index (-1)) as [q cnt] eqn:E.
  simpl in H. subst q.
  destruct (index2layer_valid _ _ _ _ _ _ E) as (path & -> & Hp).
  rewrite app_nil_r, rev_involutive. exact Hp.
Qed.


(** ** Cel chunks *)

Lemma read_cel_data_layer_index f :
  cd_layer_index (fst (read_cel_data f)) = fst (fgetw f).
Proof.
  unfold read_cel_data.
  repeat match goal with
         | |- context [let '(_, _) := ?e in _] => destruct e as [? ?]
         end.
  reflexivity.
Qed.

Lemma read_cel_data_reads f : reads f (snd (read_cel_data f)).
Proof.
  unfold read_cel_data.
  pose proof (fgetw_reads f) as H1. destruct (fgetw f) as [? f1]. simpl in H1.
  pose proof (fgetw_reads f1) as H2. destruct (fgetw f1) as [? f2]. simpl in H2.
  pose proof (fgetw_reads f2) as H3. destruct (fgetw f2) as [? f3]. simpl in H3.
  pose proof (fgetc_reads f3) as H4. destruct (fgetc f3) as [? f4]. simpl in H4.
  pose proof (fgetw_reads f4) as H5. destruct (fgetw f4) as [? f5]. simpl in H5.
  pose proof (padding_reads 7 f5) as H6. simpl.
  eauto 10 using reads_trans.
Qed.

(** The cel chunk decoder on a layer index that names no image layer:
    it hands back no cel, leaves the sprite as it is and reports one
    warning. *)
Lemma cel_chunk_without_image_layer zl fuel f sprite frame fmt fop header chunk_end :
  resolves_to_image_layer sprite (fst (fgetw f)) = false ->
  exists msg,
    ase_file_read_cel_chunk zl fuel f sprite frame fmt fop header chunk_end
    = Ok (None, snd (read_cel_data f), sprite,
          fop_error fop msg [frame; fst (fgetw f)]).
Proof.
  unfold resolves_to_image_layer, ase_file_read_cel_chunk. intros H.
  rewrite <- read_cel_data_layer_index in *.
  destruct (read_cel_data f) as [data f1]. simpl in *.
  destruct (indexToLayer sprite (cd_layer_index data)) as [p |] eqn:Ei.
  - destruct (indexToLayer_deref _ _ _ Ei) as [l Hl]. rewrite Hl in *.
    rewrite H. simpl. eauto.
  - eauto.
Qed.

(** C5.  A cel chunk whose layer index does not resolve to a layer, or
    resolves to a layer that is not an image layer, goes through the
    chunk loop with the sprite unchanged (no cel, no image is added),
    one warning is reported, and the loop goes on from the position the
    declared size of the chunk gives. *)
Theorem dangling_cel_chunk_skipped (zl : Zlib) (fuel : nat) (header : ASE_Header)
    (frame : Z) (st : LoadState) :
  let chunk_pos := to_int (ftell (ld_file st)) in
  let sized := fgetl (ld_file st) in
  let typed := fgetw (snd sized) in
  let layer_index := fst (fgetw (snd typed)) in
  fst typed = ASE_FILE_CHUNK_CEL ->
  resolves_to_image_layer (ld_sprite st) layer_index = false ->
  exists msg,
    read_chunk zl fuel header frame st
    = Ok (mkLoad
            (fseek (snd (read_cel_data (snd typed)))
               (to_int (chunk_pos + to_int (fst sized))))
            (fop_error (fop_progress (ld_fop st) chunk_pos (h_size header))
               msg [frame; layer_index])
            (ld_sprite st) (ld_last_layer st) (ld_current_level st)).
Proof.
  intros chunk_pos sized typed layer_index Ht Hr.
  unfold read_chunk. simpl.
  fold sized. destruct sized as [chunk_size f1] eqn:E1. simpl in typed.
  fold typed. destruct typed as [chunk_type f2] eqn:E2. simpl in *. subst chunk_type.
  unfold dispatch_chunk.
  change (ASE_FILE_CHUNK_CEL =? ASE_FILE_CHUNK_FLI_COLOR) with false.
  change (ASE_FILE_CHUNK_CEL =? ASE_FILE_CHUNK_FLI_COLOR2) with false.
  change (ASE_FILE_CHUNK_CEL =? ASE_FILE_CHUNK_LAYER) with false.
  change (ASE_FILE_CHUNK_CEL =? ASE_FILE_CHUNK_CEL) with true.
  cbn [orb]. cbv beta iota zeta. simpl ld_file. simpl ld_sprite. simpl ld_fop.
  subst chunk_pos.
  destruct (cel_chunk_without_image_layer zl fuel f2 (ld_sprite st) frame
              (getPixelFormat (ld_sprite st))
              (fop_progress (ld_fop st) (to_int (ftell (ld_file st))) (h_size header))
              header
              (to_size_t (to_int (to_int (ftell (ld_file st)) + to_int chunk_size))) Hr)
    as (msg & ->).
  exists msg. reflexivity.
Qed.

Lemma dangling_cel_chunk_skipped_witness :
  fst (fgetw (snd (fgetl (ld_file dangling_cel_state)))) = ASE_FILE_CHUNK_CEL
  /\ resolves_to_image_layer (ld_sprite dangling_cel_state)
       (fst (fgetw (snd (fgetw (snd (fgetl (ld_file dangling_cel_state))))))) = false
  /\ exists msg,
       read_chunk zlib_store 0 example_header 0 dangling_cel_state
       = Ok (mkLoad (mkFILE dangling_cel_stream 170 false)
               (fop_error (fop_progress new_fop 144 1000) msg [0; 3])
               (header_sprite example_header) [] (-1)).
Proof.
  split; [ reflexivity | ]. split; [ reflexivity | ].
  exact (dangling_cel_chunk_skipped zlib_store 0 example_header 0 dangling_cel_state
           (eq_refl ASE_FILE_CHUNK_CEL) (eq_refl false)).
Defined.

(** *** Linked cels *)







(** ** The layer tree builder *)

(** What the builder does when the level goes down: the new layer is
    put into the folder two parent links above the previous layer,
    whatever the size of the drop. *)
Lemma layer_chunk_level_drop f sprite prev level f' sprite' p' level' :
  ase_file_read_layer_chunk f sprite prev level = Ok (f', sprite', p', level') ->
  level' < level ->
  getParent p' = getParent prev ≫= getParent.
Proof.
  unfold ase_file_read_layer_chunk.
  repeat match goal with
         | |- context [let '(_, _) := ?e in _] => destruct e as [? ?]
         end.
  match goal with
  | |- context [if ?t =? 0 then _ else _] => destruct (t =? 0)
  end.
  2: match goal with
     | |- context [if ?t =? 1 then _ else _] => destruct (t =? 1)
     end.
  3: { intros H; injection H as <- <- <- <-. lia. }
  all: match goal with
       | |- context [if ?c =? ?lv then getParent _ else _] =>
           destruct (c =? lv) eqn:E1;
             [ apply Z.eqb_eq in E1 | destruct (c >? lv) eqn:E2 ]
       end.
  all: try (destruct (getParent prev) as [up |]; [ | discriminate ]).
  all: try (destruct (getParent up) as [up2 |] eqn:Eu; [ | discriminate ]).
  all: match goal with
       | |- context [addLayer ?r ?fo ?la] =>
           unfold addLayer; destruct (deref r fo) as [[? ? ? | ? ? ?] |];
             try discriminate
       end.
  all: intros H; injection H as <- <- <- <-; intros Hlt; try lia.
  all: try (apply Z.gtb_lt in E2; lia).
  all: simpl; rewrite ?Eu; reflexivity.
Qed.

(** A drop of one level is the case in which two parent links are the
    right number: the new layer becomes a sibling of the ancestor one
    link above the previous layer. *)
Lemma layer_chunk_one_level_drop f sprite prev level f' sprite' p' level' :
  ase_file_read_layer_chunk f sprite prev level = Ok (f', sprite', p', level') ->
  level - level' = 1 ->
  getParent p' = walk_up (Z.to_nat (level - level')) prev ≫= getParent.
Proof.
  intros H Hd. rewrite (layer_chunk_level_drop _ _ _ _ _ _ _ _ H) by lia.
  rewrite Hd. simpl. destruct (getParent prev); reflexivity.
Qed.

(** C1.  The layer tree builder on the records A (group, level 0), B
    (group, level 1), C (image, level 2), D (image, level 0).  When D is
    read the previous layer is C at level 2, so the level drops by two;
    two parent links up from C is the group A, whose parent is the root
    folder, and D ought to become a sibling of A under the root.  The
    builder puts D into A instead, as its second child. *)
Theorem layer_drop_of_two_levels_misplaced :
  exists st3 st4,
    read_chunks zlib_store 0 example_header 0 3 nested_layers_state = Ok st3
    /\ read_chunk zlib_store 0 example_header 0 st3 = Ok st4
    /\ ld_last_layer st3 = [0; 0; 0]%nat /\ ld_current_level st3 = 2
    /\ ld_current_level st4 = 0
    /\ walk_up 2 (ld_last_layer st3) ≫= getParent = Some []
    /\ getParent (ld_last_layer st4) = Some [0%nat]
    /\ spr_folder (ld_sprite st4)
       = LayerFolder 0 []
           [LayerFolder 0 [65]
              [LayerFolder 0 [66] [LayerImage 0 [67] []];
               LayerImage 0 [68] []]].
Proof.
  eexists _, _.
  split; [ vm_compute; reflexivity | ].
  split; [ vm_compute; reflexivity | ].
  repeat split.
Qed.

(** ** The end of a chunk *)

Lemma byte_at_nonneg f p b : byte_at f p = Some b -> 0 <= p.
Proof. unfold byte_at. destruct (p <? 0) eqn:E; [ discriminate | ]. intros _. lia. Qed.

Lemma fgetl_declared f len :
  declared_length f = Some len ->
  fgetl f = (len, mkFILE (contents f) (cursor f + 4) (ferror f))
  /\ 0 <= len < 2 ^ 32 /\ 0 <= cursor f.
Proof.
  unfold declared_length, fgetl.
  destruct (byte_at f (cursor f)) as [b1 |] eqn:E1; [ | discriminate ].
  destruct (byte_at f (cursor f + 1)) as [b2 |] eqn:E2; [ | discriminate ].
  destruct (byte_at f (cursor f + 2)) as [b3 |] eqn:E3; [ | discriminate ].
  destruct (byte_at f (cursor f + 3)) as [b4 |] eqn:E4; [ | discriminate ].
  intros H. injection H as <-.
  pose proof (to_uint8_range b1). pose proof (to_uint8_range b2).
  pose proof (to_uint8_range b3). pose proof (to_uint8_range b4).
  pose proof (byte_at_nonneg _ _ _ E1).
  split; [ | split; [ change (2 ^ 32) with 4294967296; lia | assumption ] ].
  rewrite (fgetc_some f b1 E1), to_uint8_not_EOF.
  rewrite (fgetc_some _ b2) by exact E2. rewrite to_uint8_not_EOF.
  rewrite (fgetc_some _ b3)
    by (simpl; replace (cursor f + 1 + 1) with (cursor f + 2) by lia; exact E3).
  rewrite to_uint8_not_EOF.
  rewrite (fgetc_some _ b4)
    by (simpl; replace (cursor f + 1 + 1 + 1) with (cursor f + 3) by lia; exact E4).
  rewrite to_uint8_not_EOF. simpl.
  rewrite long_of_bytes by assumption.
  f_equal. f_equal. lia.
Qed.

(** Every handler leaves the stream a stream: the result of the
    dispatch is not needed to know where the seek goes. *)
Lemma read_chunk_seek zl fuel header frame st st' :
  read_chunk zl fuel header frame st = Ok st' ->
  let chunk_pos := to_int (ftell (ld_file st)) in
  let chunk_size := to_int (fst (fgetl (ld_file st))) in
  0 <= to_int (chunk_pos + chunk_size) ->
  cursor (ld_file st') = to_int (chunk_pos + chunk_size).
Proof.
  unfold read_chunk. simpl.
  destruct (fgetl (ld_file st)) as [chunk_size f1]. simpl.
  destruct (fgetw f1) as [chunk_type f2].
  destruct (dispatch_chunk _ _ _ _ _ _ _ _) as [st1 | |]; try discriminate.
  intros H. injection H as <-. intros Hpos.
  unfold fseek. simpl.
  destruct (_ <? 0) eqn:E; [ apply Z.ltb_lt in E; lia | reflexivity ].
Qed.

(** C2, as amended.  In a frame whose magic matches, when the handler
    of a chunk has returned (it decoded the chunk, skipped it, or
    caught an error of the decompression), the cursor is at the start
    of the chunk plus its declared length, whatever the handler has
    read, provided that this position is not above [INT_MAX]. *)
Theorem chunk_end_seek (zl : Zlib) (fuel : nat) (header : ASE_Header) (frame : Z)
    (st st' : LoadState) (len : Z) :
  declared_length (ld_file st) = Some len ->
  cursor (ld_file st) + len <= INT_MAX ->
  read_chunk zl fuel header frame st = Ok st' ->
  cursor (ld_file st') = cursor (ld_file st) + len.
Proof.
  intros Hlen Hmax Hrun.
  destruct (fgetl_declared _ _ Hlen) as (Hl & Hr & Hc).
  pose proof (read_chunk_seek _ _ _ _ _ _ Hrun) as Hseek. simpl in Hseek.
  rewrite Hl in Hseek. simpl in Hseek. unfold ftell in Hseek.
  unfold INT_MAX in Hmax.
  rewrite (to_int_small (cursor (ld_file st))) in Hseek by (unfold INT_MAX; lia).
  rewrite (to_int_small len) in Hseek by (unfold INT_MAX; lia).
  rewrite to_int_small in Hseek by (unfold INT_MAX; lia).
  apply Hseek. lia.
Qed.

Lemma chunk_end_seek_witness :
  declared_length (ld_file unknown_chunk_state) = Some 15
  /\ cursor (ld_file unknown_chunk_state) + 15 <= INT_MAX
  /\ read_chunk zlib_store 0 example_header 0 unknown_chunk_state
     = Ok (mkLoad
             (mkFILE unknown_chunk_stream 159 false)
             (fop_error (fop_progress new_fop 144 1000)
                "Warning: Unsupported chunk type %d (skipping)\n" [0x2018])
             (header_sprite example_header) [] (-1))
  /\ 159 = cursor (ld_file unknown_chunk_state) + 15.
Proof.
  assert (H1 : declared_length (ld_file unknown_chunk_state) = Some 15)
    by (vm_compute; reflexivity).
  assert (H2 : cursor (ld_file unknown_chunk_state) + 15 <= INT_MAX)
    by (vm_compute; discriminate).
  assert (H3 : read_chunk zlib_store 0 example_header 0 unknown_chunk_state
               = Ok (mkLoad
                       (mkFILE unknown_chunk_stream 159 false)
                       (fop_error (fop_progress new_fop 144 1000)
                          "Warning: Unsupported chunk type %d (skipping)\n" [0x2018])
                       (header_sprite example_header) [] (-1)))
    by (vm_compute; reflexivity).
  split; [ exact H1 | ]. split; [ exact H2 | ]. split; [ exact H3 | ].
  exact (chunk_end_seek zlib_store 0 example_header 0 unknown_chunk_state _ 15 H1 H2 H3).
Defined.

(** C2, the claim as stated fails: a chunk that declares the length
    0x80000000.  The sum of its start and its size is not an offset
    [fseek] takes, the seek fails, and the cursor stays where the
    handler left it, six bytes after the start of the chunk. *)
Lemma chunk_end_seek_counterexample :
  exists st',
    read_chunk zlib_store 0 example_header 0 huge_chunk_state = Ok st'
    /\ declared_length (ld_file huge_chunk_state) = Some 0x80000000
    /\ cursor (ld_file huge_chunk_state) = 144
    /\ cursor (ld_file st') = 150
    /\ cursor (ld_file st') <> cursor (ld_file huge_chunk_state) + 0x80000000.
Proof.
  eexists. split; [ vm_compute; reflexivity | ].
  repeat split. vm_compute. discriminate.
Qed.

(** C8, as amended.  A chunk whose type code is none of the six known
    ones goes through the chunk loop with the sprite (layer tree, cels,
    images, palettes, frame durations) and the layer builder's previous
    layer and level exactly as they were; the only effects are the
    progress report of the chunk, one warning, and the seek computed
    from the declared size of the chunk.  When the start of the chunk
    plus its declared length is not above [INT_MAX], that seek skips
    the chunk: it leaves the stream at the start of the chunk plus the
    declared length. *)
Theorem unsupported_chunk_skipped (zl : Zlib) (fuel : nat) (header : ASE_Header)
    (frame : Z) (st : LoadState) :
  let chunk_pos := to_int (ftell (ld_file st)) in
  let sized := fgetl (ld_file st) in
  let typed := fgetw (snd sized) in
  known_chunk_type (fst typed) = false ->
  read_chunk zl fuel header frame st
  = Ok (mkLoad
          (fseek (snd typed) (to_int (chunk_pos + to_int (fst sized))))
          (fop_error (fop_progress (ld_fop st) chunk_pos (h_size header))
             "Warning: Unsupported chunk type %d (skipping)\n" [fst typed])
          (ld_sprite st) (ld_last_layer st) (ld_current_level st))
  /\ forall len,
       declared_length (ld_file st) = Some len ->
       cursor (ld_file st) + len <= INT_MAX ->
       fseek (snd typed) (to_int (chunk_pos + to_int (fst sized)))
       = mkFILE (contents (ld_file st)) (cursor (ld_file st) + len)
           (ferror (ld_file st)).
Proof.
  intros chunk_pos sized typed Hk. split.
  - unfold read_chunk. simpl.
    fold sized. destruct sized as [chunk_size f1] eqn:E1. simpl in typed.
    fold typed. destruct typed as [chunk_type f2] eqn:E2. simpl in Hk |- *.
    unfold known_chunk_type in Hk.
    repeat (apply orb_false_elim in Hk; destruct Hk as [Hk ?]).
    unfold dispatch_chunk. simpl.
    repeat match goal with H : (_ =? _) = false |- _ => rewrite H; clear H end.
    simpl. reflexivity.
  - intros len Hlen Hmax.
    destruct (fgetl_declared _ _ Hlen) as (Hl & Hr & Hc).
    subst chunk_pos typed sized. rewrite Hl. cbn [fst snd].
    match goal with
    | |- context [fgetw ?g] => pose proof (fgetw_reads g) as (C & F & _)
    end.
    cbn [contents ferror] in C, F.
    unfold ftell. unfold INT_MAX in Hmax.
    rewrite (to_int_small (cursor (ld_file st))) by (unfold INT_MAX; lia).
    rewrite (to_int_small len) by (unfold INT_MAX; lia).
    rewrite to_int_small by (unfold INT_MAX; lia).
    unfold fseek.
    destruct (cursor (ld_file st) + len <? 0) eqn:E; [ apply Z.ltb_lt in E; lia | ].
    rewrite C, F. reflexivity.
Qed.

Lemma unsupported_chunk_skipped_witness :
  known_chunk_type (fst (fgetw (snd (fgetl (ld_file unknown_chunk_state))))) = false
  /\ declared_length (ld_file unknown_chunk_state) = Some 15
  /\ cursor (ld_file unknown_chunk_state) + 15 <= INT_MAX
  /\ read_chunk zlib_store 0 example_header 0 unknown_chunk_state
     = Ok (mkLoad
             (mkFILE unknown_chunk_stream (144 + 15) false)
             (fop_error (fop_progress new_fop 144 1000)
                "Warning: Unsupported chunk type %d (skipping)\n" [0x2018])
             (header_sprite example_header) [] (-1)).
Proof.
  assert (H1 : known_chunk_type
                 (fst (fgetw (snd (fgetl (ld_file unknown_chunk_state))))) = false)
    by (vm_compute; reflexivity).
  assert (H2 : declared_length (ld_file unknown_chunk_state) = Some 15)
    by (vm_compute; reflexivity).
  assert (H3 : cursor (ld_file unknown_chunk_state) + 15 <= INT_MAX)
    by (vm_compute; discriminate).
  split; [ exact H1 | ]. split; [ exact H2 | ]. split; [ exact H3 | ].
  destruct (unsupported_chunk_skipped zlib_store 0 example_header 0 unknown_chunk_state H1)
    as [E S].
  rewrite E, (S 15 H2 H3). reflexivity.
Defined.

(** C8, the claim as stated fails: a chunk of the unknown type 0x2018
    that declares the length 0x80000000.  The document is left as it
    was and the warning is given, but the chunk is not skipped by its
    declared length: the sum of its start and its size is not an offset
    [fseek] takes, the cursor stays six bytes behind the start of the
    chunk, and the next chunk header is taken from the body of this
    chunk. *)
Lemma unsupported_chunk_skipped_counterexample :
  exists st',
    known_chunk_type (fst (fgetw (snd (fgetl (ld_file huge_chunk_state))))) = false
    /\ read_chunk zlib_store 0 example_header 0 huge_chunk_state = Ok st'
    /\ ld_sprite st' = ld_sprite huge_chunk_state
    /\ fop_error_log (ld_fop st')
       = [("Warning: Unsupported chunk type %d (skipping)\n"%string, [0x2018])]
    /\ declared_length (ld_file huge_chunk_state) = Some 0x80000000
    /\ cursor (ld_file huge_chunk_state) = 144
    /\ cursor (ld_file st') = 150
    /\ cursor (ld_file st') <> cursor (ld_file huge_chunk_state) + 0x80000000
    /\ stream_from (ld_file st') = [1; 2; 3; 4; 5; 6; 7; 8; 9].
Proof.
  eexists. split; [ vm_compute; reflexivity | ].
  split; [ vm_compute; reflexivity | ].
  repeat split. vm_compute. discriminate.
Qed.

(** ** Frame durations *)

Lemma same_timing_refl s : same_timing s s.
Proof. split; reflexivity. Qed.

Lemma same_timing_trans s t u : same_timing s t -> same_timing t u -> same_timing s u.
Proof. unfold same_timing. intros [? ?] [? ?]. split; congruence. Qed.

Lemma layer_chunk_timing f sprite prev level f' sprite' p' level' :
  ase_file_read_layer_chunk f sprite prev level = Ok (f', sprite', p', level') ->
  same_timing sprite sprite'.
Proof.
  unfold ase_file_read_layer_chunk. intros H.
  break_result H; injection H as <- <- <- <-; split; reflexivity.
Qed.

Lemma cel_chunk_timing zl fuel f sprite frame fmt fop header chunk_end r f' sprite' fop' :
  ase_file_read_cel_chunk zl fuel f sprite frame fmt fop header chunk_end
  = Ok (r, f', sprite', fop') ->
  same_timing sprite sprite'.
Proof.
  unfold ase_file_read_cel_chunk, store_image, addImage. intros H.
  break_result H; injection H as <- <- <- <-; split; reflexivity.
Qed.

Lemma dispatch_chunk_timing zl fuel header frame chunk_pos chunk_size chunk_type st st' :
  dispatch_chunk zl fuel header frame chunk_pos chunk_size chunk_type st = Ok st' ->
  same_timing (ld_sprite st) (ld_sprite st').
Proof.
  unfold dispatch_chunk. intros H.
  destruct (_ || _).
  { break_result H; injection H as <-; split; reflexivity. }
  destruct (chunk_type =? ASE_FILE_CHUNK_LAYER).
  { destruct (ase_file_read_layer_chunk _ _ _ _) as [[[[f1 s1] p1] l1] | |] eqn:E;
      try discriminate.
    injection H as <-. simpl. eapply layer_chunk_timing, E. }
  destruct (chunk_type =? ASE_FILE_CHUNK_CEL).
  { destruct (ase_file_read_cel_chunk _ _ _ _ _ _ _ _ _) as [[[[r1 f1] s1] p1] | |] eqn:E;
      try discriminate.
    injection H as <-. simpl. eapply cel_chunk_timing, E. }
  destruct (chunk_type =? ASE_FILE_CHUNK_MASK).
  { destruct (ase_file_read_mask_chunk _). injection H as <-. apply same_timing_refl. }
  destruct (chunk_type =? ASE_FILE_CHUNK_PATH).
  { injection H as <-. apply same_timing_refl. }
  injection H as <-. apply same_timing_refl.
Qed.

Lemma read_chunk_timing zl fuel header frame st st' :
  read_chunk zl fuel header frame st = Ok st' ->
  same_timing (ld_sprite st) (ld_sprite st').
Proof.
  unfold read_chunk. intros H.
  destruct (fgetl _) as [chunk_size f1]. destruct (fgetw f1) as [chunk_type f2].
  destruct (dispatch_chunk _ _ _ _ _ _ _ _) as [st1 | |] eqn:E; try discriminate.
  injection H as <-. apply dispatch_chunk_timing in E. exact E.
Qed.

Lemma read_chunks_timing zl fuel header frame n st st' :
  read_chunks zl fuel header frame n st = Ok st' ->
  same_timing (ld_sprite st) (ld_sprite st').
Proof.
  revert st. induction n as [| n IH]; intros st H; simpl in H.
  - injection H as <-. apply same_timing_refl.
  - destruct (read_chunk zl fuel header frame st) as [st1 | |] eqn:E; try discriminate.
    eapply same_timing_trans; [ eapply read_chunk_timing, E | apply IH, H ].
Qed.

Lemma read_frame_timing zl fuel header frame st st' :
  read_frame zl fuel header frame st = Ok st' ->
  0 <= frame < spr_frames (ld_sprite st) ->
  let fh := fst (ase_file_read_frame_header (ld_file st)) in
  spr_frames (ld_sprite st') = spr_frames (ld_sprite st)
  /\ spr_frlen (ld_sprite st')
     = if (fh_magic fh =? ASE_FILE_FRAME_MAGIC) && (0 <? fh_duration fh)
       then <[Z.to_nat frame := fh_duration fh]> (spr_frlen (ld_sprite st))
       else spr_frlen (ld_sprite st).
Proof.
  unfold read_frame. simpl. intros H Hr. revert H.
  destruct (ase_file_read_frame_header (ld_file st)) as [fh f1]. simpl.
  destruct (fh_magic fh =? ASE_FILE_FRAME_MAGIC); simpl.
  - destruct (read_chunks _ _ _ _ _ _) as [st1 | |] eqn:E; try discriminate.
    intros H. injection H as <-. simpl.
    apply read_chunks_timing in E. destruct E as [E1 E2]. rewrite E1, E2.
    destruct (0 <? fh_duration fh); simpl; [ | split; reflexivity ].
    unfold setFrameDuration.
    destruct ((0 <=? frame) && (frame <? spr_frames (ld_sprite st))) eqn:Eb; simpl.
    + split; reflexivity.
    + apply andb_false_iff in Eb. destruct Eb as [Eb | Eb];
        [ apply Z.leb_gt in Eb | apply Z.ltb_ge in Eb ]; lia.
  - intros H. injection H as <-. simpl. split; reflexivity.
Qed.

(** The durations after the frame loop, when before it every frame from
    [frame] on has the legacy speed. *)
Lemma load_frames_durations zl fuel header speed n :
  forall frame st st',
    load_frames zl fuel header n frame st = Ok st' ->
    0 <= frame ->
    frame + Z.of_nat n <= spr_frames (ld_sprite st) ->
    Z.of_nat (length (spr_frlen (ld_sprite st))) = spr_frames (ld_sprite st) ->
    (forall k, (k < n)%nat ->
               spr_frlen (ld_sprite st) !! (Z.to_nat frame + k)%nat = Some speed) ->
    (forall i, (i < Z.to_nat frame)%nat ->
               spr_frlen (ld_sprite st') !! i = spr_frlen (ld_sprite st) !! i)
    /\ (forall k, (k < n)%nat ->
          spr_frlen (ld_sprite st') !! (Z.to_nat frame + k)%nat
          = Some (loaded_duration speed
                    (frame_headers_read zl fuel header n frame st !! k))).
Proof.
  induction n as [| n IH]; intros frame st st' H H0 Hn Hlen Hinit.
  - simpl in H. injection H as <-. split; [ reflexivity | intros k Hk; lia ].
  - simpl in H |- *.
    destruct (read_frame zl fuel header frame st) as [st1 | |] eqn:E; try discriminate.
    destruct (read_frame_timing _ _ _ _ _ _ E ltac:(lia)) as [Hf Hd].
    simpl in Hd.
    set (fh := fst (ase_file_read_frame_header (ld_file st))) in *.
    assert (Hother : forall j, j <> Z.to_nat frame ->
              spr_frlen (ld_sprite st1) !! j = spr_frlen (ld_sprite st) !! j).
    { intros j Hj. rewrite Hd.
      destruct (_ && _); [ apply list_lookup_insert_ne; lia | reflexivity ]. }
    assert (Hthis : spr_frlen (ld_sprite st1) !! Z.to_nat frame
                    = Some (loaded_duration speed (Some fh))).
    { rewrite Hd. unfold loaded_duration.
      destruct (_ && _).
      - apply list_lookup_insert_eq. lia.
      - specialize (Hinit 0%nat ltac:(lia)). rewrite Nat.add_0_r in Hinit. exact Hinit. }
    assert (Hdone : st' = st1 ->
              (forall i, (i < Z.to_nat frame)%nat ->
                 spr_frlen (ld_sprite st') !! i = spr_frlen (ld_sprite st) !! i)
              /\ (forall k, (k < S n)%nat ->
                    spr_frlen (ld_sprite st') !! (Z.to_nat frame + k)%nat
                    = Some (loaded_duration speed ([fh] !! k)))).
    { intros ->. split.
      - intros i Hi. apply Hother. lia.
      - intros [| k] Hk.
        + rewrite Nat.add_0_r. exact Hthis.
        + simpl. rewrite Hother by lia. apply Hinit. lia. }
    destruct (fop_oneframe (ld_fop st1)); [ injection H as <-; auto | ].
    destruct (fop_is_stop (ld_fop st1) frame); [ injection H as <-; auto | ].
    clear Hdone.
    destruct (IH (frame + 1) st1 st' H) as [IH1 IH2]; try lia.
    + rewrite Hd. destruct (_ && _); rewrite ?length_insert; lia.
    + intros k Hk. rewrite Hother by lia.
      replace (Z.to_nat (frame + 1) + k)%nat with (Z.to_nat frame + S k)%nat by lia.
      apply Hinit. lia.
    + split.
      * intros i Hi. rewrite IH1 by lia. apply Hother. lia.
      * intros [| k] Hk.
        -- rewrite Nat.add_0_r, IH1 by lia. exact Hthis.
        -- simpl.
           replace (Z.to_nat frame + S k)%nat with (Z.to_nat (frame + 1) + k)%nat by lia.
           apply IH2. lia.
Qed.

Lemma read_header_frames f header f1 :
  ase_file_read_header f = (Some header, f1) -> 0 <= h_frames header.
Proof.
  unfold ase_file_read_header. intros H.
  repeat match type of H with
         | context [let '(_, _) := ?e in _] => destruct e as [? ?]
         end.
  destruct (negb _); [ discriminate | ].
  injection H as <- <-. simpl. unfold to_uint16.
  apply Z.mod_pos_bound. reflexivity.
Qed.

Lemma header_sprite_durations header :
  spr_frames (header_sprite header) = h_frames header
  /\ spr_frlen (header_sprite header)
     = replicate (Z.to_nat (h_frames header)) (h_speed header).
Proof.
  unfold header_sprite, setTransparentColor, setDurationForAllFrames, setTotalFrames.
  simpl. split; [ reflexivity | ]. rewrite length_resize. reflexivity.
Qed.

(** C10.  The sprite that is set up from the document header gives
    every frame the legacy speed of the header as its duration.  After
    a load, the duration of a frame is the duration field of its frame
    header when the load got to that header, its magic matched and the
    field is greater than 0; otherwise, in a frame whose header stores
    duration 0 in particular, it is still the legacy speed. *)
Theorem frame_durations_after_load (zl : Zlib) (fuel : nat) (f : FILE) (fop : FileOp)
    (header : ASE_Header) (f1 : FILE) (loaded : Loaded) (st : LoadState) :
  ase_file_read_header f = (Some header, f1) ->
  onLoad zl fuel (Some f) fop = Ok loaded ->
  final loaded = Some st ->
  let seen :=
    frame_headers_read zl fuel header (Z.to_nat (h_frames header)) 0
      (mkLoad f1 fop (header_sprite header) [] (-1)) in
  spr_frlen (header_sprite header)
  = replicate (Z.to_nat (h_frames header)) (h_speed header)
  /\ fop_document (out_fop loaded) = Some (ld_sprite st)
  /\ forall i, (i < Z.to_nat (h_frames header))%nat ->
       spr_frlen (ld_sprite st) !! i
       = Some (loaded_duration (h_speed header) (seen !! i)).
Proof.
  intros Hh Hload Hfinal seen.
  destruct (header_sprite_durations header) as [Hfr Hlen].
  split; [ exact Hlen | ].
  unfold onLoad in Hload. rewrite Hh in Hload.
  unfold getTotalFrames, getFolder in Hload. rewrite Hfr in Hload.
  destruct (load_frames _ _ _ _ _ _) as [st1 | |] eqn:E; try discriminate.
  assert (Hst : st1 = st /\ fop_document (out_fop loaded) = Some (ld_sprite st)).
  { destruct (ferror (ld_file st1)); injection Hload as <-; simpl in Hfinal;
      injection Hfinal as <-; split; reflexivity. }
  destruct Hst as [-> Hdoc]. split; [ exact Hdoc | ].
  pose proof (read_header_frames _ _ _ Hh) as Hpos.
  destruct (load_frames_durations zl fuel header (h_speed header) _ _ _ _ E)
    as [_ H2]; cbn [ld_sprite].
  - lia.
  - rewrite Hfr. lia.
  - rewrite Hlen, Hfr, length_replicate. lia.
  - intros k Hk. rewrite Hlen. apply lookup_replicate_2. lia.
  - intros i Hi. apply (H2 i Hi).
Qed.

Lemma frame_durations_after_load_witness :
  exists header f1 loaded st,
    ase_file_read_header (open_file two_frames_stream) = (Some header, f1)
    /\ onLoad zlib_store 0 (Some (open_file two_frames_stream)) new_fop = Ok loaded
    /\ final loaded = Some st
    /\ h_speed header = 100
    /\ map fh_duration
         (frame_headers_read zlib_store 0 header 2 0
            (mkLoad f1 new_fop (header_sprite header) [] (-1))) = [0; 250]
    /\ spr_frlen (ld_sprite st) !! 0%nat = Some 100
    /\ spr_frlen (ld_sprite st) !! 1%nat = Some 250.
Proof.
  assert (H1 : ase_file_read_header (open_file two_frames_stream)
               = (Some (mkHeader 0 160 ASE_FILE_MAGIC 2 4 4 8 0 100 0 0 0 (0, 0, 0) 256),
                  mkFILE two_frames_stream 128 false))
    by (vm_compute; reflexivity).
  assert (H2 : exists loaded st,
             onLoad zlib_store 0 (Some (open_file two_frames_stream)) new_fop = Ok loaded
             /\ final loaded = Some st)
    by (eexists _, _; split; vm_compute; reflexivity).
  destruct H2 as (loaded & st & H2 & H3).
  eexists _, _, loaded, st.
  split; [ exact H1 | ]. split; [ exact H2 | ]. split; [ exact H3 | ].
  split; [ reflexivity | ]. split; [ vm_compute; reflexivity | ].
  destruct (frame_durations_after_load zlib_store 0 _ new_fop _ _ loaded st H1 H2 H3)
    as (_ & _ & Hd).
  split; [ exact (Hd 0%nat ltac:(vm_compute; lia))
         | exact (Hd 1%nat ltac:(vm_compute; lia)) ].
Defined.

(** ** Progress reports *)

Lemma chain_snoc (l : list Z) (x : Z) :
  chain Z.le l -> Forall (fun a => a <= x) l -> chain Z.le (l ++ [x]).
Proof.
  induction l as [| a l IH]; intros Hc Hf; simpl; [ exact I | ].
  inversion Hf as [| a' l' Ha Hl]; subst.
  destruct l as [| b l]; simpl in *.
  - split; [ exact Ha | exact I ].
  - destruct Hc as [Hab Hc]. split; [ exact Hab | ]. apply IH; assumption.
Qed.

Lemma log_ok_weaken den log c c' : log_ok den log c -> c <= c' -> log_ok den log c'.
Proof.
  intros [Hc Hf] Hle. split; [ exact Hc | ].
  eapply Forall_impl; [ exact Hf | ]. simpl. intros p [? ?]. split; [ lia | assumption ].
Qed.

Lemma log_ok_report den fop c c' :
  log_ok den (fop_progress_log fop) c -> c <= c' ->
  log_ok den (fop_progress_log (fop_progress fop c' den)) c'.
Proof.
  intros [Hc Hf] Hle. unfold fop_progress. simpl. split.
  - rewrite map_app. simpl. apply chain_snoc; [ exact Hc | ].
    apply Forall_map. eapply Forall_impl; [ exact Hf | ]. simpl. intros p [? ?]. lia.
  - apply Forall_app. split.
    + eapply Forall_impl; [ exact Hf | ]. simpl. intros p [? ?]. split; [ lia | assumption ].
    + constructor; [ simpl; split; [ lia | reflexivity ] | constructor ].
Qed.

Lemma step_ok_reads den f fop f' : reads f f' -> step_ok den f fop f' fop.
Proof.
  intros H. split; [ exact H | ]. intros Hl.
  eapply log_ok_weaken; [ exact Hl | apply H ].
Qed.

Lemma step_ok_error den f fop f' fop' msg args :
  step_ok den f fop f' fop' -> step_ok den f fop f' (fop_error fop' msg args).
Proof. intros [H1 H2]. split; [ exact H1 | exact H2 ]. Qed.

Lemma step_ok_trans den f fop f1 fop1 f2 fop2 :
  step_ok den f fop f1 fop1 -> step_ok den f1 fop1 f2 fop2 -> step_ok den f fop f2 fop2.
Proof.
  intros [H1 H2] [H3 H4]. split; [ eapply reads_trans; eauto | auto ].
Qed.

Lemma step_ok_report den f fop f' :
  reads f f' -> step_ok den f fop f' (fop_progress fop (ftell f') den).
Proof.
  intros H. split; [ exact H | ]. intros Hl.
  apply log_ok_report with (c := cursor f); [ exact Hl | apply H ].
Qed.

Lemma read_pixel_reads fmt f : reads f (snd (read_pixel fmt f)).
Proof.
  unfold read_pixel. destruct fmt.
  - pose proof (fgetc_reads f) as H1. destruct (fgetc f) as [? f1]. simpl in H1.
    pose proof (fgetc_reads f1) as H2. destruct (fgetc f1) as [? f2]. simpl in H2.
    pose proof (fgetc_reads f2) as H3. destruct (fgetc f2) as [? f3]. simpl in H3.
    pose proof (fgetc_reads f3) as H4. destruct (fgetc f3) as [? f4]. simpl in H4.
    simpl. eauto using reads_trans.
  - pose proof (fgetc_reads f) as H1. destruct (fgetc f) as [? f1]. simpl in H1.
    pose proof (fgetc_reads f1) as H2. destruct (fgetc f1) as [? f2]. simpl in H2.
    simpl. eauto using reads_trans.
  - pose proof (fgetc_reads f) as H1. destruct (fgetc f) as [? f1]. exact H1.
Qed.

Lemma read_raw_row_reads n : forall x y f image,
  reads f (snd (read_raw_row n x y f image)).
Proof.
  induction n as [| n IH]; intros x y f image; simpl; [ apply reads_refl | ].
  pose proof (read_pixel_reads (img_format image) f) as H1.
  destruct (read_pixel (img_format image) f) as [c f1]. simpl in H1.
  eapply reads_trans; [ exact H1 | apply IH ].
Qed.

Lemma read_raw_rows_step n : forall y f image fop header,
  let r := read_raw_rows n y f image fop header in
  step_ok (h_size header) f fop (snd (fst r)) (snd r).
Proof.
  induction n as [| n IH]; intros y f image fop header; simpl.
  - apply step_ok_reads, reads_refl.
  - pose proof (read_raw_row_reads (Z.to_nat (img_w image)) 0 y f image) as H1.
    destruct (read_raw_row _ 0 y f image) as [image1 f1]. simpl in H1.
    eapply step_ok_trans; [ apply step_ok_report, H1 | apply IH ].
Qed.

Lemma inflate_blocks_step zl fuel : forall zs f chunk_end fop header scanline capacity
    uncompressed t zs' uncompressed' f' fop',
  inflate_blocks zl fuel zs f chunk_end fop header scanline capacity uncompressed
  = Ok (t, zs', uncompressed', f', fop') ->
  step_ok (h_size header) f fop f' fop'.
Proof.
  induction fuel as [| fuel IH]; intros zs f chunk_end fop header scanline capacity
    uncompressed t zs' uncompressed' f' fop' H; simpl in H; [ discriminate | ].
  destruct (_ && negb _); [ discriminate | ].
  destruct (_ && (_ =? 0)).
  { injection H as <- <- <- <- <-. apply step_ok_reads, reads_refl. }
  pose proof (fread_reads f
                (if chunk_end <? to_size_t (ftell f + 4096)
                 then to_size_t (chunk_end - ftell f) else 4096)) as H1.
  destruct (fread f _) as [compressed f1]. simpl in H1.
  destruct (inflate_drain _ _ _ _ _ _) as [[[[| what args] zs1] u1] | |];
    try discriminate.
  - eapply step_ok_trans; [ apply step_ok_report, H1 | eapply IH, H ].
  - injection H as <- <- <- <- <-. apply step_ok_reads, H1.
Qed.

Lemma read_compressed_image_step zl fuel f image chunk_end fop header t image' f' fop' :
  read_compressed_image zl fuel f image chunk_end fop header = Ok (t, image', f', fop') ->
  step_ok (h_size header) f fop f' fop'.
Proof.
  unfold read_compressed_image. intros H.
  destruct (inflateInit zl) as [err zs].
  destruct (negb (err =? Z_OK)).
  { injection H as <- <- <- <-. apply step_ok_reads, reads_refl. }
  destruct (inflate_blocks _ _ _ _ _ _ _ _ _ _)
    as [[[[[[| what args] zs1] u1] f1] fop1] | |] eqn:E; try discriminate.
  - apply inflate_blocks_step in E.
    destruct (negb _); injection H as <- <- <- <-; exact E.
  - apply inflate_blocks_step in E. injection H as <- <- <- <-. exact E.
Qed.

Lemma cel_chunk_step zl fuel f sprite frame fmt fop header chunk_end r f' sprite' fop' :
  ase_file_read_cel_chunk zl fuel f sprite frame fmt fop header chunk_end
  = Ok (r, f', sprite', fop') ->
  step_ok (h_size header) f fop f' fop'.
Proof.
  unfold ase_file_read_cel_chunk. intros H.
  pose proof (read_cel_data_reads f) as H0.
  destruct (read_cel_data f) as [data f0]. simpl in H0.
  eapply step_ok_trans; [ apply step_ok_reads, H0 | ].
  destruct (indexToLayer sprite _) as [layer |].
  2: { injection H as <- <- <- <-. apply step_ok_error, step_ok_reads, reads_refl. }
  destruct (deref _ layer) as [l |]; [ | discriminate ].
  destruct (negb (isImage l)).
  { injection H as <- <- <- <-. apply step_ok_error, step_ok_reads, reads_refl. }
  destruct (_ =? ASE_FILE_RAW_CEL).
  { pose proof (fgetw_reads f0) as H1. destruct (fgetw f0) as [w f1]. simpl in H1.
    pose proof (fgetw_reads f1) as H2. destruct (fgetw f1) as [h f2]. simpl in H2.
    eapply step_ok_trans; [ apply step_ok_reads; eapply reads_trans; eauto | ].
    destruct (_ && _).
    - unfold read_raw_image in H.
      pose proof (read_raw_rows_step (Z.to_nat (img_h (Image_create fmt w h))) 0 f2
                    (Image_create fmt w h) fop header) as H3.
      simpl in H3.
      destruct (read_raw_rows _ 0 f2 _ fop header) as [[image f3] fop3].
      destruct (store_image sprite _ image) as [s c].
      injection H as <- <- <- <-. exact H3.
    - injection H as <- <- <- <-. apply step_ok_reads, reads_refl. }
  destruct (_ =? ASE_FILE_LINK_CEL).
  { pose proof (fgetw_reads f0) as H1. destruct (fgetw f0) as [lf f1]. simpl in H1.
    destruct (getCel l lf) as [link |].
    - destruct (getImage _ _) as [src |]; [ | discriminate ].
      destruct (store_image sprite _ _) as [s c].
      injection H as <- <- <- <-. apply step_ok_reads, H1.
    - injection H as <- <- <- <-. apply step_ok_reads, H1. }
  destruct (_ =? ASE_FILE_COMPRESSED_CEL).
  { pose proof (fgetw_reads f0) as H1. destruct (fgetw f0) as [w f1]. simpl in H1.
    pose proof (fgetw_reads f1) as H2. destruct (fgetw f1) as [h f2]. simpl in H2.
    eapply step_ok_trans; [ apply step_ok_reads; eapply reads_trans; eauto | ].
    destruct (_ && _).
    - destruct (read_compressed_image _ _ _ _ _ _ _) as [[[[t image] f3] fop3] | |] eqn:E;
        try discriminate.
      apply read_compressed_image_step in E.
      destruct (store_image sprite _ image) as [s c].
      injection H as <- <- <- <-.
      destruct t; [ exact E | apply step_ok_error, E ].
    - injection H as <- <- <- <-. apply step_ok_reads, reads_refl. }
  injection H as <- <- <- <-. apply step_ok_reads, reads_refl.
Qed.

Lemma read_color_entries_reads scale n : forall c f pal pal' f',
  read_color_entries scale n c f pal = Ok (pal', f') -> reads f f'.
Proof.
  induction n as [| n IH]; intros c f pal pal' f' H; simpl in H.
  - injection H as <- <-. apply reads_refl.
  - pose proof (fgetc_reads f) as H1. destruct (fgetc f) as [r f1]. simpl in H1.
    pose proof (fgetc_reads f1) as H2. destruct (fgetc f1) as [g f2]. simpl in H2.
    pose proof (fgetc_reads f2) as H3. destruct (fgetc f2) as [b f3]. simpl in H3.
    destruct (scale r); [ | discriminate ].
    destruct (scale g); [ | discriminate ].
    destruct (scale b); [ | discriminate ].
    destruct (setEntry _ _ _); [ | discriminate ].
    apply IH in H. eauto using reads_trans.
Qed.

Lemma read_color_packets_reads scale n : forall skip f pal pal' f',
  read_color_packets scale n skip f pal = Ok (pal', f') -> reads f f'.
Proof.
  induction n as [| n IH]; intros skip f pal pal' f' H; simpl in H.
  - injection H as <- <-. apply reads_refl.
  - pose proof (fgetc_reads f) as H1. destruct (fgetc f) as [s f1]. simpl in H1.
    pose proof (fgetc_reads f1) as H2. destruct (fgetc f1) as [size f2]. simpl in H2.
    destruct (read_color_entries _ _ _ _ _) as [[pal1 f3] | |] eqn:E; try discriminate.
    apply read_color_entries_reads in E. apply IH in H. eauto using reads_trans.
Qed.

Lemma color_chunk_reads f sprite frame pal f' :
  ase_file_read_color_chunk f sprite frame = Ok (pal, f') -> reads f f'.
Proof.
  unfold ase_file_read_color_chunk. destruct (getPalette _ _) as [pal0 |]; [ | discriminate ].
  pose proof (fgetw_reads f) as H1. destruct (fgetw f) as [np f1]. simpl in H1.
  intros H. apply read_color_packets_reads in H. eauto using reads_trans.
Qed.

Lemma color2_chunk_reads f sprite frame pal f' :
  ase_file_read_color2_chunk f sprite frame = Ok (pal, f') -> reads f f'.
Proof.
  unfold ase_file_read_color2_chunk. destruct (getPalette _ _) as [pal0 |]; [ | discriminate ].
  pose proof (fgetw_reads f) as H1. destruct (fgetw f) as [np f1]. simpl in H1.
  intros H. apply read_color_packets_reads in H. eauto using reads_trans.
Qed.

Lemma layer_chunk_reads f sprite prev level f' sprite' p' level' :
  ase_file_read_layer_chunk f sprite prev level = Ok (f', sprite', p', level') ->
  reads f f'.
Proof.
  unfold ase_file_read_layer_chunk.
  pose proof (fgetw_reads f) as H1. destruct (fgetw f) as [? f1]. simpl in H1.
  pose proof (fgetw_reads f1) as H2. destruct (fgetw f1) as [? f2]. simpl in H2.
  pose proof (fgetw_reads f2) as H3. destruct (fgetw f2) as [? f3]. simpl in H3.
  pose proof (fgetw_reads f3) as H4. destruct (fgetw f3) as [? f4]. simpl in H4.
  pose proof (fgetw_reads f4) as H5. destruct (fgetw f4) as [? f5]. simpl in H5.
  pose proof (fgetw_reads f5) as H6. destruct (fgetw f5) as [? f6]. simpl in H6.
  pose proof (padding_reads 4 f6) as H7.
  pose proof (read_string_reads (ase_file_read_padding f6 4)) as H8.
  destruct (ase_file_read_string _) as [name f8]. simpl in H8.
  assert (Hall : reads f f8) by eauto 10 using reads_trans.
  intros H. break_result H; injection H as <- <- <- <-; exact Hall.
Qed.

Lemma mask_read_row_reads n : forall u v f m, reads f (snd (mask_read_row n u v f m)).
Proof.
  induction n as [| n IH]; intros u v f m; simpl; [ apply reads_refl | ].
  pose proof (fgetc_reads f) as H1. destruct (fgetc f) as [b f1]. simpl in H1.
  eapply reads_trans; [ exact H1 | apply IH ].
Qed.

Lemma mask_read_rows_reads n : forall v w f m, reads f (snd (mask_read_rows n v w f m)).
Proof.
  induction n as [| n IH]; intros v w f m; simpl; [ apply reads_refl | ].
  pose proof (mask_read_row_reads (Z.to_nat ((w + 7) / 8)) 0 v f m) as H1.
  destruct (mask_read_row _ 0 v f m) as [m1 f1]. simpl in H1.
  eapply reads_trans; [ exact H1 | apply IH ].
Qed.

Lemma mask_chunk_reads f : reads f (snd (ase_file_read_mask_chunk f)).
Proof.
  unfold ase_file_read_mask_chunk.
  pose proof (fgetw_reads f) as H1. destruct (fgetw f) as [? f1]. simpl in H1.
  pose proof (fgetw_reads f1) as H2. destruct (fgetw f1) as [? f2]. simpl in H2.
  pose proof (fgetw_reads f2) as H3. destruct (fgetw f2) as [? f3]. simpl in H3.
  pose proof (fgetw_reads f3) as H4. destruct (fgetw f3) as [? f4]. simpl in H4.
  pose proof (padding_reads 8 f4) as H5.
  pose proof (read_string_reads (ase_file_read_padding f4 8)) as H6.
  destruct (ase_file_read_string _) as [name f6]. simpl in H6.
  eapply reads_trans; [ | apply mask_read_rows_reads ].
  eauto 10 using reads_trans.
Qed.

Lemma dispatch_chunk_step zl fuel header frame chunk_pos chunk_size chunk_type st st' :
  dispatch_chunk zl fuel header frame chunk_pos chunk_size chunk_type st = Ok st' ->
  step_ok (h_size header) (ld_file st) (ld_fop st) (ld_file st') (ld_fop st').
Proof.
  unfold dispatch_chunk. intros H.
  destruct (_ || _).
  { destruct (getPixelFormat _).
    1, 2: injection H as <-; apply step_ok_error, step_ok_reads, reads_refl.
    destruct (getPalette _ _) as [pal0 |]; [ | discriminate ].
    destruct (chunk_type =? ASE_FILE_CHUNK_FLI_COLOR).
    - destruct (ase_file_read_color_chunk _ _ _) as [[pal f1] | |] eqn:E; try discriminate.
      injection H as <-. apply step_ok_reads. eapply color_chunk_reads, E.
    - destruct (ase_file_read_color2_chunk _ _ _) as [[pal f1] | |] eqn:E; try discriminate.
      injection H as <-. apply step_ok_reads. eapply color2_chunk_reads, E. }
  destruct (chunk_type =? ASE_FILE_CHUNK_LAYER).
  { destruct (ase_file_read_layer_chunk _ _ _ _) as [[[[f1 s1] p1] l1] | |] eqn:E;
      try discriminate.
    injection H as <-. apply step_ok_reads. eapply layer_chunk_reads, E. }
  destruct (chunk_type =? ASE_FILE_CHUNK_CEL).
  { destruct (ase_file_read_cel_chunk _ _ _ _ _ _ _ _ _) as [[[[r1 f1] s1] p1] | |] eqn:E;
      try discriminate.
    injection H as <-. eapply cel_chunk_step, E. }
  destruct (chunk_type =? ASE_FILE_CHUNK_MASK).
  { pose proof (mask_chunk_reads (ld_file st)) as H1.
    destruct (ase_file_read_mask_chunk _) as [m f1]. injection H as <-.
    apply step_ok_reads, H1. }
  destruct (chunk_type =? ASE_FILE_CHUNK_PATH).
  { injection H as <-. apply step_ok_reads, reads_refl. }
  injection H as <-. apply step_ok_error, step_ok_reads, reads_refl.
Qed.



(** ** Progress reports of a load *)



Lemma chain_app_l (l m : list Z) : chain Z.le (l ++ m) -> chain Z.le l.
Proof.
  induction l as [| a l IH]; intros H; [ exact I | ].
  destruct l as [| b l]; [ exact I | ].
  cbn [app chain] in H |- *. destruct H as [Hab H]. split; [ exact Hab | apply IH, H ].
Qed.

































(** ** Palette chunks *)

Lemma rgba_value r g b a :
  _rgba r g b a
  = to_uint8 r + 256 * to_uint8 g + 65536 * to_uint8 b + 16777216 * to_uint8 a.
Proof.
  unfold _rgba.
  rewrite <- (long_of_bytes (to_uint8 r) (to_uint8 g) (to_uint8 b) (to_uint8 a))
    by apply to_uint8_range.
  apply Z.bits_inj'. intros n Hn. rewrite !Z.lor_spec.
  repeat match goal with |- context [Z.testbit ?x n] => destruct (Z.testbit x n) end;
    reflexivity.
Qed.


Lemma stream_from_cons f b rest :
  stream_from f = b :: rest ->
  byte_at f (cursor f) = Some b /\ stream_from (advance f 1) = rest.
Proof.
  unfold stream_from, byte_at, advance. simpl.
  destruct (cursor f <? 0) eqn:E; [ discriminate | ].
  apply Z.ltb_ge in E. intros H.
  destruct (cursor f + 1 <? 0) eqn:E1; [ apply Z.ltb_lt in E1; lia | ].
  split.
  - replace (Z.to_nat (cursor f)) with (Z.to_nat (cursor f) + 0)%nat by lia.
    rewrite <- lookup_drop, H. reflexivity.
  - replace (Z.to_nat (cursor f + 1)) with (Z.to_nat (cursor f) + 1)%nat by lia.
    rewrite <- drop_drop, H. reflexivity.
Qed.

Lemma fgetc_stream f b rest :
  stream_from f = b :: rest -> is_byte b ->
  fgetc f = (b, advance f 1) /\ stream_from (advance f 1) = rest.
Proof.
  intros H Hb. destruct (stream_from_cons _ _ _ H) as [H1 H2].
  split; [ | exact H2 ].
  rewrite (fgetc_some _ _ H1), to_uint8_small by exact Hb. reflexivity.
Qed.

Lemma advance_advance f n m : advance (advance f n) m = advance f (n + m).
Proof. unfold advance. simpl. f_equal. lia. Qed.

Lemma read_color_entries_decodes colors : forall c f pal rest,
  stream_from f = flat_map triple_bytes colors ++ rest ->
  Forall triple_wf colors ->
  0 <= c -> c + Z.of_nat (length colors) <= pal_size pal ->
  read_color_entries Some (length colors) c f pal
  = Ok (mkPalette (pal_frame pal) (write_entries (Z.to_nat c) colors (pal_colors pal)),
        advance f (3 * Z.of_nat (length colors)))
  /\ stream_from (advance f (3 * Z.of_nat (length colors))) = rest.
Proof.
  induction colors as [| [[r g] b] colors IH]; intros c f pal rest Hs Hwf Hc Hfit.
  - simpl in *. unfold advance. simpl. rewrite Z.add_0_r.
    destruct f, pal; simpl in *. split; [ reflexivity | exact Hs ].
  - inversion Hwf as [| x l Ht Hwf']; subst x l.
    simpl in Ht. destruct Ht as (Hr & Hg & Hb).
    simpl in Hs. simpl length in *.
    destruct (fgetc_stream _ _ _ Hs Hr) as [E1 Hs1].
    destruct (fgetc_stream _ _ _ Hs1 Hg) as [E2 Hs2].
    destruct (fgetc_stream _ _ _ Hs2 Hb) as [E3 Hs3].
    rewrite !advance_advance in *.
    change (1 + 1 + 1) with 3 in *. change (1 + (1 + 1)) with 3 in *.
    cbn [read_color_entries length]. rewrite E1, E2, E3.
    unfold setEntry.
    replace ((0 <=? c) && (c <? pal_size pal)) with true
      by (symmetry; apply andb_true_iff; split; [ apply Z.leb_le | apply Z.ltb_lt ]; lia).
    destruct (IH (c + 1) (advance f 3)
                (mkPalette (pal_frame pal)
                   (<[Z.to_nat c := _rgba r g b 255]> (pal_colors pal))) rest Hs3 Hwf')
      as [E4 Hs4]; [ lia | unfold pal_size in *; simpl; rewrite length_insert; lia | ].
    rewrite E4. rewrite advance_advance in *. simpl.
    replace (Z.to_nat (c + 1)) with (S (Z.to_nat c)) by lia.
    replace (3 + 3 * Z.of_nat (length colors))
      with (3 * Z.of_nat (S (length colors))) in * by lia.
    split; [ reflexivity | exact Hs4 ].
Qed.

Lemma triple_bytes_length cs :
  length (flat_map triple_bytes cs) = (3 * length cs)%nat.
Proof.
  induction cs as [| [[? ?] ?] cs IH]; simpl; [ reflexivity | ]. rewrite IH. lia.
Qed.

Lemma packet_bytes_length p :
  length (packet_bytes p) = (2 + 3 * length (pk_colors p))%nat.
Proof. unfold packet_bytes. simpl. rewrite triple_bytes_length. reflexivity. Qed.

Lemma write_entries_length cs : forall i es, length (write_entries i cs es) = length es.
Proof.
  induction cs as [| [[? ?] ?] cs IH]; intros i es; simpl; [ reflexivity | ].
  rewrite IH, length_insert. reflexivity.
Qed.

Lemma read_color_packets_decodes packets : forall skip f pal rest,
  stream_from f = flat_map packet_bytes packets ++ rest ->
  Forall packet_wf packets ->
  0 <= skip -> packets_fit packets skip (pal_size pal) ->
  read_color_packets Some (length packets) skip f pal
  = Ok (mkPalette (pal_frame pal) (decode_packets packets skip (pal_colors pal)),
        advance f (packets_length packets))
  /\ stream_from (advance f (packets_length packets)) = rest.
Proof.
  unfold packets_length.
  induction packets as [| p packets IH]; intros skip f pal rest Hs Hwf Hc Hfit.
  - simpl in *. unfold advance. simpl. rewrite Z.add_0_r.
    destruct f, pal; simpl in *. split; [ reflexivity | exact Hs ].
  - inversion Hwf as [| x l Hp Hwf']; subst x l.
    destruct Hp as (Hsk & Hsz & Hlen & Hcol).
    destruct Hfit as [Hfit Hfit'].
    cbn [flat_map] in Hs. unfold packet_bytes in Hs at 1.
    rewrite <- !app_assoc in Hs. cbn [app] in Hs.
    destruct (fgetc_stream _ _ _ Hs Hsk) as [E1 Hs1].
    destruct (fgetc_stream _ _ _ Hs1 Hsz) as [E2 Hs2].
    rewrite !advance_advance in *. change (1 + 1) with 2 in *.
    cbn [read_color_packets length]. rewrite E1, E2.
    fold (packet_count p). rewrite <- Hlen, Nat2Z.id.
    unfold is_byte in *.
    destruct (read_color_entries_decodes (pk_colors p) (skip + pk_skip p) (advance f 2)
                pal _ Hs2 Hcol) as [E3 Hs3]; [ lia | lia | ].
    rewrite E3.
    destruct (IH (skip + pk_skip p) _
                (mkPalette (pal_frame pal)
                   (write_entries (Z.to_nat (skip + pk_skip p)) (pk_colors p)
                      (pal_colors pal))) rest Hs3 Hwf') as [E4 Hs4].
    + lia.
    + unfold pal_size in *. simpl.
      rewrite write_entries_length. exact Hfit'.
    + rewrite E4. cbn [pal_frame pal_colors].
      assert (Hn : Z.of_nat (length (flat_map packet_bytes (p :: packets)))
                   = 2 + 3 * Z.of_nat (length (pk_colors p))
                     + Z.of_nat (length (flat_map packet_bytes packets))).
      { cbn [flat_map]. rewrite length_app, packet_bytes_length. lia. }
      rewrite Hn, <- !advance_advance. split; [ reflexivity | exact Hs4 ].
Qed.

Lemma fgetw_stream f n rest :
  stream_from f = le16 n ++ rest -> 0 <= n < 65536 ->
  fgetw f = (n, advance f 2) /\ stream_from (advance f 2) = rest.
Proof.
  unfold le16. intros Hs Hn. simpl in Hs.
  assert (H1 : is_byte (n mod 256)) by (apply Z.mod_pos_bound; lia).
  assert (H2 : is_byte ((n / 256) mod 256)) by (apply Z.mod_pos_bound; lia).
  destruct (fgetc_stream _ _ _ Hs H1) as [E1 Hs1].
  destruct (fgetc_stream _ _ _ Hs1 H2) as [E2 Hs2].
  rewrite advance_advance in *. change (1 + 1) with 2 in *.
  unfold fgetw. rewrite E1.
  unfold is_byte, EOF in *.
  destruct (n mod 256 =? -1) eqn:E; [ apply Z.eqb_eq in E; lia | ].
  rewrite E2.
  destruct ((n / 256) mod 256 =? -1) eqn:E'; [ apply Z.eqb_eq in E'; lia | ].
  rewrite word_of_bytes by assumption.
  split; [ | exact Hs2 ].
  f_equal. rewrite (Z.mod_small (n / 256)).
  - pose proof (Z.div_mod n 256 ltac:(lia)). lia.
  - split; [ apply Z.div_pos; lia | apply Z.div_lt_upper_bound; lia ].
Qed.

(** The entries of a packet replace the entries they are written over
    and no other entry. *)
Lemma write_entries_all colors : forall i entries,
  (i + length colors <= length entries)%nat ->
  write_entries i colors entries
  = take i entries ++ map opaque_color colors ++ drop (i + length colors) entries.
Proof.
  induction colors as [| [[r g] b] colors IH]; intros i entries Hfit; simpl in *.
  - rewrite Nat.add_0_r, take_drop. reflexivity.
  - rewrite IH by (rewrite length_insert; lia).
    rewrite (take_S_r _ i (_rgba r g b 255)) by (apply list_lookup_insert_eq; lia).
    rewrite take_insert_ge by lia.
    rewrite drop_insert_lt by lia.
    rewrite <- app_assoc. simpl.
    replace (S (i + length colors))%nat with (i + S (length colors))%nat by lia.
    reflexivity.
Qed.





(** ** Writing *)

Lemma write_at_length l i b :
  length (write_at l i b) = Nat.max (length l) (S i).
Proof.
  unfold write_at. destruct (decide (i < length l)%nat).
  - rewrite length_insert. lia.
  - rewrite !length_app, length_replicate. simpl. lia.
Qed.

Lemma write_at_lookup_eq l i b : write_at l i b !! i = Some b.
Proof.
  unfold write_at. destruct (decide (i < length l)%nat).
  - apply list_lookup_insert_eq. assumption.
  - rewrite lookup_app_r by lia. rewrite lookup_app_r by (rewrite length_replicate; lia).
    rewrite length_replicate. replace (i - length l - (i - length l))%nat with 0%nat by lia.
    reflexivity.
Qed.

Lemma write_at_lookup_ne l i j b x :
  i <> j -> l !! j = Some x -> write_at l i b !! j = Some x.
Proof.
  intros Hne H. unfold write_at. destruct (decide (i < length l)%nat).
  - rewrite list_lookup_insert_ne by assumption. exact H.
  - apply lookup_app_l_Some. exact H.
Qed.

Lemma byte_at_lookup f q b :
  byte_at f q = Some b <-> 0 <= q /\ contents f !! Z.to_nat q = Some b.
Proof.
  unfold byte_at. destruct (q <? 0) eqn:E.
  - apply Z.ltb_lt in E. split; [ discriminate | intros [? _]; lia ].
  - apply Z.ltb_ge in E. tauto.
Qed.

Lemma wrote_nil f : 0 <= cursor f -> wrote f f [].
Proof.
  intros H. unfold wrote, holds. simpl. rewrite Z.add_0_r.
  repeat split; try lia; try congruence; auto.
  intros k b Hk. rewrite lookup_nil in Hk. discriminate.
Qed.

Lemma wrote_fputc c f : 0 <= cursor f -> wrote f (fputc c f) [to_uint8 c].
Proof.
  intros H. unfold fputc.
  destruct (cursor f <? 0) eqn:E; [ apply Z.ltb_lt in E; lia | ].
  unfold wrote, holds, file_length. simpl.
  rewrite write_at_length.
  repeat split; try lia.
  - intros [| k] b Hk; simpl in Hk; [ | rewrite lookup_nil in Hk; discriminate ].
    injection Hk as <-. rewrite Nat.add_0_r. apply write_at_lookup_eq.
  - intros q b Hq Hb. apply byte_at_lookup in Hb. destruct Hb as [H0 Hb].
    apply byte_at_lookup. split; [ exact H0 | ]. simpl.
    apply write_at_lookup_ne; [ lia | exact Hb ].
Qed.

Lemma holds_app f p b1 b2 :
  holds f p b1 -> holds f (p + Z.of_nat (length b1)) b2 -> holds f p (b1 ++ b2).
Proof.
  intros [H0 H1] [_ H2]. split; [ exact H0 | ].
  intros k b Hk. apply lookup_app_Some in Hk. destruct Hk as [Hk | [Hle Hk]].
  - apply H1, Hk.
  - specialize (H2 _ _ Hk).
    replace (Z.to_nat p + k)%nat
      with (Z.to_nat (p + Z.of_nat (length b1)) + (k - length b1))%nat by lia.
    exact H2.
Qed.

Lemma holds_kept f f' p bytes :
  holds f p bytes ->
  (forall q b, p <= q < p + Z.of_nat (length bytes) ->
               byte_at f q = Some b -> byte_at f' q = Some b) ->
  holds f' p bytes.
Proof.
  intros [H0 H] Hk. split; [ exact H0 | ].
  intros k b Hb. pose proof (lookup_lt_Some _ _ _ Hb) as Hlt.
  specialize (H _ _ Hb).
  assert (Hq : byte_at f (p + Z.of_nat k) = Some b).
  { apply byte_at_lookup. split; [ lia | ].
    replace (Z.to_nat (p + Z.of_nat k)) with (Z.to_nat p + k)%nat by lia. exact H. }
  apply Hk in Hq; [ | lia ].
  apply byte_at_lookup in Hq. destruct Hq as [_ Hq].
  replace (Z.to_nat (p + Z.of_nat k)) with (Z.to_nat p + k)%nat in Hq by lia. exact Hq.
Qed.

Lemma wrote_app f f1 f2 b1 b2 :
  wrote f f1 b1 -> wrote f1 f2 b2 -> wrote f f2 (b1 ++ b2).
Proof.
  intros (A0 & A1 & A2 & A3 & A4 & A5 & A6 & A7) (B0 & B1 & B2 & B3 & B4 & B5 & B6 & B7).
  unfold wrote. rewrite length_app, Nat2Z.inj_add.
  split; [ exact A0 | ]. split; [ lia | ]. split; [ congruence | ].
  split; [ | split; [ | split; [ lia | split ] ] ].
  - apply holds_app.
    + eapply holds_kept; [ exact A3 | ]. intros q b Hq. apply B4. lia.
    + rewrite <- A1. exact B3.
  - intros q b Hq Hb. apply B4; [ lia | ]. apply A4; [ lia | exact Hb ].
  - lia.
  - intros Hne. destruct b2 as [| x b2].
    + simpl in B1. rewrite app_nil_r in Hne. specialize (A7 Hne). lia.
    + apply B7. discriminate.
Qed.

Lemma wrote_fputw w f : 0 <= cursor f -> wrote f (fputw w f) (word_bytes w).
Proof.
  intros H. unfold fputw, word_bytes.
  pose proof (wrote_fputc (Z.land w 255) f H) as H1.
  eapply (wrote_app _ _ _ [_] [_]); [ exact H1 | ].
  apply wrote_fputc. destruct H1 as (_ & -> & _). simpl. lia.
Qed.

Lemma wrote_cursor f f' bytes : wrote f f' bytes -> 0 <= cursor f'.
Proof. intros (H0 & H1 & _). lia. Qed.

Lemma wrote_fputl l f : 0 <= cursor f -> wrote f (fputl l f) (long_bytes l).
Proof.
  intros H. unfold fputl, long_bytes.
  pose proof (wrote_fputc (Z.land l 255) f H) as H1.
  pose proof (wrote_fputc (Z.land (Z.shiftr l 8) 255) _ (wrote_cursor _ _ _ H1)) as H2.
  pose proof (wrote_fputc (Z.land (Z.shiftr l 16) 255) _ (wrote_cursor _ _ _ H2)) as H3.
  pose proof (wrote_fputc (Z.land (Z.shiftr l 24) 255) _ (wrote_cursor _ _ _ H3)) as H4.
  exact (wrote_app _ _ _ [_] [_; _; _] H1
           (wrote_app _ _ _ [_] [_; _] H2 (wrote_app _ _ _ [_] [_] H3 H4))).
Qed.

Lemma wrote_fwrite bytes : forall f,
  0 <= cursor f -> wrote f (fwrite bytes f) (map to_uint8 bytes).
Proof.
  unfold fwrite. induction bytes as [| b bytes IH]; intros f H; simpl.
  - apply wrote_nil, H.
  - pose proof (wrote_fputc b f H) as H1.
    eapply (wrote_app _ _ _ [_]); [ exact H1 | ].
    apply IH. eapply wrote_cursor, H1.
Qed.

Lemma wrote_padding n : forall f,
  0 <= cursor f -> wrote f (ase_file_write_padding f n) (replicate n 0).
Proof.
  induction n as [| n IH]; intros f H; simpl.
  - apply wrote_nil, H.
  - pose proof (wrote_fputc 0 f H) as H1.
    eapply (wrote_app _ _ _ [_]); [ exact H1 | ].
    apply IH. eapply wrote_cursor, H1.
Qed.

Lemma wrote_string s f :
  0 <= cursor f ->
  wrote f (ase_file_write_string f s)
    (word_bytes (Z.of_nat (length s)) ++ map to_uint8 s).
Proof.
  intros H. unfold ase_file_write_string.
  pose proof (wrote_fputw (Z.of_nat (length s)) f H) as H1.
  eapply wrote_app; [ exact H1 | ].
  apply (wrote_fwrite s). eapply wrote_cursor, H1.
Qed.

Lemma fseek_contents f x : contents (fseek f x) = contents f.
Proof. unfold fseek. destruct (x <? 0); reflexivity. Qed.

Lemma fseek_ferror f x : ferror (fseek f x) = ferror f.
Proof. unfold fseek. destruct (x <? 0); reflexivity. Qed.

Lemma fseek_cursor f x : 0 <= x -> cursor (fseek f x) = x.
Proof.
  intros H. unfold fseek. destruct (x <? 0) eqn:E; [ apply Z.ltb_lt in E; lia | reflexivity ].
Qed.

Lemma fseek_byte_at f x q : byte_at (fseek f x) q = byte_at f q.
Proof. unfold byte_at. rewrite fseek_contents. reflexivity. Qed.

Lemma fseek_length f x : file_length (fseek f x) = file_length f.
Proof. unfold file_length. rewrite fseek_contents. reflexivity. Qed.

Lemma fseek_holds f x p bytes : holds (fseek f x) p bytes <-> holds f p bytes.
Proof. unfold holds. rewrite fseek_contents. reflexivity. Qed.

(** A header of [k] bytes that is left out first and written over once
    the body is there: the whole is the header followed by the body. *)
Lemma wrote_bracket f k fb fh hdr body :
  0 <= cursor f ->
  Z.of_nat (length hdr) = k -> hdr <> [] ->
  wrote (fseek f (cursor f + k)) fb body ->
  wrote (fseek fb (cursor f)) fh hdr ->
  wrote f (fseek fh (cursor f + k + Z.of_nat (length body))) (hdr ++ body).
Proof.
  intros H0 Hk Hne. subst k.
  intros (A0 & A1 & A2 & A3 & A4 & A5 & A6 & A7)
    (B0 & B1 & B2 & B3 & B4 & B5 & B6 & B7).
  rewrite fseek_cursor in * by lia.
  rewrite fseek_ferror, ?fseek_length in *.
  specialize (B7 Hne).
  unfold wrote.
  rewrite fseek_cursor, fseek_ferror, fseek_length, length_app, Nat2Z.inj_add by lia.
  split; [ exact H0 | ]. split; [ lia | ]. split; [ congruence | ].
  split; [ | split; [ | split; [ lia | split ] ] ].
  - apply fseek_holds, holds_app; [ exact B3 | ].
    eapply holds_kept; [ exact A3 | ].
    intros q b Hq Hb. apply B4; [ lia | ]. rewrite fseek_byte_at. exact Hb.
  - intros q b Hq Hb. rewrite fseek_byte_at.
    apply B4; [ lia | ]. rewrite fseek_byte_at.
    apply A4; [ lia | ]. rewrite fseek_byte_at. exact Hb.
  - lia.
  - intros _. destruct body as [| x body].
    + simpl in *. lia.
    + assert (Hb : x :: body <> []) by discriminate. specialize (A7 Hb). lia.
Qed.

(** The bytes of [fputw] and [fputl] are the little-endian ones. *)
Lemma land_shiftr_byte w k :
  0 <= k -> to_uint8 (Z.land (Z.shiftr w k) 0xff) = (w / 2 ^ k) mod 256.
Proof.
  intros Hk. change 255 with (Z.ones 8).
  rewrite Z.land_ones, Z.shiftr_div_pow2 by lia.
  change (2 ^ 8) with 256. unfold to_uint8. change (2 ^ 8) with 256.
  apply Z.mod_mod. lia.
Qed.

Lemma word_bytes_le16 w : word_bytes w = le16 w.
Proof.
  unfold word_bytes, le16.
  rewrite <- (Z.shiftr_0_r w) at 1.
  rewrite !land_shiftr_byte by lia.
  change (2 ^ 0) with 1. change (2 ^ 8) with 256. rewrite Z.div_1_r. reflexivity.
Qed.

Lemma long_bytes_le32 l : long_bytes l = le32 l.
Proof.
  unfold long_bytes, le32.
  rewrite <- (Z.shiftr_0_r l) at 1.
  rewrite !land_shiftr_byte by lia.
  change (2 ^ 0) with 1. change (2 ^ 8) with 256.
  change (2 ^ 16) with 65536. change (2 ^ 24) with 16777216.
  rewrite Z.div_1_r. reflexivity.
Qed.

Lemma grew_refl f : 0 <= cursor f -> grew f f.
Proof. intros H. split; [ exact H | lia ]. Qed.

Lemma grew_trans f g h : grew f g -> grew g h -> grew f h.
Proof. unfold grew. intros [? ?] [? ?]. split; lia. Qed.

Lemma wrote_grew f f' bytes : wrote f f' bytes -> grew f f'.
Proof.
  intros H. split; [ eapply wrote_cursor, H | ].
  destruct H as (_ & _ & _ & _ & _ & H & _). exact H.
Qed.

Lemma fseek_grew f x : 0 <= cursor f -> grew f (fseek f x).
Proof.
  intros H. split; [ | rewrite fseek_length; lia ].
  unfold fseek. destruct (x <? 0) eqn:E; [ exact H | ].
  apply Z.ltb_ge in E. exact E.
Qed.

Lemma close_chunk_grew st :
  0 <= cursor (sv_file st) ->
  grew (sv_file st) (sv_file (ase_file_write_close_chunk st)).
Proof.
  intros H. unfold ase_file_write_close_chunk. simpl.
  pose proof (fseek_grew (sv_file st) (sv_chunk_start st) H) as G1.
  pose proof (wrote_grew _ _ _ (wrote_fputl (to_int (to_int (ftell (sv_file st))
                                                       - sv_chunk_start st)) _ (proj1 G1)))
    as G2.
  pose proof (wrote_grew _ _ _ (wrote_fputw (sv_chunk_type st) _ (proj1 G2))) as G3.
  pose proof (fseek_grew _ (to_int (ftell (sv_file st))) (proj1 G3)) as G4.
  eauto using grew_trans.
Qed.

Lemma to_uint16_small z : 0 <= z < 65536 -> to_uint16 z = z.
Proof. intros H. unfold to_uint16. change (2 ^ 16) with 65536. apply Z.mod_small, H. Qed.

Lemma to_uint32_small z : 0 <= z < 2 ^ 32 -> to_uint32 z = z.
Proof. intros H. unfold to_uint32. apply Z.mod_small, H. Qed.

(** A chunk: [start_chunk], a body of bytes, [close_chunk]. *)
Lemma chunk_emitted type st st1 fb body :
  ase_file_write_start_chunk type st = Saved st1 ->
  0 <= cursor (sv_file st) ->
  wrote (sv_file st1) fb body -> body <> [] ->
  let st' := ase_file_write_close_chunk (sv_set_file st1 fb) in
  grew (sv_file st) (sv_file st')
  /\ (ready st -> fits (sv_file st') -> 0 <= type < 65536 ->
      emitted st st' [(type, body)]).
Proof.
  unfold ase_file_write_start_chunk. intros Hs H0 Hb Hne.
  set (st' := ase_file_write_close_chunk (sv_set_file st1 fb)).
  destruct (sv_current st) eqn:Hcur; [ | discriminate ].
  injection Hs as <-. simpl in Hb.
  assert (G : grew (sv_file st) (sv_file st')).
  { eapply grew_trans; [ apply fseek_grew, H0 | ].
    eapply grew_trans; [ eapply wrote_grew, Hb | ].
    apply (close_chunk_grew (sv_set_file _ fb)). simpl. eapply wrote_cursor, Hb. }
  split; [ exact G | ].
  intros (_ & _ & Hend & Hslack & _) Hfits Htype.
  unfold fits, INT_MAX in *. destruct G as [_ G].
  set (p := cursor (sv_file st)) in *.
  assert (Hp : to_int (ftell (sv_file st)) = p)
    by (apply to_int_small; unfold INT_MAX, ftell; fold p; lia).
  rewrite Hp in Hb.
  rewrite (to_int_small (p + 6)) in Hb by (unfold INT_MAX; lia).
  pose proof Hb as (_ & Hc & _ & _ & _ & _ & _ & Hlen).
  rewrite fseek_cursor in Hc by lia. specialize (Hlen Hne).
  assert (Hfb : file_length fb <= file_length (sv_file st')).
  { apply (close_chunk_grew (sv_set_file _ fb)). simpl. lia. }
  subst st'. unfold ase_file_write_close_chunk in *. simpl in *.
  rewrite Hp in *. unfold ftell in *. rewrite Hc in *.
  assert (E1 : to_int (p + 6 + Z.of_nat (length body)) = p + 6 + Z.of_nat (length body))
    by (apply to_int_small; unfold INT_MAX; lia).
  rewrite E1 in *.
  assert (E2 : p + 6 + Z.of_nat (length body) - p = 6 + Z.of_nat (length body)) by lia.
  rewrite E2 in *.
  assert (E3 : to_int (6 + Z.of_nat (length body)) = 6 + Z.of_nat (length body))
    by (apply to_int_small; unfold INT_MAX; lia).
  rewrite E3 in *.
  assert (Hh : wrote (fseek fb p)
                 (fputw type (fputl (6 + Z.of_nat (length body)) (fseek fb p)))
                 (le32 (6 + Z.of_nat (length body)) ++ le16 type)).
  { rewrite <- long_bytes_le32, <- word_bytes_le16.
    eapply wrote_app; [ apply wrote_fputl; rewrite fseek_cursor; lia | ].
    apply wrote_fputw. eapply wrote_cursor, wrote_fputl. rewrite fseek_cursor; lia. }
  assert (Hbr := wrote_bracket (sv_file st) 6 fb _
                   (le32 (6 + Z.of_nat (length body)) ++ le16 type) body H0 eq_refl
                   ltac:(discriminate) Hb Hh).
  fold p in Hbr.
  unfold emitted. simpl.
  split; [ | repeat split; try reflexivity ].
  - unfold chunks_bytes, chunk_bytes. cbn [flat_map fst snd].
    rewrite app_nil_r. rewrite <- app_assoc in Hbr. exact Hbr.
  - intros _. destruct Hbr as (_ & Hc' & _ & _ & _ & _ & Hmax & Hlen').
    specialize (Hlen' ltac:(discriminate)).
    rewrite length_app, Nat2Z.inj_add in Hc'. simpl in Hc'. lia.
Qed.

Lemma to_uint16_add_l a b : to_uint16 (to_uint16 a + b) = to_uint16 (a + b).
Proof. unfold to_uint16. apply Zplus_mod_idemp_l. Qed.

Lemma emitted_nil st : ready st -> emitted st st [].
Proof.
  intros (Hc & H & _ & _ & Hn). unfold emitted. simpl.
  rewrite Z.add_0_r, to_uint16_small by exact Hn.
  split; [ apply wrote_nil, H | ].
  split; [ exact Hc | ]. do 4 (split; [ reflexivity | ]).
  intros Hne. exfalso. apply Hne. reflexivity.
Qed.

Lemma emitted_app st st1 st2 cs1 cs2 :
  emitted st st1 cs1 -> emitted st1 st2 cs2 -> emitted st st2 (cs1 ++ cs2).
Proof.
  intros (A1 & A2 & A3 & A4 & A5 & A6 & A7) (B1 & B2 & B3 & B4 & B5 & B6 & B7).
  unfold emitted.
  split; [ unfold chunks_bytes; rewrite flat_map_app; eapply wrote_app; eauto | ].
  split; [ exact B2 | ]. do 3 (split; [ congruence | ]). split.
  - rewrite B6, A6, to_uint16_add_l, length_app, Nat2Z.inj_add. f_equal. lia.
  - intros Hne. destruct cs2 as [| c cs2].
    + unfold chunks_bytes in B1. simpl in B1.
      rewrite app_nil_r in Hne. specialize (A7 Hne).
      destruct B1 as (_ & Bc & _ & _ & _ & Bl & Bm & _). simpl in Bc. lia.
    + apply B7. discriminate.
Qed.

Lemma emitted_ready st st' cs : emitted st st' cs -> ready st -> ready st'.
Proof.
  intros (A1 & A2 & _ & _ & _ & A6 & A7) (_ & H0 & Hend & Hslack & _).
  destruct A1 as (_ & Hc & _ & _ & _ & Hl & Hm & _).
  unfold ready. split; [ exact A2 | ]. split; [ lia | ]. split; [ lia | ].
  split.
  - destruct cs as [| c cs].
    + unfold chunks_bytes in Hc. simpl in Hc. lia.
    + rewrite A7 by discriminate. lia.
  - rewrite A6. unfold to_uint16. change (2 ^ 16) with 65536.
    apply Z.mod_pos_bound. lia.
Qed.

Lemma emitter_ret P : emitter Saved P.
Proof.
  intros st st' H H0. injection H as <-. split; [ apply grew_refl, H0 | ].
  intros Hr Hf. exists []. split; [ apply emitted_nil, Hr | constructor ].
Qed.

Lemma emitter_bind W1 W2 P :
  emitter W1 P -> emitter W2 P ->
  emitter (fun st => saved_bind (W1 st) W2) P.
Proof.
  intros E1 E2 st st' H H0.
  destruct (W1 st) as [st1 | | |] eqn:H1; try discriminate. simpl in H.
  destruct (E1 _ _ H1 H0) as [G1 S1].
  destruct (E2 _ _ H (proj1 G1)) as [G2 S2].
  split; [ eapply grew_trans; eauto | ].
  intros Hr Hf.
  assert (Hf1 : fits (sv_file st1)) by (unfold fits in *; destruct G2; lia).
  destruct (S1 Hr Hf1) as (cs1 & Hem1 & Hp1).
  destruct (S2 (emitted_ready _ _ _ Hem1 Hr) Hf) as (cs2 & Hem2 & Hp2).
  exists (cs1 ++ cs2). split; [ eapply emitted_app; eauto | ].
  apply Forall_app. split; assumption.
Qed.

Lemma emitter_weaken W (P Q : Z -> Prop) :
  (forall t, P t -> Q t) -> emitter W P -> emitter W Q.
Proof.
  intros HPQ E st st' H H0. destruct (E _ _ H H0) as [G S].
  split; [ exact G | ]. intros Hr Hf. destruct (S Hr Hf) as (cs & Hem & Hp).
  exists cs. split; [ exact Hem | ].
  eapply Forall_impl; [ exact Hp | ]. simpl. intros c. apply HPQ.
Qed.

Lemma land_byte x : to_uint8 (Z.land x 0xff) = Z.land x 0xff.
Proof.
  apply to_uint8_small. change 255 with (Z.ones 8). rewrite Z.land_ones by lia.
  change (2 ^ 8) with 256. apply Z.mod_pos_bound. lia.
Qed.

Lemma wrote_put_rgb colors : forall f,
  0 <= cursor f ->
  wrote f (fold_left put_rgb colors f) (flat_map triple_bytes (map rgb_of colors)).
Proof.
  induction colors as [| c colors IH]; intros f H; simpl.
  - apply wrote_nil, H.
  - unfold put_rgb at 2.
    pose proof (wrote_fputc (_rgba_getr c) f H) as H1.
    pose proof (wrote_fputc (_rgba_getg c) _ (wrote_cursor _ _ _ H1)) as H2.
    pose proof (wrote_fputc (_rgba_getb c) _ (wrote_cursor _ _ _ H2)) as H3.
    unfold _rgba_getr, _rgba_getg, _rgba_getb in *. rewrite !land_byte in *.
    pose proof (IH _ (wrote_cursor _ _ _ H3)) as H4.
    exact (wrote_app _ _ _ [_] _ H1
             (wrote_app _ _ _ [_] _ H2 (wrote_app _ _ _ [_] _ H3 H4))).
Qed.

(** The palette chunk that is written: the type code of the
    direct-value kind and a body of one packet for the whole palette. *)
Lemma color2_chunk_emitted pal st st' :
  ase_file_write_color2_chunk pal st = Saved st' ->
  0 <= cursor (sv_file st) ->
  grew (sv_file st) (sv_file st')
  /\ (ready st -> fits (sv_file st') ->
      emitted st st' [(ASE_FILE_CHUNK_FLI_COLOR2, color2_body pal)]).
Proof.
  unfold ase_file_write_color2_chunk. intros H H0.
  destruct (ase_file_write_start_chunk _ st) as [st1 | | |] eqn:Hs; try discriminate.
  simpl in H. injection H as <-.
  assert (H1 : 0 <= cursor (sv_file st1)).
  { unfold ase_file_write_start_chunk in Hs. destruct (sv_current st); [ | discriminate ].
    injection Hs as <-. simpl. apply fseek_grew, H0. }
  pose proof (wrote_fputw 1 _ H1) as W1.
  pose proof (wrote_fputc 0 _ (wrote_cursor _ _ _ W1)) as W2.
  pose proof (wrote_fputc (if pal_size pal =? 256 then 0 else pal_size pal) _
                (wrote_cursor _ _ _ W2)) as W3.
  pose proof (wrote_put_rgb (pal_colors pal) _ (wrote_cursor _ _ _ W3)) as W4.
  pose proof (wrote_app _ _ _ _ _ W1
                (wrote_app _ _ _ [_] _ W2 (wrote_app _ _ _ [_] _ W3 W4))) as W.
  rewrite word_bytes_le16 in W.
  match type of W with
  | wrote _ _ ?b => assert (Hne : b <> []) by discriminate
  end.
  destruct (chunk_emitted _ _ _ _ _ Hs H0 W Hne) as [G S].
  split; [ exact G | ].
  intros Hr Hf.
  exact (S Hr Hf ltac:(unfold ASE_FILE_CHUNK_FLI_COLOR2; lia)).
Qed.

Lemma start_chunk_cursor type st st1 :
  ase_file_write_start_chunk type st = Saved st1 ->
  0 <= cursor (sv_file st) -> 0 <= cursor (sv_file st1).
Proof.
  unfold ase_file_write_start_chunk. destruct (sv_current st); [ | discriminate ].
  intros H H0. injection H as <-. simpl. apply fseek_grew, H0.
Qed.

Lemma layer_chunk_emitter l p :
  emitter (ase_file_write_layer_chunk l p) (fun t => t = ASE_FILE_CHUNK_LAYER).
Proof.
  intros st st' H H0. unfold ase_file_write_layer_chunk in H.
  destruct (ase_file_write_start_chunk _ st) as [st1 | | |] eqn:Hs; try discriminate.
  simpl in H. injection H as <-.
  pose proof (start_chunk_cursor _ _ _ Hs H0) as H1.
  pose proof (wrote_fputw (getFlags l) _ H1) as W1.
  pose proof (wrote_fputw (if isImage l then 0 else if isFolder l then 1 else -1) _
                (wrote_cursor _ _ _ W1)) as W2.
  pose proof (wrote_fputw (layer_child_level p) _ (wrote_cursor _ _ _ W2)) as W3.
  pose proof (wrote_fputw 0 _ (wrote_cursor _ _ _ W3)) as W4.
  pose proof (wrote_fputw 0 _ (wrote_cursor _ _ _ W4)) as W5.
  pose proof (wrote_fputw (if isImage l then getBlendMode l else 0) _
                (wrote_cursor _ _ _ W5)) as W6.
  pose proof (wrote_padding 4 _ (wrote_cursor _ _ _ W6)) as W7.
  pose proof (wrote_string (getName l) _ (wrote_cursor _ _ _ W7)) as W8.
  pose proof (wrote_app _ _ _ _ _ W1 (wrote_app _ _ _ _ _ W2 (wrote_app _ _ _ _ _ W3
               (wrote_app _ _ _ _ _ W4 (wrote_app _ _ _ _ _ W5 (wrote_app _ _ _ _ _ W6
               (wrote_app _ _ _ _ _ W7 W8))))))) as W.
  match type of W with
  | wrote _ _ ?b => assert (Hne : b <> []) by (unfold word_bytes; discriminate)
  end.
  destruct (chunk_emitted _ _ _ _ _ Hs H0 W Hne) as [G S].
  split; [ exact G | ].
  intros Hr Hf.
  assert (Ht : 0 <= ASE_FILE_CHUNK_LAYER < 65536) by (unfold ASE_FILE_CHUNK_LAYER; lia).
  specialize (S Hr Hf Ht).
  match type of S with
  | emitted _ _ ?cs => exists cs
  end.
  split; [ exact S | ]. constructor; [ reflexivity | constructor ].
Qed.

Lemma write_layers_emitter l :
  forall p, emitter (ase_file_write_layers l p) (fun t => t = ASE_FILE_CHUNK_LAYER).
Proof.
  induction l as [fl n cs | fl n ls IH] using Layer_ind'; intros p.
  - exact (emitter_bind _ _ _ (layer_chunk_emitter _ p) (emitter_ret _)).
  - refine (emitter_bind _ _ _ (layer_chunk_emitter _ p) _).
    generalize 0%nat at 2.
    induction ls as [| c ls IHls]; intros i.
    + apply emitter_ret.
    + inversion IH as [| c' ls' Hc Hls]; subst c' ls'.
      exact (emitter_bind _ _ _ (Hc (i :: p)) (IHls Hls (S i))).
Qed.

Lemma write_root_layers_emitter ls :
  forall i, emitter (write_root_layers ls i) (fun t => t = ASE_FILE_CHUNK_LAYER).
Proof.
  induction ls as [| l ls IH]; intros i.
  - apply emitter_ret.
  - exact (emitter_bind _ _ _ (write_layers_emitter l [i]) (IH (S i))).
Qed.

Lemma deflate_drain_wrote zl fuel : forall zs flush f zs' f',
  deflate_drain zl fuel zs flush f = Saved (zs', f') ->
  0 <= cursor f -> exists bytes, wrote f f' bytes.
Proof.
  induction fuel as [| fuel IH]; intros zs flush f zs' f' H H0; [ discriminate | ].
  cbn [deflate_drain] in H.
  destruct (deflate zl zs flush 4096) as [[err out] zs1].
  destruct (negb (zlib_error_ok err)); [ discriminate | ].
  set (out' := take 4096 out) in *.
  assert (Hw : forall f1,
             (if 0 <? Z.of_nat (length out')
              then if ferror (fwrite out' f)
                   then SaveThrow "Error writing compressed image pixels.\n" []
                   else Saved (fwrite out' f)
              else Saved f) = Saved f1 ->
             exists bytes, wrote f f1 bytes).
  { intros f1 Hf1. destruct (0 <? _).
    - destruct (ferror _); [ discriminate | ]. injection Hf1 as <-.
      eexists. apply wrote_fwrite, H0.
    - injection Hf1 as <-. eexists. apply wrote_nil, H0. }
  destruct (if 0 <? Z.of_nat (length out') then _ else _) as [f1 | | |] eqn:E;
    try discriminate.
  destruct (Hw _ eq_refl) as [b1 Hb1]. cbn [saved_bind] in H.
  destruct (_ =? 0).
  - destruct (IH _ _ _ _ _ H (wrote_cursor _ _ _ Hb1)) as [b2 Hb2].
    eexists. eapply wrote_app; eauto.
  - injection H as <- <-. eauto.
Qed.

Lemma deflate_rows_wrote zl fuel image n : forall zs y f zs' f',
  deflate_rows zl fuel zs image n y f = Saved (zs', f') ->
  0 <= cursor f -> exists bytes, wrote f f' bytes.
Proof.
  induction n as [| n IH]; intros zs y f zs' f' H H0.
  - injection H as <- <-. eexists. apply wrote_nil, H0.
  - cbn [deflate_rows] in H.
    destruct (deflate_drain _ _ _ _ _) as [[zs1 f1] | | |] eqn:E; try discriminate.
    cbn [saved_bind] in H.
    destruct (deflate_drain_wrote _ _ _ _ _ _ _ E H0) as [b1 Hb1].
    destruct (IH _ _ _ _ _ H (wrote_cursor _ _ _ Hb1)) as [b2 Hb2].
    eexists. eapply wrote_app; eauto.
Qed.

Lemma write_compressed_image_wrote zl fuel f image f' :
  write_compressed_image zl fuel f image = Saved f' ->
  0 <= cursor f -> exists bytes, wrote f f' bytes.
Proof.
  unfold write_compressed_image. intros H H0.
  destruct (deflateInit zl) as [err zs].
  destruct (negb (err =? Z_OK)); [ discriminate | ].
  destruct (deflate_rows _ _ _ _ _ _ _) as [[zs1 f1] | | |] eqn:E; try discriminate.
  cbn [saved_bind] in H.
  destruct (negb _); [ discriminate | ]. injection H as <-.
  eapply deflate_rows_wrote; eauto.
Qed.

Lemma cel_chunk_emitter zl fuel cel layer sprite :
  emitter (ase_file_write_cel_chunk zl fuel cel layer sprite)
    (fun t => t = ASE_FILE_CHUNK_CEL).
Proof.
  intros st st' H H0. unfold ase_file_write_cel_chunk in H.
  destruct (ase_file_write_start_chunk _ st) as [st1 | | |] eqn:Hs; try discriminate.
  cbn [saved_bind] in H.
  pose proof (start_chunk_cursor _ _ _ Hs H0) as H1.
  pose proof (wrote_fputw (layerToIndex sprite layer) _ H1) as W1.
  pose proof (wrote_fputw (cel_x cel) _ (wrote_cursor _ _ _ W1)) as W2.
  pose proof (wrote_fputw (cel_y cel) _ (wrote_cursor _ _ _ W2)) as W3.
  pose proof (wrote_fputc (cel_opacity cel) _ (wrote_cursor _ _ _ W3)) as W4.
  pose proof (wrote_fputw ASE_FILE_COMPRESSED_CEL _ (wrote_cursor _ _ _ W4)) as W5.
  pose proof (wrote_padding 7 _ (wrote_cursor _ _ _ W5)) as W6.
  pose proof (wrote_app _ _ _ _ _ W1 (wrote_app _ _ _ _ _ W2 (wrote_app _ _ _ _ _ W3
               (wrote_app _ _ _ _ _ W4 (wrote_app _ _ _ _ _ W5 W6))))) as W.
  match type of W with
  | wrote _ ?f6 ?b =>
      assert (Hne : b <> []) by (unfold word_bytes; discriminate);
      set (f6' := f6) in *; set (bytes := b) in *
  end.
  assert (Himg : forall f7,
             match getImage (spr_stock sprite) (cel_image cel) with
             | Some image =>
                 write_compressed_image zl fuel
                   (fputw (img_h image) (fputw (img_w image) f6')) image
             | None => Saved (fputw 0 (fputw 0 f6'))
             end = Saved f7 ->
             exists more, wrote f6' f7 more).
  { intros f7 Hf7. destruct (getImage _ _) as [image |].
    - pose proof (wrote_fputw (img_w image) _ (wrote_cursor _ _ _ W)) as V1.
      pose proof (wrote_fputw (img_h image) _ (wrote_cursor _ _ _ V1)) as V2.
      destruct (write_compressed_image_wrote _ _ _ _ _ Hf7 (wrote_cursor _ _ _ V2))
        as [b3 V3].
      eexists. exact (wrote_app _ _ _ _ _ V1 (wrote_app _ _ _ _ _ V2 V3)).
    - injection Hf7 as <-.
      pose proof (wrote_fputw 0 _ (wrote_cursor _ _ _ W)) as V1.
      pose proof (wrote_fputw 0 _ (wrote_cursor _ _ _ V1)) as V2.
      eexists. exact (wrote_app _ _ _ _ _ V1 V2). }
  destruct (match getImage (spr_stock sprite) (cel_image cel) with
            | Some _ => _ | None => _ end) as [f7 | | |] eqn:E; try discriminate.
  cbn [saved_bind] in H. injection H as <-.
  destruct (Himg _ eq_refl) as [more Hmore].
  pose proof (wrote_app _ _ _ _ _ W Hmore) as Wall.
  assert (Hne' : bytes ++ more <> []).
  { intros Heq. apply app_eq_nil in Heq. destruct Heq as [Heq _]. exact (Hne Heq). }
  destruct (chunk_emitted _ _ _ _ _ Hs H0 Wall Hne') as [G S].
  split; [ exact G | ].
  intros Hr Hf.
  assert (Ht : 0 <= ASE_FILE_CHUNK_CEL < 65536) by (unfold ASE_FILE_CHUNK_CEL; lia).
  specialize (S Hr Hf Ht).
  exists [(ASE_FILE_CHUNK_CEL, bytes ++ more)].
  split; [ exact S | ]. constructor; [ reflexivity | constructor ].
Qed.

Lemma write_cels_emitter zl fuel sprite frame l :
  forall p, emitter (ase_file_write_cels zl fuel sprite l p frame)
              (fun t => t = ASE_FILE_CHUNK_CEL).
Proof.
  induction l as [fl n cs | fl n ls IH] using Layer_ind'; intros p.
  - intros st st' H. cbn [ase_file_write_cels] in H.
    destruct (getCel _ _) as [cel |].
    + exact (emitter_bind _ _ _ (cel_chunk_emitter zl fuel cel p sprite)
               (emitter_ret _) st st' H).
    + exact (emitter_bind _ _ (fun t => t = ASE_FILE_CHUNK_CEL)
               (emitter_ret _) (emitter_ret _) st st' H).
  - refine (emitter_bind _ _ _ (emitter_ret _) _).
    generalize 0%nat at 2.
    induction ls as [| c ls IHls]; intros i.
    + apply emitter_ret.
    + inversion IH as [| c' ls' Hc Hls]; subst c' ls'.
      exact (emitter_bind _ _ _ (Hc (i :: p)) (IHls Hls (S i))).
Qed.

(** *** The frames of a saved sprite *)

Lemma count_diff_nonneg a : forall b, 0 <= count_diff a b.
Proof.
  induction a as [| x a IH]; intros [| y b]; cbn [count_diff length]; try lia.
  specialize (IH b). destruct (x =? y); lia.
Qed.

Lemma count_diff_pos a : forall b, 0 < count_diff a b <-> a <> b.
Proof.
  induction a as [| x a IH]; intros [| y b]; cbn [count_diff].
  - cbn [length]. split; [ lia | congruence ].
  - split; [ discriminate | intros _; cbn [length]; lia ].
  - split; [ discriminate | intros _; cbn [length]; lia ].
  - pose proof (count_diff_nonneg a b). specialize (IH b).
    destruct (Z.eqb_spec x y) as [-> | Hxy].
    + split.
      * intros H1 Heq. injection Heq as Heq. apply (proj1 IH); [ lia | exact Heq ].
      * intros Hne. enough (0 < count_diff a b) by lia.
        apply IH. intros ->. apply Hne. reflexivity.
    + split; [ intros _ Heq; injection Heq; congruence | lia ].
Qed.

Lemma palette_due_spec sprite f due :
  getPixelFormat sprite = IMAGE_INDEXED ->
  palette_due sprite f = Saved due ->
  (due = true <-> palette_changes_at sprite f).
Proof.
  unfold palette_due, palette_changes_at. intros -> H.
  destruct (Z.eqb_spec f 0) as [Hf | Hf].
  - injection H as <-. split; auto.
  - destruct (getPalette sprite (f - 1)) as [prev |]; [ | discriminate ].
    destruct (getPalette sprite f) as [pal |]; [ | discriminate ].
    injection H as <-. unfold countDiff. rewrite Z.ltb_lt, count_diff_pos. split.
    + intros Hne. right. exists prev, pal. auto.
    + intros [Hf0 | (prev' & pal' & E1 & E2 & Hne)]; [ contradiction | ].
      injection E1 as <-. injection E2 as <-. exact Hne.
Qed.

Lemma frame_header_grew st :
  0 <= cursor (sv_file st) ->
  grew (sv_file st) (sv_file (ase_file_write_frame_header st)).
Proof.
  intros H. unfold ase_file_write_frame_header. cbn [sv_file].
  pose proof (fseek_grew (sv_file st) (to_int (fh_size (sv_frame_header st))) H) as G1.
  pose proof (wrote_grew _ _ _
                (wrote_fputl (to_uint32 (to_int (ftell (sv_file st))
                                         - to_int (fh_size (sv_frame_header st))))
                   _ (proj1 G1))) as G2.
  pose proof (wrote_grew _ _ _
                (wrote_fputw (fh_magic (sv_frame_header st)) _ (proj1 G2))) as G3.
  pose proof (wrote_grew _ _ _
                (wrote_fputw (fh_chunks (sv_frame_header st)) _ (proj1 G3))) as G4.
  pose proof (wrote_grew _ _ _
                (wrote_fputw (fh_duration (sv_frame_header st)) _ (proj1 G4))) as G5.
  pose proof (wrote_grew _ _ _ (wrote_padding 6 _ (proj1 G5))) as G6.
  pose proof (fseek_grew _ (to_int (ftell (sv_file st))) (proj1 G6)) as G7.
  exact (grew_trans _ _ _ G1 (grew_trans _ _ _ G2 (grew_trans _ _ _ G3
           (grew_trans _ _ _ G4 (grew_trans _ _ _ G5 (grew_trans _ _ _ G6 G7)))))).
Qed.

Lemma prepare_frame_header_file st d :
  0 <= cursor (sv_file st) -> cursor (sv_file st) + 16 <= INT_MAX ->
  sv_file (set_duration (ase_file_prepare_frame_header st) d)
  = fseek (sv_file st) (cursor (sv_file st) + 16)
  /\ sv_frame_header (set_duration (ase_file_prepare_frame_header st) d)
     = mkFrameHeader (cursor (sv_file st)) ASE_FILE_FRAME_MAGIC 0 (to_uint16 d)
  /\ sv_current (set_duration (ase_file_prepare_frame_header st) d) = true.
Proof.
  intros H0 H1. unfold set_duration, ase_file_prepare_frame_header, ftell.
  cbn [sv_file sv_frame_header sv_current fh_size fh_magic fh_chunks fh_duration].
  unfold INT_MAX in H1.
  rewrite (to_int_small (cursor (sv_file st))) by (unfold INT_MAX; lia).
  rewrite to_int_small by (unfold INT_MAX; lia).
  rewrite to_uint32_small by lia.
  repeat split.
Qed.

Lemma write_frame_header_file st p n :
  fh_size (sv_frame_header st) = p -> 0 <= p -> 0 <= n ->
  cursor (sv_file st) = p + 16 + n -> p + 16 + n <= INT_MAX ->
  sv_file (ase_file_write_frame_header st)
  = fseek (ase_file_write_padding
             (fputw (fh_duration (sv_frame_header st))
                (fputw (fh_chunks (sv_frame_header st))
                   (fputw (fh_magic (sv_frame_header st))
                      (fputl (16 + n) (fseek (sv_file st) p))))) 6)
      (p + 16 + n).
Proof.
  intros Hs Hp Hn Hc Hmax. unfold ase_file_write_frame_header, ftell.
  cbn [sv_file]. rewrite Hs, Hc. unfold INT_MAX in Hmax.
  rewrite (to_int_small p) by (unfold INT_MAX; lia).
  rewrite to_int_small by (unfold INT_MAX; lia).
  replace (p + 16 + n - p) with (16 + n) by lia.
  rewrite to_uint32_small by lia.
  reflexivity.
Qed.

Lemma palette_step_emitted sprite frame due st st' :
  (if due : bool then
     match getPalette sprite frame with
     | Some pal => ase_file_write_color2_chunk pal st
     | None => SaveCrash
     end
   else Saved st) = Saved st' ->
  0 <= cursor (sv_file st) ->
  grew (sv_file st) (sv_file st')
  /\ (ready st -> fits (sv_file st') ->
      exists cs, emitted st st' cs
        /\ ((due = true
             /\ exists pal, getPalette sprite frame = Some pal
                  /\ cs = [(ASE_FILE_CHUNK_FLI_COLOR2, color2_body pal)])
            \/ (due = false /\ cs = []))).
Proof.
  intros H H0. destruct due.
  - destruct (getPalette sprite frame) as [pal |]; [ | discriminate ].
    destruct (color2_chunk_emitted _ _ _ H H0) as [G S].
    split; [ exact G | ]. intros Hr Hf.
    eexists. split; [ exact (S Hr Hf) | ].
    left. split; [ reflexivity | ]. exists pal. split; reflexivity.
  - injection H as <-. split; [ apply grew_refl, H0 | ]. intros Hr _.
    exists []. split; [ apply emitted_nil, Hr | ]. right. split; reflexivity.
Qed.

Lemma frame_body_emitter zl fuel sprite frame :
  emitter
    (fun st =>
       saved_bind
         (if frame =? 0 then write_root_layers (getLayers (spr_folder sprite)) 0 st
          else Saved st)
         (fun st => ase_file_write_cels zl fuel sprite (spr_folder sprite) [] frame st))
    (fun t => t = ASE_FILE_CHUNK_LAYER \/ t = ASE_FILE_CHUNK_CEL).
Proof.
  apply (emitter_bind
           (fun st => if frame =? 0
                      then write_root_layers (getLayers (spr_folder sprite)) 0 st
                      else Saved st)).
  - destruct (frame =? 0).
    + eapply emitter_weaken; [ | apply write_root_layers_emitter ].
      intros t Ht. left. exact Ht.
    + apply emitter_ret.
  - eapply emitter_weaken; [ | apply write_cels_emitter ].
    intros t Ht. right. exact Ht.
Qed.

Lemma whole_palette_packet_count pal :
  1 <= pal_size pal <= 256 ->
  pk_skip (whole_palette_packet pal) = 0
  /\ packet_count (whole_palette_packet pal) = pal_size pal
  /\ Z.of_nat (length (pk_colors (whole_palette_packet pal))) = pal_size pal.
Proof.
  intros H. unfold whole_palette_packet, packet_count. cbn [pk_skip pk_size pk_colors].
  split; [ reflexivity | ]. split.
  - destruct (Z.eqb_spec (pal_size pal) 256) as [E | E].
    + rewrite E. reflexivity.
    + unfold to_uint8. change (2 ^ 8) with 256. rewrite Z.mod_small by lia.
      destruct (Z.eqb_spec (pal_size pal) 0); [ lia | reflexivity ].
  - rewrite length_map. reflexivity.
Qed.

(** * Reading back what was written *)

(** ** Streams *)

Lemma holds_stream f p bytes :
  holds f p bytes ->
  stream_from (fseek f p)
  = bytes ++ drop (Z.to_nat p + length bytes) (contents f).
Proof.
  intros [Hp H]. unfold stream_from.
  rewrite fseek_cursor, fseek_contents by exact Hp.
  destruct (p <? 0) eqn:E; [ apply Z.ltb_lt in E; lia | ].
  rewrite <- drop_drop.
  rewrite <- (take_drop (length bytes) (drop (Z.to_nat p) (contents f))) at 1.
  f_equal. apply list_eq. intros k.
  destruct (bytes !! k) as [b |] eqn:Hb.
  - rewrite lookup_take_lt by (apply lookup_lt_Some in Hb; exact Hb).
    rewrite lookup_drop. apply H, Hb.
  - apply lookup_ge_None in Hb. apply lookup_ge_None.
    rewrite length_take. lia.
Qed.

Lemma wrote_stream f f' bytes :
  wrote f f' bytes ->
  stream_from (fseek f' (cursor f))
  = bytes ++ drop (Z.to_nat (cursor f) + length bytes) (contents f').
Proof. intros (_ & _ & _ & H & _). apply holds_stream, H. Qed.

Lemma advance_fseek f p n :
  0 <= p -> cursor f = p + n -> advance (fseek f p) n = f.
Proof.
  intros Hp Hc. unfold advance. rewrite fseek_cursor, fseek_contents, fseek_ferror by lia.
  destruct f as [c k e]. simpl in *. subst k. reflexivity.
Qed.

Lemma stream_from_advance f bytes rest :
  stream_from f = bytes ++ rest ->
  stream_from (advance f (Z.of_nat (length bytes))) = rest.
Proof.
  revert f. induction bytes as [| b bytes IH]; intros f H.
  - simpl in *. unfold advance. rewrite Z.add_0_r. destruct f; exact H.
  - destruct (stream_from_cons _ _ _ H) as [_ H1].
    apply IH in H1. rewrite advance_advance in H1.
    replace (Z.of_nat (length (b :: bytes))) with (1 + Z.of_nat (length bytes))
      by (cbn [length]; lia).
    exact H1.
Qed.

Lemma le16_uint16 w : le16 (to_uint16 w) = le16 w.
Proof.
  unfold le16, to_uint16. change (2 ^ 16) with (256 * 256).
  rewrite Z.rem_mul_r by lia.
  f_equal; [ | f_equal ].
  - rewrite (Z.mul_comm 256), Z_mod_plus_full. apply Z.mod_mod. lia.
  - rewrite (Z.add_comm (w mod 256)), (Z.mul_comm 256), Z.div_add_l by lia.
    rewrite (Z.div_small (w mod 256)) by (apply Z.mod_pos_bound; lia).
    rewrite Z.add_0_r. apply Z.mod_mod. lia.
Qed.

Lemma to_uint16_range z : 0 <= to_uint16 z < 65536.
Proof. unfold to_uint16. change (2 ^ 16) with 65536. apply Z.mod_pos_bound. lia. Qed.

Lemma to_uint32_range z : 0 <= to_uint32 z < 4294967296.
Proof. unfold to_uint32. change (2 ^ 32) with 4294967296. apply Z.mod_pos_bound. lia. Qed.

(** [fgetw] reads the low 16 bits of what [fputw] wrote. *)
Lemma fgetw_word f w rest :
  stream_from f = word_bytes w ++ rest ->
  fgetw f = (to_uint16 w, advance f 2) /\ stream_from (advance f 2) = rest.
Proof.
  intros H. rewrite word_bytes_le16, <- le16_uint16 in H.
  apply fgetw_stream; [ exact H | apply to_uint16_range ].
Qed.

Lemma le32_uint32 l : le32 (to_uint32 l) = le32 l.
Proof.
  unfold le32, to_uint32.
  assert (H : forall k, 0 <= k -> (256 * 2 ^ k | 2 ^ 32) ->
                        (l mod 2 ^ 32 / 2 ^ k) mod 256 = (l / 2 ^ k) mod 256).
  { intros k Hk [q Hq].
    assert (H2 : 0 < 2 ^ k) by (apply Z.pow_pos_nonneg; lia).
    assert (Hq0 : 0 < q) by nia.
    replace (2 ^ 32) with (2 ^ k * (256 * q)) by lia.
    rewrite Z.rem_mul_r by lia.
    rewrite Z.add_comm, Z.mul_comm, Z.div_add_l by lia.
    rewrite (Z.div_small (l mod 2 ^ k)) by (apply Z.mod_pos_bound; lia).
    rewrite Z.add_0_r.
    apply Z.mod_mod_divide. exists q. lia. }
  pose proof (H 0 ltac:(lia) ltac:(exists (2 ^ 24); reflexivity)) as H0.
  pose proof (H 8 ltac:(lia) ltac:(exists (2 ^ 16); reflexivity)) as H8.
  pose proof (H 16 ltac:(lia) ltac:(exists (2 ^ 8); reflexivity)) as H16.
  pose proof (H 24 ltac:(lia) ltac:(exists 1; reflexivity)) as H24.
  change (2 ^ 0) with 1 in H0. rewrite !Z.div_1_r in H0.
  change (2 ^ 8) with 256 in H8. change (2 ^ 16) with 65536 in H16.
  change (2 ^ 24) with 16777216 in H24.
  rewrite H0, H8, H16, H24. reflexivity.
Qed.

Lemma fgetl_stream f n rest :
  stream_from f = le32 n ++ rest -> 0 <= n < 4294967296 ->
  fgetl f = (n, advance f 4) /\ stream_from (advance f 4) = rest.
Proof.
  unfold le32. intros Hs Hn. simpl in Hs.
  assert (H1 : is_byte (n mod 256)) by (apply Z.mod_pos_bound; lia).
  assert (H2 : is_byte ((n / 256) mod 256)) by (apply Z.mod_pos_bound; lia).
  assert (H3 : is_byte ((n / 65536) mod 256)) by (apply Z.mod_pos_bound; lia).
  assert (H4 : is_byte ((n / 16777216) mod 256)) by (apply Z.mod_pos_bound; lia).
  destruct (fgetc_stream _ _ _ Hs H1) as [E1 Hs1].
  destruct (fgetc_stream _ _ _ Hs1 H2) as [E2 Hs2].
  destruct (fgetc_stream _ _ _ Hs2 H3) as [E3 Hs3].
  destruct (fgetc_stream _ _ _ Hs3 H4) as [E4 Hs4].
  rewrite !advance_advance in *.
  change (1 + 1) with 2 in *. change (2 + 1) with 3 in *. change (3 + 1) with 4 in *.
  change (1 + 2) with 3 in *. change (1 + 3) with 4 in *.
  unfold fgetl. rewrite E1.
  unfold is_byte, EOF in *.
  destruct (n mod 256 =? -1) eqn:F1; [ apply Z.eqb_eq in F1; lia | ].
  rewrite E2.
  destruct ((n / 256) mod 256 =? -1) eqn:F2; [ apply Z.eqb_eq in F2; lia | ].
  rewrite E3.
  destruct ((n / 65536) mod 256 =? -1) eqn:F3; [ apply Z.eqb_eq in F3; lia | ].
  rewrite E4.
  destruct ((n / 16777216) mod 256 =? -1) eqn:F4; [ apply Z.eqb_eq in F4; lia | ].
  split; [ | exact Hs4 ].
  f_equal. rewrite long_of_bytes by assumption.
  rewrite (Z.mod_small (n / 16777216))
    by (split; [ apply Z.div_pos; lia | apply Z.div_lt_upper_bound; lia ]).
  pose proof (Z.div_mod n 256 ltac:(lia)).
  pose proof (Z.div_mod (n / 256) 256 ltac:(lia)).
  pose proof (Z.div_mod (n / 256 / 256) 256 ltac:(lia)).
  rewrite !Z.div_div in * by lia.
  change (256 * 256) with 65536 in *. change (65536 * 256) with 16777216 in *.
  lia.
Qed.

(** [fgetl] reads the low 32 bits of what [fputl] wrote. *)
Lemma fgetl_long f l rest :
  stream_from f = long_bytes l ++ rest ->
  fgetl f = (to_uint32 l, advance f 4) /\ stream_from (advance f 4) = rest.
Proof.
  intros H. rewrite long_bytes_le32, <- le32_uint32 in H.
  apply fgetl_stream; [ exact H | apply to_uint32_range ].
Qed.

Lemma fgetc_any f b rest :
  stream_from f = b :: rest ->
  fgetc f = (to_uint8 b, advance f 1) /\ stream_from (advance f 1) = rest.
Proof.
  intros H. destruct (stream_from_cons _ _ _ H) as [H1 H2].
  split; [ | exact H2 ]. rewrite (fgetc_some _ _ H1). reflexivity.
Qed.

Lemma fgetc_end f : stream_from f = [] -> fgetc f = (EOF, f).
Proof.
  unfold stream_from, fgetc, byte_at. intros H.
  destruct (cursor f <? 0); [ reflexivity | ].
  rewrite <- (Nat.add_0_r (Z.to_nat (cursor f))), <- lookup_drop, H. reflexivity.
Qed.

Lemma read_padding_stream bytes : forall f rest,
  stream_from f = bytes ++ rest ->
  ase_file_read_padding f (length bytes) = advance f (Z.of_nat (length bytes))
  /\ stream_from (advance f (Z.of_nat (length bytes))) = rest.
Proof.
  induction bytes as [| b bytes IH]; intros f rest H.
  - simpl in *. unfold advance. rewrite Z.add_0_r. destruct f; auto.
  - destruct (fgetc_any _ _ _ H) as [E H1].
    destruct (IH _ _ H1) as [E2 H2]. rewrite advance_advance in *.
    replace (Z.of_nat (length (b :: bytes))) with (1 + Z.of_nat (length bytes))
      by (cbn [length]; lia).
    cbn [length ase_file_read_padding]. rewrite E. cbn [snd]. auto.
Qed.

Lemma read_chars_stream s : forall f rest,
  stream_from f = s ++ rest ->
  read_chars f (length s) = (map to_uint8 s, advance f (Z.of_nat (length s)))
  /\ stream_from (advance f (Z.of_nat (length s))) = rest.
Proof.
  induction s as [| c s IH]; intros f rest H.
  - simpl in *. unfold advance. rewrite Z.add_0_r. destruct f; auto.
  - destruct (fgetc_any _ _ _ H) as [E H1].
    destruct (IH _ _ H1) as [E2 H2]. rewrite advance_advance in *.
    replace (Z.of_nat (length (c :: s))) with (1 + Z.of_nat (length s))
      by (cbn [length]; lia).
    cbn [length read_chars map]. rewrite E, E2, to_uint8_idem. auto.
Qed.

Lemma read_string_stream f s rest :
  stream_from f = word_bytes (Z.of_nat (length s)) ++ s ++ rest ->
  Z.of_nat (length s) < 65536 ->
  ase_file_read_string f = (map to_uint8 s, advance f (2 + Z.of_nat (length s)))
  /\ stream_from (advance f (2 + Z.of_nat (length s))) = rest.
Proof.
  intros H Hlen. destruct (fgetw_word _ _ _ H) as [E H1].
  rewrite to_uint16_small in E by lia.
  destruct (read_chars_stream _ _ _ H1) as [E2 H2]. rewrite advance_advance in *.
  unfold ase_file_read_string. rewrite E.
  destruct (Z.eqb_spec (Z.of_nat (length s)) EOF) as [F | _];
    [ unfold EOF in F; lia | ].
  rewrite Nat2Z.id. auto.
Qed.

(** X1: a string that [ase_file_write_string] wrote is read back by
    [ase_file_read_string] from the position at which it was written,
    character by character as [char]s, and the reader stops where the
    writer stopped; this holds for every string shorter than 65536
    characters, the range of the length word. *)
Theorem string_round_trip f s :
  0 <= cursor f -> Z.of_nat (length s) < 65536 ->
  ase_file_read_string (fseek (ase_file_write_string f s) (cursor f))
  = (map to_uint8 s, ase_file_write_string f s).
Proof.
  intros H0 Hlen. pose proof (wrote_string s f H0) as W.
  pose proof (wrote_stream _ _ _ W) as Hs. rewrite <- app_assoc in Hs.
  replace (Z.of_nat (length s)) with (Z.of_nat (length (map to_uint8 s))) in Hs at 1
    by (rewrite length_map; reflexivity).
  destruct (read_string_stream _ _ _ Hs ltac:(rewrite length_map; exact Hlen))
    as [E _].
  rewrite E, length_map. f_equal.
  - rewrite map_map. apply map_ext. intros x. apply to_uint8_idem.
  - apply advance_fseek; [ exact H0 | ].
    destruct W as (_ & Hc & _).
    rewrite Hc, length_app, length_map. unfold word_bytes. cbn [length]. lia.
Qed.

Lemma string_round_trip_witness :
  0 <= cursor (open_file [1; 2; 3]) /\ Z.of_nat (length [76; 49; 0; 300]) < 65536
  /\ ase_file_read_string
       (fseek (ase_file_write_string (open_file [1; 2; 3]) [76; 49; 0; 300]) 0)
     = ([76; 49; 0; 44], mkFILE [4; 0; 76; 49; 0; 44] 6 false).
Proof.
  split; [ vm_compute; discriminate | ]. split; [ vm_compute; reflexivity | ].
  exact (string_round_trip (open_file [1; 2; 3]) [76; 49; 0; 300]
           ltac:(vm_compute; discriminate) ltac:(vm_compute; reflexivity)).
Defined.

Lemma read_chars_end k : forall f,
  stream_from f = [] -> read_chars f k = (replicate k 255, f).
Proof.
  induction k as [| k IH]; intros f H; [ reflexivity | ].
  cbn [read_chars replicate]. rewrite (fgetc_end _ H), (IH _ H). reflexivity.
Qed.

Lemma read_chars_short avail k : forall f,
  stream_from f = avail ->
  fst (read_chars f (length avail + k)) = map to_uint8 avail ++ replicate k 255.
Proof.
  induction avail as [| b avail IH]; intros f H.
  - cbn [length Nat.add map app]. rewrite (read_chars_end _ _ H). reflexivity.
  - destruct (fgetc_any _ _ _ H) as [E H1]. specialize (IH _ H1).
    cbn [length Nat.add read_chars map app]. rewrite E.
    destruct (read_chars (advance f 1) (length avail + k)) as [cs f'].
    cbn [fst] in *. rewrite IH, to_uint8_idem. reflexivity.
Qed.

(** X2: when the stream ends before the characters that the length
    word of a string announces, [ase_file_read_string] still answers a
    string of the announced length: the bytes that are there, and the
    character 255 (the [EOF] of [fgetc] pushed as a [char]) for every
    missing one. *)
Theorem read_string_cut_short f n avail :
  stream_from f = le16 n ++ avail -> 0 <= n < 65536 ->
  (length avail <= Z.to_nat n)%nat ->
  fst (ase_file_read_string f)
  = map to_uint8 avail ++ replicate (Z.to_nat n - length avail) 255.
Proof.
  intros H Hn Hlen. destruct (fgetw_stream _ _ _ H Hn) as [E H1].
  unfold ase_file_read_string. rewrite E.
  destruct (Z.eqb_spec n EOF) as [F | _]; [ unfold EOF in F; lia | ].
  replace (Z.to_nat n) with (length avail + (Z.to_nat n - length avail))%nat at 1
    by lia.
  apply read_chars_short, H1.
Qed.

Lemma read_string_cut_short_witness :
  stream_from (open_file [5; 0; 65; 66]) = le16 5 ++ [65; 66]
  /\ 0 <= 5 < 65536
  /\ (length [65%Z; 66%Z] <= Z.to_nat 5)%nat
  /\ fst (ase_file_read_string (open_file [5; 0; 65; 66])) = [65; 66; 255; 255; 255].
Proof.
  split; [ reflexivity | ]. split; [ lia | ]. split; [ vm_compute; lia | ].
  exact (read_string_cut_short (open_file [5; 0; 65; 66]) 5 [65; 66]
           eq_refl ltac:(lia) ltac:(vm_compute; lia)).
Defined.

(** X3: when the stream ends inside the length word of a string (no
    byte or one byte is left), [ase_file_read_string] answers the empty
    string. *)
Theorem read_string_at_end f :
  (length (stream_from f) < 2)%nat ->
  fst (ase_file_read_string f) = [].
Proof.
  intros H. unfold ase_file_read_string, fgetw.
  destruct (stream_from f) as [| b [| b' rest]] eqn:Hs; [ | | simpl in H; lia ].
  - rewrite (fgetc_end _ Hs). reflexivity.
  - destruct (fgetc_any _ _ _ Hs) as [E H1]. rewrite E, to_uint8_not_EOF.
    rewrite (fgetc_end _ H1). reflexivity.
Qed.

Lemma read_string_at_end_witness :
  (length (stream_from (open_file [7%Z])) < 2)%nat
  /\ fst (ase_file_read_string (open_file [7])) = [].
Proof.
  split; [ vm_compute; lia | ].
  exact (read_string_at_end (open_file [7]) ltac:(vm_compute; lia)).
Defined.

(** ** Headers *)

Lemma to_uint16_idem z : to_uint16 (to_uint16 z) = to_uint16 z.
Proof. apply to_uint16_small, to_uint16_range. Qed.

Lemma to_uint32_idem z : to_uint32 (to_uint32 z) = to_uint32 z.
Proof. apply to_uint32_small, to_uint32_range. Qed.

Lemma fseek_fseek f a b : 0 <= b -> fseek (fseek f a) b = fseek f b.
Proof.
  intros Hb. unfold fseek at 1 3.
  destruct (b <? 0) eqn:E; [ apply Z.ltb_lt in E; lia | ].
  rewrite fseek_contents, fseek_ferror. reflexivity.
Qed.

Lemma read_frame_header_stream f size magic chunks duration pad rest :
  stream_from f
  = long_bytes size ++ word_bytes magic ++ word_bytes chunks ++ word_bytes duration
    ++ pad ++ rest ->
  length pad = 6%nat ->
  ase_file_read_frame_header f
  = (mkFrameHeader (to_uint32 size) (to_uint16 magic) (to_uint16 chunks)
       (to_uint16 duration), advance f 16)
  /\ stream_from (advance f 16) = rest.
Proof.
  intros H Hpad.
  destruct (fgetl_long _ _ _ H) as [E1 H1].
  destruct (fgetw_word _ _ _ H1) as [E2 H2].
  destruct (fgetw_word _ _ _ H2) as [E3 H3].
  destruct (fgetw_word _ _ _ H3) as [E4 H4].
  destruct (read_padding_stream _ _ _ H4) as [E5 H5].
  rewrite Hpad in E5, H5.
  unfold ase_file_read_frame_header.
  rewrite E1, E2, E3, E4, E5, to_uint32_idem, !to_uint16_idem.
  rewrite !advance_advance in *.
  split; [ reflexivity | exact H5 ].
Qed.

(** X4: the frame header that [ase_file_write_frame_header] puts at
    the start of a frame is read back by [ase_file_read_frame_header]:
    the size is the distance from the start of the frame to the
    position of the writer, and the magic number, the chunk count and
    the duration are the 16 bit values of the header fields.  The
    positions are within the range of an [int]. *)
Theorem frame_header_round_trip st :
  0 <= fh_size (sv_frame_header st) <= cursor (sv_file st) ->
  cursor (sv_file st) <= INT_MAX ->
  ase_file_read_frame_header
    (fseek (sv_file (ase_file_write_frame_header st)) (fh_size (sv_frame_header st)))
  = (mkFrameHeader (cursor (sv_file st) - fh_size (sv_frame_header st))
       (to_uint16 (fh_magic (sv_frame_header st)))
       (to_uint16 (fh_chunks (sv_frame_header st)))
       (to_uint16 (fh_duration (sv_frame_header st))),
     fseek (sv_file (ase_file_write_frame_header st))
       (fh_size (sv_frame_header st) + 16)).
Proof.
  intros Hp He. unfold ase_file_write_frame_header, ftell. cbn [sv_file].
  set (p := fh_size (sv_frame_header st)) in *.
  set (e := cursor (sv_file st)) in *. unfold INT_MAX in He.
  rewrite (to_int_small p) by (unfold INT_MAX; lia).
  rewrite (to_int_small e) by (unfold INT_MAX; lia).
  set (size := to_uint32 (e - p)).
  assert (Hs : 0 <= cursor (fseek (sv_file st) p)) by (rewrite fseek_cursor; lia).
  pose proof (wrote_fputl size _ Hs) as W1.
  pose proof (wrote_fputw (fh_magic (sv_frame_header st)) _ (wrote_cursor _ _ _ W1)) as W2.
  pose proof (wrote_fputw (fh_chunks (sv_frame_header st)) _ (wrote_cursor _ _ _ W2)) as W3.
  pose proof (wrote_fputw (fh_duration (sv_frame_header st)) _ (wrote_cursor _ _ _ W3))
    as W4.
  pose proof (wrote_padding 6 _ (wrote_cursor _ _ _ W4)) as W5.
  pose proof (wrote_app _ _ _ _ _ W1 (wrote_app _ _ _ _ _ W2
               (wrote_app _ _ _ _ _ W3 (wrote_app _ _ _ _ _ W4 W5)))) as W.
  pose proof (wrote_stream _ _ _ W) as Hst.
  rewrite fseek_cursor in Hst by lia. rewrite <- !app_assoc in Hst.
  rewrite !fseek_fseek by lia.
  destruct (read_frame_header_stream _ _ _ _ _ _ _ Hst eq_refl) as [E _].
  rewrite E. f_equal.
  - f_equal. subst size. rewrite to_uint32_idem. apply to_uint32_small. lia.
  - unfold advance. rewrite fseek_cursor, fseek_contents, fseek_ferror by lia.
    unfold fseek. destruct (p + 16 <? 0) eqn:F; [ apply Z.ltb_lt in F; lia | ].
    reflexivity.
Qed.

Lemma frame_header_round_trip_witness :
  0 <= 10 <= 40 /\ 40 <= INT_MAX
  /\ fst (ase_file_read_frame_header
            (fseek (sv_file (ase_file_write_frame_header
                               (mkSave (mkFILE (zeros 40) 40 false)
                                  (mkFrameHeader 10 ASE_FILE_FRAME_MAGIC 3 100)
                                  true 0 0))) 10))
     = mkFrameHeader 30 ASE_FILE_FRAME_MAGIC 3 100.
Proof.
  split; [ lia | ]. split; [ vm_compute; discriminate | ].
  exact (f_equal fst
           (frame_header_round_trip
              (mkSave (mkFILE (zeros 40) 40 false)
                 (mkFrameHeader 10 ASE_FILE_FRAME_MAGIC 3 100) true 0 0)
              ltac:(cbn; lia) ltac:(vm_compute; discriminate))).
Defined.

Lemma read_header_stream f size frames width height depth flags speed next frit
    t i0 i1 i2 ncolors rest :
  stream_from f
  = long_bytes size ++ word_bytes ASE_FILE_MAGIC ++ word_bytes frames
    ++ word_bytes width ++ word_bytes height ++ word_bytes depth ++ long_bytes flags
    ++ word_bytes speed ++ long_bytes next ++ long_bytes frit
    ++ [t] ++ [i0] ++ [i1] ++ [i2] ++ word_bytes ncolors ++ rest ->
  0 <= cursor f ->
  ase_file_read_header f
  = (Some (mkHeader (cursor f) (to_uint32 size) ASE_FILE_MAGIC (to_uint16 frames)
             (to_uint16 width) (to_uint16 height) (to_uint16 depth) (to_uint32 flags)
             (to_uint16 speed) (to_uint32 next) (to_uint32 frit) (to_uint8 t)
             (to_uint8 i0, to_uint8 i1, to_uint8 i2)
             (if to_uint16 ncolors =? 0 then 256 else to_uint16 ncolors)),
     mkFILE (contents f) (cursor f + 128) (ferror f)).
Proof.
  intros H H0.
  destruct (fgetl_long _ _ _ H) as [E1 H1].
  destruct (fgetw_word _ _ _ H1) as [E2 H2].
  destruct (fgetw_word _ _ _ H2) as [E3 H3].
  destruct (fgetw_word _ _ _ H3) as [E4 H4].
  destruct (fgetw_word _ _ _ H4) as [E5 H5].
  destruct (fgetw_word _ _ _ H5) as [E6 H6].
  destruct (fgetl_long _ _ _ H6) as [E7 H7].
  destruct (fgetw_word _ _ _ H7) as [E8 H8].
  destruct (fgetl_long _ _ _ H8) as [E9 H9].
  destruct (fgetl_long _ _ _ H9) as [E10 H10].
  destruct (fgetc_any _ _ _ H10) as [E11 H11].
  destruct (fgetc_any _ _ _ H11) as [E12 H12].
  destruct (fgetc_any _ _ _ H12) as [E13 H13].
  destruct (fgetc_any _ _ _ H13) as [E14 H14].
  destruct (fgetw_word _ _ _ H14) as [E15 _].
  unfold ase_file_read_header, ftell.
  rewrite E1, E2.
  change (to_uint16 (to_uint16 ASE_FILE_MAGIC) =? ASE_FILE_MAGIC) with true.
  cbn [negb].
  rewrite E3, E4, E5, E6, E7, E8, E9, E10, E11, E12, E13, E14, E15.
  rewrite !to_uint32_idem, !to_uint16_idem, !to_uint8_idem.
  change (to_uint16 ASE_FILE_MAGIC) with ASE_FILE_MAGIC.
  f_equal. unfold fseek.
  destruct (cursor f + 128 <? 0) eqn:F; [ apply Z.ltb_lt in F; lia | ].
  reflexivity.
Qed.

Lemma write_header_bytes f header :
  h_pos header = 0 ->
  exists fH,
    wrote (fseek f 0) fH
      (long_bytes (to_uint32 (ftell f - 0)) ++ word_bytes (h_magic header)
       ++ word_bytes (h_frames header) ++ word_bytes (h_width header)
       ++ word_bytes (h_height header) ++ word_bytes (h_depth header)
       ++ long_bytes (h_flags header) ++ word_bytes (h_speed header)
       ++ long_bytes (h_next header) ++ long_bytes (h_frit header)
       ++ [to_uint8 (h_transparent_index header)]
       ++ [to_uint8 (fst (fst (h_ignore header)))]
       ++ [to_uint8 (snd (fst (h_ignore header)))]
       ++ [to_uint8 (snd (h_ignore header))]
       ++ word_bytes (h_ncolors header))
    /\ ase_file_write_header f header = fseek fH (0 + to_uint32 (ftell f - 0)).
Proof.
  intros Hpos. unfold ase_file_write_header. rewrite Hpos.
  destruct (h_ignore header) as [[i0 i1] i2]. cbn [fst snd].
  set (size := to_uint32 (ftell f - 0)).
  assert (Hs : 0 <= cursor (fseek f 0)) by (rewrite fseek_cursor; lia).
  pose proof (wrote_fputl size _ Hs) as W1.
  pose proof (wrote_fputw (h_magic header) _ (wrote_cursor _ _ _ W1)) as W2.
  pose proof (wrote_fputw (h_frames header) _ (wrote_cursor _ _ _ W2)) as W3.
  pose proof (wrote_fputw (h_width header) _ (wrote_cursor _ _ _ W3)) as W4.
  pose proof (wrote_fputw (h_height header) _ (wrote_cursor _ _ _ W4)) as W5.
  pose proof (wrote_fputw (h_depth header) _ (wrote_cursor _ _ _ W5)) as W6.
  pose proof (wrote_fputl (h_flags header) _ (wrote_cursor _ _ _ W6)) as W7.
  pose proof (wrote_fputw (h_speed header) _ (wrote_cursor _ _ _ W7)) as W8.
  pose proof (wrote_fputl (h_next header) _ (wrote_cursor _ _ _ W8)) as W9.
  pose proof (wrote_fputl (h_frit header) _ (wrote_cursor _ _ _ W9)) as W10.
  pose proof (wrote_fputc (h_transparent_index header) _ (wrote_cursor _ _ _ W10))
    as W11.
  pose proof (wrote_fputc i0 _ (wrote_cursor _ _ _ W11)) as W12.
  pose proof (wrote_fputc i1 _ (wrote_cursor _ _ _ W12)) as W13.
  pose proof (wrote_fputc i2 _ (wrote_cursor _ _ _ W13)) as W14.
  pose proof (wrote_fputw (h_ncolors header) _ (wrote_cursor _ _ _ W14)) as W15.
  pose proof (wrote_app _ _ _ _ _ W1 (wrote_app _ _ _ _ _ W2 (wrote_app _ _ _ _ _ W3
               (wrote_app _ _ _ _ _ W4 (wrote_app _ _ _ _ _ W5 (wrote_app _ _ _ _ _ W6
               (wrote_app _ _ _ _ _ W7 (wrote_app _ _ _ _ _ W8 (wrote_app _ _ _ _ _ W9
               (wrote_app _ _ _ _ _ W10 (wrote_app _ _ _ _ _ W11
               (wrote_app _ _ _ _ _ W12 (wrote_app _ _ _ _ _ W13
               (wrote_app _ _ _ _ _ W14 W15)))))))))))))) as W.
  eexists. split; [ exact W | reflexivity ].
Qed.

Lemma saved_header_fields zl fuel sprite fop ok out fop' :
  onSave zl fuel sprite fop = Saved (ok, out, fop') ->
  exists header pal,
    getPalette sprite 0 = Some pal
    /\ ase_file_read_header (open_file (contents out))
       = (Some header, mkFILE (contents out) 128 false)
    /\ h_magic header = ASE_FILE_MAGIC
    /\ h_size header = cursor out
    /\ h_frames header = to_uint16 (getTotalFrames sprite)
    /\ h_width header = to_uint16 (spr_width sprite)
    /\ h_height header = to_uint16 (spr_height sprite)
    /\ header_format header = getPixelFormat sprite
    /\ h_speed header = to_uint16 (default 0 (getFrameDuration sprite 0))
    /\ h_transparent_index header = to_uint8 (spr_transparent sprite)
    /\ h_ncolors header
       = (if to_uint16 (pal_size pal) =? 0 then 256 else to_uint16 (pal_size pal)).
Proof.
  intros H. unfold onSave, ase_file_prepare_header in H.
  destruct (getPalette sprite 0) as [pal0 |]; [ | discriminate ].
  cbn [saved_bind] in H.
  match type of H with
  | saved_bind ?m _ = _ => destruct m as [[stN fopN] | | |] eqn:Hfr; try discriminate
  end.
  cbn [saved_bind] in H.
  match type of H with
  | context [ase_file_write_header ?f ?h] =>
      destruct (write_header_bytes f h eq_refl) as (fH & W & Eh);
      set (hd := h) in *
  end.
  assert (Eout : out = fseek fH (0 + to_uint32 (ftell (sv_file stN) - 0))).
  { rewrite <- Eh. destruct (ferror _); injection H as _ <- _; reflexivity. }
  clear H.
  pose proof (wrote_stream _ _ _ W) as Hst.
  rewrite fseek_cursor in Hst by lia. rewrite <- !app_assoc in Hst.
  assert (Hopen : stream_from (open_file (contents out)) = stream_from (fseek fH 0)).
  { rewrite Eout. unfold stream_from, open_file.
    rewrite fseek_cursor, !fseek_contents by lia. reflexivity. }
  rewrite <- Hopen in Hst. cbn [h_magic hd] in Hst.
  eexists _, pal0. split; [ reflexivity | ].
  split.
  { rewrite (read_header_stream _ _ _ _ _ _ _ _ _ _ _ _ _ _ _ _ Hst)
      by (cbn; lia).
    reflexivity. }
  cbn [h_magic h_size h_frames h_width h_height h_speed h_transparent_index
       h_ncolors h_depth hd].
  rewrite !to_uint16_idem, !to_uint8_idem, to_uint32_idem.
  split; [ reflexivity | ]. split.
  { rewrite Eout, fseek_cursor; [ reflexivity | ].
    pose proof (to_uint32_range (ftell (sv_file stN) - 0)). lia. }
  do 3 (split; [ reflexivity | ]). split.
  { unfold header_format. cbn [h_depth].
    destruct (getPixelFormat sprite); reflexivity. }
  do 2 (split; [ reflexivity | ]). reflexivity.
Qed.

(** X5: the document header of a file that [onSave] wrote is accepted
    by [ase_file_read_header] when the file is opened again, whatever
    the pixel format of the sprite: the magic number is the one of the
    format, the size field is the position at which the writer stopped,
    and the header gives the frame count, the width, the height, the
    duration of frame 0 and the size of the palette of frame 0 as 16 bit
    values (a palette size of 0 as 256), the transparent index as a
    byte, and a depth from which [onLoad] takes the pixel format of the
    sprite. *)
Theorem saved_header_reads_back zl fuel sprite fop ok out fop' :
  onSave zl fuel sprite fop = Saved (ok, out, fop') ->
  exists header pal,
    getPalette sprite 0 = Some pal
    /\ ase_file_read_header (open_file (contents out))
       = (Some header, mkFILE (contents out) 128 false)
    /\ h_magic header = ASE_FILE_MAGIC
    /\ h_size header = cursor out
    /\ h_frames header = to_uint16 (getTotalFrames sprite)
    /\ h_width header = to_uint16 (spr_width sprite)
    /\ h_height header = to_uint16 (spr_height sprite)
    /\ header_format header = getPixelFormat sprite
    /\ h_speed header = to_uint16 (default 0 (getFrameDuration sprite 0))
    /\ h_transparent_index header = to_uint8 (spr_transparent sprite)
    /\ h_ncolors header
       = (if to_uint16 (pal_size pal) =? 0 then 256 else to_uint16 (pal_size pal)).
Proof. apply saved_header_fields. Qed.

Lemma saved_header_reads_back_witness :
  exists out fop' header,
    onSave zlib_store 0 three_frames_sprite new_fop = Saved (true, out, fop')
    /\ fst (ase_file_read_header (open_file (contents out))) = Some header
    /\ h_frames header = 3 /\ h_width header = 4
    /\ header_format header = IMAGE_INDEXED /\ h_speed header = 100.
Proof.
  assert (H : exists out fop',
             onSave zlib_store 0 three_frames_sprite new_fop = Saved (true, out, fop'))
    by (eexists _, _; vm_compute; reflexivity).
  destruct H as (out & fop' & H).
  destruct (saved_header_reads_back _ _ _ _ _ _ _ H)
    as (header & pal & _ & Hr & _ & _ & Hf & Hw & _ & Hfmt & Hs & _).
  exists out, fop', header.
  split; [ exact H | ]. split; [ rewrite Hr; reflexivity | ].
  split; [ exact Hf | ]. split; [ exact Hw | ]. split; [ exact Hfmt | exact Hs ].
Defined.

(** ** Palette chunks *)

Lemma stream_from_fseek_advance f p n :
  0 <= p -> 0 <= n -> advance (fseek f p) n = fseek f (p + n).
Proof.
  intros Hp Hn. unfold advance.
  rewrite fseek_cursor, fseek_contents, fseek_ferror by lia.
  unfold fseek. destruct (p + n <? 0) eqn:F; [ apply Z.ltb_lt in F; lia | ].
  reflexivity.
Qed.

(** The body of a chunk lies six bytes behind the start of the chunk. *)
Lemma emitted_body_stream st st' type body :
  emitted st st' [(type, body)] ->
  exists rest,
    stream_from (fseek (sv_file st') (cursor (sv_file st) + 6)) = body ++ rest
    /\ cursor (sv_file st') = cursor (sv_file st) + 6 + Z.of_nat (length body).
Proof.
  intros (W & _). unfold chunks_bytes, chunk_bytes in W. cbn [flat_map fst snd] in W.
  rewrite app_nil_r in W.
  pose proof W as (H0 & Hc & _).
  pose proof (wrote_stream _ _ _ W) as Hs.
  rewrite app_assoc, <- app_assoc in Hs.
  apply stream_from_advance in Hs.
  rewrite stream_from_fseek_advance in Hs by (try exact H0; lia).
  change (Z.of_nat (length (le32 (6 + Z.of_nat (length body)) ++ le16 type))) with 6 in Hs.
  eexists. split; [ exact Hs | ].
  rewrite Hc, !length_app. cbn [length le32 le16]. lia.
Qed.

Lemma rgb_of_wf c : triple_wf (rgb_of c).
Proof.
  unfold rgb_of, triple_wf, is_byte, _rgba_getr, _rgba_getg, _rgba_getb.
  change 255 with (Z.ones 8). rewrite !Z.land_ones by lia.
  change (2 ^ 8) with 256.
  repeat split; apply Z.mod_pos_bound; lia.
Qed.

Lemma rgba_components c :
  0 <= c < 2 ^ 32 ->
  _rgba (_rgba_getr c) (_rgba_getg c) (_rgba_getb c) (_rgba_geta c) = c.
Proof.
  intros Hc. rewrite rgba_value.
  unfold _rgba_getr, _rgba_getg, _rgba_getb, _rgba_geta.
  rewrite !land_shiftr_byte by lia.
  change (2 ^ 0) with 1. change (2 ^ 8) with 256. change (2 ^ 16) with 65536.
  change (2 ^ 24) with 16777216. rewrite Z.div_1_r.
  change (2 ^ 32) with 4294967296 in Hc.
  rewrite (Z.mod_small (c / 16777216))
    by (split; [ apply Z.div_pos; lia | apply Z.div_lt_upper_bound; lia ]).
  pose proof (Z.div_mod c 256 ltac:(lia)).
  pose proof (Z.div_mod (c / 256) 256 ltac:(lia)).
  pose proof (Z.div_mod (c / 256 / 256) 256 ltac:(lia)).
  rewrite !Z.div_div in * by lia.
  change (256 * 256) with 65536 in *. change (65536 * 256) with 16777216 in *.
  lia.
Qed.

Lemma with_full_alpha_opaque c :
  0 <= c < 2 ^ 32 -> _rgba_geta c = 255 -> with_full_alpha c = c.
Proof.
  intros Hc Ha. unfold with_full_alpha. rewrite <- Ha. apply rgba_components, Hc.
Qed.

(** X6: a palette chunk that [ase_file_write_color2_chunk] wrote is
    read back by [ase_file_read_color2_chunk] from the start of its
    body: for a palette of 1 to 256 entries, read into a sprite whose
    palette at the frame has at least as many entries, the result is
    the written entries with their alpha set to 255 (the entries
    themselves where they are opaque 32 bit colours), followed by the
    entries of the sprite's palette beyond them, and the reader stops
    where the writer stopped. *)
Theorem palette_chunk_round_trip pal st st' sprite frame prev :
  ase_file_write_color2_chunk pal st = Saved st' ->
  ready st -> fits (sv_file st') ->
  getPalette sprite frame = Some prev ->
  1 <= pal_size pal <= 256 -> pal_size pal <= pal_size prev ->
  ase_file_read_color2_chunk (fseek (sv_file st') (cursor (sv_file st) + 6)) sprite frame
  = Ok (mkPalette frame
          (map with_full_alpha (pal_colors pal)
           ++ drop (length (pal_colors pal)) (pal_colors prev)),
        sv_file st')
  /\ (Forall (fun c => 0 <= c < 2 ^ 32 /\ _rgba_geta c = 255) (pal_colors pal) ->
      map with_full_alpha (pal_colors pal) = pal_colors pal).
Proof.
  intros Hw Hr Hf Hprev Hsize Hfit.
  split.
  - destruct Hr as (Hcur & H0 & Hr').
    destruct (color2_chunk_emitted _ _ _ Hw H0) as [_ S].
    specialize (S (conj Hcur (conj H0 Hr')) Hf).
    destruct (emitted_body_stream _ _ _ _ S) as (rest & Hs & Hc).
    unfold color2_body in Hs. rewrite <- app_assoc in Hs.
    set (f0 := fseek (sv_file st') (cursor (sv_file st) + 6)) in *.
    destruct (whole_palette_packet_count pal Hsize) as (Hskip & Hcount & Hlen).
    destruct (fgetw_stream _ _ _ Hs ltac:(lia)) as [E1 Hs1].
    assert (Hwf : Forall packet_wf [whole_palette_packet pal]).
    { constructor; [ | constructor ]. unfold packet_wf.
      split; [ rewrite Hskip; unfold is_byte; lia | ].
      split; [ cbn [whole_palette_packet pk_size]; apply to_uint8_range | ].
      split; [ rewrite Hlen, Hcount; reflexivity | ].
      cbn [whole_palette_packet pk_colors]. apply List.Forall_forall.
      intros t Ht. apply List.in_map_iff in Ht. destruct Ht as (c & <- & _).
      apply rgb_of_wf. }
    assert (Hpf : packets_fit [whole_palette_packet pal] 0
                    (pal_size (setFrame prev frame))).
    { cbn [packets_fit]. rewrite Hskip, Hcount.
      unfold pal_size, setFrame in *. cbn [pal_colors]. split; [ lia | exact I ]. }
    assert (Hs1' : stream_from (advance f0 2)
                   = flat_map packet_bytes [whole_palette_packet pal] ++ rest).
    { cbn [flat_map]. rewrite app_nil_r. exact Hs1. }
    destruct (read_color_packets_decodes [whole_palette_packet pal] 0 (advance f0 2)
                (setFrame prev frame) rest Hs1' Hwf ltac:(lia) Hpf) as [E2 _].
    unfold ase_file_read_color2_chunk. rewrite Hprev, E1.
    change (Z.to_nat 1) with (length [whole_palette_packet pal]). rewrite E2.
    f_equal. f_equal.
    + cbn [setFrame pal_frame pal_colors decode_packets]. rewrite Hskip.
      change (Z.to_nat (0 + 0)) with 0%nat.
      assert (Hl : length (pk_colors (whole_palette_packet pal))
                   = length (pal_colors pal))
        by (cbn [whole_palette_packet pk_colors]; apply length_map).
      rewrite write_entries_all
        by (rewrite Hl; unfold pal_size in Hfit; lia).
      cbn [take app Nat.add]. rewrite Hl. f_equal.
      cbn [whole_palette_packet pk_colors]. rewrite map_map. reflexivity.
    + rewrite advance_advance. subst f0. apply advance_fseek; [ lia | ].
      rewrite Hc. unfold packets_length, color2_body.
      cbn [flat_map]. rewrite app_nil_r, length_app. cbn [length le16]. lia.
  - intros Hall. rewrite <- (map_id (pal_colors pal)) at 2.
    apply map_ext_in. intros c Hin.
    rewrite List.Forall_forall in Hall. destruct (Hall c Hin) as [Hc Ha].
    apply with_full_alpha_opaque; assumption.
Qed.

Lemma palette_chunk_round_trip_witness :
  exists st' prev,
    ase_file_write_color2_chunk two_colors first_frame_state = Saved st'
    /\ ready first_frame_state /\ fits (sv_file st')
    /\ getPalette three_frames_sprite 0 = Some prev
    /\ 1 <= pal_size two_colors <= 256 /\ pal_size two_colors <= pal_size prev
    /\ ase_file_read_color2_chunk (fseek (sv_file st') (144 + 6)) three_frames_sprite 0
       = Ok (two_colors, sv_file st').
Proof.
  assert (H : exists st',
             ase_file_write_color2_chunk two_colors first_frame_state = Saved st'
             /\ fits (sv_file st'))
    by (eexists; split; [ vm_compute; reflexivity | vm_compute; discriminate ]).
  destruct H as (st' & H1 & H3).
  assert (H2 : ready first_frame_state)
    by (vm_compute; repeat split; discriminate).
  assert (H4 : getPalette three_frames_sprite 0
               = Some (mkPalette 0 [_rgba 0 0 0 255; _rgba 255 255 255 255]))
    by reflexivity.
  assert (H5 : 1 <= pal_size two_colors <= 256) by (vm_compute; split; discriminate).
  assert (H6 : pal_size two_colors
               <= pal_size (mkPalette 0 [_rgba 0 0 0 255; _rgba 255 255 255 255]))
    by (vm_compute; discriminate).
  exists st', (mkPalette 0 [_rgba 0 0 0 255; _rgba 255 255 255 255]).
  split; [ exact H1 | ]. split; [ exact H2 | ]. split; [ exact H3 | ].
  split; [ exact H4 | ]. split; [ exact H5 | ]. split; [ exact H6 | ].
  exact (proj1 (palette_chunk_round_trip two_colors first_frame_state st'
                  three_frames_sprite 0 _ H1 H2 H3 H4 H5 H6)).
Defined.

Lemma scale_6_six_bit r : 0 <= r < 64 -> scale_6 r = Some (scaled_6 r).
Proof.
  intros H. unfold scale_6, scaled_6.
  destruct (r <? 0) eqn:E; [ apply Z.ltb_lt in E; lia | ].
  destruct (_rgb_scale_6 !! Z.to_nat r) as [v |] eqn:El; [ reflexivity | ].
  apply lookup_ge_None in El. change (length _rgb_scale_6) with 64%nat in El. lia.
Qed.

Lemma read_color_entries_scaled colors : forall c f pal rest,
  stream_from f = flat_map triple_bytes colors ++ rest ->
  Forall triple_wf colors -> Forall six_bit colors ->
  0 <= c -> c + Z.of_nat (length colors) <= pal_size pal ->
  read_color_entries scale_6 (length colors) c f pal
  = Ok (mkPalette (pal_frame pal)
          (write_entries (Z.to_nat c) (map scale_triple colors) (pal_colors pal)),
        advance f (3 * Z.of_nat (length colors)))
  /\ stream_from (advance f (3 * Z.of_nat (length colors))) = rest.
Proof.
  induction colors as [| [[r g] b] colors IH]; intros c f pal rest Hs Hwf Hsix Hc Hfit.
  - simpl in *. unfold advance. simpl. rewrite Z.add_0_r.
    destruct f, pal; simpl in *. split; [ reflexivity | exact Hs ].
  - inversion Hwf as [| x l Ht Hwf']; subst x l.
    inversion Hsix as [| x l H6 Hsix']; subst x l.
    simpl in Ht. destruct Ht as (Hr & Hg & Hb).
    simpl in H6. destruct H6 as (Hr6 & Hg6 & Hb6).
    simpl in Hs. simpl length in *.
    destruct (fgetc_stream _ _ _ Hs Hr) as [E1 Hs1].
    destruct (fgetc_stream _ _ _ Hs1 Hg) as [E2 Hs2].
    destruct (fgetc_stream _ _ _ Hs2 Hb) as [E3 Hs3].
    rewrite !advance_advance in *.
    change (1 + 1 + 1) with 3 in *. change (1 + (1 + 1)) with 3 in *.
    cbn [read_color_entries length]. rewrite E1, E2, E3.
    rewrite (scale_6_six_bit r Hr6), (scale_6_six_bit g Hg6), (scale_6_six_bit b Hb6).
    unfold setEntry.
    replace ((0 <=? c) && (c <? pal_size pal)) with true
      by (symmetry; apply andb_true_iff; split; [ apply Z.leb_le | apply Z.ltb_lt ]; lia).
    destruct (IH (c + 1) (advance f 3)
                (mkPalette (pal_frame pal)
                   (<[Z.to_nat c := _rgba (scaled_6 r) (scaled_6 g) (scaled_6 b) 255]>
                      (pal_colors pal))) rest Hs3 Hwf' Hsix')
      as [E4 Hs4]; [ lia | unfold pal_size in *; simpl; rewrite length_insert; lia | ].
    rewrite E4. rewrite advance_advance in *. simpl.
    replace (Z.to_nat (c + 1)) with (S (Z.to_nat c)) by lia.
    replace (3 + 3 * Z.of_nat (length colors))
      with (3 * Z.of_nat (S (length colors))) in * by lia.
    split; [ reflexivity | exact Hs4 ].
Qed.

Lemma read_color_packets_scaled packets : forall skip f pal rest,
  stream_from f = flat_map packet_bytes packets ++ rest ->
  Forall packet_wf packets ->
  Forall (fun p => Forall six_bit (pk_colors p)) packets ->
  0 <= skip -> packets_fit packets skip (pal_size pal) ->
  read_color_packets scale_6 (length packets) skip f pal
  = Ok (mkPalette (pal_frame pal)
          (decode_packets (map scale_packet packets) skip (pal_colors pal)),
        advance f (packets_length packets))
  /\ stream_from (advance f (packets_length packets)) = rest.
Proof.
  unfold packets_length.
  induction packets as [| p packets IH]; intros skip f pal rest Hs Hwf Hsix Hc Hfit.
  - simpl in *. unfold advance. simpl. rewrite Z.add_0_r.
    destruct f, pal; simpl in *. split; [ reflexivity | exact Hs ].
  - inversion Hwf as [| x l Hp Hwf']; subst x l.
    inversion Hsix as [| x l Hp6 Hsix']; subst x l.
    destruct Hp as (Hsk & Hsz & Hlen & Hcol).
    destruct Hfit as [Hfit Hfit'].
    cbn [flat_map] in Hs. unfold packet_bytes in Hs at 1.
    rewrite <- !app_assoc in Hs. cbn [app] in Hs.
    destruct (fgetc_stream _ _ _ Hs Hsk) as [E1 Hs1].
    destruct (fgetc_stream _ _ _ Hs1 Hsz) as [E2 Hs2].
    rewrite !advance_advance in *. change (1 + 1) with 2 in *.
    cbn [read_color_packets length]. rewrite E1, E2.
    fold (packet_count p). rewrite <- Hlen, Nat2Z.id.
    unfold is_byte in *.
    destruct (read_color_entries_scaled (pk_colors p) (skip + pk_skip p) (advance f 2)
                pal _ Hs2 Hcol Hp6) as [E3 Hs3]; [ lia | lia | ].
    rewrite E3.
    destruct (IH (skip + pk_skip p) _
                (mkPalette (pal_frame pal)
                   (write_entries (Z.to_nat (skip + pk_skip p))
                      (map scale_triple (pk_colors p)) (pal_colors pal)))
                rest Hs3 Hwf' Hsix') as [E4 Hs4].
    + lia.
    + unfold pal_size in *. simpl.
      rewrite write_entries_length. exact Hfit'.
    + rewrite E4. cbn [pal_frame pal_colors].
      assert (Hn : Z.of_nat (length (flat_map packet_bytes (p :: packets)))
                   = 2 + 3 * Z.of_nat (length (pk_colors p))
                     + Z.of_nat (length (flat_map packet_bytes packets))).
      { cbn [flat_map]. rewrite length_app, packet_bytes_length. lia. }
      rewrite Hn, <- !advance_advance. split; [ reflexivity | exact Hs4 ].
Qed.

(** X7: the legacy palette chunk is decoded by
    [ase_file_read_color_chunk] as the direct-value chunk is, with
    every component replaced by its entry in the 6 bit scaling table:
    for packets of 6 bit components that stay inside the palette, the
    result is the packet decoding of the scaled packets, entries
    outside the packets are kept, and the reader stops behind the last
    packet. *)
Theorem legacy_chunk_decodes f sprite frame pal packets rest :
  getPalette sprite frame = Some pal ->
  stream_from f
  = le16 (Z.of_nat (length packets)) ++ flat_map packet_bytes packets ++ rest ->
  Z.of_nat (length packets) < 65536 ->
  Forall packet_wf packets ->
  Forall (fun p => Forall six_bit (pk_colors p)) packets ->
  packets_fit packets 0 (pal_size pal) ->
  ase_file_read_color_chunk f sprite frame
  = Ok (mkPalette frame (decode_packets (map scale_packet packets) 0 (pal_colors pal)),
        advance f (2 + packets_length packets)).
Proof.
  intros Hpal Hs Hn Hwf Hsix Hfit.
  unfold ase_file_read_color_chunk. rewrite Hpal.
  destruct (fgetw_stream _ _ _ Hs ltac:(lia)) as [E1 Hs1]. rewrite E1.
  rewrite Nat2Z.id.
  destruct (read_color_packets_scaled packets 0 (advance f 2) (setFrame pal frame)
              rest Hs1 Hwf Hsix ltac:(lia) Hfit) as [E2 _].
  rewrite E2, advance_advance. reflexivity.
Qed.

Lemma legacy_chunk_decodes_witness :
  getPalette small_palette_sprite 0 = Some (mkPalette 0 (replicate 4 (_rgba 0 0 0 255)))
  /\ stream_from two_packets_file
     = le16 (Z.of_nat (length two_packets)) ++ flat_map packet_bytes two_packets ++ []
  /\ Z.of_nat (length two_packets) < 65536
  /\ Forall packet_wf two_packets
  /\ Forall (fun p => Forall six_bit (pk_colors p)) two_packets
  /\ packets_fit two_packets 0 4
  /\ ase_file_read_color_chunk two_packets_file small_palette_sprite 0
     = Ok (mkPalette 0 [_rgba 0 0 0 255;
                        _rgba (scaled_6 10) (scaled_6 20) (scaled_6 30) 255;
                        _rgba 0 0 0 255;
                        _rgba (scaled_6 40) (scaled_6 50) (scaled_6 60) 255],
           advance two_packets_file 12).
Proof.
  assert (H1 : getPalette small_palette_sprite 0
               = Some (mkPalette 0 (replicate 4 (_rgba 0 0 0 255)))) by reflexivity.
  assert (H2 : stream_from two_packets_file
               = le16 (Z.of_nat (length two_packets))
                 ++ flat_map packet_bytes two_packets ++ [])
    by (vm_compute; reflexivity).
  assert (H3 : Z.of_nat (length two_packets) < 65536) by (vm_compute; reflexivity).
  assert (H4 : Forall packet_wf two_packets).
  { repeat constructor; vm_compute; intros; discriminate. }
  assert (H5 : Forall (fun p => Forall six_bit (pk_colors p)) two_packets).
  { repeat constructor; vm_compute; intros; discriminate. }
  assert (H6 : packets_fit two_packets 0
                 (pal_size (mkPalette 0 (replicate 4 (_rgba 0 0 0 255))))).
  { vm_compute. repeat split; discriminate. }
  split; [ exact H1 | ]. split; [ exact H2 | ]. split; [ exact H3 | ].
  split; [ exact H4 | ]. split; [ exact H5 | ]. split; [ exact H6 | ].
  exact (legacy_chunk_decodes two_packets_file small_palette_sprite 0 _
           two_packets [] H1 H2 H3 H4 H5 H6).
Defined.

Lemma scale_6_outside r : 64 <= r -> scale_6 r = None.
Proof.
  intros H. unfold scale_6.
  destruct (r <? 0) eqn:E; [ reflexivity | ].
  apply lookup_ge_None. change (length _rgb_scale_6) with 64%nat. lia.
Qed.

(** X8: [ase_file_read_color_chunk] takes the entry of the scaling
    table at every component byte it reads, without a test: a legacy
    palette chunk whose first colour has a component of 64 or more
    makes it read outside of the 64 entries of the table. *)
Theorem legacy_component_out_of_table f sprite frame pal n skip size r g b rest :
  getPalette sprite frame = Some pal ->
  stream_from f = le16 n ++ [skip; size; r; g; b] ++ rest ->
  1 <= n < 65536 ->
  is_byte skip -> is_byte size -> is_byte r -> is_byte g -> is_byte b ->
  64 <= r \/ 64 <= g \/ 64 <= b ->
  ase_file_read_color_chunk f sprite frame = Crash.
Proof.
  intros Hpal Hs Hn Hskip Hsize Hr Hg Hb Hout.
  unfold ase_file_read_color_chunk. rewrite Hpal.
  destruct (fgetw_stream _ _ _ Hs ltac:(lia)) as [E1 Hs1]. rewrite E1.
  cbn [app] in Hs1.
  destruct (fgetc_stream _ _ _ Hs1 Hskip) as [E2 Hs2].
  destruct (fgetc_stream _ _ _ Hs2 Hsize) as [E3 Hs3].
  destruct (fgetc_stream _ _ _ Hs3 Hr) as [E4 Hs4].
  destruct (fgetc_stream _ _ _ Hs4 Hg) as [E5 Hs5].
  destruct (fgetc_stream _ _ _ Hs5 Hb) as [E6 _].
  destruct (Z.to_nat n) as [| n'] eqn:En; [ lia | ].
  cbn [read_color_packets]. rewrite E2, E3.
  assert (Hcount : exists k, Z.to_nat (if size =? 0 then 256 else size) = S k).
  { unfold is_byte in Hsize. destruct (Z.eqb_spec size 0).
    - exists 255%nat. reflexivity.
    - exists (Z.to_nat size - 1)%nat. lia. }
  destruct Hcount as [k ->].
  cbn [read_color_entries]. rewrite E4, E5, E6.
  unfold is_byte in *.
  destruct Hout as [H | [H | H]]; rewrite (scale_6_outside _ H);
    repeat match goal with |- context [scale_6 ?x] => destruct (scale_6 x) end;
    reflexivity.
Qed.

Lemma legacy_component_out_of_table_witness :
  getPalette small_palette_sprite 0 = Some (mkPalette 0 (replicate 4 (_rgba 0 0 0 255)))
  /\ stream_from (open_file [1; 0; 0; 1; 255; 0; 0]) = le16 1 ++ [0; 1; 255; 0; 0] ++ []
  /\ ase_file_read_color_chunk (open_file [1; 0; 0; 1; 255; 0; 0]) small_palette_sprite 0
     = Crash.
Proof.
  split; [ reflexivity | ]. split; [ reflexivity | ].
  apply (legacy_component_out_of_table (open_file [1; 0; 0; 1; 255; 0; 0])
           small_palette_sprite 0 _ 1 0 1 255 0 0 [] eq_refl eq_refl);
    unfold is_byte; lia.
Defined.

(** ** Pixels *)

Lemma graya_components c :
  0 <= c < 2 ^ 16 -> _graya (_graya_getv c) (_graya_geta c) = c.
Proof.
  intros Hc. unfold _graya, _graya_getv, _graya_geta.
  rewrite !land_shiftr_byte by lia. rewrite Z.lor_comm.
  rewrite word_of_bytes by (apply Z.mod_pos_bound; lia).
  change (2 ^ 0) with 1. change (2 ^ 8) with 256. rewrite Z.div_1_r.
  change (2 ^ 16) with 65536 in Hc.
  rewrite (Z.mod_small (c / 256))
    by (split; [ apply Z.div_pos; lia | apply Z.div_lt_upper_bound; lia ]).
  pose proof (Z.div_mod c 256 ltac:(lia)). lia.
Qed.

(** X9: a row of pixels that [write_scanline] turned into bytes is
    given back by [read_scanline], for each of the three pixel formats
    and every pixel value of the format; the row takes the bytes that
    [scanline_size] announces. *)
Theorem scanline_round_trip fmt pixels rest :
  Forall (pixel_in_range fmt) pixels ->
  read_scanline fmt (length pixels) (write_scanline fmt pixels ++ rest) = pixels
  /\ Z.of_nat (length (write_scanline fmt pixels))
     = scanline_size fmt (Z.of_nat (length pixels)).
Proof.
  induction pixels as [| c pixels IH]; intros Hall.
  - split; [ reflexivity | destruct fmt; reflexivity ].
  - inversion Hall as [| x l Hc Hall']; subst x l.
    destruct (IH Hall') as [IH1 IH2]. clear IH.
    destruct fmt; cbn [write_scanline read_scanline length app drop buf_get lookup
                       list_lookup default]; unfold id; rewrite drop_0.
    + split.
      * rewrite IH1. f_equal. apply rgba_components, Hc.
      * cbn [scanline_size] in *. lia.
    + split.
      * rewrite IH1. f_equal. apply graya_components, Hc.
      * cbn [scanline_size] in *. lia.
    + split.
      * rewrite IH1. f_equal. apply to_uint8_small. exact Hc.
      * cbn [scanline_size] in *. lia.
Qed.

Lemma scanline_round_trip_witness :
  Forall (pixel_in_range IMAGE_GRAYSCALE) [0x80ff; 0x0012]
  /\ read_scanline IMAGE_GRAYSCALE 2 (write_scanline IMAGE_GRAYSCALE [0x80ff; 0x0012])
     = [0x80ff; 0x0012].
Proof.
  assert (H : Forall (pixel_in_range IMAGE_GRAYSCALE) [0x80ff; 0x0012])
    by (repeat constructor; vm_compute; discriminate).
  split; [ exact H | ].
  pose proof (proj1 (scanline_round_trip IMAGE_GRAYSCALE [0x80ff; 0x0012] [] H)) as E.
  rewrite app_nil_r in E. exact E.
Defined.

Lemma land_is_byte x : is_byte (Z.land x 0xff).
Proof.
  unfold is_byte. change 255 with (Z.ones 8). rewrite Z.land_ones by lia.
  change (2 ^ 8) with 256. apply Z.mod_pos_bound. lia.
Qed.

Lemma write_scanline_app fmt a : forall b,
  write_scanline fmt (a ++ b) = write_scanline fmt a ++ write_scanline fmt b.
Proof.
  induction a as [| c a IH]; intros b; [ reflexivity | ].
  destruct fmt; cbn [write_scanline app]; rewrite IH; reflexivity.
Qed.

Lemma wrote_write_pixel fmt f c :
  0 <= cursor f -> wrote f (write_pixel fmt f c) (write_scanline fmt [c]).
Proof.
  intros H0. destruct fmt; cbn [write_pixel write_scanline].
  - pose proof (wrote_fputc (_rgba_getr c) _ H0) as W1.
    pose proof (wrote_fputc (_rgba_getg c) _ (wrote_cursor _ _ _ W1)) as W2.
    pose proof (wrote_fputc (_rgba_getb c) _ (wrote_cursor _ _ _ W2)) as W3.
    pose proof (wrote_fputc (_rgba_geta c) _ (wrote_cursor _ _ _ W3)) as W4.
    pose proof (wrote_app _ _ _ _ _ W1 (wrote_app _ _ _ _ _ W2
                 (wrote_app _ _ _ _ _ W3 W4))) as W.
    unfold _rgba_getr, _rgba_getg, _rgba_getb, _rgba_geta in *.
    rewrite !land_byte in W. exact W.
  - pose proof (wrote_fputc (_graya_getv c) _ H0) as W1.
    pose proof (wrote_fputc (_graya_geta c) _ (wrote_cursor _ _ _ W1)) as W2.
    pose proof (wrote_app _ _ _ _ _ W1 W2) as W.
    unfold _graya_getv, _graya_geta in *.
    rewrite !land_byte in W. exact W.
  - apply wrote_fputc, H0.
Qed.

Lemma read_pixel_stream fmt f c rest :
  pixel_in_range fmt c ->
  stream_from f = write_scanline fmt [c] ++ rest ->
  read_pixel fmt f = (c, advance f (Z.of_nat (length (write_scanline fmt [c]))))
  /\ stream_from (advance f (Z.of_nat (length (write_scanline fmt [c])))) = rest.
Proof.
  intros Hc Hs. destruct fmt; cbn [write_scanline app length] in *.
  - destruct (fgetc_stream _ _ _ Hs (land_is_byte _)) as [E1 H1].
    destruct (fgetc_stream _ _ _ H1 (land_is_byte _)) as [E2 H2].
    destruct (fgetc_stream _ _ _ H2 (land_is_byte _)) as [E3 H3].
    destruct (fgetc_stream _ _ _ H3 (land_is_byte _)) as [E4 H4].
    unfold read_pixel. rewrite E1, E2, E3, E4. rewrite !advance_advance in *.
    split; [ | exact H4 ].
    f_equal. apply rgba_components, Hc.
  - destruct (fgetc_stream _ _ _ Hs (land_is_byte _)) as [E1 H1].
    destruct (fgetc_stream _ _ _ H1 (land_is_byte _)) as [E2 H2].
    unfold read_pixel. rewrite E1, E2. rewrite !advance_advance in *.
    split; [ | exact H2 ].
    f_equal. apply graya_components, Hc.
  - destruct (fgetc_any _ _ _ Hs) as [E1 H1].
    unfold read_pixel. rewrite E1, !to_uint8_idem.
    split; [ | exact H1 ].
    f_equal. apply to_uint8_small. exact Hc.
Qed.

Lemma read_raw_row_stream fmt w h px : forall pre mid post x y f rest,
  stream_from f = write_scanline fmt px ++ rest ->
  Forall (pixel_in_range fmt) px ->
  length mid = length px ->
  Z.of_nat (length pre) = y * w + x ->
  read_raw_row (length px) x y f (mkImage fmt w h (pre ++ mid ++ post))
  = (mkImage fmt w h (pre ++ px ++ post),
     advance f (Z.of_nat (length (write_scanline fmt px))))
  /\ stream_from (advance f (Z.of_nat (length (write_scanline fmt px)))) = rest.
Proof.
  induction px as [| c px IH]; intros pre mid post x y f rest Hs Hall Hmid Hpre.
  - destruct mid; [ | discriminate ].
    assert (E : write_scanline fmt [] = []) by (destruct fmt; reflexivity).
    rewrite E in *. cbn [length read_raw_row app] in *.
    unfold advance. rewrite Z.add_0_r. destruct f; auto.
  - destruct mid as [| m mid]; [ discriminate | ].
    inversion Hall as [| x' l Hc Hall']; subst x' l.
    change (c :: px) with ([c] ++ px) in Hs. rewrite write_scanline_app in Hs.
    rewrite <- app_assoc in Hs.
    destruct (read_pixel_stream _ _ _ _ Hc Hs) as [E1 H1].
    cbn [length read_raw_row img_format]. rewrite E1.
    unfold image_putpixel_fast. cbn [img_format img_w img_h img_pixels].
    replace (Z.to_nat (y * w + x)) with (length pre + 0)%nat by lia.
    rewrite insert_app_r. cbn [app]. cbn [insert list_insert].
    replace (pre ++ c :: mid ++ post) with ((pre ++ [c]) ++ mid ++ post)
      by (rewrite <- app_assoc; reflexivity).
    destruct (IH (pre ++ [c]) mid post (x + 1) y _ rest H1 Hall') as [E2 H2].
    + simpl in Hmid. lia.
    + rewrite length_app. cbn [length]. lia.
    + rewrite E2. rewrite advance_advance in *.
      change (c :: px) with ([c] ++ px). rewrite write_scanline_app, length_app.
      rewrite Nat2Z.inj_add, <- app_assoc. cbn [app].
      split; [ reflexivity | exact H2 ].
Qed.

Lemma read_raw_rows_stream fmt w h header n : forall px pre mid post y f fop rest,
  stream_from f = write_scanline fmt px ++ rest ->
  Forall (pixel_in_range fmt) px ->
  length px = (n * Z.to_nat w)%nat -> length mid = length px ->
  0 <= w -> Z.of_nat (length pre) = y * w ->
  exists fop',
    read_raw_rows n y f (mkImage fmt w h (pre ++ mid ++ post)) fop header
    = (mkImage fmt w h (pre ++ px ++ post),
       advance f (Z.of_nat (length (write_scanline fmt px))), fop')
    /\ stream_from (advance f (Z.of_nat (length (write_scanline fmt px)))) = rest.
Proof.
  induction n as [| n IH]; intros px pre mid post y f fop rest Hs Hall Hpx Hmid Hw Hpre.
  - destruct px; [ | discriminate ]. destruct mid; [ | discriminate ].
    assert (E : write_scanline fmt [] = []) by (destruct fmt; reflexivity).
    rewrite E in *. cbn [length read_raw_rows app] in *.
    exists fop. unfold advance. rewrite Z.add_0_r. destruct f; auto.
  - set (k := Z.to_nat w) in *.
    assert (Hk : (k <= length px)%nat) by lia.
    rewrite <- (take_drop k px) in Hs |- *.
    rewrite <- (take_drop k mid).
    rewrite write_scanline_app, <- !app_assoc in Hs.
    assert (Hrow : length (take k px) = k) by (rewrite length_take; lia).
    assert (Hall' : Forall (pixel_in_range fmt) (take k px)
                    /\ Forall (pixel_in_range fmt) (drop k px)).
    { rewrite <- (take_drop k px) in Hall. apply Forall_app in Hall. exact Hall. }
    destruct Hall' as [Hrow_ok Hrest_ok].
    destruct (read_raw_row_stream fmt w h (take k px) pre (take k mid)
                (drop k mid ++ post) 0 y f _ Hs Hrow_ok) as [E1 H1].
    + rewrite !length_take. lia.
    + lia.
    + cbn [read_raw_rows img_w]. fold k. rewrite Hrow in E1.
      rewrite <- !app_assoc. rewrite E1.
      replace (pre ++ take k px ++ drop k mid ++ post)
        with ((pre ++ take k px) ++ drop k mid ++ post)
        by (rewrite <- app_assoc; reflexivity).
      destruct (IH (drop k px) (pre ++ take k px) (drop k mid) post (y + 1) _
                  (fop_progress fop
                     (ftell (advance f (Z.of_nat (length (write_scanline fmt (take k px))))))
                     (h_size header))
                  rest H1 Hrest_ok) as (fop' & E2 & H2).
      * rewrite length_drop. lia.
      * rewrite !length_drop. lia.
      * exact Hw.
      * rewrite length_app, Hrow. subst k. lia.
      * exists fop'. rewrite E2. rewrite advance_advance in *.
        rewrite write_scanline_app, length_app, Nat2Z.inj_add, <- !app_assoc.
        split; [ reflexivity | exact H2 ].
Qed.

Lemma write_raw_row_wrote fmt w h px : forall pre post x y f,
  0 <= cursor f ->
  Z.of_nat (length pre) = y * w + x ->
  wrote f (write_raw_row (length px) x y f (mkImage fmt w h (pre ++ px ++ post)))
    (write_scanline fmt px).
Proof.
  induction px as [| c px IH]; intros pre post x y f H0 Hpre.
  - assert (E : write_scanline fmt [] = []) by (destruct fmt; reflexivity).
    rewrite E. apply wrote_nil, H0.
  - cbn [length write_raw_row img_format].
    unfold image_getpixel_fast. cbn [img_w img_pixels].
    replace (Z.to_nat (y * w + x)) with (length pre + 0)%nat by lia.
    rewrite lookup_app_r by lia.
    replace (length pre + 0 - length pre)%nat with 0%nat by lia.
    cbn [app lookup list_lookup default].
    pose proof (wrote_write_pixel fmt f c H0) as W1.
    replace (pre ++ c :: px ++ post) with ((pre ++ [c]) ++ px ++ post)
      by (rewrite <- app_assoc; reflexivity).
    pose proof (IH (pre ++ [c]) post (x + 1) y _ (wrote_cursor _ _ _ W1)) as W2.
    change (c :: px) with ([c] ++ px). rewrite write_scanline_app.
    eapply wrote_app; [ exact W1 | ]. apply W2.
    rewrite length_app. cbn [length]. lia.
Qed.

Lemma write_raw_rows_wrote fmt w h n : forall px pre post y f,
  0 <= cursor f -> 0 <= w ->
  length px = (n * Z.to_nat w)%nat ->
  Z.of_nat (length pre) = y * w ->
  wrote f (write_raw_rows n y f (mkImage fmt w h (pre ++ px ++ post)))
    (write_scanline fmt px).
Proof.
  induction n as [| n IH]; intros px pre post y f H0 Hw Hpx Hpre.
  - destruct px; [ | discriminate ].
    assert (E : write_scanline fmt [] = []) by (destruct fmt; reflexivity).
    rewrite E. apply wrote_nil, H0.
  - set (k := Z.to_nat w) in *.
    assert (Hrow : length (take k px) = k) by (rewrite length_take; lia).
    cbn [write_raw_rows img_w]. fold k.
    rewrite <- (take_drop k px). rewrite write_scanline_app, <- !app_assoc.
    pose proof (write_raw_row_wrote fmt w h (take k px) pre (drop k px ++ post) 0 y f
                  H0 ltac:(lia)) as W1.
    rewrite Hrow in W1.
    assert (Eimg : pre ++ take k px ++ drop k px ++ post
                   = (pre ++ take k px) ++ drop k px ++ post)
      by (rewrite <- app_assoc; reflexivity).
    rewrite Eimg in W1 |- *.
    eapply wrote_app; [ exact W1 | ].
    apply IH.
    + exact (wrote_cursor _ _ _ W1).
    + exact Hw.
    + rewrite length_drop. lia.
    + rewrite length_app, Hrow. subst k. lia.
Qed.

(** X10: an image that [write_raw_image] wrote is read back by
    [read_raw_image] from the position at which it was written, into
    the image that [Image::create] made for its format and size: for
    each of the three formats, every pixel of a value of the format is
    given back, and the reader stops where the writer stopped. *)
Theorem raw_image_round_trip f image fop header :
  0 <= cursor f ->
  0 <= img_w image -> 0 <= img_h image ->
  Z.of_nat (length (img_pixels image)) = img_w image * img_h image ->
  Forall (pixel_in_range (img_format image)) (img_pixels image) ->
  exists fop',
    read_raw_image (fseek (write_raw_image f image) (cursor f))
      (Image_create (img_format image) (img_w image) (img_h image)) fop header
    = (image, write_raw_image f image, fop').
Proof.
  destruct image as [fmt w h px]. cbn [img_format img_w img_h img_pixels].
  intros H0 Hw Hh Hlen Hall.
  assert (Hn : length px = (Z.to_nat h * Z.to_nat w)%nat) by nia.
  pose proof (write_raw_rows_wrote fmt w h (Z.to_nat h) px [] [] 0 f H0 Hw Hn
                ltac:(cbn [length]; lia)) as W.
  cbn [app] in W. rewrite app_nil_r in W.
  fold (write_raw_image f (mkImage fmt w h px)) in W.
  change (write_raw_rows (Z.to_nat h) 0 f (mkImage fmt w h px))
    with (write_raw_image f (mkImage fmt w h px)) in W.
  pose proof (wrote_stream _ _ _ W) as Hs.
  destruct (read_raw_rows_stream fmt w h header (Z.to_nat h) px []
              (replicate (Z.to_nat (w * h)) 0) [] 0 _ fop _ Hs Hall Hn)
    as (fop' & E & _).
  - rewrite length_replicate. lia.
  - exact Hw.
  - cbn [length]. lia.
  - exists fop'. unfold read_raw_image, Image_create. cbn [img_h].
    cbn [app] in E. rewrite !app_nil_r in E. rewrite E. f_equal. f_equal.
    apply advance_fseek; [ exact H0 | ].
    destruct W as (_ & Hc & _). exact Hc.
Qed.

Lemma raw_image_round_trip_witness :
  exists fop',
    read_raw_image
      (fseek (write_raw_image (mkFILE [9; 9] 2 false)
                (mkImage IMAGE_RGB 2 1 [_rgba 1 2 3 4; _rgba 5 6 7 8])) 2)
      (Image_create IMAGE_RGB 2 1) new_fop example_header
    = (mkImage IMAGE_RGB 2 1 [_rgba 1 2 3 4; _rgba 5 6 7 8],
       mkFILE [9; 9; 1; 2; 3; 4; 5; 6; 7; 8] 10 false, fop').
Proof.
  exact (raw_image_round_trip (mkFILE [9; 9] 2 false)
           (mkImage IMAGE_RGB 2 1 [_rgba 1 2 3 4; _rgba 5 6 7 8]) new_fop example_header
           ltac:(cbn; lia) ltac:(cbn; lia) ltac:(cbn; lia) ltac:(reflexivity)
           ltac:(repeat constructor; vm_compute; discriminate)).
Defined.

(** ** The save driver *)

Lemma save_frame_progress zl fuel sprite frame st fop st' fop' :
  save_frame zl fuel sprite frame st fop = Saved (st', fop') ->
  fop' = (if 1 <? getTotalFrames sprite
          then fop_progress fop (frame + 1) (getTotalFrames sprite)
          else fop).
Proof.
  unfold save_frame. intros H.
  repeat match type of H with
         | saved_bind ?m _ = _ =>
             destruct m; try discriminate; cbn [saved_bind] in H
         end.
  injection H as _ <-. reflexivity.
Qed.

Lemma save_frames_progress zl fuel sprite n : forall frame st fop st' fop',
  save_frames zl fuel sprite n frame st fop = Saved (st', fop') ->
  fop_progress_log fop'
  = fop_progress_log fop
    ++ (if 1 <? getTotalFrames sprite
        then map (fun i => (frame + Z.of_nat i + 1, getTotalFrames sprite)) (seq 0 n)
        else []).
Proof.
  induction n as [| n IH]; intros frame st fop st' fop' H.
  - injection H as _ <-. cbn [seq map]. destruct (1 <? _); rewrite app_nil_r; reflexivity.
  - cbn [save_frames] in H.
    destruct (save_frame zl fuel sprite frame st fop) as [[st1 fop1] | | |] eqn:Hfr;
      try discriminate.
    cbn [saved_bind] in H. apply IH in H. rewrite H.
    rewrite (save_frame_progress _ _ _ _ _ _ _ _ Hfr).
    destruct (1 <? getTotalFrames sprite); [ | reflexivity ].
    cbn [fop_progress fop_progress_log seq map]. rewrite <- app_assoc. cbn [app].
    rewrite Z.add_0_r. f_equal. f_equal.
    rewrite <- seq_shift, map_map. apply map_ext. intros i.
    f_equal. lia.
Qed.

(** X11: [onSave] reports its progress once after every frame, as the
    number of frames written so far against the number of frames of the
    sprite, in this order; for a sprite of one frame (or none) it
    reports nothing. *)
Theorem save_progress_reports zl fuel sprite fop ok out fop' :
  onSave zl fuel sprite fop = Saved (ok, out, fop') ->
  fop_progress_log fop'
  = fop_progress_log fop
    ++ (if 1 <? getTotalFrames sprite
        then map (fun i => (Z.of_nat i + 1, getTotalFrames sprite))
               (seq 0 (Z.to_nat (getTotalFrames sprite)))
        else []).
Proof.
  intros H. unfold onSave, ase_file_prepare_header in H.
  destruct (getPalette sprite 0) as [pal0 |]; [ | discriminate ].
  cbn [saved_bind] in H.
  match type of H with
  | saved_bind ?m _ = _ => destruct m as [[stN fopN] | | |] eqn:Hfr; try discriminate
  end.
  cbn [saved_bind] in H.
  apply save_frames_progress in Hfr.
  assert (E : fop_progress_log fop' = fop_progress_log fopN).
  { destruct (ferror _); injection H as _ _ <-; reflexivity. }
  rewrite E, Hfr. reflexivity.
Qed.

Lemma save_progress_reports_witness :
  exists out fop',
    onSave zlib_store 0 three_frames_sprite new_fop = Saved (true, out, fop')
    /\ fop_progress_log fop' = [(1, 3); (2, 3); (3, 3)].
Proof.
  assert (H : exists out fop',
             onSave zlib_store 0 three_frames_sprite new_fop = Saved (true, out, fop'))
    by (eexists _, _; vm_compute; reflexivity).
  destruct H as (out & fop' & H).
  exists out, fop'. split; [ exact H | ].
  exact (save_progress_reports _ _ _ _ _ _ _ H).
Defined.

(** ** Compressed images *)

Lemma fread_bounds f n bytes f' :
  fread f n = (bytes, f') -> 0 <= cursor f -> 0 <= n ->
  contents f' = contents f /\ ferror f' = ferror f
  /\ cursor f <= cursor f' <= cursor f + n.
Proof.
  unfold fread. intros H H0 Hn.
  destruct (cursor f <? 0) eqn:E; [ apply Z.ltb_lt in E; lia | ].
  injection H as _ <-. cbn [contents ferror cursor].
  split; [ reflexivity | ]. split; [ reflexivity | ].
  pose proof (length_take_le (drop (Z.to_nat (cursor f)) (contents f)) (Z.to_nat n)) as Hl.
  rewrite length_take. lia.
Qed.

Lemma to_size_t_small z : 0 <= z < 2 ^ 64 -> to_size_t z = z.
Proof. intros H. unfold to_size_t. apply Z.mod_small, H. Qed.

Lemma inflate_blocks_bounded zl header chunk_end scanline capacity fuel :
  forall zs f fop unc t zs' unc' f' fop',
    inflate_blocks zl fuel zs f chunk_end fop header scanline capacity unc
    = Ok (t, zs', unc', f', fop') ->
    0 <= cursor f <= chunk_end -> chunk_end < 2 ^ 63 ->
    contents f' = contents f /\ ferror f' = ferror f
    /\ cursor f <= cursor f' <= chunk_end
    /\ (t = NoThrow -> cursor f' = chunk_end).
Proof.
  induction fuel as [| fuel IH]; intros zs f fop unc t zs' unc' f' fop' H Hc He;
    [ discriminate | ].
  cbn [inflate_blocks] in H. unfold ftell in H.
  assert (E63 : 2 ^ 63 < 2 ^ 64) by reflexivity.
  rewrite (to_size_t_small (cursor f + 4096)) in H by lia.
  rewrite (to_size_t_small (chunk_end - cursor f)) in H by lia.
  destruct (chunk_end <? cursor f + 4096) eqn:Eover.
  - apply Z.ltb_lt in Eover.
    destruct (chunk_end - cursor f <? 4096) eqn:E1; [ | apply Z.ltb_ge in E1; lia ].
    cbn [negb andb] in H.
    destruct (Z.eqb_spec (chunk_end - cursor f) 0) as [E0 | E0].
    + injection H as <- _ _ <- _.
      repeat split; try reflexivity; lia.
    + destruct (fread f (chunk_end - cursor f)) as [compressed f1] eqn:Er.
      destruct (fread_bounds _ _ _ _ Er ltac:(lia) ltac:(lia)) as (C1 & C2 & C3).
      destruct (inflate_drain _ _ _ _ _ _) as [[[[| what args] zs1] unc1] | |];
        try discriminate.
      * apply IH in H; [ | lia | exact He ].
        destruct H as (D1 & D2 & D3 & D4).
        repeat split; try congruence; try lia. exact D4.
      * injection H as <- _ _ <- _.
        repeat split; try assumption; try lia. discriminate.
  - apply Z.ltb_ge in Eover. cbn [andb] in H.
    destruct (fread f 4096) as [compressed f1] eqn:Er.
    destruct (fread_bounds _ _ _ _ Er ltac:(lia) ltac:(lia)) as (C1 & C2 & C3).
    destruct (inflate_drain _ _ _ _ _ _) as [[[[| what args] zs1] unc1] | |];
      try discriminate.
    + apply IH in H; [ | lia | exact He ].
      destruct H as (D1 & D2 & D3 & D4).
      repeat split; try congruence; try lia. exact D4.
    + injection H as <- _ _ <- _.
      repeat split; try assumption; try lia. discriminate.
Qed.

Lemma read_scanline_length fmt w : forall buffer,
  length (read_scanline fmt w buffer) = w.
Proof.
  induction w as [| w IH]; intros buffer; [ reflexivity | ].
  destruct fmt; cbn [read_scanline length]; rewrite IH; reflexivity.
Qed.

Lemma decode_rows_length fmt w h unc :
  length (decode_rows fmt w h unc) = (Z.to_nat h * Z.to_nat w)%nat.
Proof.
  unfold decode_rows.
  assert (H : forall rows : list nat,
             length (flat_map
                       (fun y => read_scanline fmt (Z.to_nat w)
                                   (drop (y * Z.to_nat (scanline_size fmt w)) unc))
                       rows)
             = (length rows * Z.to_nat w)%nat).
  { induction rows as [| y rows IH]; [ reflexivity | ].
    cbn [flat_map length]. rewrite length_app, read_scanline_length, IH. lia. }
  rewrite H, length_seq. reflexivity.
Qed.

(** X12: [read_compressed_image] never takes a byte from behind the
    end of its chunk: started at or before the end of the chunk, it
    stops at or before that end, leaves the bytes of the stream as they
    are, and when it ends without an exception it stands exactly at the
    end of the chunk.  Whatever the compressed data is, the image keeps
    its format and size, and its pixel buffer the size it was created
    with. *)
Theorem compressed_image_within_chunk zl fuel f image chunk_end fop header
    t image' f' fop' :
  read_compressed_image zl fuel f image chunk_end fop header
  = Ok (t, image', f', fop') ->
  0 <= cursor f <= chunk_end -> chunk_end < 2 ^ 63 ->
  0 <= img_w image -> 0 <= img_h image ->
  Z.of_nat (length (img_pixels image)) = img_w image * img_h image ->
  contents f' = contents f
  /\ cursor f <= cursor f' <= chunk_end
  /\ (t = NoThrow -> cursor f' = chunk_end)
  /\ img_format image' = img_format image
  /\ img_w image' = img_w image /\ img_h image' = img_h image
  /\ Z.of_nat (length (img_pixels image')) = img_w image * img_h image.
Proof.
  unfold read_compressed_image. intros H Hc He Hw Hh Hlen.
  destruct (inflateInit zl) as [err zs].
  destruct (negb (err =? Z_OK)).
  { injection H as <- <- <- <-. repeat split; try reflexivity; try lia. discriminate. }
  destruct (inflate_blocks _ _ _ _ _ _ _ _ _ _)
    as [[[[[[| what args] zs1] unc1] f1] fop1] | |] eqn:Eb; try discriminate.
  - destruct (inflate_blocks_bounded _ _ _ _ _ _ _ _ _ _ _ _ _ _ _ Eb Hc He)
      as (D1 & D2 & D3 & D4).
    assert (Hsize : Z.of_nat (length (decode_rows (img_format image) (img_w image)
                                        (img_h image) unc1))
                    = img_w image * img_h image)
      by (rewrite decode_rows_length; nia).
    destruct (negb _); injection H as <- <- <- <-;
      repeat split; try reflexivity; try assumption; try lia;
      try (intros; apply D4; reflexivity); try discriminate; try exact Hsize.
  - destruct (inflate_blocks_bounded _ _ _ _ _ _ _ _ _ _ _ _ _ _ _ Eb Hc He)
      as (D1 & D2 & D3 & D4).
    injection H as <- <- <- <-.
    repeat split; try reflexivity; try lia; try assumption; discriminate.
Qed.

Lemma compressed_image_within_chunk_witness :
  exists image' f' fop',
    read_compressed_image zlib_store 5 (open_file [1; 2; 3; 4; 5; 6])
      (Image_create IMAGE_INDEXED 2 2) 4 new_fop example_header
    = Ok (NoThrow, image', f', fop')
    /\ cursor f' = 4
    /\ Z.of_nat (length (img_pixels image')) = 2 * 2.
Proof.
  assert (H : exists image' f' fop',
             read_compressed_image zlib_store 5 (open_file [1; 2; 3; 4; 5; 6])
               (Image_create IMAGE_INDEXED 2 2) 4 new_fop example_header
             = Ok (NoThrow, image', f', fop'))
    by (eexists _, _, _; vm_compute; reflexivity).
  destruct H as (image' & f' & fop' & H).
  destruct (compressed_image_within_chunk _ _ _ _ _ _ _ _ _ _ _ H
              ltac:(cbn; lia) ltac:(reflexivity) ltac:(cbn; lia) ltac:(cbn; lia)
              ltac:(reflexivity))
    as (_ & _ & Hend & _ & _ & _ & Hsize).
  exists image', f', fop'.
  split; [ exact H | ]. split; [ exact (Hend eq_refl) | exact Hsize ].
Defined.

Lemma fread_end f n :
  stream_from f = [] -> 0 <= cursor f -> fread f n = ([], f).
Proof.
  unfold stream_from, fread. intros H H0.
  destruct (cursor f <? 0) eqn:E; [ apply Z.ltb_lt in E; lia | ].
  rewrite H, take_nil. cbn [map length]. rewrite Z.add_0_r.
  destruct f; reflexivity.
Qed.

Lemma inflate_blocks_starved zl (idle : z_stream zl -> Prop) header chunk_end
    scanline capacity f :
  (forall zs avail, idle zs ->
     exists err zs',
       inflate zl (z_set_input zl zs []) avail = (err, [], zs')
       /\ zlib_error_ok err = true /\ idle zs') ->
  stream_from f = [] -> 0 <= cursor f < chunk_end -> chunk_end < 2 ^ 63 ->
  0 < scanline ->
  forall fuel zs fop unc,
    idle zs ->
    inflate_blocks zl fuel zs f chunk_end fop header scanline capacity unc = OutOfFuel.
Proof.
  intros Hidle Hs Hc He Hsl.
  induction fuel as [| fuel IH]; intros zs fop unc Hz; [ reflexivity | ].
  cbn [inflate_blocks]. unfold ftell.
  assert (E63 : 2 ^ 63 < 2 ^ 64) by reflexivity.
  rewrite (to_size_t_small (cursor f + 4096)) by lia.
  rewrite (to_size_t_small (chunk_end - cursor f)) by lia.
  assert (Hdrain :
             match inflate_drain zl fuel (z_set_input zl zs []) scanline capacity unc with
             | Ok (NoThrow, zs1, unc1) =>
                 inflate_blocks zl fuel zs1 f chunk_end
                   (fop_progress fop (cursor f) (h_size header)) header scanline
                   capacity unc1
             | Ok (Throw what args, zs1, unc1) => Ok (Throw what args, zs1, unc1, f, fop)
             | Crash => Crash
             | OutOfFuel => OutOfFuel
             end = OutOfFuel).
  { destruct fuel as [| fuel']; [ reflexivity | ].
    cbn [inflate_drain].
    destruct (Hidle zs scanline Hz) as (err & zs' & Ei & Eok & Hz').
    rewrite Ei, take_nil, Eok. cbn [negb length].
    change (Z.of_nat 0) with 0. cbn [Z.ltb Z.compare andb].
    rewrite Z.sub_0_r.
    destruct (Z.eqb_spec scanline 0) as [F | _]; [ lia | ].
    apply IH, Hz'. }
  destruct (chunk_end <? cursor f + 4096) eqn:Eover.
  - destruct (chunk_end - cursor f <? 4096) eqn:E1;
      [ | apply Z.ltb_lt in Eover; apply Z.ltb_ge in E1; lia ].
    cbn [negb andb].
    destruct (Z.eqb_spec (chunk_end - cursor f) 0) as [E0 | _]; [ lia | ].
    rewrite (fread_end f (chunk_end - cursor f) Hs ltac:(lia)).
    exact Hdrain.
  - cbn [andb]. rewrite (fread_end f 4096 Hs ltac:(lia)).
    exact Hdrain.
Qed.

(** X13: a compressed image whose data is cut short by the end of the
    file keeps [read_compressed_image] in its loop for ever.  At the end
    of the file and before the end of the chunk, [fread] answers no
    byte and leaves the position where it is; as long as the
    decompressor produces no output from no input (and reports at most
    [Z_BUF_ERROR], which the loop does not take for an error), every
    turn of the loop finds the state of the turn before: the reader
    does not return, however many turns it is given. *)
Theorem compressed_image_cut_short_loops zl (idle : z_stream zl -> Prop) zs0 f image
    chunk_end fop header :
  (forall zs avail, idle zs ->
     exists err zs',
       inflate zl (z_set_input zl zs []) avail = (err, [], zs')
       /\ zlib_error_ok err = true /\ idle zs') ->
  inflateInit zl = (Z_OK, zs0) -> idle zs0 ->
  stream_from f = [] -> 0 <= cursor f < chunk_end -> chunk_end < 2 ^ 63 ->
  0 < img_w image ->
  forall fuel,
    read_compressed_image zl fuel f image chunk_end fop header = OutOfFuel.
Proof.
  intros Hidle Hinit Hz Hs Hc He Hw fuel.
  unfold read_compressed_image. rewrite Hinit.
  change (negb (Z_OK =? Z_OK)) with false. cbv iota.
  rewrite (inflate_blocks_starved zl idle header chunk_end _ _ f Hidle Hs Hc He);
    [ reflexivity | | exact Hz ].
  destruct (img_format image); cbn [scanline_size]; lia.
Qed.

Lemma compressed_image_cut_short_loops_witness :
  inflateInit zlib_store = (Z_OK, [])
  /\ stream_from (mkFILE [1; 2; 3] 3 false) = []
  /\ 0 <= cursor (mkFILE [1; 2; 3] 3 false) < 10
  /\ read_compressed_image zlib_store 1000 (mkFILE [1; 2; 3] 3 false)
       (Image_create IMAGE_INDEXED 2 2) 10 new_fop example_header = OutOfFuel.
Proof.
  split; [ reflexivity | ]. split; [ reflexivity | ]. split; [ cbn; lia | ].
  apply (compressed_image_cut_short_loops zlib_store (fun _ => True) []).
  - intros zs avail _. exists Z_BUF_ERROR, [].
    split; [ | split; [ reflexivity | exact I ] ].
    cbn. rewrite take_nil, drop_nil. reflexivity.
  - reflexivity.
  - exact I.
  - reflexivity.
  - cbn. lia.
  - reflexivity.
  - cbn. lia.
Defined.

(** ** What chunks cannot change *)

Lemma same_canvas_refl s : same_canvas s s.
Proof. repeat split. Qed.

Lemma same_canvas_trans s t u : same_canvas s t -> same_canvas t u -> same_canvas s u.
Proof.
  unfold same_canvas. intros (? & ? & ? & ? & ?) (? & ? & ? & ? & ?).
  repeat split; congruence.
Qed.

Lemma layer_chunk_canvas f sprite prev level f' sprite' p' level' :
  ase_file_read_layer_chunk f sprite prev level = Ok (f', sprite', p', level') ->
  same_canvas sprite sprite'.
Proof.
  unfold ase_file_read_layer_chunk. intros H.
  break_result H; injection H as <- <- <- <-; repeat split.
Qed.

Lemma cel_chunk_canvas zl fuel f sprite frame fmt fop header chunk_end r f' sprite' fop' :
  ase_file_read_cel_chunk zl fuel f sprite frame fmt fop header chunk_end
  = Ok (r, f', sprite', fop') ->
  same_canvas sprite sprite'.
Proof.
  unfold ase_file_read_cel_chunk, store_image, addImage. intros H.
  break_result H; injection H as <- <- <- <-; repeat split.
Qed.

Lemma dispatch_chunk_canvas zl fuel header frame chunk_pos chunk_size chunk_type st st' :
  dispatch_chunk zl fuel header frame chunk_pos chunk_size chunk_type st = Ok st' ->
  same_canvas (ld_sprite st) (ld_sprite st').
Proof.
  unfold dispatch_chunk. intros H.
  destruct (_ || _).
  { break_result H; injection H as <-; repeat split. }
  destruct (chunk_type =? ASE_FILE_CHUNK_LAYER).
  { destruct (ase_file_read_layer_chunk _ _ _ _) as [[[[f1 s1] p1] l1] | |] eqn:E;
      try discriminate.
    injection H as <-. simpl. eapply layer_chunk_canvas, E. }
  destruct (chunk_type =? ASE_FILE_CHUNK_CEL).
  { destruct (ase_file_read_cel_chunk _ _ _ _ _ _ _ _ _) as [[[[r1 f1] s1] p1] | |] eqn:E;
      try discriminate.
    injection H as <-. simpl. eapply cel_chunk_canvas, E. }
  destruct (chunk_type =? ASE_FILE_CHUNK_MASK).
  { destruct (ase_file_read_mask_chunk _). injection H as <-. apply same_canvas_refl. }
  destruct (chunk_type =? ASE_FILE_CHUNK_PATH).
  { injection H as <-. apply same_canvas_refl. }
  injection H as <-. apply same_canvas_refl.
Qed.

Lemma read_chunks_canvas zl fuel header frame n : forall st st',
  read_chunks zl fuel header frame n st = Ok st' ->
  same_canvas (ld_sprite st) (ld_sprite st').
Proof.
  induction n as [| n IH]; intros st st' H; simpl in H.
  - injection H as <-. apply same_canvas_refl.
  - destruct (read_chunk zl fuel header frame st) as [st1 | |] eqn:E; try discriminate.
    eapply same_canvas_trans; [ | apply IH, H ].
    unfold read_chunk in E.
    destruct (fgetl _) as [chunk_size f1]. destruct (fgetw f1) as [chunk_type f2].
    destruct (dispatch_chunk _ _ _ _ _ _ _ _) as [st2 | |] eqn:E2; try discriminate.
    injection E as <-. apply dispatch_chunk_canvas in E2. exact E2.
Qed.

Lemma read_frame_canvas zl fuel header frame st st' :
  read_frame zl fuel header frame st = Ok st' ->
  same_canvas (ld_sprite st) (ld_sprite st').
Proof.
  unfold read_frame. simpl.
  destruct (ase_file_read_frame_header (ld_file st)) as [fh f1]. simpl.
  destruct (fh_magic fh =? ASE_FILE_FRAME_MAGIC); simpl.
  - destruct (read_chunks _ _ _ _ _ _) as [st1 | |] eqn:E; try discriminate.
    intros H. injection H as <-. simpl.
    apply read_chunks_canvas in E.
    eapply same_canvas_trans; [ | exact E ].
    destruct (0 <? fh_duration fh); simpl; [ | apply same_canvas_refl ].
    unfold setFrameDuration. destruct (_ && _); repeat split.
  - intros H. injection H as <-. apply same_canvas_refl.
Qed.

Lemma load_frames_canvas zl fuel header n : forall frame st st',
  load_frames zl fuel header n frame st = Ok st' ->
  same_canvas (ld_sprite st) (ld_sprite st').
Proof.
  induction n as [| n IH]; intros frame st st' H; simpl in H.
  - injection H as <-. apply same_canvas_refl.
  - destruct (read_frame zl fuel header frame st) as [st1 | |] eqn:E; try discriminate.
    apply read_frame_canvas in E.
    destruct (fop_oneframe _); [ injection H as <-; exact E | ].
    destruct (fop_is_stop _ _); [ injection H as <-; exact E | ].
    eapply same_canvas_trans; [ exact E | eapply IH, H ].
Qed.

Lemma loaded_canvas zl fuel f fop header f1 loaded :
  ase_file_read_header f = (Some header, f1) ->
  onLoad zl fuel (Some f) fop = Ok loaded ->
  exists st,
    final loaded = Some st
    /\ fop_document (out_fop loaded) = Some (ld_sprite st)
    /\ getPixelFormat (ld_sprite st) = header_format header
    /\ spr_width (ld_sprite st) = h_width header
    /\ spr_height (ld_sprite st) = h_height header
    /\ spr_transparent (ld_sprite st) = h_transparent_index header
    /\ getTotalFrames (ld_sprite st) = h_frames header.
Proof.
  unfold onLoad. intros Hh H. rewrite Hh in H.
  destruct (load_frames _ _ _ _ _ _) as [st | |] eqn:E; try discriminate.
  apply load_frames_canvas in E. cbn [ld_sprite] in E.
  destruct E as (E1 & E2 & E3 & E4 & E5).
  exists st. unfold getPixelFormat, getTotalFrames.
  rewrite E1, E2, E3, E4, E5.
  destruct (ferror (ld_file st)); injection H as <-; cbn [final out_fop];
    repeat split.
Qed.

(** X14: what the document header says about the sprite cannot be
    changed by any chunk: after a load that read the header, the
    document handed to the file operation has the pixel format that the
    depth of the header selects (32: RGB, 16: grayscale, any other
    depth: indexed), the width, the height, the transparent index and
    the number of frames of the header, whatever the frames hold. *)
Theorem loaded_canvas_from_header zl fuel f fop header f1 loaded :
  ase_file_read_header f = (Some header, f1) ->
  onLoad zl fuel (Some f) fop = Ok loaded ->
  exists st,
    final loaded = Some st
    /\ fop_document (out_fop loaded) = Some (ld_sprite st)
    /\ getPixelFormat (ld_sprite st) = header_format header
    /\ spr_width (ld_sprite st) = h_width header
    /\ spr_height (ld_sprite st) = h_height header
    /\ spr_transparent (ld_sprite st) = h_transparent_index header
    /\ getTotalFrames (ld_sprite st) = h_frames header.
Proof. apply loaded_canvas. Qed.

Lemma loaded_canvas_from_header_witness :
  exists header f1 loaded st,
    ase_file_read_header (open_file nested_layers_stream) = (Some header, f1)
    /\ onLoad zlib_store 0 (Some (open_file nested_layers_stream)) new_fop = Ok loaded
    /\ final loaded = Some st
    /\ getPixelFormat (ld_sprite st) = header_format header
    /\ getTotalFrames (ld_sprite st) = h_frames header.
Proof.
  assert (H1 : exists header f1,
             ase_file_read_header (open_file nested_layers_stream) = (Some header, f1))
    by (eexists _, _; vm_compute; reflexivity).
  destruct H1 as (header & f1 & H1).
  assert (H2 : exists loaded,
             onLoad zlib_store 0 (Some (open_file nested_layers_stream)) new_fop
             = Ok loaded)
    by (eexists; vm_compute; reflexivity).
  destruct H2 as (loaded & H2).
  destruct (loaded_canvas_from_header _ _ _ _ _ _ _ H1 H2)
    as (st & Hf & _ & Hfmt & _ & _ & _ & Hfr).
  exists header, f1, loaded, st.
  split; [ exact H1 | ]. split; [ exact H2 | ]. split; [ exact Hf | ].
  split; [ exact Hfmt | exact Hfr ].
Defined.

(** X15: saving and loading again keeps the canvas.  When the file
    that [onSave] wrote for a sprite is opened again and [onLoad] gets
    through it, the document it hands over has the pixel format of the
    sprite that was saved, and its width, its height and its number of
    frames as 16 bit values and its transparent index as a byte. *)
Theorem save_load_canvas zl fuel sprite fop ok out fop' zl2 fuel2 fop2 loaded :
  onSave zl fuel sprite fop = Saved (ok, out, fop') ->
  onLoad zl2 fuel2 (Some (open_file (contents out))) fop2 = Ok loaded ->
  exists st,
    final loaded = Some st
    /\ fop_document (out_fop loaded) = Some (ld_sprite st)
    /\ getPixelFormat (ld_sprite st) = getPixelFormat sprite
    /\ spr_width (ld_sprite st) = to_uint16 (spr_width sprite)
    /\ spr_height (ld_sprite st) = to_uint16 (spr_height sprite)
    /\ getTotalFrames (ld_sprite st) = to_uint16 (getTotalFrames sprite)
    /\ spr_transparent (ld_sprite st) = to_uint8 (spr_transparent sprite).
Proof.
  intros Hs Hl.
  destruct (saved_header_fields _ _ _ _ _ _ _ Hs)
    as (header & pal & _ & Hr & _ & _ & Hfr & Hw & Hh & Hfmt & _ & Ht & _).
  destruct (loaded_canvas _ _ _ _ _ _ _ Hr Hl)
    as (st & Hf & Hd & L1 & L2 & L3 & L4 & L5).
  exists st. rewrite L1, L2, L3, L4, L5, Hfmt, Hw, Hh, Ht, Hfr.
  repeat split; assumption.
Qed.

Lemma save_load_canvas_witness :
  exists out fop' loaded st,
    onSave zlib_store 0 three_frames_sprite new_fop = Saved (true, out, fop')
    /\ onLoad zlib_store 0 (Some (open_file (contents out))) new_fop = Ok loaded
    /\ final loaded = Some st
    /\ getPixelFormat (ld_sprite st) = IMAGE_INDEXED
    /\ spr_width (ld_sprite st) = 4
    /\ getTotalFrames (ld_sprite st) = 3.
Proof.
  assert (H : exists out fop' loaded,
             onSave zlib_store 0 three_frames_sprite new_fop = Saved (true, out, fop')
             /\ onLoad zlib_store 0 (Some (open_file (contents out))) new_fop
                = Ok loaded)
    by (eexists _, _, _; split; [ vm_compute; reflexivity | vm_compute; reflexivity ]).
  destruct H as (out & fop' & loaded & H1 & H2).
  destruct (save_load_canvas _ _ _ _ _ _ _ _ _ _ _ H1 H2)
    as (st & Hf & _ & Hfmt & Hw & _ & Hfr & _).
  exists out, fop', loaded, st.
  split; [ exact H1 | ]. split; [ exact H2 | ]. split; [ exact Hf | ].
  split; [ exact Hfmt | ]. split; [ exact Hw | exact Hfr ].
Defined.

(** ** Layer chunks *)

Lemma layer_chunk_emitted l p st st' :
  ase_file_write_layer_chunk l p st = Saved st' ->
  ready st -> fits (sv_file st') ->
  emitted st st' [(ASE_FILE_CHUNK_LAYER, layer_chunk_body l p)].
Proof.
  intros H Hr Hf. pose proof Hr as (_ & H0 & _).
  unfold ase_file_write_layer_chunk in H.
  destruct (ase_file_write_start_chunk _ st) as [st1 | | |] eqn:Hs; try discriminate.
  simpl in H. injection H as <-.
  pose proof (start_chunk_cursor _ _ _ Hs H0) as H1.
  pose proof (wrote_fputw (getFlags l) _ H1) as W1.
  pose proof (wrote_fputw (if isImage l then 0 else if isFolder l then 1 else -1) _
                (wrote_cursor _ _ _ W1)) as W2.
  pose proof (wrote_fputw (layer_child_level p) _ (wrote_cursor _ _ _ W2)) as W3.
  pose proof (wrote_fputw 0 _ (wrote_cursor _ _ _ W3)) as W4.
  pose proof (wrote_fputw 0 _ (wrote_cursor _ _ _ W4)) as W5.
  pose proof (wrote_fputw (if isImage l then getBlendMode l else 0) _
                (wrote_cursor _ _ _ W5)) as W6.
  pose proof (wrote_padding 4 _ (wrote_cursor _ _ _ W6)) as W7.
  pose proof (wrote_string (getName l) _ (wrote_cursor _ _ _ W7)) as W8.
  pose proof (wrote_app _ _ _ _ _ W1 (wrote_app _ _ _ _ _ W2 (wrote_app _ _ _ _ _ W3
               (wrote_app _ _ _ _ _ W4 (wrote_app _ _ _ _ _ W5 (wrote_app _ _ _ _ _ W6
               (wrote_app _ _ _ _ _ W7 W8))))))) as W.
  fold (layer_chunk_body l p) in W.
  assert (Hne : layer_chunk_body l p <> [])
    by (unfold layer_chunk_body, word_bytes; discriminate).
  destruct (chunk_emitted _ _ _ _ _ Hs H0 W Hne) as [_ S].
  apply S; [ exact Hr | exact Hf | unfold ASE_FILE_CHUNK_LAYER; lia ].
Qed.

Lemma layer_is_image_or_folder l : isImage l = true \/ (isImage l = false /\ isFolder l = true).
Proof. destruct l; auto. Qed.



(** ** Cel chunks *)

Lemma cel_chunk_emitted zl fuel cel layer sprite st st' :
  ase_file_write_cel_chunk zl fuel cel layer sprite st = Saved st' ->
  ready st -> fits (sv_file st') ->
  exists more,
    emitted st st'
      [(ASE_FILE_CHUNK_CEL, cel_chunk_head (layerToIndex sprite layer) cel ++ more)].
Proof.
  intros H Hr Hf. pose proof Hr as (_ & H0 & _).
  unfold ase_file_write_cel_chunk in H.
  destruct (ase_file_write_start_chunk _ st) as [st1 | | |] eqn:Hs; try discriminate.
  cbn [saved_bind] in H.
  pose proof (start_chunk_cursor _ _ _ Hs H0) as H1.
  pose proof (wrote_fputw (layerToIndex sprite layer) _ H1) as W1.
  pose proof (wrote_fputw (cel_x cel) _ (wrote_cursor _ _ _ W1)) as W2.
  pose proof (wrote_fputw (cel_y cel) _ (wrote_cursor _ _ _ W2)) as W3.
  pose proof (wrote_fputc (cel_opacity cel) _ (wrote_cursor _ _ _ W3)) as W4.
  pose proof (wrote_fputw ASE_FILE_COMPRESSED_CEL _ (wrote_cursor _ _ _ W4)) as W5.
  pose proof (wrote_padding 7 _ (wrote_cursor _ _ _ W5)) as W6.
  pose proof (wrote_app _ _ _ _ _ W1 (wrote_app _ _ _ _ _ W2 (wrote_app _ _ _ _ _ W3
               (wrote_app _ _ _ _ _ W4 (wrote_app _ _ _ _ _ W5 W6))))) as W.
  fold (cel_chunk_head (layerToIndex sprite layer) cel) in W.
  match type of W with
  | wrote _ ?f6 _ => set (f6' := f6) in *
  end.
  assert (Himg : forall f7,
             match getImage (spr_stock sprite) (cel_image cel) with
             | Some image =>
                 write_compressed_image zl fuel
                   (fputw (img_h image) (fputw (img_w image) f6')) image
             | None => Saved (fputw 0 (fputw 0 f6'))
             end = Saved f7 ->
             exists more, wrote f6' f7 more).
  { intros f7 Hf7. destruct (getImage _ _) as [image |].
    - pose proof (wrote_fputw (img_w image) _ (wrote_cursor _ _ _ W)) as V1.
      pose proof (wrote_fputw (img_h image) _ (wrote_cursor _ _ _ V1)) as V2.
      destruct (write_compressed_image_wrote _ _ _ _ _ Hf7 (wrote_cursor _ _ _ V2))
        as [b3 V3].
      eexists. exact (wrote_app _ _ _ _ _ V1 (wrote_app _ _ _ _ _ V2 V3)).
    - injection Hf7 as <-.
      pose proof (wrote_fputw 0 _ (wrote_cursor _ _ _ W)) as V1.
      pose proof (wrote_fputw 0 _ (wrote_cursor _ _ _ V1)) as V2.
      eexists. exact (wrote_app _ _ _ _ _ V1 V2). }
  destruct (match getImage (spr_stock sprite) (cel_image cel) with
            | Some _ => _ | None => _ end) as [f7 | | |] eqn:E; try discriminate.
  cbn [saved_bind] in H. injection H as <-.
  destruct (Himg _ eq_refl) as [more Hmore].
  pose proof (wrote_app _ _ _ _ _ W Hmore) as Wall.
  assert (Hne : cel_chunk_head (layerToIndex sprite layer) cel ++ more <> []).
  { unfold cel_chunk_head, word_bytes. discriminate. }
  destruct (chunk_emitted _ _ _ _ _ Hs H0 Wall Hne) as [_ S].
  exists more. apply S; [ exact Hr | exact Hf | unfold ASE_FILE_CHUNK_CEL; lia ].
Qed.

Lemma to_short_uint16 x : - 32768 <= x < 32768 -> to_short (to_uint16 x) = x.
Proof.
  intros H. unfold to_short, to_uint16.
  change (2 ^ 15) with 32768. change (2 ^ 16) with 65536.
  rewrite Zplus_mod_idemp_l. rewrite Z.mod_small by lia. lia.
Qed.

Lemma read_cel_data_stream f layer_index cel rest :
  stream_from f = cel_chunk_head layer_index cel ++ rest ->
  read_cel_data f
  = (mkCelData (to_uint16 layer_index) (to_short (to_uint16 (cel_x cel)))
       (to_short (to_uint16 (cel_y cel))) (to_uint8 (cel_opacity cel))
       ASE_FILE_COMPRESSED_CEL,
     advance f 16).
Proof.
  intros Hs. unfold cel_chunk_head in Hs. rewrite <- !app_assoc in Hs.
  destruct (fgetw_word _ _ _ Hs) as [E1 H1].
  destruct (fgetw_word _ _ _ H1) as [E2 H2].
  destruct (fgetw_word _ _ _ H2) as [E3 H3].
  cbn [app] in H3.
  destruct (fgetc_any _ _ _ H3) as [E4 H4].
  destruct (fgetw_word _ _ _ H4) as [E5 H5].
  destruct (read_padding_stream (replicate 7 0) _ _ H5) as [E6 _].
  cbn [length replicate] in E6.
  unfold read_cel_data. rewrite E1, E2, E3, E4, E5, E6, to_uint8_idem.
  rewrite !advance_advance. reflexivity.
Qed.

Lemma read_cel_chunk_fields zl fuel f sprite frame fmt fop header chunk_end
    data f1 rl l r f' sprite' fop' :
  read_cel_data f = (data, f1) ->
  indexToLayer sprite (cd_layer_index data) = Some rl ->
  deref (spr_folder sprite) rl = Some l -> isImage l = true ->
  cd_cel_type data = ASE_FILE_COMPRESSED_CEL ->
  ase_file_read_cel_chunk zl fuel f sprite frame fmt fop header chunk_end
  = Ok (r, f', sprite', fop') ->
  exists c,
    r = Some c /\ cel_frame c = frame /\ cel_x c = cd_x data /\ cel_y c = cd_y data
    /\ cel_opacity c = cd_opacity data
    /\ spr_folder sprite'
       = layer_update (spr_folder sprite) (rev rl) (fun l0 => addCel l0 c).
Proof.
  intros Hd Hi Hl Him Ht H. unfold ase_file_read_cel_chunk in H.
  rewrite Hd, Hi, Hl, Him, Ht in H. cbn [negb] in H.
  change (ASE_FILE_COMPRESSED_CEL =? ASE_FILE_RAW_CEL) with false in H.
  change (ASE_FILE_COMPRESSED_CEL =? ASE_FILE_LINK_CEL) with false in H.
  change (ASE_FILE_COMPRESSED_CEL =? ASE_FILE_COMPRESSED_CEL) with true in H.
  cbv iota in H. unfold store_image, addImage in H.
  break_result H; injection H as <- <- <- <-;
    eexists; (split; [ reflexivity | repeat split ]).
Qed.

(** X17: the fixed fields of a cel chunk survive saving and loading.
    When [ase_file_read_cel_chunk] gets through the chunk that
    [ase_file_write_cel_chunk] wrote for a cel, read from the start of
    its body into a sprite in which the stored layer index is an image
    layer, it makes a cel of the frame that is read, at the position of
    the written cel (also a negative one: the coordinates are signed 16
    bit values), with its opacity as a byte, and puts it into that
    layer; the outcome of the decompression has no part in this. *)
Theorem cel_chunk_round_trip zl fuel cel layer sprite st st' zl2 fuel2 rsprite frame
    fmt fop header chunk_end rl l r f' sprite' fop' :
  ase_file_write_cel_chunk zl fuel cel layer sprite st = Saved st' ->
  ready st -> fits (sv_file st') ->
  - 32768 <= cel_x cel < 32768 -> - 32768 <= cel_y cel < 32768 ->
  indexToLayer rsprite (to_uint16 (layerToIndex sprite layer)) = Some rl ->
  deref (spr_folder rsprite) rl = Some l -> isImage l = true ->
  ase_file_read_cel_chunk zl2 fuel2 (fseek (sv_file st') (cursor (sv_file st) + 6))
    rsprite frame fmt fop header chunk_end
  = Ok (r, f', sprite', fop') ->
  exists c,
    r = Some c /\ cel_frame c = frame
    /\ cel_x c = cel_x cel /\ cel_y c = cel_y cel
    /\ cel_opacity c = to_uint8 (cel_opacity cel)
    /\ spr_folder sprite'
       = layer_update (spr_folder rsprite) (rev rl) (fun l0 => addCel l0 c).
Proof.
  intros Hw Hr Hf Hx Hy Hi Hl Him Hread.
  destruct (cel_chunk_emitted _ _ _ _ _ _ _ Hw Hr Hf) as (more & S).
  destruct (emitted_body_stream _ _ _ _ S) as (rest & Hs & _).
  rewrite <- app_assoc in Hs.
  pose proof (read_cel_data_stream _ _ _ _ Hs) as Hd.
  destruct (read_cel_chunk_fields _ _ _ _ _ _ _ _ _ _ _ _ _ _ _ _ _ Hd Hi Hl Him
              eq_refl Hread) as (c & E1 & E2 & E3 & E4 & E5 & E6).
  cbn [cd_x cd_y cd_opacity] in E3, E4, E5.
  rewrite to_short_uint16 in E3, E4 by assumption.
  exists c. repeat split; assumption.
Qed.

Lemma cel_chunk_round_trip_witness :
  exists st' r f' sprite' fop' c,
    ase_file_write_cel_chunk zlib_store 0 (mkCel 1 0 (-3) 5 128) [0%nat]
      three_frames_sprite first_frame_state = Saved st'
    /\ ready first_frame_state /\ fits (sv_file st')
    /\ ase_file_read_cel_chunk zlib_store 0 (fseek (sv_file st') (144 + 6))
         three_frames_sprite 1 IMAGE_INDEXED new_fop example_header 170
       = Ok (r, f', sprite', fop')
    /\ r = Some c /\ cel_x c = -3 /\ cel_y c = 5 /\ cel_opacity c = 128.
Proof.
  assert (H : exists st' r f' sprite' fop',
             ase_file_write_cel_chunk zlib_store 0 (mkCel 1 0 (-3) 5 128) [0%nat]
               three_frames_sprite first_frame_state = Saved st'
             /\ fits (sv_file st')
             /\ ase_file_read_cel_chunk zlib_store 0 (fseek (sv_file st') (144 + 6))
                  three_frames_sprite 1 IMAGE_INDEXED new_fop example_header 170
                = Ok (r, f', sprite', fop')).
  { eexists _, _, _, _, _.
    split; [ vm_compute; reflexivity | ].
    split; [ vm_compute; discriminate | vm_compute; reflexivity ]. }
  destruct H as (st' & r & f' & sprite' & fop' & H1 & H3 & H4).
  assert (H2 : ready first_frame_state)
    by (vm_compute; repeat split; discriminate).
  destruct (cel_chunk_round_trip zlib_store 0 (mkCel 1 0 (-3) 5 128) [0%nat]
              three_frames_sprite first_frame_state st' zlib_store 0
              three_frames_sprite 1 IMAGE_INDEXED new_fop example_header 170
              [0%nat] (LayerImage 1 [76; 49] []) r f' sprite' fop' H1 H2 H3
              ltac:(cbn; lia) ltac:(cbn; lia) ltac:(vm_compute; reflexivity)
              eq_refl eq_refl H4)
    as (c & E1 & _ & E3 & E4 & E5 & _).
  exists st', r, f', sprite', fop', c.
  split; [ exact H1 | ]. split; [ exact H2 | ]. split; [ exact H3 | ].
  split; [ exact H4 | ]. split; [ exact E1 | ].
  split; [ exact E3 | ]. split; [ exact E4 | exact E5 ].
Defined.

(** ** The options of the file operation *)

Lemma same_options_refl fop : same_options fop fop.
Proof. repeat split. Qed.

Lemma same_options_trans a b c : same_options a b -> same_options b c -> same_options a c.
Proof.
  unfold same_options. intros (? & ? & ?) (? & ? & ?). repeat split; congruence.
Qed.

Lemma same_options_progress fop n d : same_options fop (fop_progress fop n d).
Proof. repeat split. Qed.

Lemma same_options_error fop msg args : same_options fop (fop_error fop msg args).
Proof. repeat split. Qed.

Lemma read_raw_rows_options n : forall y f image fop header image' f' fop',
  read_raw_rows n y f image fop header = (image', f', fop') ->
  same_options fop fop'.
Proof.
  induction n as [| n IH]; intros y f image fop header image' f' fop' H.
  - injection H as _ _ <-. apply same_options_refl.
  - cbn [read_raw_rows] in H.
    destruct (read_raw_row _ _ _ _ _) as [image1 f1].
    apply IH in H.
    eapply same_options_trans; [ apply same_options_progress | exact H ].
Qed.

Lemma inflate_blocks_options zl header chunk_end scanline capacity fuel :
  forall zs f fop unc t zs' unc' f' fop',
    inflate_blocks zl fuel zs f chunk_end fop header scanline capacity unc
    = Ok (t, zs', unc', f', fop') ->
    same_options fop fop'.
Proof.
  induction fuel as [| fuel IH]; intros zs f fop unc t zs' unc' f' fop' H;
    [ discriminate | ].
  cbn [inflate_blocks] in H.
  destruct (_ && negb _); [ discriminate | ].
  destruct (_ && (_ =? 0)).
  { injection H as _ _ _ _ <-. apply same_options_refl. }
  destruct (fread _ _) as [compressed f1].
  destruct (inflate_drain _ _ _ _ _ _) as [[[[| what args] zs1] unc1] | |];
    try discriminate.
  - apply IH in H.
    eapply same_options_trans; [ apply same_options_progress | exact H ].
  - injection H as _ _ _ _ <-. apply same_options_refl.
Qed.

Lemma read_compressed_image_options zl fuel f image chunk_end fop header t image' f' fop' :
  read_compressed_image zl fuel f image chunk_end fop header = Ok (t, image', f', fop') ->
  same_options fop fop'.
Proof.
  unfold read_compressed_image. intros H.
  destruct (inflateInit zl) as [err zs].
  destruct (negb (err =? Z_OK)).
  { injection H as _ _ _ <-. apply same_options_refl. }
  destruct (inflate_blocks _ _ _ _ _ _ _ _ _ _)
    as [[[[[[| what args] zs1] unc1] f1] fop1] | |] eqn:Eb; try discriminate;
    apply inflate_blocks_options in Eb.
  - destruct (negb _); injection H as _ _ _ <-; exact Eb.
  - injection H as _ _ _ <-. exact Eb.
Qed.

Lemma cel_chunk_options zl fuel f sprite frame fmt fop header chunk_end r f' sprite' fop' :
  ase_file_read_cel_chunk zl fuel f sprite frame fmt fop header chunk_end
  = Ok (r, f', sprite', fop') ->
  same_options fop fop'.
Proof.
  unfold ase_file_read_cel_chunk, store_image, addImage. intros H.
  destruct (read_cel_data f) as [data f1].
  destruct (indexToLayer _ _) as [layer |];
    [ | injection H as _ _ _ <-; apply same_options_error ].
  destruct (deref _ _) as [l |]; [ | discriminate ].
  destruct (negb (isImage l));
    [ injection H as _ _ _ <-; apply same_options_error | ].
  destruct (cd_cel_type data =? ASE_FILE_RAW_CEL).
  { destruct (fgetw f1) as [w f2]. destruct (fgetw f2) as [h f3].
    destruct (_ && _); [ | injection H as _ _ _ <-; apply same_options_refl ].
    destruct (read_raw_image _ _ _ _) as [[image f4] fop4] eqn:Er.
    injection H as _ _ _ <-. unfold read_raw_image in Er.
    eapply read_raw_rows_options, Er. }
  destruct (cd_cel_type data =? ASE_FILE_LINK_CEL).
  { destruct (fgetw f1) as [link f2].
    destruct (getCel _ _); [ | injection H as _ _ _ <-; apply same_options_refl ].
    destruct (getImage _ _); [ | discriminate ].
    injection H as _ _ _ <-. apply same_options_refl. }
  destruct (cd_cel_type data =? ASE_FILE_COMPRESSED_CEL);
    [ | injection H as _ _ _ <-; apply same_options_refl ].
  destruct (fgetw f1) as [w f2]. destruct (fgetw f2) as [h f3].
  destruct (_ && _); [ | injection H as _ _ _ <-; apply same_options_refl ].
  destruct (read_compressed_image _ _ _ _ _ _ _) as [[[[t image] f4] fop4] | |] eqn:Er;
    try discriminate.
  apply read_compressed_image_options in Er.
  injection H as _ _ _ <-.
  destruct t; [ exact Er | ].
  eapply same_options_trans; [ exact Er | apply same_options_error ].
Qed.

Lemma dispatch_chunk_options zl fuel header frame chunk_pos chunk_size chunk_type st st' :
  dispatch_chunk zl fuel header frame chunk_pos chunk_size chunk_type st = Ok st' ->
  same_options (ld_fop st) (ld_fop st').
Proof.
  unfold dispatch_chunk. intros H.
  destruct (_ || _).
  { break_result H; injection H as <-; repeat split. }
  destruct (chunk_type =? ASE_FILE_CHUNK_LAYER).
  { destruct (ase_file_read_layer_chunk _ _ _ _) as [[[[f1 s1] p1] l1] | |] eqn:E;
      try discriminate.
    injection H as <-. apply same_options_refl. }
  destruct (chunk_type =? ASE_FILE_CHUNK_CEL).
  { destruct (ase_file_read_cel_chunk _ _ _ _ _ _ _ _ _) as [[[[r1 f1] s1] p1] | |] eqn:E;
      try discriminate.
    injection H as <-. simpl. eapply cel_chunk_options, E. }
  destruct (chunk_type =? ASE_FILE_CHUNK_MASK).
  { destruct (ase_file_read_mask_chunk _). injection H as <-. apply same_options_refl. }
  destruct (chunk_type =? ASE_FILE_CHUNK_PATH).
  { injection H as <-. apply same_options_refl. }
  injection H as <-. apply same_options_error.
Qed.

Lemma read_chunks_options zl fuel header frame n : forall st st',
  read_chunks zl fuel header frame n st = Ok st' ->
  same_options (ld_fop st) (ld_fop st').
Proof.
  induction n as [| n IH]; intros st st' H; simpl in H.
  - injection H as <-. apply same_options_refl.
  - destruct (read_chunk zl fuel header frame st) as [st1 | |] eqn:E; try discriminate.
    eapply same_options_trans; [ | apply IH, H ].
    unfold read_chunk in E. cbn [set_fop ld_file] in E.
    destruct (fgetl _) as [chunk_size f1]. destruct (fgetw f1) as [chunk_type f2].
    destruct (dispatch_chunk _ _ _ _ _ _ _ _) as [st2 | |] eqn:E2; try discriminate.
    injection E as <-. apply dispatch_chunk_options in E2.
    cbn [set_file set_fop ld_fop] in *.
    eapply same_options_trans; [ apply same_options_progress | exact E2 ].
Qed.

Lemma read_frame_options zl fuel header frame st st' :
  read_frame zl fuel header frame st = Ok st' ->
  same_options (ld_fop st) (ld_fop st').
Proof.
  unfold read_frame. cbn [set_fop ld_file].
  destruct (ase_file_read_frame_header (ld_file st)) as [fh f1].
  destruct (fh_magic fh =? ASE_FILE_FRAME_MAGIC).
  - destruct (read_chunks _ _ _ _ _ _) as [st1 | |] eqn:E; try discriminate.
    intros H. injection H as <-. cbn [set_file ld_fop].
    apply read_chunks_options in E.
    eapply same_options_trans; [ | exact E ].
    destruct (0 <? fh_duration fh); cbn [set_sprite set_file set_fop ld_fop];
      apply same_options_progress.
  - intros H. injection H as <-. cbn [set_file set_fop ld_fop].
    apply same_options_progress.
Qed.

(** X18: with the option to load one frame only, the frame loop of
    [onLoad] ends after its first turn: however many frames the header
    announces, the outcome of the loop is the outcome of reading the
    first frame, and nothing behind that frame is looked at.  (No chunk
    handler changes the options of the file operation; they only add
    progress and error reports.) *)
Theorem oneframe_reads_first_frame_only zl fuel header n frame st :
  fop_oneframe (ld_fop st) = true ->
  load_frames zl fuel header (S n) frame st = read_frame zl fuel header frame st.
Proof.
  intros H. cbn [load_frames].
  destruct (read_frame zl fuel header frame st) as [st1 | |] eqn:E; try reflexivity.
  apply read_frame_options in E. destruct E as (E & _).
  rewrite E, H. reflexivity.
Qed.

Lemma oneframe_reads_first_frame_only_witness :
  fop_oneframe (mkFileOp true (fun _ => false) [] [] None) = true
  /\ exists st',
       load_frames zlib_store 0 example_header 2 0
         (mkLoad (mkFILE two_frames_stream 128 false)
            (mkFileOp true (fun _ => false) [] [] None)
            (header_sprite example_header) [] (-1))
       = Ok st'
       /\ cursor (ld_file st') = 144
       /\ getTotalFrames (ld_sprite st') = 2.
Proof.
  split; [ reflexivity | ].
  rewrite (oneframe_reads_first_frame_only zlib_store 0 example_header 1 0
             (mkLoad (mkFILE two_frames_stream 128 false)
                (mkFileOp true (fun _ => false) [] [] None)
                (header_sprite example_header) [] (-1)) eq_refl).
  eexists. split; [ vm_compute; reflexivity | ]. split; reflexivity.
Defined.

(** ** Saving and loading again *)

Lemma save_frame_wrote zl fuel sprite frame st fop st' fop' :
  save_frame zl fuel sprite frame st fop = Saved (st', fop') ->
  0 <= cursor (sv_file st) ->
  grew (sv_file st) (sv_file st')
  /\ (between_frames (sv_file st) -> fits (sv_file st') ->
      exists cs,
        wrote (sv_file st) (sv_file st')
          (frame_bytes (to_uint16 (default 0 (getFrameDuration sprite frame)), cs))
        /\ cursor (sv_file st') = file_length (sv_file st')
        /\ (palette_due sprite frame = Saved false ->
            Forall (fun c => ~ is_palette_chunk c) cs)).
Proof.
  unfold save_frame. intros H H0.
  set (d := default 0 (getFrameDuration sprite frame)) in *.
  set (st1 := set_duration (ase_file_prepare_frame_header st) d) in *.
  destruct (palette_due sprite frame) as [due | | |] eqn:Hdue; try discriminate.
  cbn [saved_bind] in H.
  match type of H with
  | saved_bind ?m _ = _ => destruct m as [st2 | | |] eqn:Hpal; try discriminate
  end.
  cbn [saved_bind] in H.
  match type of H with
  | saved_bind ?m _ = _ => destruct m as [st3 | | |] eqn:Hlay; try discriminate
  end.
  cbn [saved_bind] in H.
  match type of H with
  | saved_bind ?m _ = _ => destruct m as [st4 | | |] eqn:Hcel; try discriminate
  end.
  cbn [saved_bind] in H. injection H as <- <-.
  assert (G1 : grew (sv_file st) (sv_file st1)).
  { subst st1. unfold set_duration, ase_file_prepare_frame_header. cbn [sv_file].
    apply fseek_grew, H0. }
  destruct (palette_step_emitted _ _ _ _ _ Hpal (proj1 G1)) as [G2 S2].
  assert (Hbody :
            (fun st =>
               saved_bind
                 (if frame =? 0
                  then write_root_layers (getLayers (spr_folder sprite)) 0 st
                  else Saved st)
                 (fun st =>
                    ase_file_write_cels zl fuel sprite (spr_folder sprite) [] frame st))
              st2 = Saved st4).
  { cbn beta. rewrite Hlay. exact Hcel. }
  destruct (frame_body_emitter zl fuel sprite frame st2 st4 Hbody (proj1 G2))
    as [G3 S3].
  pose proof (frame_header_grew st4 (proj1 G3)) as G4.
  split.
  { exact (grew_trans _ _ _ G1 (grew_trans _ _ _ G2 (grew_trans _ _ _ G3 G4))). }
  intros (_ & Hlo & Hhi) Hf.
  set (p := cursor (sv_file st)) in *.
  assert (Hf4 : fits (sv_file st4)) by (unfold fits in *; destruct G4; lia).
  assert (Hf2 : fits (sv_file st2)) by (unfold fits in *; destruct G3; lia).
  assert (Hlen : file_length (sv_file st) <= file_length (sv_file st4))
    by (destruct G1, G2, G3; lia).
  assert (Hp16 : p + 16 <= INT_MAX) by (unfold fits, INT_MAX in *; lia).
  destruct (prepare_frame_header_file st d H0 Hp16) as (Ef & Eh & Ec).
  fold st1 in Ef, Eh, Ec. fold p in Ef, Eh.
  assert (Hr1 : ready st1).
  { unfold ready. rewrite Ec, Ef, Eh, fseek_length, fseek_cursor by lia.
    cbn [fh_chunks]. repeat split; lia. }
  destruct (S2 Hr1 Hf2) as (cs1 & Hem1 & Hcase).
  destruct (S3 (emitted_ready _ _ _ Hem1 Hr1) Hf4) as (cs2 & Hem2 & Hall).
  pose proof (emitted_app _ _ _ _ _ Hem1 Hem2) as Hem.
  destruct Hem as (Wb & _ & Hsize & Hmagic & Hdur & Hchunks & Hend).
  rewrite Eh in Hsize, Hmagic, Hdur, Hchunks.
  cbn [fh_size fh_magic fh_chunks fh_duration] in Hsize, Hmagic, Hdur, Hchunks.
  rewrite Ef in Wb.
  set (cs := cs1 ++ cs2) in *. set (body := chunks_bytes cs) in *.
  pose proof Wb as (_ & Hc4 & _ & _ & _ & _ & Hmax4 & _).
  rewrite fseek_cursor in Hc4 by lia. rewrite fseek_length in Hmax4.
  assert (Hc4max : p + 16 + Z.of_nat (length body) <= INT_MAX).
  { unfold fits, INT_MAX in *. destruct cs as [| c cs'] eqn:Ecs'.
    - subst body. cbn [chunks_bytes flat_map length] in *. lia.
    - rewrite <- Hc4, Hend by discriminate. lia. }
  rewrite (write_frame_header_file st4 p (Z.of_nat (length body)) Hsize H0
             (Nat2Z.is_nonneg _) Hc4 Hc4max).
  rewrite Hmagic, Hdur, Hchunks. rewrite Z.add_0_l.
  set (hdr := frame_header_bytes (16 + Z.of_nat (length body))
                (to_uint16 (Z.of_nat (length cs))) (to_uint16 d)).
  match goal with
  | |- context [fseek ?fh (p + 16 + Z.of_nat (length body))] =>
      assert (Hh : wrote (fseek (sv_file st4) p) fh hdr)
  end.
  { pose proof (wrote_fputl (16 + Z.of_nat (length body)) (fseek (sv_file st4) p)
                  ltac:(rewrite fseek_cursor; lia)) as W1.
    pose proof (wrote_fputw ASE_FILE_FRAME_MAGIC _ (wrote_cursor _ _ _ W1)) as W2.
    pose proof (wrote_fputw (to_uint16 (Z.of_nat (length cs))) _
                  (wrote_cursor _ _ _ W2)) as W3.
    pose proof (wrote_fputw (to_uint16 d) _ (wrote_cursor _ _ _ W3)) as W4.
    pose proof (wrote_padding 6 _ (wrote_cursor _ _ _ W4)) as W5.
    pose proof (wrote_app _ _ _ _ _ W1 (wrote_app _ _ _ _ _ W2
                 (wrote_app _ _ _ _ _ W3 (wrote_app _ _ _ _ _ W4 W5)))) as W.
    rewrite long_bytes_le32, !word_bytes_le16 in W. exact W. }
  assert (Hhne : hdr <> []) by (unfold hdr, frame_header_bytes, le32; discriminate).
  pose proof (wrote_bracket (sv_file st) 16 (sv_file st4) _ hdr body H0 eq_refl
                Hhne Wb Hh) as Hbr.
  fold p in Hbr.
  exists cs. split; [ exact Hbr | ]. split.
  - destruct Hbr as (_ & Hc' & _ & _ & _ & _ & Hmax' & Hlen').
    assert (Hne : hdr ++ body <> []).
    { intros Heq. apply app_eq_nil in Heq. destruct Heq as [Heq _]. exact (Hhne Heq). }
    specialize (Hlen' Hne). fold p in Hc'. lia.
  - intros Hno. injection Hno as ->.
    destruct Hcase as [(Ed & _) | (_ & Ecs)]; [ discriminate | ].
    subst cs. rewrite Ecs. cbn [app].
    eapply Forall_impl; [ exact Hall | ].
    intros c [E | E] [F | F]; rewrite E in F; discriminate.
Qed.

Lemma save_frames_wrote zl fuel sprite n : forall frame st fop st' fop',
  save_frames zl fuel sprite n frame st fop = Saved (st', fop') ->
  0 <= cursor (sv_file st) ->
  grew (sv_file st) (sv_file st')
  /\ (between_frames (sv_file st) -> fits (sv_file st') ->
      exists frames,
        wrote (sv_file st) (sv_file st') (flat_map frame_bytes frames)
        /\ map fst frames
           = map (fun i => to_uint16
                             (default 0 (getFrameDuration sprite (frame + Z.of_nat i))))
               (seq 0 n)
        /\ (n <> 0%nat -> cursor (sv_file st') = file_length (sv_file st'))
        /\ ((forall k, palette_due sprite k = Saved false) ->
            Forall (fun fr => Forall (fun c => ~ is_palette_chunk c) (snd fr)) frames)).
Proof.
  induction n as [| n IH]; intros frame st fop st' fop' H H0.
  - injection H as <- <-. split; [ apply grew_refl, H0 | ]. intros _ _.
    exists []. split; [ apply wrote_nil, H0 | ].
    split; [ reflexivity | ]. split; [ intros Hn; contradiction | ].
    intros _. constructor.
  - cbn [save_frames] in H.
    destruct (save_frame zl fuel sprite frame st fop) as [[st1 fop1] | | |] eqn:Hfr;
      try discriminate.
    cbn [saved_bind] in H.
    destruct (save_frame_wrote _ _ _ _ _ _ _ _ Hfr H0) as [G1 S1].
    destruct (IH _ _ _ _ _ H (proj1 G1)) as [G2 S2].
    split; [ exact (grew_trans _ _ _ G1 G2) | ]. intros Hb Hf.
    assert (Hf1 : fits (sv_file st1)) by (unfold fits in *; destruct G2; lia).
    destruct (S1 Hb Hf1) as (cs & W1 & Hc1 & Hk1).
    assert (Hb1 : between_frames (sv_file st1))
      by (unfold between_frames; destruct G1; lia).
    destruct (S2 Hb1 Hf) as (frames & W2 & Hd & _ & Hk2).
    exists ((to_uint16 (default 0 (getFrameDuration sprite frame)), cs) :: frames).
    split; [ cbn [flat_map]; exact (wrote_app _ _ _ _ _ W1 W2) | ]. split; [ | split ].
    + cbn [map fst seq]. rewrite Z.add_0_r. f_equal.
      rewrite Hd, <- seq_shift, map_map. apply map_ext. intros i.
      do 3 f_equal. lia.
    + intros _. destruct W2 as (_ & Hc & _ & _ & _ & Hl & Hm & Hlast).
      destruct (flat_map frame_bytes frames) as [| b bs].
      * cbn [length] in Hc. lia.
      * specialize (Hlast ltac:(discriminate)). lia.
    + intros Hno. constructor; [ exact (Hk1 (Hno frame)) | exact (Hk2 Hno) ].
Qed.

(** The file that [onSave] wrote: the room of the document header,
    then the frames one after the other, each with the duration of its
    frame in its header, and nothing behind them. *)
Lemma saved_file_frames zl fuel sprite fop ok out fop' :
  onSave zl fuel sprite fop = Saved (ok, out, fop') ->
  fits out ->
  exists frames,
    holds out 128 (flat_map frame_bytes frames)
    /\ map fst frames
       = map (fun i => to_uint16 (default 0 (getFrameDuration sprite (Z.of_nat i))))
           (seq 0 (Z.to_nat (getTotalFrames sprite)))
    /\ (0 < getTotalFrames sprite ->
        file_length out = 128 + Z.of_nat (length (flat_map frame_bytes frames))
        /\ cursor out = file_length out)
    /\ ((forall k, palette_due sprite k = Saved false) ->
        Forall (fun fr => Forall (fun c => ~ is_palette_chunk c) (snd fr)) frames).
Proof.
  intros H Hf. unfold onSave, ase_file_prepare_header in H.
  destruct (getPalette sprite 0) as [pal0 |]; [ | discriminate ].
  cbn [saved_bind] in H.
  match type of H with
  | saved_bind ?m _ = _ => destruct m as [[stN fopN] | | |] eqn:Hfr; try discriminate
  end.
  cbn [saved_bind] in H.
  match type of Hfr with
  | save_frames _ _ _ _ _ ?s _ = _ => set (st0 := s) in *
  end.
  assert (Hc0 : cursor (sv_file st0) = 128) by reflexivity.
  assert (Hl0 : file_length (sv_file st0) = 0) by reflexivity.
  assert (H0 : 0 <= cursor (sv_file st0)) by (rewrite Hc0; lia).
  destruct (save_frames_wrote _ _ _ _ _ _ _ _ _ Hfr H0) as [G S].
  match type of H with
  | context [ase_file_write_header ?f ?h] =>
      destruct (write_header_bytes f h eq_refl) as (fH & Wh & Eh)
  end.
  set (x := 0 + to_uint32 (ftell (sv_file stN) - 0)) in *.
  assert (Eout : out = fseek fH x).
  { rewrite <- Eh. destruct (ferror _); injection H as _ <- _; reflexivity. }
  clear H.
  match type of Wh with
  | wrote _ _ ?b => assert (Hlen : length b = 34%nat) by reflexivity; set (hdr := b) in *
  end.
  pose proof Wh as (_ & Hch & _ & _ & Hkept & Hlh & Hmh & _).
  rewrite fseek_cursor in Hch by lia. rewrite Hlen in Hch.
  rewrite fseek_length in Hlh, Hmh.
  assert (HfN : fits (sv_file stN)).
  { unfold fits in *. rewrite Eout, fseek_length in Hf. lia. }
  assert (Hb0 : between_frames (sv_file st0)).
  { unfold between_frames. rewrite Hc0, Hl0. lia. }
  destruct (S Hb0 HfN) as (frames & W & Hd & Hend & Hkinds).
  exists frames. split; [ | split; [ | split ] ].
  - rewrite Eout. apply fseek_holds.
    pose proof W as (_ & _ & _ & Hh & _). rewrite Hc0 in Hh.
    apply (holds_kept (fseek (sv_file stN) 0)); [ apply fseek_holds, Hh | ].
    intros q b Hq Hb. apply Hkept; [ | exact Hb ].
    right. rewrite fseek_cursor in * by lia. lia.
  - rewrite Hd. apply map_ext. intros i. reflexivity.
  - intros Hn.
    destruct W as (_ & Hc & _).
    specialize (Hend ltac:(lia)). rewrite Hc0 in Hc.
    assert (Hx : x = cursor (sv_file stN)).
    { subst x. unfold ftell. rewrite Z.add_0_l, Z.sub_0_r.
      apply to_uint32_small. unfold fits, INT_MAX in HfN.
      change (2 ^ 32) with 4294967296. lia. }
    rewrite Eout, fseek_length, fseek_cursor by lia. lia.
  - exact Hkinds.
Qed.

Lemma read_chunks_contents zl fuel header frame n : forall st st',
  read_chunks zl fuel header frame n st = Ok st' ->
  contents (ld_file st') = contents (ld_file st).
Proof.
  induction n as [| n IH]; intros st st' H; simpl in H.
  - injection H as <-. reflexivity.
  - destruct (read_chunk zl fuel header frame st) as [st1 | |] eqn:E; try discriminate.
    apply IH in H. rewrite H. clear H.
    unfold read_chunk in E. cbn [set_fop ld_file] in E.
    pose proof (fgetl_reads (ld_file st)) as R1.
    destruct (fgetl _) as [chunk_size f1]. cbn [snd] in R1.
    pose proof (fgetw_reads f1) as R2.
    destruct (fgetw f1) as [chunk_type f2]. cbn [snd] in R2.
    destruct (dispatch_chunk _ _ _ _ _ _ _ _) as [st2 | |] eqn:E2; try discriminate.
    injection E as <-. apply dispatch_chunk_step in E2. destruct E2 as [R3 _].
    cbn [set_file set_fop ld_file] in *. rewrite fseek_contents.
    destruct R1 as (C1 & _), R2 as (C2 & _), R3 as (C3 & _). congruence.
Qed.

Lemma stream_from_skip f bytes rest g :
  stream_from f = bytes ++ rest ->
  contents g = contents f -> cursor g = cursor f + Z.of_nat (length bytes) ->
  stream_from g = rest.
Proof.
  intros Hs Hc Hp. apply stream_from_advance in Hs.
  unfold stream_from, advance in *. cbn [cursor contents] in Hs.
  rewrite Hc, Hp. exact Hs.
Qed.

(** A turn of the frame loop at the start of a frame that [onSave]
    wrote: the header it reads, and the seek that ends the turn at the
    start of the next frame, whatever the chunks of the frame were
    taken for. *)
Lemma read_frame_chain zl fuel header frame st st' d cs rest :
  read_frame zl fuel header frame st = Ok st' ->
  stream_from (ld_file st) = frame_bytes (d, cs) ++ rest ->
  0 <= d < 65536 ->
  0 <= cursor (ld_file st) ->
  cursor (ld_file st) + Z.of_nat (length (frame_bytes (d, cs))) <= INT_MAX ->
  fst (ase_file_read_frame_header (ld_file st))
  = mkFrameHeader (16 + Z.of_nat (length (chunks_bytes cs))) ASE_FILE_FRAME_MAGIC
      (to_uint16 (Z.of_nat (length cs))) d
  /\ stream_from (ld_file st') = rest
  /\ cursor (ld_file st')
     = cursor (ld_file st) + Z.of_nat (length (frame_bytes (d, cs))).
Proof.
  intros H Hs Hd H0 Hmax.
  assert (Hlen : Z.of_nat (length (frame_bytes (d, cs)))
                 = 16 + Z.of_nat (length (chunks_bytes cs))).
  { unfold frame_bytes, frame_header_bytes. rewrite !length_app.
    cbn [length le32 le16 zeros replicate]. lia. }
  rewrite Hlen in Hmax. unfold INT_MAX in Hmax.
  pose proof Hs as Hs'.
  unfold frame_bytes, frame_header_bytes in Hs'. rewrite <- !app_assoc in Hs'.
  rewrite <- long_bytes_le32, <- !word_bytes_le16 in Hs'.
  destruct (read_frame_header_stream _ _ _ _ _ _ _ Hs' eq_refl) as [Eh _].
  rewrite to_uint32_small in Eh by lia.
  rewrite to_uint16_idem in Eh.
  change (to_uint16 ASE_FILE_FRAME_MAGIC) with ASE_FILE_FRAME_MAGIC in Eh.
  rewrite (to_uint16_small d) in Eh by lia.
  split; [ rewrite Eh; reflexivity | ].
  unfold read_frame in H. cbn [set_fop ld_file] in H. rewrite Eh in H.
  cbn [fh_magic fh_size fh_chunks fh_duration] in H.
  change (ASE_FILE_FRAME_MAGIC =? ASE_FILE_FRAME_MAGIC) with true in H.
  cbv iota in H.
  destruct (read_chunks _ _ _ _ _ _) as [st1 | |] eqn:E; try discriminate.
  injection H as <-. cbn [set_file ld_file].
  apply read_chunks_contents in E.
  assert (Ec : contents (ld_file st1) = contents (ld_file st)).
  { rewrite E. destruct (0 <? d); reflexivity. }
  unfold ftell. rewrite to_int_small by (unfold INT_MAX; lia).
  rewrite to_uint32_small by lia.
  assert (Hcur : cursor (fseek (ld_file st1)
                           (cursor (ld_file st) + (16 + Z.of_nat (length (chunks_bytes cs)))))
                 = cursor (ld_file st) + Z.of_nat (length (frame_bytes (d, cs))))
    by (rewrite fseek_cursor, Hlen by lia; reflexivity).
  split; [ | exact Hcur ].
  eapply stream_from_skip; [ exact Hs | | exact Hcur ].
  rewrite fseek_contents. exact Ec.
Qed.

Lemma frame_headers_read_chain zl fuel header frames :
  forall frame st st' rest,
    load_frames zl fuel header (length frames) frame st = Ok st' ->
    stream_from (ld_file st) = flat_map frame_bytes frames ++ rest ->
    Forall (fun fr => 0 <= fst fr < 65536) frames ->
    0 <= cursor (ld_file st) ->
    cursor (ld_file st) + Z.of_nat (length (flat_map frame_bytes frames)) <= INT_MAX ->
    fop_oneframe (ld_fop st) = false ->
    (forall k, fop_stop (ld_fop st) k = false) ->
    frame_headers_read zl fuel header (length frames) frame st
    = map frame_header_of frames.
Proof.
  induction frames as [| [d cs] frames IH];
    intros frame st st' rest H Hs Hall H0 Hmax Hone Hstop; [ reflexivity | ].
  cbn [length load_frames frame_headers_read map] in *.
  inversion Hall as [| x l Hd Hall']; subst x l. cbn [fst] in Hd.
  cbn [flat_map] in Hs, Hmax. rewrite <- app_assoc in Hs.
  rewrite length_app, Nat2Z.inj_add in Hmax.
  destruct (read_frame zl fuel header frame st) as [st1 | |] eqn:E; try discriminate.
  destruct (read_frame_chain _ _ _ _ _ _ _ _ _ E Hs Hd H0 ltac:(lia))
    as (Eh & Hs1 & Hc1).
  apply read_frame_options in E. destruct E as (O1 & O2 & _).
  assert (Hone1 : fop_oneframe (ld_fop st1) = false) by congruence.
  assert (Hstop1 : forall k, fop_stop (ld_fop st1) k = false)
    by (intros k; rewrite O2; apply Hstop).
  unfold fop_is_stop in *. rewrite Hone1, Hstop1 in *.
  f_equal; [ exact Eh | ].
  eapply IH; eauto; lia.
Qed.

(** X19: the durations of the frames survive saving and loading.  When
    the file that [onSave] wrote for a sprite of fewer than 65536
    frames is opened again and [onLoad] goes through all of its frames
    (a whole load, not stopped), frame [i] of the loaded document has
    the duration that was stored for it, the 16 bit value of the
    duration of frame [i] of the saved sprite, when that value is above
    0; a frame whose stored duration is 0 comes back with the stored
    duration of frame 0 instead.  The file stays within the offsets of
    an [int]. *)
Theorem save_load_durations zl fuel sprite fop ok out fop' zl2 fuel2 fop2 loaded :
  onSave zl fuel sprite fop = Saved (ok, out, fop') ->
  fits out ->
  getTotalFrames sprite < 65536 ->
  fop_oneframe fop2 = false -> (forall k, fop_stop fop2 k = false) ->
  onLoad zl2 fuel2 (Some (open_file (contents out))) fop2 = Ok loaded ->
  exists st,
    final loaded = Some st
    /\ forall i, (i < Z.to_nat (getTotalFrames sprite))%nat ->
         spr_frlen (ld_sprite st) !! i
         = Some (if 0 <? stored_duration sprite i then stored_duration sprite i
                 else stored_duration sprite 0).
Proof.
  intros Hsave Hf Hn Hone Hstop Hload.
  destruct (saved_header_fields _ _ _ _ _ _ _ Hsave)
    as (header & pal & _ & Hr & _ & _ & Hfr & _ & _ & _ & Hsp & _).
  destruct (saved_file_frames _ _ _ _ _ _ _ Hsave Hf) as (frames & Hh & Hd & Hlen & _).
  unfold onLoad in Hload. rewrite Hr in Hload.
  destruct (load_frames _ _ _ _ _ _) as [st | |] eqn:E; try discriminate.
  exists st. split.
  { destruct (ferror _); injection Hload as <-; reflexivity. }
  clear Hload. intros i Hi.
  unfold getTotalFrames in *.
  assert (Hn0 : 0 < spr_frames sprite) by lia.
  destruct (header_sprite_durations header) as [Hfrs Hfrl].
  rewrite Hfrs in E.
  rewrite Hfr, to_uint16_small in * by lia.
  assert (Hcount : length frames = Z.to_nat (spr_frames sprite)).
  { rewrite <- (length_map fst), Hd, length_map, length_seq. reflexivity. }
  rewrite <- Hcount in E, Hi.
  assert (Hs : stream_from (mkFILE (contents out) 128 false)
               = flat_map frame_bytes frames
                 ++ drop (Z.to_nat 128 + length (flat_map frame_bytes frames))
                      (contents out)).
  { assert (Hh' : holds (open_file (contents out)) 128 (flat_map frame_bytes frames))
      by exact Hh.
    apply holds_stream in Hh'. exact Hh'. }
  assert (Hall : Forall (fun fr => 0 <= fst fr < 65536) frames).
  { apply (proj1 (List.Forall_map fst (fun d => 0 <= d < 65536) frames)).
    rewrite Hd. apply List.Forall_map, List.Forall_forall.
    intros k _. apply to_uint16_range. }
  destruct (Hlen Hn0) as [Hlen' _]. clear Hlen. rename Hlen' into Hlen.
  assert (Hmax : cursor (mkFILE (contents out) 128 false)
                 + Z.of_nat (length (flat_map frame_bytes frames)) <= INT_MAX).
  { unfold fits in Hf. cbn [cursor]. lia. }
  pose proof (frame_headers_read_chain _ _ _ _ _ _ _ _ E Hs Hall
                ltac:(cbn; lia) Hmax Hone Hstop) as Hseen.
  destruct (load_frames_durations _ _ _ (h_speed header) _ _ _ _ E ltac:(lia))
    as [_ Hdur].
  - cbn [ld_sprite]. rewrite Hfrs, Hcount. lia.
  - cbn [ld_sprite]. rewrite Hfrs, Hfrl, length_replicate. lia.
  - intros k Hk. cbn [ld_sprite]. rewrite Hfrl.
    apply lookup_replicate_2. lia.
  - specialize (Hdur i Hi). change (Z.to_nat 0 + i)%nat with i in Hdur.
    rewrite Hdur, Hseen.
    rewrite list_lookup_fmap.
    destruct (frames !! i) as [fr |] eqn:Efr;
      [ | apply lookup_ge_None in Efr; lia ].
    cbn [option_map fmap option_fmap loaded_duration frame_header_of fh_magic fh_duration].
    change (ASE_FILE_FRAME_MAGIC =? ASE_FILE_FRAME_MAGIC) with true. cbn [andb].
    assert (Efst : fst fr = stored_duration sprite i).
    { assert (Hm : map fst frames !! i = Some (fst fr))
        by (rewrite list_lookup_fmap, Efr; reflexivity).
      rewrite Hd, list_lookup_fmap in Hm.
      rewrite lookup_seq_lt in Hm by lia. cbn in Hm.
      injection Hm as <-. reflexivity. }
    rewrite Efst, Hsp. reflexivity.
Qed.

Lemma save_load_durations_witness :
  exists out fop' loaded st,
    onSave zlib_store 0 zero_duration_sprite new_fop = Saved (true, out, fop')
    /\ fits out
    /\ onLoad zlib_store 0 (Some (open_file (contents out))) new_fop = Ok loaded
    /\ final loaded = Some st
    /\ spr_frlen (ld_sprite st) !! 0%nat = Some 120
    /\ spr_frlen (ld_sprite st) !! 1%nat = Some 120
    /\ spr_frlen (ld_sprite st) !! 2%nat = Some 250.
Proof.
  assert (H : exists out fop' loaded,
             onSave zlib_store 0 zero_duration_sprite new_fop = Saved (true, out, fop')
             /\ fits out
             /\ onLoad zlib_store 0 (Some (open_file (contents out))) new_fop
                = Ok loaded).
  { eexists _, _, _.
    split; [ vm_compute; reflexivity | ].
    split; [ vm_compute; discriminate | vm_compute; reflexivity ]. }
  destruct H as (out & fop' & loaded & H1 & H2 & H3).
  destruct (save_load_durations zlib_store 0 zero_duration_sprite new_fop true out fop'
              zlib_store 0 new_fop loaded H1 H2
              ltac:(vm_compute; reflexivity) eq_refl (fun _ => eq_refl) H3)
    as (st & Hf & Hd).
  exists out, fop', loaded, st.
  split; [ exact H1 | ]. split; [ exact H2 | ]. split; [ exact H3 | ].
  split; [ exact Hf | ].
  split; [ exact (Hd 0%nat ltac:(vm_compute; lia)) | ].
  split; [ exact (Hd 1%nat ltac:(vm_compute; lia))
         | exact (Hd 2%nat ltac:(vm_compute; lia)) ].
Defined.

(** X20: the size field of the document header of a saved file is the
    length of the file.  For a sprite with at least one frame, in a
    file that stays within the offsets of an [int], the header that is
    read back announces exactly the bytes that are there: the 128 bytes
    of the header and, behind them, one frame after the other for every
    frame of the sprite. *)
Theorem saved_size_is_file_length zl fuel sprite fop ok out fop' :
  onSave zl fuel sprite fop = Saved (ok, out, fop') ->
  fits out -> 0 < getTotalFrames sprite ->
  exists header frames,
    fst (ase_file_read_header (open_file (contents out))) = Some header
    /\ h_size header = file_length out
    /\ length frames = Z.to_nat (getTotalFrames sprite)
    /\ holds out 128 (flat_map frame_bytes frames)
    /\ file_length out = 128 + Z.of_nat (length (flat_map frame_bytes frames)).
Proof.
  intros Hsave Hf Hn.
  destruct (saved_header_fields _ _ _ _ _ _ _ Hsave)
    as (header & pal & _ & Hr & _ & Hsize & _).
  destruct (saved_file_frames _ _ _ _ _ _ _ Hsave Hf) as (frames & Hh & Hd & Hlen & _).
  destruct (Hlen Hn) as [Hl Hc].
  exists header, frames. rewrite Hr, Hsize, Hc.
  split; [ reflexivity | ]. split; [ reflexivity | ].
  split; [ | split; assumption ].
  rewrite <- (length_map fst), Hd, length_map, length_seq. reflexivity.
Qed.

Lemma saved_size_is_file_length_witness :
  exists out fop' header,
    onSave zlib_store 0 three_frames_sprite new_fop = Saved (true, out, fop')
    /\ fits out /\ 0 < getTotalFrames three_frames_sprite
    /\ fst (ase_file_read_header (open_file (contents out))) = Some header
    /\ h_size header = file_length out.
Proof.
  assert (H : exists out fop',
             onSave zlib_store 0 three_frames_sprite new_fop = Saved (true, out, fop')
             /\ fits out)
    by (eexists _, _; split; [ vm_compute; reflexivity | vm_compute; discriminate ]).
  destruct H as (out & fop' & H1 & H2).
  assert (H3 : 0 < getTotalFrames three_frames_sprite) by (vm_compute; reflexivity).
  destruct (saved_size_is_file_length _ _ _ _ _ _ _ H1 H2 H3)
    as (header & frames & E1 & E2 & _).
  exists out, fop', header.
  split; [ exact H1 | ]. split; [ exact H2 | ]. split; [ exact H3 | ].
  split; [ exact E1 | exact E2 ].
Defined.

Lemma emits_ret : emits Saved [].
Proof.
  intros st st' H H0. injection H as <-. split; [ apply grew_refl, H0 | ].
  intros Hr _. apply emitted_nil, Hr.
Qed.

Lemma emits_bind W1 W2 cs1 cs2 :
  emits W1 cs1 -> emits W2 cs2 ->
  emits (fun st => saved_bind (W1 st) W2) (cs1 ++ cs2).
Proof.
  intros E1 E2 st st' H H0.
  destruct (W1 st) as [st1 | | |] eqn:H1; try discriminate. simpl in H.
  destruct (E1 _ _ H1 H0) as [G1 S1].
  destruct (E2 _ _ H (proj1 G1)) as [G2 S2].
  split; [ eapply grew_trans; eauto | ].
  intros Hr Hf.
  assert (Hf1 : fits (sv_file st1)) by (unfold fits in *; destruct G2; lia).
  pose proof (S1 Hr Hf1) as Hem1.
  eapply emitted_app; [ exact Hem1 | ].
  apply S2; [ exact (emitted_ready _ _ _ Hem1 Hr) | exact Hf ].
Qed.

Lemma layer_chunk_emits l p :
  emits (ase_file_write_layer_chunk l p) [layer_chunk (l, p)].
Proof.
  intros st st' H H0. split.
  - exact (proj1 (layer_chunk_emitter l p st st' H H0)).
  - intros Hr Hf. exact (layer_chunk_emitted l p st st' H Hr Hf).
Qed.

Lemma write_layers_emits l :
  forall p, emits (ase_file_write_layers l p) (map layer_chunk (layers_preorder l p)).
Proof.
  induction l as [fl n cs | fl n ls IH] using Layer_ind'; intros p.
  - exact (emits_bind _ _ _ _ (layer_chunk_emits _ p) emits_ret).
  - cbn [layers_preorder map].
    refine (emits_bind _ _ [_] _ (layer_chunk_emits _ p) _).
    generalize 0%nat at 2 3.
    induction ls as [| c ls IHls]; intros i.
    + apply emits_ret.
    + inversion IH as [| c' ls' Hc Hls]; subst c' ls'.
      rewrite map_app.
      exact (emits_bind _ _ _ _ (Hc (i :: p)) (IHls Hls (S i))).
Qed.

Lemma count_parents_length parent : forall level,
  count_parents parent level = level + 1 + Z.of_nat (length parent).
Proof.
  induction parent as [| j up IH]; intros level; cbn [count_parents length].
  - lia.
  - rewrite IH. lia.
Qed.

Lemma layer_child_level_depth p :
  layer_child_level p = Z.of_nat (length p) - 1.
Proof.
  unfold layer_child_level. destruct p as [| i up]; cbn.
  - reflexivity.
  - rewrite count_parents_length. lia.
Qed.

Lemma layers_preorder_depth l : forall p,
  Forall (fun lp => (length p <= length (snd lp))%nat) (layers_preorder l p).
Proof.
  induction l as [fl n cs | fl n ls IH] using Layer_ind'; intros p.
  - repeat constructor.
  - cbn [layers_preorder]. constructor; [ cbn; lia | ].
    generalize 0%nat.
    induction ls as [| c ls IHls]; intros i.
    + constructor.
    + inversion IH as [| c' ls' Hc Hls]; subst c' ls'.
      apply Forall_app. split; [ | exact (IHls Hls (S i)) ].
      eapply Forall_impl; [ exact (Hc (i :: p)) | ].
      intros lp H. cbn [length] in H. lia.
Qed.

(** X22: [ase_file_write_layers] writes one layer chunk for every layer
    of the tree it is given, and nothing else: the chunk of a folder
    comes before the chunks of its children, the children follow in
    their order, each with its whole subtree before the next one.  The
    child level stored in the chunk of a layer is the number of folders
    between the layer and the root folder, and no layer of the tree is
    stored at a lower level than the layer the walk started from. *)
Theorem write_layers_preorder l p st st' :
  ase_file_write_layers l p st = Saved st' ->
  ready st -> fits (sv_file st') ->
  emitted st st' (map layer_chunk (layers_preorder l p))
  /\ Forall (fun lp => layer_child_level (snd lp) = Z.of_nat (length (snd lp)) - 1
                       /\ layer_child_level p <= layer_child_level (snd lp))
       (layers_preorder l p).
Proof.
  intros H Hr Hf. split.
  - pose proof Hr as (_ & H0 & _).
    exact (proj2 (write_layers_emits l p st st' H H0) Hr Hf).
  - eapply Forall_impl; [ apply layers_preorder_depth | ].
    intros lp Hlen. cbn beta in Hlen. rewrite !layer_child_level_depth. lia.
Qed.

Lemma write_layers_preorder_witness :
  exists st',
    ase_file_write_layers nested_layers [0%nat] first_frame_state = Saved st'
    /\ ready first_frame_state /\ fits (sv_file st')
    /\ emitted first_frame_state st'
         (map layer_chunk
            [(nested_layers, [0%nat]);
             (LayerImage 3 [97] [], [0%nat; 0%nat]);
             (LayerFolder 1 [72] [LayerImage 3 [98] []], [1%nat; 0%nat]);
             (LayerImage 3 [98] [], [0%nat; 1%nat; 0%nat]);
             (LayerImage 1 [99] [], [2%nat; 0%nat])])
    /\ map (fun lp => layer_child_level (snd lp)) (layers_preorder nested_layers [0%nat])
       = [0; 1; 1; 2; 1].
Proof.
  assert (H : exists st',
             ase_file_write_layers nested_layers [0%nat] first_frame_state = Saved st'
             /\ fits (sv_file st'))
    by (eexists; split; [ vm_compute; reflexivity | vm_compute; discriminate ]).
  destruct H as (st' & H1 & H3).
  assert (H2 : ready first_frame_state)
    by (vm_compute; repeat split; discriminate).
  exists st'. split; [ exact H1 | ]. split; [ exact H2 | ]. split; [ exact H3 | ].
  split; [ exact (proj1 (write_layers_preorder nested_layers [0%nat] first_frame_state st'
                           H1 H2 H3)) | ].
  vm_compute. reflexivity.
Defined.

Lemma same_palettes_refl s : same_palettes s s.
Proof. split; [ reflexivity | intros _; reflexivity ]. Qed.

Lemma same_palettes_trans s t u :
  same_palettes s t -> same_palettes t u -> same_palettes s u.
Proof.
  intros [F1 P1] [F2 P2]. split; [ congruence | ].
  intros H. rewrite P2 by congruence. apply P1, H.
Qed.

Lemma layer_chunk_palettes f sprite prev level f' sprite' p' level' :
  ase_file_read_layer_chunk f sprite prev level = Ok (f', sprite', p', level') ->
  same_palettes sprite sprite'.
Proof.
  unfold ase_file_read_layer_chunk. intros H.
  break_result H; injection H as <- <- <- <-; split; try reflexivity; intros _; reflexivity.
Qed.

Lemma cel_chunk_palettes zl fuel f sprite frame fmt fop header chunk_end r f' sprite' fop' :
  ase_file_read_cel_chunk zl fuel f sprite frame fmt fop header chunk_end
  = Ok (r, f', sprite', fop') ->
  same_palettes sprite sprite'.
Proof.
  unfold ase_file_read_cel_chunk, store_image, addImage. intros H.
  break_result H; injection H as <- <- <- <-; split; try reflexivity; intros _; reflexivity.
Qed.

Lemma dispatch_chunk_palettes zl fuel header frame chunk_pos chunk_size chunk_type st st' :
  dispatch_chunk zl fuel header frame chunk_pos chunk_size chunk_type st = Ok st' ->
  same_palettes (ld_sprite st) (ld_sprite st').
Proof.
  unfold dispatch_chunk. intros H.
  destruct (_ || _).
  { unfold getPixelFormat in H.
    destruct (spr_format (ld_sprite st)) eqn:Ef.
    - injection H as <-. apply same_palettes_refl.
    - injection H as <-. apply same_palettes_refl.
    - break_result H; injection H as <-; cbn [ld_sprite];
        (split; [ try reflexivity | intros Hn; congruence ]). }
  destruct (chunk_type =? ASE_FILE_CHUNK_LAYER).
  { destruct (ase_file_read_layer_chunk _ _ _ _) as [[[[f1 s1] p1] l1] | |] eqn:E;
      try discriminate.
    injection H as <-. simpl. eapply layer_chunk_palettes, E. }
  destruct (chunk_type =? ASE_FILE_CHUNK_CEL).
  { destruct (ase_file_read_cel_chunk _ _ _ _ _ _ _ _ _) as [[[[r1 f1] s1] p1] | |] eqn:E;
      try discriminate.
    injection H as <-. simpl. eapply cel_chunk_palettes, E. }
  destruct (chunk_type =? ASE_FILE_CHUNK_MASK).
  { destruct (ase_file_read_mask_chunk _). injection H as <-. apply same_palettes_refl. }
  destruct (chunk_type =? ASE_FILE_CHUNK_PATH).
  { injection H as <-. apply same_palettes_refl. }
  injection H as <-. apply same_palettes_refl.
Qed.

Lemma read_chunks_palettes zl fuel header frame n : forall st st',
  read_chunks zl fuel header frame n st = Ok st' ->
  same_palettes (ld_sprite st) (ld_sprite st').
Proof.
  induction n as [| n IH]; intros st st' H; simpl in H.
  - injection H as <-. apply same_palettes_refl.
  - destruct (read_chunk zl fuel header frame st) as [st1 | |] eqn:E; try discriminate.
    eapply same_palettes_trans; [ | apply IH, H ].
    unfold read_chunk in E.
    destruct (fgetl _) as [chunk_size f1]. destruct (fgetw f1) as [chunk_type f2].
    destruct (dispatch_chunk _ _ _ _ _ _ _ _) as [st2 | |] eqn:E2; try discriminate.
    injection E as <-. apply dispatch_chunk_palettes in E2. exact E2.
Qed.

Lemma read_frame_palettes zl fuel header frame st st' :
  read_frame zl fuel header frame st = Ok st' ->
  same_palettes (ld_sprite st) (ld_sprite st').
Proof.
  unfold read_frame. simpl.
  destruct (ase_file_read_frame_header (ld_file st)) as [fh f1]. simpl.
  destruct (fh_magic fh =? ASE_FILE_FRAME_MAGIC); simpl.
  - destruct (read_chunks _ _ _ _ _ _) as [st1 | |] eqn:E; try discriminate.
    intros H. injection H as <-. simpl.
    apply read_chunks_palettes in E.
    eapply same_palettes_trans; [ | exact E ].
    destruct (0 <? fh_duration fh); simpl; [ | apply same_palettes_refl ].
    unfold setFrameDuration. destruct (_ && _); (split; [ reflexivity | intros _; reflexivity ]).
  - intros H. injection H as <-. apply same_palettes_refl.
Qed.

Lemma load_frames_palettes zl fuel header n : forall frame st st',
  load_frames zl fuel header n frame st = Ok st' ->
  same_palettes (ld_sprite st) (ld_sprite st').
Proof.
  induction n as [| n IH]; intros frame st st' H; simpl in H.
  - injection H as <-. apply same_palettes_refl.
  - destruct (read_frame zl fuel header frame st) as [st1 | |] eqn:E; try discriminate.
    apply read_frame_palettes in E.
    destruct (fop_oneframe _); [ injection H as <-; exact E | ].
    destruct (fop_is_stop _ _); [ injection H as <-; exact E | ].
    eapply same_palettes_trans; [ exact E | eapply IH, H ].
Qed.

(** X23: the palette chunks of a file that is not indexed are never
    applied.  When the header announces 32 or 16 bits per pixel, the
    document that [onLoad] builds still has the palettes of the sprite
    that was set up from the header before the first frame was read,
    whatever chunks the frames hold. *)
Theorem non_indexed_load_keeps_palettes zl fuel f fop header f1 loaded :
  ase_file_read_header f = (Some header, f1) ->
  h_depth header = 32 \/ h_depth header = 16 ->
  onLoad zl fuel (Some f) fop = Ok loaded ->
  exists st,
    final loaded = Some st
    /\ fop_document (out_fop loaded) = Some (ld_sprite st)
    /\ spr_palettes (ld_sprite st) = spr_palettes (header_sprite header).
Proof.
  unfold onLoad. intros Hh Hd H. rewrite Hh in H.
  destruct (load_frames _ _ _ _ _ _) as [st | |] eqn:E; try discriminate.
  apply load_frames_palettes in E. cbn [ld_sprite] in E.
  destruct E as [_ E].
  assert (Hp : spr_palettes (ld_sprite st) = spr_palettes (header_sprite header)).
  { apply E.
    cbn. unfold header_format.
    destruct Hd as [-> | ->]; cbn; discriminate. }
  exists st.
  destruct (ferror (ld_file st)); injection H as <-; cbn [final out_fop];
    (split; [ reflexivity | split; [ reflexivity | exact Hp ] ]).
Qed.

Lemma non_indexed_load_keeps_palettes_witness :
  exists header f1 loaded st,
    ase_file_read_header (open_file rgb_palette_stream) = (Some header, f1)
    /\ h_depth header = 32
    /\ onLoad zlib_store 0 (Some (open_file rgb_palette_stream)) new_fop = Ok loaded
    /\ final loaded = Some st
    /\ spr_palettes (ld_sprite st) = [mkPalette 0 (replicate 2 (_rgba 0 0 0 255))]
    /\ fop_error_log (out_fop loaded)
       = [("Warning: was found a color chunk in non-8bpp file\n"%string, [])].
Proof.
  assert (H1 : exists header f1,
             ase_file_read_header (open_file rgb_palette_stream) = (Some header, f1)
             /\ h_depth header = 32 /\ h_ncolors header = 2)
    by (eexists _, _; split; [ vm_compute; reflexivity | split; reflexivity ]).
  destruct H1 as (header & f1 & H1 & Hd & Hn).
  assert (H2 : exists loaded,
             onLoad zlib_store 0 (Some (open_file rgb_palette_stream)) new_fop
             = Ok loaded
             /\ fop_error_log (out_fop loaded)
                = [("Warning: was found a color chunk in non-8bpp file\n"%string, [])])
    by (eexists; split; [ vm_compute; reflexivity | vm_compute; reflexivity ]).
  destruct H2 as (loaded & H2 & Hlog).
  destruct (non_indexed_load_keeps_palettes _ _ _ _ _ _ _ H1 (or_introl Hd) H2)
    as (st & Hf & _ & Hp).
  change (spr_palettes (header_sprite header))
    with [mkPalette 0 (replicate (Z.to_nat (h_ncolors header)) (_rgba 0 0 0 255))] in Hp.
  rewrite Hn in Hp.
  exists header, f1, loaded, st.
  split; [ exact H1 | ]. split; [ exact Hd | ]. split; [ exact H2 | ].
  split; [ exact Hf | ]. split; [ exact Hp | exact Hlog ].
Defined.

(** ** Chunks read from an aligned stream *)

Lemma chunk_bytes_length t body :
  Z.of_nat (length (chunk_bytes t body)) = 6 + Z.of_nat (length body).
Proof.
  unfold chunk_bytes. rewrite !length_app. cbn [length le32 le16]. lia.
Qed.

Lemma read_chunk_aligned zl fuel header frame st t body rest :
  stream_from (ld_file st) = chunk_bytes t body ++ rest ->
  0 <= t < 65536 ->
  0 <= cursor (ld_file st) ->
  cursor (ld_file st) + 6 + Z.of_nat (length body) <= INT_MAX ->
  read_chunk zl fuel header frame st
  = match dispatch_chunk zl fuel header frame (cursor (ld_file st))
            (6 + Z.of_nat (length body)) t (in_chunk header st) with
    | Ok st2 =>
        Ok (set_file st2 (fseek (ld_file st2)
                            (cursor (ld_file st) + 6 + Z.of_nat (length body))))
    | Crash => Crash
    | OutOfFuel => OutOfFuel
    end
  /\ stream_from (ld_file (in_chunk header st)) = body ++ rest.
Proof.
  intros Hs Ht H0 Hmax. unfold INT_MAX in Hmax.
  pose proof Hs as Hs'. unfold chunk_bytes in Hs'. rewrite <- !app_assoc in Hs'.
  destruct (fgetl_stream _ _ _ Hs' ltac:(lia)) as [E1 H1].
  destruct (fgetw_stream _ _ _ H1 Ht) as [E2 H2].
  rewrite advance_advance in E2, H2. change (4 + 2) with 6 in E2, H2.
  split; [ | exact H2 ].
  unfold read_chunk. cbn [set_fop ld_file]. rewrite E1, E2.
  unfold ftell.
  rewrite (to_int_small (cursor (ld_file st))) by (unfold INT_MAX; lia).
  rewrite (to_int_small (6 + _)) by (unfold INT_MAX; lia).
  rewrite to_int_small by (unfold INT_MAX; lia).
  change (set_file _ (advance (ld_file st) 6)) with (in_chunk header st).
  rewrite Z.add_assoc. reflexivity.
Qed.

Lemma read_chunk_stream zl fuel header frame st st' t body rest :
  read_chunk zl fuel header frame st = Ok st' ->
  stream_from (ld_file st) = chunk_bytes t body ++ rest ->
  0 <= t < 65536 ->
  0 <= cursor (ld_file st) ->
  cursor (ld_file st) + 6 + Z.of_nat (length body) <= INT_MAX ->
  exists st2,
    dispatch_chunk zl fuel header frame (cursor (ld_file st))
      (6 + Z.of_nat (length body)) t (in_chunk header st) = Ok st2
    /\ st' = set_file st2 (fseek (ld_file st2)
                             (cursor (ld_file st) + 6 + Z.of_nat (length body)))
    /\ stream_from (ld_file st') = rest
    /\ cursor (ld_file st') = cursor (ld_file st) + 6 + Z.of_nat (length body).
Proof.
  intros H Hs Ht H0 Hmax.
  destruct (read_chunk_aligned zl fuel header frame st t body rest Hs Ht H0 Hmax)
    as [E _].
  rewrite E in H.
  destruct (dispatch_chunk _ _ _ _ _ _ _ _) as [st2 | |] eqn:E2; try discriminate.
  injection H as <-. exists st2.
  split; [ reflexivity | ]. split; [ reflexivity | ].
  cbn [set_file ld_file].
  assert (Hcur : cursor (fseek (ld_file st2)
                           (cursor (ld_file st) + 6 + Z.of_nat (length body)))
                 = cursor (ld_file st) + 6 + Z.of_nat (length body))
    by (rewrite fseek_cursor by lia; lia).
  split; [ | exact Hcur ].
  eapply stream_from_skip; [ exact Hs | | rewrite Hcur, chunk_bytes_length; lia ].
  rewrite fseek_contents.
  apply dispatch_chunk_step in E2. destruct E2 as [(C & _) _]. exact C.
Qed.

(** ** What chunks other than layer chunks leave of the layers *)

Lemma without_cels_addCel l cel : without_cels (addCel l cel) = without_cels l.
Proof. destruct l; reflexivity. Qed.

Lemma without_cels_update cel path l :
  without_cels (layer_update l path (fun l0 => addCel l0 cel)) = without_cels l.
Proof.
  destruct path as [| i path]; cbn [layer_update].
  - apply without_cels_addCel.
  - destruct l as [fl n cs | fl n ls]; [ reflexivity | ].
    destruct (ls !! i); reflexivity.
Qed.

Lemma add_cel_top_layers root path cel :
  map without_cels (getLayers (layer_update root path (fun l => addCel l cel)))
  = map without_cels (getLayers root).
Proof.
  destruct path as [| i path]; cbn [layer_update].
  - destruct root; reflexivity.
  - destruct root as [fl n cs | fl n ls]; [ reflexivity | ].
    destruct (ls !! i) as [c |] eqn:E; [ | reflexivity ].
    cbn [getLayers].
    change (map without_cels (<[i := layer_update c path (fun l => addCel l cel)]> ls))
      with (without_cels <$> <[i := layer_update c path (fun l => addCel l cel)]> ls).
    rewrite list_fmap_insert, without_cels_update.
    apply list_insert_id. rewrite list_lookup_fmap, E. reflexivity.
Qed.

Lemma without_cels_chunk_layer l : without_cels (chunk_layer l) = chunk_layer l.
Proof. unfold chunk_layer. destruct (isImage l); reflexivity. Qed.

Lemma cel_chunk_top_layers zl fuel f sprite frame fmt fop header chunk_end r f' sprite' fop' :
  ase_file_read_cel_chunk zl fuel f sprite frame fmt fop header chunk_end
  = Ok (r, f', sprite', fop') ->
  top_layers sprite' = top_layers sprite.
Proof.
  unfold ase_file_read_cel_chunk, store_image, addImage, top_layers. intros H.
  break_result H; injection H as <- <- <- <-; try reflexivity;
    unfold add_cel_at; cbn [spr_folder set_folder set_stock];
    apply add_cel_top_layers.
Qed.

Lemma dispatch_chunk_top_layers zl fuel header frame chunk_pos chunk_size chunk_type st st' :
  dispatch_chunk zl fuel header frame chunk_pos chunk_size chunk_type st = Ok st' ->
  chunk_type <> ASE_FILE_CHUNK_LAYER ->
  top_layers (ld_sprite st') = top_layers (ld_sprite st)
  /\ ld_last_layer st' = ld_last_layer st
  /\ ld_current_level st' = ld_current_level st.
Proof.
  unfold dispatch_chunk. intros H Ht.
  destruct (_ || _).
  { break_result H; injection H as <-; repeat split. }
  destruct (chunk_type =? ASE_FILE_CHUNK_LAYER) eqn:El; [ apply Z.eqb_eq in El; tauto | ].
  destruct (chunk_type =? ASE_FILE_CHUNK_CEL).
  { destruct (ase_file_read_cel_chunk _ _ _ _ _ _ _ _ _) as [[[[r1 f1] s1] p1] | |] eqn:E;
      try discriminate.
    injection H as <-. cbn [ld_sprite ld_last_layer ld_current_level].
    split; [ eapply cel_chunk_top_layers, E | split; reflexivity ]. }
  destruct (chunk_type =? ASE_FILE_CHUNK_MASK).
  { destruct (ase_file_read_mask_chunk _). injection H as <-. repeat split. }
  destruct (chunk_type =? ASE_FILE_CHUNK_PATH).
  { injection H as <-. repeat split. }
  injection H as <-. repeat split.
Qed.

Lemma dispatch_palette_folder zl fuel header frame chunk_pos chunk_size st st' :
  dispatch_chunk zl fuel header frame chunk_pos chunk_size ASE_FILE_CHUNK_FLI_COLOR2 st
  = Ok st' ->
  spr_folder (ld_sprite st') = spr_folder (ld_sprite st)
  /\ ld_last_layer st' = ld_last_layer st
  /\ ld_current_level st' = ld_current_level st.
Proof.
  unfold dispatch_chunk. intros H.
  change (_ || _) with true in H. cbv iota in H.
  break_result H; injection H as <-; repeat split.
Qed.

(** ** The chunks of the frames of a saved file *)

Lemma emits_in_ret (Q : list (Z * list Z) -> Prop) : Q [] -> emits_in Saved Q.
Proof.
  intros HQ st st' H H0. injection H as <-. split; [ apply grew_refl, H0 | ].
  intros Hr _. exists []. split; [ apply emitted_nil, Hr | exact HQ ].
Qed.

Lemma emits_in_bind W1 W2 (Q1 Q2 Q : list (Z * list Z) -> Prop) :
  emits_in W1 Q1 -> emits_in W2 Q2 ->
  (forall a b, Q1 a -> Q2 b -> Q (a ++ b)) ->
  emits_in (fun st => saved_bind (W1 st) W2) Q.
Proof.
  intros E1 E2 HQ st st' H H0.
  destruct (W1 st) as [st1 | | |] eqn:H1; try discriminate. simpl in H.
  destruct (E1 _ _ H1 H0) as [G1 S1].
  destruct (E2 _ _ H (proj1 G1)) as [G2 S2].
  split; [ eapply grew_trans; eauto | ].
  intros Hr Hf.
  assert (Hf1 : fits (sv_file st1)) by (unfold fits in *; destruct G2; lia).
  destruct (S1 Hr Hf1) as (cs1 & Hem1 & Hp1).
  destruct (S2 (emitted_ready _ _ _ Hem1 Hr) Hf) as (cs2 & Hem2 & Hp2).
  exists (cs1 ++ cs2). split; [ eapply emitted_app; eauto | apply HQ; assumption ].
Qed.

Lemma emits_emits_in W cs : emits W cs -> emits_in W (fun x => x = cs).
Proof.
  intros E st st' H H0. destruct (E st st' H H0) as [G S].
  split; [ exact G | ]. intros Hr Hf. exists cs. split; [ apply S; assumption | reflexivity ].
Qed.

Lemma flat_layer_preorder l p : getLayers l = [] -> layers_preorder l p = [(l, p)].
Proof. destruct l as [fl n cs | fl n ls]; cbn; [ reflexivity | intros ->; reflexivity ]. Qed.

Lemma write_root_layers_flat ls :
  Forall (fun l => getLayers l = []) ls ->
  forall i, emits (write_root_layers ls i) (root_layer_chunks ls i).
Proof.
  induction 1 as [| l ls Hl Hls IH]; intros i.
  - apply emits_ret.
  - cbn [write_root_layers root_layer_chunks].
    pose proof (write_layers_emits l [i]) as E.
    rewrite (flat_layer_preorder _ _ Hl) in E. cbn [map] in E.
    exact (emits_bind _ _ [_] _ E (IH (S i))).
Qed.

Lemma cels_upto_nil n : cels_upto n [].
Proof. split; [ constructor | cbn; lia ]. Qed.

Lemma cels_upto_app n m a b : cels_upto n a -> cels_upto m b -> cels_upto (n + m) (a ++ b).
Proof.
  intros [A1 A2] [B1 B2]. split; [ apply Forall_app; split; assumption | ].
  rewrite length_app. lia.
Qed.

Lemma cel_chunk_upto zl fuel cel layer sprite :
  emits_in (ase_file_write_cel_chunk zl fuel cel layer sprite) (cels_upto 1).
Proof.
  intros st st' H H0.
  split; [ exact (proj1 (cel_chunk_emitter zl fuel cel layer sprite st st' H H0)) | ].
  intros Hr Hf. destruct (cel_chunk_emitted _ _ _ _ _ _ _ H Hr Hf) as (more & Hem).
  eexists. split; [ exact Hem | ].
  split; [ constructor; [ reflexivity | constructor ] | cbn; lia ].
Qed.

Lemma write_cels_flat zl fuel sprite frame l p :
  getLayers l = [] ->
  emits_in (ase_file_write_cels zl fuel sprite l p frame) (cels_upto 1).
Proof.
  intros Hl. destruct l as [fl n cs | fl n ls].
  - intros st st' H. cbn [ase_file_write_cels] in H. revert st st' H.
    change (emits_in
              (fun st =>
                 saved_bind
                   (match getCel (LayerImage fl n cs) frame with
                    | Some cel => ase_file_write_cel_chunk zl fuel cel p sprite st
                    | None => Saved st
                    end) Saved) (cels_upto 1)).
    destruct (getCel _ _) as [cel |].
    + eapply emits_in_bind;
        [ apply cel_chunk_upto | apply (emits_in_ret (cels_upto 0)), cels_upto_nil | ].
      intros a b Ha Hb. exact (cels_upto_app 1 0 a b Ha Hb).
    + eapply emits_in_bind;
        [ apply (emits_in_ret (cels_upto 1)), cels_upto_nil
        | apply (emits_in_ret (cels_upto 0)), cels_upto_nil | ].
      intros a b Ha Hb. exact (cels_upto_app 1 0 a b Ha Hb).
  - cbn [getLayers] in Hl. subst ls.
    eapply (emits_in_bind Saved Saved);
      [ apply (emits_in_ret (cels_upto 1)), cels_upto_nil
      | apply (emits_in_ret (cels_upto 0)), cels_upto_nil | ].
    intros a b Ha Hb. exact (cels_upto_app 1 0 a b Ha Hb).
Qed.

Lemma write_root_cels_flat zl fuel sprite frame fl nm layers :
  Forall (fun l => getLayers l = []) layers ->
  emits_in (ase_file_write_cels zl fuel sprite (LayerFolder fl nm layers) [] frame)
    (cels_upto (length layers)).
Proof.
  intros Hflat.
  refine (emits_in_bind Saved _ (cels_upto 0) (cels_upto (length layers)) _
            (emits_in_ret _ (cels_upto_nil 0)) _ _);
    [ | intros a b Ha Hb; exact (cels_upto_app 0 _ a b Ha Hb) ].
  generalize 0%nat at 2. generalize (@nil nat).
  induction Hflat as [| c ls Hc Hls IH]; intros p i.
  - apply (emits_in_ret _ (cels_upto_nil 0)).
  - refine (emits_in_bind _ _ (cels_upto 1) (cels_upto (length ls)) _
              (write_cels_flat zl fuel sprite frame c (i :: p) Hc) (IH p (S i)) _).
    intros a b Ha Hb. exact (cels_upto_app 1 _ a b Ha Hb).
Qed.

Lemma frame_body_flat zl fuel sprite frame fl nm layers :
  spr_folder sprite = LayerFolder fl nm layers ->
  Forall (fun l => getLayers l = []) layers ->
  emits_in (write_frame_body zl fuel sprite frame) (flat_body layers frame).
Proof.
  intros Hroot Hflat. unfold write_frame_body. rewrite Hroot. cbn [getLayers].
  apply (emits_in_bind
           (fun st => if frame =? 0 then write_root_layers layers 0 st else Saved st)
           _ (fun x => x = if frame =? 0 then root_layer_chunks layers 0 else [])
           (cels_upto (length layers))).
  - destruct (frame =? 0).
    + apply emits_emits_in, write_root_layers_flat, Hflat.
    + apply emits_in_ret. reflexivity.
  - apply write_root_cels_flat, Hflat.
  - intros a b -> Hb. exists b. split; [ reflexivity | exact Hb ].
Qed.

Lemma save_frame_parts zl fuel sprite frame (Q : list (Z * list Z) -> Prop)
    st fop st' fop' :
  emits_in (write_frame_body zl fuel sprite frame) Q ->
  save_frame zl fuel sprite frame st fop = Saved (st', fop') ->
  0 <= cursor (sv_file st) ->
  grew (sv_file st) (sv_file st')
  /\ (between_frames (sv_file st) -> fits (sv_file st') ->
      exists cs,
        wrote (sv_file st) (sv_file st')
          (frame_bytes (to_uint16 (default 0 (getFrameDuration sprite frame)), cs))
        /\ cursor (sv_file st') = file_length (sv_file st')
        /\ frame_parts sprite frame Q cs).
Proof.
  unfold save_frame. intros HQ H H0.
  set (d := default 0 (getFrameDuration sprite frame)) in *.
  set (st1 := set_duration (ase_file_prepare_frame_header st) d) in *.
  destruct (palette_due sprite frame) as [due | | |] eqn:Hdue; try discriminate.
  cbn [saved_bind] in H.
  match type of H with
  | saved_bind ?m _ = _ => destruct m as [st2 | | |] eqn:Hpal; try discriminate
  end.
  cbn [saved_bind] in H.
  match type of H with
  | saved_bind ?m _ = _ => destruct m as [st3 | | |] eqn:Hlay; try discriminate
  end.
  cbn [saved_bind] in H.
  match type of H with
  | saved_bind ?m _ = _ => destruct m as [st4 | | |] eqn:Hcel; try discriminate
  end.
  cbn [saved_bind] in H. injection H as <- <-.
  assert (G1 : grew (sv_file st) (sv_file st1)).
  { subst st1. unfold set_duration, ase_file_prepare_frame_header. cbn [sv_file].
    apply fseek_grew, H0. }
  destruct (palette_step_emitted _ _ _ _ _ Hpal (proj1 G1)) as [G2 S2].
  assert (Hbody : write_frame_body zl fuel sprite frame st2 = Saved st4).
  { unfold write_frame_body. rewrite Hlay. exact Hcel. }
  destruct (HQ st2 st4 Hbody (proj1 G2)) as [G3 S3].
  pose proof (frame_header_grew st4 (proj1 G3)) as G4.
  split.
  { exact (grew_trans _ _ _ G1 (grew_trans _ _ _ G2 (grew_trans _ _ _ G3 G4))). }
  intros (_ & Hlo & Hhi) Hf.
  set (p := cursor (sv_file st)) in *.
  assert (Hf4 : fits (sv_file st4)) by (unfold fits in *; destruct G4; lia).
  assert (Hf2 : fits (sv_file st2)) by (unfold fits in *; destruct G3; lia).
  assert (Hlen : file_length (sv_file st) <= file_length (sv_file st4))
    by (destruct G1, G2, G3; lia).
  assert (Hp16 : p + 16 <= INT_MAX) by (unfold fits, INT_MAX in *; lia).
  destruct (prepare_frame_header_file st d H0 Hp16) as (Ef & Eh & Ec).
  fold st1 in Ef, Eh, Ec. fold p in Ef, Eh.
  assert (Hr1 : ready st1).
  { unfold ready. rewrite Ec, Ef, Eh, fseek_length, fseek_cursor by lia.
    cbn [fh_chunks]. repeat split; lia. }
  destruct (S2 Hr1 Hf2) as (cs1 & Hem1 & Hcase).
  destruct (S3 (emitted_ready _ _ _ Hem1 Hr1) Hf4) as (cs2 & Hem2 & Hall).
  pose proof (emitted_app _ _ _ _ _ Hem1 Hem2) as Hem.
  destruct Hem as (Wb & _ & Hsize & Hmagic & Hdur & Hchunks & Hend).
  rewrite Eh in Hsize, Hmagic, Hdur, Hchunks.
  cbn [fh_size fh_magic fh_chunks fh_duration] in Hsize, Hmagic, Hdur, Hchunks.
  rewrite Ef in Wb.
  assert (Hlay' : frame_parts sprite frame Q (cs1 ++ cs2)).
  { exists due, cs2. split; [ exact Hdue | ]. split; [ exact Hall | ].
    destruct Hcase as [(-> & pal & Hp & ->) | (-> & ->)];
      [ exists pal; split; [ exact Hp | reflexivity ] | reflexivity ]. }
  set (cs := cs1 ++ cs2) in *. set (body := chunks_bytes cs) in *.
  pose proof Wb as (_ & Hc4 & _ & _ & _ & _ & Hmax4 & _).
  rewrite fseek_cursor in Hc4 by lia. rewrite fseek_length in Hmax4.
  assert (Hc4max : p + 16 + Z.of_nat (length body) <= INT_MAX).
  { unfold fits, INT_MAX in *. destruct cs as [| c cs'] eqn:Ecs'.
    - subst body. cbn [chunks_bytes flat_map length] in *. lia.
    - rewrite <- Hc4, Hend by discriminate. lia. }
  rewrite (write_frame_header_file st4 p (Z.of_nat (length body)) Hsize H0
             (Nat2Z.is_nonneg _) Hc4 Hc4max).
  rewrite Hmagic, Hdur, Hchunks. rewrite Z.add_0_l.
  set (hdr := frame_header_bytes (16 + Z.of_nat (length body))
                (to_uint16 (Z.of_nat (length cs))) (to_uint16 d)).
  match goal with
  | |- context [fseek ?fh (p + 16 + Z.of_nat (length body))] =>
      assert (Hh : wrote (fseek (sv_file st4) p) fh hdr)
  end.
  { pose proof (wrote_fputl (16 + Z.of_nat (length body)) (fseek (sv_file st4) p)
                  ltac:(rewrite fseek_cursor; lia)) as W1.
    pose proof (wrote_fputw ASE_FILE_FRAME_MAGIC _ (wrote_cursor _ _ _ W1)) as W2.
    pose proof (wrote_fputw (to_uint16 (Z.of_nat (length cs))) _
                  (wrote_cursor _ _ _ W2)) as W3.
    pose proof (wrote_fputw (to_uint16 d) _ (wrote_cursor _ _ _ W3)) as W4.
    pose proof (wrote_padding 6 _ (wrote_cursor _ _ _ W4)) as W5.
    pose proof (wrote_app _ _ _ _ _ W1 (wrote_app _ _ _ _ _ W2
                 (wrote_app _ _ _ _ _ W3 (wrote_app _ _ _ _ _ W4 W5)))) as W.
    rewrite long_bytes_le32, !word_bytes_le16 in W. exact W. }
  assert (Hhne : hdr <> []) by (unfold hdr, frame_header_bytes, le32; discriminate).
  pose proof (wrote_bracket (sv_file st) 16 (sv_file st4) _ hdr body H0 eq_refl
                Hhne Wb Hh) as Hbr.
  fold p in Hbr.
  exists cs. split; [ exact Hbr | ]. split; [ | exact Hlay' ].
  destruct Hbr as (_ & Hc' & _ & _ & _ & _ & Hmax' & Hlen').
  assert (Hne : hdr ++ body <> []).
  { intros Heq. apply app_eq_nil in Heq. destruct Heq as [Heq _]. exact (Hhne Heq). }
  specialize (Hlen' Hne). fold p in Hc'. lia.
Qed.

Lemma save_frames_parts zl fuel sprite (Q : Z -> list (Z * list Z) -> Prop) n :
  (forall frame, emits_in (write_frame_body zl fuel sprite frame) (Q frame)) ->
  forall frame st fop st' fop',
  save_frames zl fuel sprite n frame st fop = Saved (st', fop') ->
  0 <= cursor (sv_file st) ->
  grew (sv_file st) (sv_file st')
  /\ (between_frames (sv_file st) -> fits (sv_file st') ->
      exists frames,
        length frames = n
        /\ wrote (sv_file st) (sv_file st') (flat_map frame_bytes frames)
        /\ (n <> 0%nat -> cursor (sv_file st') = file_length (sv_file st'))
        /\ forall i fr, frames !! i = Some fr ->
             0 <= fst fr < 65536
             /\ frame_parts sprite (frame + Z.of_nat i) (Q (frame + Z.of_nat i)) (snd fr)).
Proof.
  intros HQ.
  induction n as [| n IH]; intros frame st fop st' fop' H H0.
  - injection H as <- <-. split; [ apply grew_refl, H0 | ]. intros _ _.
    exists []. split; [ reflexivity | ]. split; [ apply wrote_nil, H0 | ].
    split; [ intros Hn; contradiction | ].
    intros i fr Hi. rewrite lookup_nil in Hi. discriminate.
  - cbn [save_frames] in H.
    destruct (save_frame zl fuel sprite frame st fop) as [[st1 fop1] | | |] eqn:Hfr;
      try discriminate.
    cbn [saved_bind] in H.
    destruct (save_frame_parts _ _ _ _ _ _ _ _ _ (HQ frame) Hfr H0) as [G1 S1].
    destruct (IH _ _ _ _ _ H (proj1 G1)) as [G2 S2].
    split; [ exact (grew_trans _ _ _ G1 G2) | ]. intros Hb Hf.
    assert (Hf1 : fits (sv_file st1)) by (unfold fits in *; destruct G2; lia).
    destruct (S1 Hb Hf1) as (cs & W1 & Hc1 & Hok1).
    assert (Hb1 : between_frames (sv_file st1))
      by (unfold between_frames; destruct G1; lia).
    destruct (S2 Hb1 Hf) as (frames & Hlen & W2 & _ & Hok2).
    exists ((to_uint16 (default 0 (getFrameDuration sprite frame)), cs) :: frames).
    split; [ cbn [length]; congruence | ].
    split; [ cbn [flat_map]; exact (wrote_app _ _ _ _ _ W1 W2) | ]. split.
    + intros _. destruct W2 as (_ & Hc & _ & _ & _ & Hl & Hm & Hlast).
      destruct (flat_map frame_bytes frames) as [| b bs].
      * cbn [length] in Hc. lia.
      * specialize (Hlast ltac:(discriminate)). lia.
    + intros [| i] fr' Hi.
      * injection Hi as <-. rewrite Z.add_0_r. cbn [fst snd].
        split; [ apply to_uint16_range | exact Hok1 ].
      * cbn in Hi. specialize (Hok2 i fr' Hi).
        replace (frame + Z.of_nat (S i)) with (frame + 1 + Z.of_nat i) by lia.
        exact Hok2.
Qed.

(** The file that [onSave] wrote, frame by frame. *)
Lemma saved_file_parts zl fuel sprite (Q : Z -> list (Z * list Z) -> Prop)
    fop ok out fop' :
  (forall frame, emits_in (write_frame_body zl fuel sprite frame) (Q frame)) ->
  onSave zl fuel sprite fop = Saved (ok, out, fop') ->
  fits out ->
  exists frames,
    length frames = Z.to_nat (getTotalFrames sprite)
    /\ holds out 128 (flat_map frame_bytes frames)
    /\ (0 < getTotalFrames sprite ->
        file_length out = 128 + Z.of_nat (length (flat_map frame_bytes frames)))
    /\ forall i fr, frames !! i = Some fr ->
         0 <= fst fr < 65536
         /\ frame_parts sprite (Z.of_nat i) (Q (Z.of_nat i)) (snd fr).
Proof.
  intros HQ H Hf. unfold onSave, ase_file_prepare_header in H.
  destruct (getPalette sprite 0) as [pal0 |]; [ | discriminate ].
  cbn [saved_bind] in H.
  match type of H with
  | saved_bind ?m _ = _ => destruct m as [[stN fopN] | | |] eqn:Hfr; try discriminate
  end.
  cbn [saved_bind] in H.
  match type of Hfr with
  | save_frames _ _ _ _ _ ?s _ = _ => set (st0 := s) in *
  end.
  assert (Hc0 : cursor (sv_file st0) = 128) by reflexivity.
  assert (Hl0 : file_length (sv_file st0) = 0) by reflexivity.
  assert (H0 : 0 <= cursor (sv_file st0)) by (rewrite Hc0; lia).
  destruct (save_frames_parts _ _ _ Q _ HQ _ _ _ _ _ Hfr H0) as [G S].
  match type of H with
  | context [ase_file_write_header ?f ?h] =>
      destruct (write_header_bytes f h eq_refl) as (fH & Wh & Eh)
  end.
  set (x := 0 + to_uint32 (ftell (sv_file stN) - 0)) in *.
  assert (Eout : out = fseek fH x).
  { rewrite <- Eh. destruct (ferror _); injection H as _ <- _; reflexivity. }
  clear H.
  match type of Wh with
  | wrote _ _ ?b => assert (Hlen : length b = 34%nat) by reflexivity; set (hdr := b) in *
  end.
  pose proof Wh as (_ & Hch & _ & _ & Hkept & Hlh & Hmh & _).
  rewrite fseek_cursor in Hch by lia. rewrite Hlen in Hch.
  rewrite fseek_length in Hlh, Hmh.
  assert (HfN : fits (sv_file stN)).
  { unfold fits in *. rewrite Eout, fseek_length in Hf. lia. }
  assert (Hb0 : between_frames (sv_file st0)).
  { unfold between_frames. rewrite Hc0, Hl0. lia. }
  destruct (S Hb0 HfN) as (frames & Hn & W & Hend & Hkinds).
  exists frames. split; [ exact Hn | ]. split; [ | split ].
  - rewrite Eout. apply fseek_holds.
    pose proof W as (_ & _ & _ & Hh & _). rewrite Hc0 in Hh.
    apply (holds_kept (fseek (sv_file stN) 0)); [ apply fseek_holds, Hh | ].
    intros q b Hq Hb. apply Hkept; [ | exact Hb ].
    right. rewrite fseek_cursor in * by lia. lia.
  - intros Hpos.
    destruct W as (_ & Hc & _).
    specialize (Hend ltac:(lia)). rewrite Hc0 in Hc.
    rewrite Eout, fseek_length. lia.
  - intros i fr Hi. specialize (Hkinds i fr Hi). rewrite Z.add_0_l in Hkinds.
    exact Hkinds.
Qed.

Lemma frame_parts_layout sprite frame Q cs :
  frame_parts sprite frame Q cs -> frame_layout Q cs.
Proof.
  intros (due & cs2 & _ & HQ & H). destruct due.
  - destruct H as (pal & _ & ->).
    exists [(ASE_FILE_CHUNK_FLI_COLOR2, color2_body pal)], cs2.
    split; [ reflexivity | ]. split; [ right; eexists; reflexivity | exact HQ ].
  - subst cs. exists [], cs2.
    split; [ reflexivity | ]. split; [ left; reflexivity | exact HQ ].
Qed.

(** ** The layers read from the first frame *)

Lemma read_chunks_app zl fuel header frame a : forall b st,
  read_chunks zl fuel header frame (a + b) st
  = match read_chunks zl fuel header frame a st with
    | Ok st1 => read_chunks zl fuel header frame b st1
    | Crash => Crash
    | OutOfFuel => OutOfFuel
    end.
Proof.
  induction a as [| a IH]; intros b st; cbn [Nat.add read_chunks]; [ reflexivity | ].
  destruct (read_chunk zl fuel header frame st); [ apply IH | reflexivity | reflexivity ].
Qed.

Lemma read_layer_chunk_stream l i f rest sprite prev cur fl n ls :
  stream_from f = layer_chunk_body l [i] ++ rest ->
  Z.of_nat (length (getName l)) < 65536 ->
  spr_folder sprite = LayerFolder fl n ls ->
  (prev = [] /\ cur = -1) \/ (exists j, prev = [j] /\ cur = 0) ->
  ase_file_read_layer_chunk f sprite prev cur
  = Ok (advance f (Z.of_nat (length (layer_chunk_body l [i]))),
        set_folder sprite (LayerFolder fl n (ls ++ [chunk_layer l])),
        [length ls], 0).
Proof.
  intros Hs Hlen Hroot Hprev.
  assert (Hbody : Z.of_nat (length (layer_chunk_body l [i]))
                  = 2 + (2 + (2 + (2 + (2 + (2 + (4 + (2 + Z.of_nat (length (getName l)))))))))).
  { unfold layer_chunk_body, word_bytes.
    rewrite !length_app, !length_map. cbn [length replicate]. lia. }
  unfold layer_chunk_body in Hs. rewrite <- !app_assoc in Hs.
  destruct (fgetw_word _ _ _ Hs) as [E1 H1].
  destruct (fgetw_word _ _ _ H1) as [E2 H2].
  destruct (fgetw_word _ _ _ H2) as [E3 H3].
  destruct (fgetw_word _ _ _ H3) as [E4 H4].
  destruct (fgetw_word _ _ _ H4) as [E5 H5].
  destruct (fgetw_word _ _ _ H5) as [E6 H6].
  destruct (read_padding_stream (replicate 4 0) _ _ H6) as [E7 H7].
  replace (Z.of_nat (length (getName l)))
    with (Z.of_nat (length (map to_uint8 (getName l)))) in H7 at 1
    by (rewrite length_map; reflexivity).
  destruct (read_string_stream _ _ _ H7 ltac:(rewrite length_map; exact Hlen))
    as [E8 _].
  unfold ase_file_read_layer_chunk.
  rewrite E1, E2, E3, E4, E5, E6.
  cbn [length replicate] in E7, E8. rewrite E7, E8.
  change (layer_child_level [i]) with 0.
  change (to_uint16 0) with 0.
  rewrite !advance_advance, length_map, Hbody.
  assert (Ename : map to_uint8 (map to_uint8 (getName l)) = map to_uint8 (getName l)).
  { rewrite map_map. apply map_ext. intros x. apply to_uint8_idem. }
  rewrite Ename.
  assert (Eadd : addLayer (spr_folder sprite) [] (chunk_layer l)
                 = Some (LayerFolder fl n (ls ++ [chunk_layer l]), [length ls])).
  { unfold addLayer, deref. rewrite Hroot. reflexivity. }
  assert (Elayer : forall t,
             t = (if isImage l then 0 else if isFolder l then 1 else -1) ->
             (if to_uint16 t =? 0 then Some new_LayerImage
              else if to_uint16 t =? 1 then Some new_LayerFolder else None)
             = Some (if isImage l then new_LayerImage else new_LayerFolder)).
  { intros t ->. destruct (layer_is_image_or_folder l) as [-> | [-> ->]]; reflexivity. }
  rewrite (Elayer _ eq_refl). fold (chunk_layer l).
  destruct Hprev as [[-> ->] | (j & -> & ->)].
  - change (0 =? -1) with false. change (0 >? -1) with true. cbv iota.
    rewrite Eadd. reflexivity.
  - change (0 =? 0) with true. cbv iota. cbn [getParent].
    rewrite Eadd. reflexivity.
Qed.

Lemma dispatch_layer_chunk zl fuel header frame chunk_pos chunk_size st :
  dispatch_chunk zl fuel header frame chunk_pos chunk_size ASE_FILE_CHUNK_LAYER st
  = match ase_file_read_layer_chunk (ld_file st) (ld_sprite st) (ld_last_layer st)
            (ld_current_level st) with
    | Ok (f, sprite, last_layer, current_level) =>
        Ok (mkLoad f (ld_fop st) sprite last_layer current_level)
    | Crash => Crash
    | OutOfFuel => OutOfFuel
    end.
Proof. reflexivity. Qed.

Lemma read_chunks_root_layers zl fuel header frame layers :
  forall i st rest fl nm ls,
    stream_from (ld_file st) = chunks_bytes (root_layer_chunks layers i) ++ rest ->
    Forall (fun l => Z.of_nat (length (getName l)) < 65536) layers ->
    spr_folder (ld_sprite st) = LayerFolder fl nm ls ->
    (ld_last_layer st = [] /\ ld_current_level st = -1)
    \/ (exists j, ld_last_layer st = [j] /\ ld_current_level st = 0) ->
    0 <= cursor (ld_file st) ->
    cursor (ld_file st)
    + Z.of_nat (length (chunks_bytes (root_layer_chunks layers i))) <= INT_MAX ->
    exists st1,
      read_chunks zl fuel header frame (length layers) st = Ok st1
      /\ stream_from (ld_file st1) = rest
      /\ cursor (ld_file st1)
         = cursor (ld_file st)
           + Z.of_nat (length (chunks_bytes (root_layer_chunks layers i)))
      /\ spr_folder (ld_sprite st1) = LayerFolder fl nm (ls ++ map chunk_layer layers)
      /\ ((ld_last_layer st1 = [] /\ ld_current_level st1 = -1)
          \/ (exists j, ld_last_layer st1 = [j] /\ ld_current_level st1 = 0)).
Proof.
  induction layers as [| l layers IH]; intros i st rest fl nm ls Hs Hnames Hroot Hprev H0 Hmax.
  - exists st. cbn [length read_chunks root_layer_chunks chunks_bytes flat_map map] in *.
    rewrite app_nil_r. repeat split; try assumption. lia.
  - inversion Hnames as [| x xs Hname Hnames']; subst x xs.
    cbn [root_layer_chunks chunks_bytes flat_map] in Hs, Hmax |- *.
    fold (chunks_bytes (root_layer_chunks layers (S i))) in Hs, Hmax |- *.
    unfold layer_chunk in Hs, Hmax |- *. cbn [fst snd] in Hs, Hmax |- *.
    rewrite <- app_assoc in Hs.
    rewrite length_app, Nat2Z.inj_add, chunk_bytes_length in Hmax |- *.
    assert (Ht : 0 <= ASE_FILE_CHUNK_LAYER < 65536) by (unfold ASE_FILE_CHUNK_LAYER; lia).
    destruct (read_chunk_aligned zl fuel header frame st _ _ _ Hs Ht H0 ltac:(lia))
      as [E Hb].
    rewrite dispatch_layer_chunk in E.
    cbn [in_chunk ld_file ld_sprite ld_last_layer ld_current_level ld_fop] in E, Hb.
    rewrite (read_layer_chunk_stream l i _ _ _ _ _ fl nm ls Hb Hname Hroot Hprev) in E.
    cbn [length read_chunks]. rewrite E. cbn [set_file ld_file ld_fop ld_sprite
                                              ld_last_layer ld_current_level].
    match goal with
    | |- exists st1, read_chunks _ _ _ _ _ ?s = _ /\ _ => set (st' := s)
    end.
    assert (Hcur : cursor (ld_file st')
                   = cursor (ld_file st) + 6 + Z.of_nat (length (layer_chunk_body l [i])))
      by (subst st'; unfold set_file; cbn [ld_file]; rewrite fseek_cursor by lia;
          reflexivity).
    assert (Hs' : stream_from (ld_file st')
                  = chunks_bytes (root_layer_chunks layers (S i)) ++ rest).
    { eapply stream_from_skip; [ exact Hs | | rewrite Hcur, chunk_bytes_length; lia ].
      subst st'. unfold set_file. cbn [ld_file]. rewrite fseek_contents. reflexivity. }
    destruct (IH (S i) st' rest fl nm (ls ++ [chunk_layer l]) Hs' Hnames' eq_refl
                (or_intror (ex_intro _ (length ls) (conj eq_refl eq_refl)))
                ltac:(lia) ltac:(lia))
      as (st1 & R & Hs1 & Hc1 & Hf1 & Hp1).
    exists st1. split; [ exact R | ]. split; [ exact Hs1 | ].
    split; [ lia | ]. split; [ | exact Hp1 ].
    rewrite Hf1, <- app_assoc. reflexivity.
Qed.

Lemma read_chunks_keep_layers zl fuel header frame cs :
  forall n st st' rest,
    read_chunks zl fuel header frame n st = Ok st' ->
    (n <= length cs)%nat ->
    stream_from (ld_file st) = chunks_bytes cs ++ rest ->
    Forall (fun c => 0 <= fst c < 65536 /\ fst c <> ASE_FILE_CHUNK_LAYER) cs ->
    0 <= cursor (ld_file st) ->
    cursor (ld_file st) + Z.of_nat (length (chunks_bytes cs)) <= INT_MAX ->
    top_layers (ld_sprite st') = top_layers (ld_sprite st)
    /\ ld_last_layer st' = ld_last_layer st
    /\ ld_current_level st' = ld_current_level st.
Proof.
  induction cs as [| [t body] cs IH]; intros n st st' rest H Hn Hs Hall H0 Hmax.
  - cbn [length] in Hn. assert (n = 0%nat) as -> by lia.
    injection H as <-. repeat split.
  - destruct n as [| n]; [ injection H as <-; repeat split | ].
    cbn [read_chunks] in H. cbn [length] in Hn.
    destruct (read_chunk zl fuel header frame st) as [st1 | |] eqn:E; try discriminate.
    inversion Hall as [| x xs [Ht Hnl] Hall']; subst x xs. cbn [fst] in Ht, Hnl.
    cbn [chunks_bytes flat_map fst snd] in Hs, Hmax.
    fold (chunks_bytes cs) in Hs, Hmax.
    rewrite <- app_assoc in Hs.
    rewrite length_app, Nat2Z.inj_add, chunk_bytes_length in Hmax.
    destruct (read_chunk_stream _ _ _ _ _ _ _ _ _ E Hs Ht H0 ltac:(lia))
      as (st2 & D & -> & Hs1 & Hc1).
    destruct (dispatch_chunk_top_layers _ _ _ _ _ _ _ _ _ D Hnl) as (K1 & K2 & K3).
    cbn [in_chunk ld_sprite ld_last_layer ld_current_level] in K1, K2, K3.
    destruct (IH n _ st' rest H ltac:(lia) Hs1 Hall' ltac:(lia) ltac:(lia))
      as (J1 & J2 & J3).
    unfold set_file in J1, J2, J3.
    cbn [ld_sprite ld_last_layer ld_current_level] in J1, J2, J3.
    repeat split; congruence.
Qed.

Lemma read_chunks_palette_part zl fuel header frame cs1 n st st' rest :
  read_chunks zl fuel header frame (length cs1 + n) st = Ok st' ->
  cs1 = [] \/ (exists body, cs1 = [(ASE_FILE_CHUNK_FLI_COLOR2, body)]) ->
  stream_from (ld_file st) = chunks_bytes cs1 ++ rest ->
  0 <= cursor (ld_file st) ->
  cursor (ld_file st) + Z.of_nat (length (chunks_bytes cs1)) <= INT_MAX ->
  exists st1,
    read_chunks zl fuel header frame n st1 = Ok st'
    /\ stream_from (ld_file st1) = rest
    /\ cursor (ld_file st1) = cursor (ld_file st) + Z.of_nat (length (chunks_bytes cs1))
    /\ spr_folder (ld_sprite st1) = spr_folder (ld_sprite st)
    /\ ld_last_layer st1 = ld_last_layer st
    /\ ld_current_level st1 = ld_current_level st.
Proof.
  intros H [-> | (body & ->)] Hs H0 Hmax.
  - exists st. cbn in *. repeat split; try assumption. lia.
  - cbn [length Nat.add read_chunks] in H.
    destruct (read_chunk zl fuel header frame st) as [st1 | |] eqn:E; try discriminate.
    cbn [chunks_bytes flat_map fst snd] in Hs, Hmax |- *.
    rewrite app_nil_r in Hs, Hmax |- *. rewrite chunk_bytes_length in Hmax |- *.
    assert (Ht : 0 <= ASE_FILE_CHUNK_FLI_COLOR2 < 65536)
      by (unfold ASE_FILE_CHUNK_FLI_COLOR2; lia).
    destruct (read_chunk_stream _ _ _ _ _ _ _ _ _ E Hs Ht H0 ltac:(lia))
      as (st2 & D & -> & Hs1 & Hc1).
    destruct (dispatch_palette_folder _ _ _ _ _ _ _ _ D) as (K1 & K2 & K3).
    eexists. split; [ exact H | ]. split; [ exact Hs1 | ]. split; [ lia | ].
    unfold set_file. cbn [ld_sprite ld_last_layer ld_current_level].
    repeat split; assumption.
Qed.

(** ** Frames read from an aligned stream *)

Lemma frame_bytes_length d cs :
  Z.of_nat (length (frame_bytes (d, cs))) = 16 + Z.of_nat (length (chunks_bytes cs)).
Proof.
  unfold frame_bytes, frame_header_bytes. rewrite !length_app.
  cbn [length le32 le16 zeros replicate]. lia.
Qed.

Lemma in_frame_layers header frame d st :
  spr_folder (ld_sprite (in_frame header frame d st)) = spr_folder (ld_sprite st)
  /\ ld_last_layer (in_frame header frame d st) = ld_last_layer st
  /\ ld_current_level (in_frame header frame d st) = ld_current_level st
  /\ ld_file (in_frame header frame d st) = advance (ld_file st) 16.
Proof.
  unfold in_frame, setFrameDuration.
  destruct (0 <? d); [ destruct (_ && _) | ]; repeat split.
Qed.

Lemma read_frame_aligned zl fuel header frame st d cs rest :
  stream_from (ld_file st) = frame_bytes (d, cs) ++ rest ->
  0 <= d < 65536 ->
  0 <= cursor (ld_file st) ->
  cursor (ld_file st) + Z.of_nat (length (frame_bytes (d, cs))) <= INT_MAX ->
  read_frame zl fuel header frame st
  = match read_chunks zl fuel header frame
            (Z.to_nat (to_uint16 (Z.of_nat (length cs)))) (in_frame header frame d st) with
    | Ok st1 =>
        Ok (set_file st1
              (fseek (ld_file st1)
                 (cursor (ld_file st) + Z.of_nat (length (frame_bytes (d, cs))))))
    | Crash => Crash
    | OutOfFuel => OutOfFuel
    end
  /\ stream_from (advance (ld_file st) 16) = chunks_bytes cs ++ rest.
Proof.
  intros Hs Hd H0 Hmax.
  pose proof (frame_bytes_length d cs) as Hlen.
  rewrite Hlen in Hmax |- *. unfold INT_MAX in Hmax.
  pose proof Hs as Hs'.
  unfold frame_bytes, frame_header_bytes in Hs'. rewrite <- !app_assoc in Hs'.
  rewrite <- long_bytes_le32, <- !word_bytes_le16 in Hs'.
  destruct (read_frame_header_stream _ _ _ _ _ _ _ Hs' eq_refl) as [Eh Hs1].
  rewrite to_uint32_small in Eh by lia.
  rewrite to_uint16_idem in Eh.
  change (to_uint16 ASE_FILE_FRAME_MAGIC) with ASE_FILE_FRAME_MAGIC in Eh.
  rewrite (to_uint16_small d) in Eh by lia.
  split; [ | exact Hs1 ].
  unfold read_frame. cbn [set_fop ld_file]. rewrite Eh.
  cbn [fh_magic fh_size fh_chunks fh_duration].
  change (ASE_FILE_FRAME_MAGIC =? ASE_FILE_FRAME_MAGIC) with true.
  cbv iota.
  unfold ftell. rewrite to_int_small by (unfold INT_MAX; lia).
  rewrite to_uint32_small by lia.
  unfold in_frame, set_file, set_sprite.
  cbn [ld_file ld_fop ld_sprite ld_last_layer ld_current_level].
  destruct (0 <? d); reflexivity.
Qed.

Lemma to_uint16_le z : 0 <= z -> 0 <= to_uint16 z <= z.
Proof.
  intros H. unfold to_uint16. change (2 ^ 16) with 65536.
  split; [ apply Z.mod_pos_bound; lia | apply Z.mod_le; lia ].
Qed.

Lemma read_frame_keep_layers zl fuel header frame st st' d cs rest :
  read_frame zl fuel header frame st = Ok st' ->
  stream_from (ld_file st) = frame_bytes (d, cs) ++ rest ->
  Forall (fun c => 0 <= fst c < 65536 /\ fst c <> ASE_FILE_CHUNK_LAYER) cs ->
  0 <= d < 65536 ->
  0 <= cursor (ld_file st) ->
  cursor (ld_file st) + Z.of_nat (length (frame_bytes (d, cs))) <= INT_MAX ->
  top_layers (ld_sprite st') = top_layers (ld_sprite st)
  /\ ld_last_layer st' = ld_last_layer st
  /\ ld_current_level st' = ld_current_level st.
Proof.
  intros H Hs Hall Hd H0 Hmax.
  destruct (read_frame_aligned zl fuel header frame st d cs rest Hs Hd H0 Hmax)
    as [E Hs1].
  rewrite E in H. clear E.
  destruct (read_chunks _ _ _ _ _ _) as [st1 | |] eqn:E; try discriminate.
  injection H as <-.
  destruct (in_frame_layers header frame d st) as (I1 & I2 & I3 & I4).
  rewrite frame_bytes_length in Hmax.
  pose proof (to_uint16_le (Z.of_nat (length cs)) (Nat2Z.is_nonneg _)) as Hle.
  destruct (read_chunks_keep_layers _ _ _ _ cs _ _ _ rest E ltac:(lia)
              ltac:(rewrite I4; exact Hs1) Hall
              ltac:(rewrite I4; cbn [advance cursor]; lia)
              ltac:(rewrite I4; cbn [advance cursor]; lia))
    as (K1 & K2 & K3).
  unfold set_file. cbn [ld_sprite ld_last_layer ld_current_level].
  unfold top_layers in *. rewrite K1, K2, K3, I1, I2, I3. repeat split.
Qed.

Lemma flat_body_later layers frame cs :
  frame <> 0 ->
  frame_layout (flat_body layers frame) cs ->
  Forall (fun c => 0 <= fst c < 65536 /\ fst c <> ASE_FILE_CHUNK_LAYER) cs.
Proof.
  intros Hf (cs1 & cs2 & -> & Hpal & cels & -> & Hcels & _).
  apply Z.eqb_neq in Hf. rewrite Hf. cbn [app].
  apply Forall_app. split.
  - destruct Hpal as [-> | (body & ->)]; [ constructor | ].
    constructor; [ | constructor ]. cbn [fst].
    unfold ASE_FILE_CHUNK_FLI_COLOR2, ASE_FILE_CHUNK_LAYER. split; [ lia | discriminate ].
  - eapply Forall_impl; [ exact Hcels | ].
    intros c ->. unfold ASE_FILE_CHUNK_CEL, ASE_FILE_CHUNK_LAYER.
    split; [ lia | discriminate ].
Qed.

Lemma root_layer_chunks_length layers : forall i,
  length (root_layer_chunks layers i) = length layers.
Proof.
  induction layers as [| l layers IH]; intros i; cbn [root_layer_chunks length];
    [ reflexivity | rewrite IH; reflexivity ].
Qed.

Lemma chunks_bytes_app a b : chunks_bytes (a ++ b) = chunks_bytes a ++ chunks_bytes b.
Proof. unfold chunks_bytes. apply flat_map_app. Qed.

Lemma read_first_frame_layers zl fuel header st st' d cs rest layers fl nm :
  read_frame zl fuel header 0 st = Ok st' ->
  stream_from (ld_file st) = frame_bytes (d, cs) ++ rest ->
  frame_layout (flat_body layers 0) cs ->
  Z.of_nat (length layers) < 32768 ->
  Forall (fun l => Z.of_nat (length (getName l)) < 65536) layers ->
  spr_folder (ld_sprite st) = LayerFolder fl nm [] ->
  ld_last_layer st = [] -> ld_current_level st = -1 ->
  0 <= d < 65536 ->
  0 <= cursor (ld_file st) ->
  cursor (ld_file st) + Z.of_nat (length (frame_bytes (d, cs))) <= INT_MAX ->
  top_layers (ld_sprite st') = map chunk_layer layers.
Proof.
  intros H Hs (cs1 & cs2 & Ecs & Hpal & cels & Ecs2 & Hcels & Hbound)
    Hfew Hnames Hroot Hlast Hlevel Hd H0 Hmax.
  change (0 =? 0) with true in Ecs2. cbv iota in Ecs2.
  destruct (read_frame_aligned zl fuel header 0 st d cs rest Hs Hd H0 Hmax)
    as [E Hs1].
  rewrite E in H. clear E.
  destruct (read_chunks _ _ _ _ _ _) as [st4 | |] eqn:E; try discriminate.
  injection H as <-. unfold set_file. cbn [ld_sprite].
  destruct (in_frame_layers header 0 d st) as (I1 & I2 & I3 & I4).
  rewrite frame_bytes_length in Hmax.
  assert (Hlen1 : (length cs1 <= 1)%nat)
    by (destruct Hpal as [-> | (body & ->)]; cbn; lia).
  assert (Hcount : length cs = (length cs1 + (length layers + length cels))%nat).
  { rewrite Ecs, Ecs2, !length_app, root_layer_chunks_length. reflexivity. }
  rewrite to_uint16_small, Nat2Z.id, Hcount in E by lia.
  rewrite Ecs, Ecs2, !chunks_bytes_app, <- !app_assoc in Hs1.
  rewrite Ecs, Ecs2, !chunks_bytes_app, !length_app, !Nat2Z.inj_add in Hmax.
  destruct (read_chunks_palette_part _ _ _ _ _ _ _ _ _ E Hpal
              ltac:(rewrite I4; exact Hs1)
              ltac:(rewrite I4; cbn [advance cursor]; lia)
              ltac:(rewrite I4; cbn [advance cursor]; lia))
    as (st1 & E1 & Hs2 & Hc1 & F1 & L1 & V1).
  rewrite I4 in Hc1. cbn [advance cursor] in Hc1.
  rewrite read_chunks_app in E1.
  destruct (read_chunks_root_layers zl fuel header 0 layers 0 st1 _ fl nm [] Hs2 Hnames
              ltac:(congruence)
              ltac:(left; split; congruence) ltac:(lia) ltac:(lia))
    as (st2 & E2 & Hs3 & Hc2 & F2 & _).
  rewrite E2 in E1.
  assert (Hall : Forall (fun c => 0 <= fst c < 65536 /\ fst c <> ASE_FILE_CHUNK_LAYER)
                   cels).
  { eapply Forall_impl; [ exact Hcels | ].
    intros c ->. unfold ASE_FILE_CHUNK_CEL, ASE_FILE_CHUNK_LAYER.
    split; [ lia | discriminate ]. }
  destruct (read_chunks_keep_layers _ _ _ _ cels _ _ _ rest E1 ltac:(lia) Hs3 Hall
              ltac:(lia) ltac:(lia))
    as (K1 & _).
  rewrite K1. unfold top_layers. rewrite F2. cbn [getLayers app].
  rewrite map_map. apply map_ext. intros l. apply without_cels_chunk_layer.
Qed.

Lemma load_frames_keep_layers zl fuel header layers frames :
  forall frame st st' rest,
    load_frames zl fuel header (length frames) frame st = Ok st' ->
    stream_from (ld_file st) = flat_map frame_bytes frames ++ rest ->
    0 < frame ->
    (forall i fr, frames !! i = Some fr ->
       0 <= fst fr < 65536
       /\ frame_layout (flat_body layers (frame + Z.of_nat i)) (snd fr)) ->
    0 <= cursor (ld_file st) ->
    cursor (ld_file st) + Z.of_nat (length (flat_map frame_bytes frames)) <= INT_MAX ->
    top_layers (ld_sprite st') = top_layers (ld_sprite st).
Proof.
  induction frames as [| [d cs] frames IH];
    intros frame st st' rest H Hs Hpos Hall H0 Hmax.
  - injection H as <-. reflexivity.
  - cbn [length load_frames] in H.
    destruct (Hall 0%nat (d, cs) eq_refl) as [Hd Hlay].
    cbn [fst snd] in Hd, Hlay. rewrite Z.add_0_r in Hlay.
    cbn [flat_map] in Hs, Hmax. rewrite <- app_assoc in Hs.
    rewrite length_app, Nat2Z.inj_add in Hmax.
    destruct (read_frame zl fuel header frame st) as [st1 | |] eqn:E; try discriminate.
    destruct (read_frame_chain _ _ _ _ _ _ _ _ _ E Hs Hd H0 ltac:(lia))
      as (_ & Hs1 & Hc1).
    destruct (read_frame_keep_layers _ _ _ _ _ _ _ _ _ E Hs
                (flat_body_later layers frame cs ltac:(lia) Hlay) Hd H0 ltac:(lia))
      as (K1 & _).
    destruct (fop_oneframe _); [ injection H as <-; exact K1 | ].
    destruct (fop_is_stop _ _); [ injection H as <-; exact K1 | ].
    rewrite <- K1.
    apply (IH (frame + 1) st1 st' rest H Hs1 ltac:(lia)); [ | lia | lia ].
    intros i fr Hi. specialize (Hall (S i) fr Hi).
    replace (frame + 1 + Z.of_nat i) with (frame + Z.of_nat (S i)) by lia.
    exact Hall.
Qed.

(** X24: the layers of a sprite without nested layers survive saving
    and loading.  When all layers of the saved sprite lie directly
    under its root folder (fewer than 32768 of them, names shorter than
    65536 characters, at least one and fewer than 65536 frames, the
    file within the offsets of an [int]) and [onLoad] gets through the
    file that [onSave] wrote, the root folder of the loaded document
    has one layer for every layer of the saved sprite, in the same
    order and of the same kind, with the flags as a 16 bit value and
    the name up to its first zero character.  This holds for a load of
    the first frame only or a stopped load as well, and whatever the
    decompression of the cels yields. *)
Theorem save_load_flat_layers zl fuel sprite fop ok out fop' zl2 fuel2 fop2 loaded
    fl nm layers :
  onSave zl fuel sprite fop = Saved (ok, out, fop') ->
  fits out ->
  0 < getTotalFrames sprite < 65536 ->
  spr_folder sprite = LayerFolder fl nm layers ->
  Forall (fun l => getLayers l = [] /\ Z.of_nat (length (getName l)) < 65536) layers ->
  Z.of_nat (length layers) < 32768 ->
  onLoad zl2 fuel2 (Some (open_file (contents out))) fop2 = Ok loaded ->
  exists st,
    final loaded = Some st
    /\ map without_cels (getLayers (spr_folder (ld_sprite st)))
       = map chunk_layer layers.
Proof.
  intros Hsave Hf Hn Hroot Hlayers Hfew Hload.
  assert (Hflat : Forall (fun l => getLayers l = []) layers)
    by (eapply Forall_impl; [ exact Hlayers | intros l [H _]; exact H ]).
  assert (Hnames : Forall (fun l => Z.of_nat (length (getName l)) < 65536) layers)
    by (eapply Forall_impl; [ exact Hlayers | intros l [_ H]; exact H ]).
  destruct (saved_header_fields _ _ _ _ _ _ _ Hsave)
    as (header & pal & _ & Hr & _ & _ & Hfr & _).
  destruct (saved_file_parts zl fuel sprite (flat_body layers) _ _ _ _
              (fun frame => frame_body_flat zl fuel sprite frame fl nm layers Hroot Hflat)
              Hsave Hf)
    as (frames & Hcount & Hh & Hlen & Hparts).
  assert (Hlay : forall i fr, frames !! i = Some fr ->
                   0 <= fst fr < 65536
                   /\ frame_layout (flat_body layers (Z.of_nat i)) (snd fr)).
  { intros i fr Hi. destruct (Hparts i fr Hi) as [A B].
    split; [ exact A | exact (frame_parts_layout _ _ _ _ B) ]. }
  unfold onLoad in Hload. rewrite Hr in Hload.
  destruct (load_frames _ _ _ _ _ _) as [st | |] eqn:E; try discriminate.
  exists st. split.
  { destruct (ferror _); injection Hload as <-; reflexivity. }
  clear Hload.
  unfold getTotalFrames in *.
  destruct (header_sprite_durations header) as [Hfrs _].
  rewrite Hfrs, Hfr, to_uint16_small, <- Hcount in E by lia.
  specialize (Hlen ltac:(lia)).
  assert (Hs : stream_from (mkFILE (contents out) 128 false)
               = flat_map frame_bytes frames
                 ++ drop (Z.to_nat 128 + length (flat_map frame_bytes frames))
                      (contents out)).
  { assert (Hh' : holds (open_file (contents out)) 128 (flat_map frame_bytes frames))
      by exact Hh.
    apply holds_stream in Hh'. exact Hh'. }
  destruct frames as [| [d cs] frames]; [ cbn [length] in Hcount; lia | ].
  cbn [length load_frames] in E.
  cbn [flat_map] in Hs, Hlen. rewrite <- app_assoc in Hs.
  rewrite length_app, Nat2Z.inj_add in Hlen.
  destruct (Hlay 0%nat (d, cs) eq_refl) as [Hd Hlay0]. cbn [fst snd] in Hd, Hlay0.
  unfold fits in Hf.
  destruct (read_frame _ _ _ _ _) as [st1 | |] eqn:E1; try discriminate.
  destruct (read_frame_chain _ _ _ _ _ _ _ _ _ E1 Hs Hd ltac:(cbn; lia)
              ltac:(cbn [ld_file cursor]; lia))
    as (_ & Hs1 & Hc1).
  pose proof (read_first_frame_layers _ _ _ _ _ _ _ _ layers 0 [] E1 Hs Hlay0 Hfew Hnames
                eq_refl eq_refl eq_refl Hd ltac:(cbn; lia)
                ltac:(cbn [ld_file cursor]; lia)) as K.
  change (map without_cels (getLayers (spr_folder (ld_sprite st))))
    with (top_layers (ld_sprite st)).
  cbn [ld_file cursor] in Hc1.
  destruct (fop_oneframe _); [ injection E as <-; exact K | ].
  destruct (fop_is_stop _ _); [ injection E as <-; exact K | ].
  rewrite <- K.
  apply (load_frames_keep_layers zl2 fuel2 header layers frames (0 + 1) st1 st _ E Hs1
           ltac:(lia)); [ | lia | lia ].
  intros i fr Hi. specialize (Hlay (S i) fr Hi).
  replace (0 + 1 + Z.of_nat i) with (Z.of_nat (S i)) by lia.
  exact Hlay.
Qed.

Lemma save_load_flat_layers_witness :
  exists out fop' loaded st,
    onSave zlib_store 100 flat_layers_sprite new_fop = Saved (true, out, fop')
    /\ onLoad zlib_store 100 (Some (open_file (contents out))) new_fop = Ok loaded
    /\ final loaded = Some st
    /\ map without_cels (getLayers (spr_folder (ld_sprite st)))
       = [LayerImage 1 [66; 71] []; LayerFolder 1 [70] []; LayerImage 2 [84] []]
    /\ map (fun l => length (getCels l)) (getLayers (spr_folder (ld_sprite st)))
       = [1%nat; 0%nat; 1%nat].
Proof.
  assert (H : exists out fop' loaded st,
             onSave zlib_store 100 flat_layers_sprite new_fop = Saved (true, out, fop')
             /\ fits out
             /\ onLoad zlib_store 100 (Some (open_file (contents out))) new_fop
                = Ok loaded
             /\ final loaded = Some st
             /\ map (fun l => length (getCels l)) (getLayers (spr_folder (ld_sprite st)))
                = [1%nat; 0%nat; 1%nat]).
  { eexists _, _, _, _.
    split; [ vm_compute; reflexivity | ].
    split; [ vm_compute; discriminate | ].
    split; [ vm_compute; reflexivity | ].
    split; [ vm_compute; reflexivity | vm_compute; reflexivity ]. }
  destruct H as (out & fop' & loaded & st & H1 & H2 & H3 & H4 & H5).
  destruct (save_load_flat_layers zlib_store 100 flat_layers_sprite new_fop true out fop'
              zlib_store 100 new_fop loaded 0 []
              [LayerImage 65537 [66; 71; 0; 33] [mkCel 0 1 0 0 255];
               LayerFolder 1 [70] [];
               LayerImage 2 [84] [mkCel 1 1 1 0 128]]
              H1 H2 ltac:(vm_compute; split; reflexivity) eq_refl
              ltac:(repeat constructor) ltac:(cbn; lia) H3)
    as (st' & Hf & Hl).
  rewrite H4 in Hf. injection Hf as <-.
  exists out, fop', loaded, st.
  split; [ exact H1 | ]. split; [ exact H3 | ]. split; [ exact H4 | ].
  split; [ exact Hl | exact H5 ].
Defined.

(** ** A saved file is read as frames in one way only *)

Lemma le16_inj a b :
  0 <= a < 65536 -> 0 <= b < 65536 -> le16 a = le16 b -> a = b.
Proof.
  unfold le16. intros Ha Hb H. injection H as H0 H1.
  rewrite (Z.mod_small (a / 256)) in H1
    by (split; [ apply Z.div_pos; lia | apply Z.div_lt_upper_bound; lia ]).
  rewrite (Z.mod_small (b / 256)) in H1
    by (split; [ apply Z.div_pos; lia | apply Z.div_lt_upper_bound; lia ]).
  rewrite (Z.div_mod a 256), (Z.div_mod b 256) by lia. lia.
Qed.

Lemma le32_value a :
  0 <= a < 2 ^ 32 ->
  a = a mod 256 + 256 * ((a / 256) mod 256) + 65536 * ((a / 65536) mod 256)
      + 16777216 * ((a / 16777216) mod 256).
Proof.
  intros Ha. change (2 ^ 32) with 4294967296 in Ha.
  change 65536 with (256 * 256). change 16777216 with (256 * 256 * 256).
  rewrite <- !Z.div_div by lia.
  pose proof (Z.div_mod a 256 ltac:(lia)) as E0.
  pose proof (Z.div_mod (a / 256) 256 ltac:(lia)) as E1.
  pose proof (Z.div_mod (a / 256 / 256) 256 ltac:(lia)) as E2.
  assert (H3 : 0 <= a / 256 / 256 / 256 < 256).
  { split; [ repeat apply Z.div_pos; lia | ].
    repeat apply Z.div_lt_upper_bound; lia. }
  rewrite (Z.mod_small (a / 256 / 256 / 256)) by exact H3.
  lia.
Qed.

Lemma le32_inj a b :
  0 <= a < 2 ^ 32 -> 0 <= b < 2 ^ 32 -> le32 a = le32 b -> a = b.
Proof.
  intros Ha Hb H. rewrite (le32_value a Ha), (le32_value b Hb).
  unfold le32 in H. injection H as -> -> -> ->. reflexivity.
Qed.

Lemma chunk_bytes_inj t b X t' b' X' :
  chunk_bytes t b ++ X = chunk_bytes t' b' ++ X' ->
  0 <= t < 65536 -> 0 <= t' < 65536 ->
  6 + Z.of_nat (length b) < 2 ^ 32 -> 6 + Z.of_nat (length b') < 2 ^ 32 ->
  t = t' /\ b = b' /\ X = X'.
Proof.
  unfold chunk_bytes. rewrite <- !app_assoc. intros H Ht Ht' Hb Hb'.
  apply app_inj_1 in H; [ | reflexivity ]. destruct H as [H4 H].
  apply app_inj_1 in H; [ | reflexivity ]. destruct H as [H2 H].
  apply le32_inj in H4; [ | lia | lia ].
  apply le16_inj in H2; [ | assumption | assumption ].
  apply app_inj_1 in H; [ | lia ]. destruct H as [Hbb HX].
  repeat split; assumption.
Qed.

Lemma chunk_bytes_long t b : (6 <= length (chunk_bytes t b))%nat.
Proof. unfold chunk_bytes. rewrite !length_app. cbn [length le32 le16]. lia. Qed.

Lemma chunks_bytes_inj cs : forall cs' X X',
  chunks_bytes cs ++ X = chunks_bytes cs' ++ X' ->
  length (chunks_bytes cs) = length (chunks_bytes cs') ->
  Forall (fun c => 0 <= fst c < 65536) cs ->
  Forall (fun c => 0 <= fst c < 65536) cs' ->
  Z.of_nat (length (chunks_bytes cs)) < 2 ^ 32 ->
  cs = cs'.
Proof.
  induction cs as [| [t b] cs IH]; intros [| [t' b'] cs'] X X' H Hlen Hw Hw' Hmax.
  - reflexivity.
  - cbn [chunks_bytes flat_map fst snd length] in Hlen. rewrite length_app in Hlen.
    pose proof (chunk_bytes_long t' b'). lia.
  - cbn [chunks_bytes flat_map fst snd length] in Hlen. rewrite length_app in Hlen.
    pose proof (chunk_bytes_long t b). lia.
  - cbn [chunks_bytes flat_map fst snd] in H, Hlen, Hmax.
    fold (chunks_bytes cs) in H, Hlen, Hmax. fold (chunks_bytes cs') in H, Hlen.
    rewrite <- !app_assoc in H. rewrite !length_app in Hlen.
    rewrite length_app, Nat2Z.inj_add in Hmax.
    pose proof (chunk_bytes_length t b) as L1.
    pose proof (chunk_bytes_length t' b') as L2.
    inversion Hw as [| x xs Ht Hw1]; subst x xs.
    inversion Hw' as [| x xs Ht' Hw1']; subst x xs. cbn [fst] in Ht, Ht'.
    destruct (chunk_bytes_inj _ _ _ _ _ _ H Ht Ht' ltac:(lia) ltac:(lia))
      as (-> & -> & H').
    f_equal. eapply IH; [ exact H' | lia | assumption | assumption | lia ].
Qed.

Lemma frame_bytes_inj d cs X d' cs' X' :
  frame_bytes (d, cs) ++ X = frame_bytes (d', cs') ++ X' ->
  0 <= d < 65536 -> 0 <= d' < 65536 ->
  Forall (fun c => 0 <= fst c < 65536) cs ->
  Forall (fun c => 0 <= fst c < 65536) cs' ->
  Z.of_nat (length (frame_bytes (d, cs))) < 2 ^ 32 ->
  Z.of_nat (length (frame_bytes (d', cs'))) < 2 ^ 32 ->
  (d, cs) = (d', cs') /\ X = X'.
Proof.
  intros H Hd Hd' Hw Hw' Hmax Hmax'.
  rewrite frame_bytes_length in Hmax, Hmax'.
  unfold frame_bytes, frame_header_bytes in H. rewrite <- !app_assoc in H.
  apply app_inj_1 in H; [ | reflexivity ]. destruct H as [H4 H].
  apply app_inj_1 in H; [ | reflexivity ]. destruct H as [_ H].
  apply app_inj_1 in H; [ | reflexivity ]. destruct H as [_ H].
  apply app_inj_1 in H; [ | reflexivity ]. destruct H as [H2 H].
  apply app_inj_1 in H; [ | reflexivity ]. destruct H as [_ H].
  apply le32_inj in H4; [ | lia | lia ].
  apply le16_inj in H2; [ | assumption | assumption ].
  assert (Hlen : length (chunks_bytes cs) = length (chunks_bytes cs')) by lia.
  pose proof (chunks_bytes_inj _ _ _ _ H Hlen Hw Hw' ltac:(lia)) as ->.
  apply app_inj_1 in H; [ | reflexivity ]. destruct H as [_ HX].
  subst d'. split; [ reflexivity | exact HX ].
Qed.

Lemma frames_bytes_inj F : forall F' X X',
  flat_map frame_bytes F ++ X = flat_map frame_bytes F' ++ X' ->
  length F = length F' ->
  Forall (fun fr => 0 <= fst fr < 65536
                    /\ Forall (fun c => 0 <= fst c < 65536) (snd fr)) F ->
  Forall (fun fr => 0 <= fst fr < 65536
                    /\ Forall (fun c => 0 <= fst c < 65536) (snd fr)) F' ->
  Z.of_nat (length (flat_map frame_bytes F)) < 2 ^ 32 ->
  Z.of_nat (length (flat_map frame_bytes F')) < 2 ^ 32 ->
  F = F'.
Proof.
  induction F as [| [d cs] F IH]; intros [| [d' cs'] F'] X X' H Hn Hw Hw' Hmax Hmax';
    try discriminate; [ reflexivity | ].
  cbn [flat_map] in H, Hmax, Hmax'. rewrite <- !app_assoc in H.
  rewrite length_app, Nat2Z.inj_add in Hmax, Hmax'.
  inversion Hw as [| x xs [Hd Hc] Hw1]; subst x xs.
  inversion Hw' as [| x xs [Hd' Hc'] Hw1']; subst x xs. cbn [fst snd] in *.
  destruct (frame_bytes_inj _ _ _ _ _ _ H Hd Hd' Hc Hc' ltac:(lia) ltac:(lia))
    as [E H'].
  injection E as <- <-. f_equal.
  eapply IH; [ exact H' | cbn [length] in Hn; lia | assumption | assumption | lia | lia ].
Qed.

Lemma holds_length f p bytes :
  holds f p bytes -> Z.of_nat (length bytes) <= file_length f.
Proof.
  intros [Hp H]. unfold file_length.
  destruct bytes as [| b bytes _] using rev_ind.
  - cbn [length]. lia.
  - specialize (H (length bytes) b (list_lookup_middle _ _ _ _ eq_refl)).
    apply lookup_lt_Some in H.
    rewrite length_app. cbn [length]. lia.
Qed.

Lemma saved_frames_unique out n F F' :
  file_length out <= INT_MAX ->
  saved_frames out n F -> saved_frames out n F' -> F = F'.
Proof.
  intros Hmax (Hn & Hh & Hw) (Hn' & Hh' & Hw').
  pose proof (holds_length _ _ _ Hh) as L.
  pose proof (holds_length _ _ _ Hh') as L'.
  apply holds_stream in Hh. apply holds_stream in Hh'.
  rewrite Hh in Hh'. unfold INT_MAX in Hmax.
  eapply frames_bytes_inj; [ exact Hh' | congruence | assumption | assumption | | ];
    change (2 ^ 32) with 4294967296; lia.
Qed.

Lemma frame_body_kinds zl fuel sprite frame :
  emits_in (write_frame_body zl fuel sprite frame) layers_and_cels.
Proof. exact (frame_body_emitter zl fuel sprite frame). Qed.

Lemma frame_parts_bounded sprite frame cs :
  frame_parts sprite frame layers_and_cels cs ->
  Forall (fun c => 0 <= fst c < 65536) cs.
Proof.
  intros (due & cs2 & _ & HQ & H).
  assert (H2 : Forall (fun c => 0 <= fst c < 65536) cs2).
  { eapply Forall_impl; [ exact HQ | ].
    intros c [-> | ->]; unfold ASE_FILE_CHUNK_LAYER, ASE_FILE_CHUNK_CEL; lia. }
  destruct due.
  - destruct H as (pal & _ & ->). constructor; [ | exact H2 ].
    cbn [fst]. unfold ASE_FILE_CHUNK_FLI_COLOR2. lia.
  - subst cs. exact H2.
Qed.

Lemma layers_and_cels_no_palette cs :
  layers_and_cels cs -> Forall (fun c => ~ is_palette_chunk c) cs.
Proof.
  intros H. eapply Forall_impl; [ exact H | ].
  intros c [E | E] [F | F]; rewrite E in F; discriminate.
Qed.

(** The file that [onSave] wrote, read as frames: the one way of
    reading it, and what the frames hold. *)
Lemma saved_file_read_as_frames zl fuel sprite fop ok out fop' :
  onSave zl fuel sprite fop = Saved (ok, out, fop') ->
  fits out ->
  exists frames,
    saved_frames out (Z.to_nat (getTotalFrames sprite)) frames
    /\ (forall frames',
          saved_frames out (Z.to_nat (getTotalFrames sprite)) frames' ->
          frames' = frames)
    /\ (frames <> [] ->
        file_length out = 128 + Z.of_nat (length (flat_map frame_bytes frames)))
    /\ forall i fr, frames !! i = Some fr ->
         frame_parts sprite (Z.of_nat i) layers_and_cels (snd fr).
Proof.
  intros H Hf.
  destruct (saved_file_parts zl fuel sprite (fun _ => layers_and_cels) _ _ _ _
              (frame_body_kinds zl fuel sprite) H Hf)
    as (frames & Hn & Hh & Hlen & Hparts).
  assert (Hsaved : saved_frames out (Z.to_nat (getTotalFrames sprite)) frames).
  { split; [ exact Hn | ]. split; [ exact Hh | ].
    apply Forall_lookup_2. intros i fr Hi.
    destruct (Hparts i fr Hi) as [Hd Hp].
    split; [ exact Hd | exact (frame_parts_bounded _ _ _ Hp) ]. }
  exists frames. split; [ exact Hsaved | ]. split; [ | split ].
  - intros frames' Hs'. unfold fits in Hf.
    exact (saved_frames_unique out _ frames' frames ltac:(lia) Hs' Hsaved).
  - intros Hne. apply Hlen.
    destruct frames as [| fr frames']; [ contradiction | ].
    cbn [length] in Hn. lia.
  - intros i fr Hi. exact (proj2 (Hparts i fr Hi)).
Qed.

(** C7: an indexed sprite saved into a file that stays within the
    offsets of an [int].  The file can be read as frames, from offset
    128 on one frame for every frame of the sprite with the type code
    of every chunk as the 16 bit value that is stored, and however it
    is read so, there is nothing behind the frames, and the chunks of
    frame [i] start with a palette chunk exactly when [i] is 0 or the
    palette of frame [i] differs from the one of frame [i - 1]; that
    chunk is of the direct-value kind (type 4) and its body is the
    packet count 1 and one packet with skip count 0, the size of the
    palette as size byte (0 for 256) and every entry of the palette of
    the frame; no other chunk of a frame is a palette chunk of either
    kind, so the scaled kind (type 11) is never written. *)
Theorem indexed_save_palette_chunks zl fuel sprite fop ok out fop' :
  getPixelFormat sprite = IMAGE_INDEXED ->
  onSave zl fuel sprite fop = Saved (ok, out, fop') ->
  fits out ->
  (exists frames, saved_frames out (Z.to_nat (getTotalFrames sprite)) frames)
  /\ forall frames,
       saved_frames out (Z.to_nat (getTotalFrames sprite)) frames ->
       (frames <> [] ->
        file_length out = 128 + Z.of_nat (length (flat_map frame_bytes frames)))
       /\ forall i fr, frames !! i = Some fr ->
            frame_chunks_ok sprite (Z.of_nat i) (snd fr).
Proof.
  intros Hfmt H Hf.
  destruct (saved_file_read_as_frames _ _ _ _ _ _ _ H Hf)
    as (frames0 & Hs0 & Huniq & Hlen & Hparts).
  split; [ exists frames0; exact Hs0 | ].
  intros frames Hs. rewrite (Huniq frames Hs).
  split; [ exact Hlen | ].
  intros i fr Hi.
  destruct (Hparts i fr Hi) as (due & cs2 & Hdue & HQ & Hcs).
  pose proof (palette_due_spec _ _ _ Hfmt Hdue) as Hspec.
  exists cs2. split; [ exact (layers_and_cels_no_palette _ HQ) | ].
  destruct due.
  - left. split; [ apply Hspec; reflexivity | exact Hcs ].
  - right. split; [ | exact Hcs ].
    intros Hch. apply Hspec in Hch. discriminate.
Qed.

(** A file holds bytes that are a piece of its contents. *)
Lemma holds_piece f p bytes :
  0 <= p ->
  take (length bytes) (drop (Z.to_nat p) (contents f)) = bytes ->
  holds f p bytes.
Proof.
  intros Hp E. split; [ exact Hp | ].
  intros k b Hk. rewrite <- E in Hk.
  apply lookup_take_Some in Hk. destruct Hk as [Hk _].
  rewrite lookup_drop in Hk. exact Hk.
Qed.

Lemma indexed_save_palette_chunks_witness :
  exists out fop' layer,
    getPixelFormat three_frames_sprite = IMAGE_INDEXED
    /\ onSave zlib_store 0 three_frames_sprite new_fop = Saved (true, out, fop')
    /\ fits out
    /\ saved_frames out 3
         [(100, [(ASE_FILE_CHUNK_FLI_COLOR2,
                  color2_body (mkPalette 0 [_rgba 0 0 0 255; _rgba 255 255 255 255]));
                 (ASE_FILE_CHUNK_LAYER, layer)]);
          (100, []);
          (100, [(ASE_FILE_CHUNK_FLI_COLOR2,
                  color2_body (mkPalette 2 [_rgba 0 0 0 255; _rgba 255 0 0 255]))])]
    /\ frame_chunks_ok three_frames_sprite 1 []
    /\ ~ palette_changes_at three_frames_sprite 1.
Proof.
  set (layer := layer_chunk_body (LayerImage 1 [76; 49] []) [0%nat]).
  set (frames :=
         [(100, [(ASE_FILE_CHUNK_FLI_COLOR2,
                  color2_body (mkPalette 0 [_rgba 0 0 0 255; _rgba 255 255 255 255]));
                 (ASE_FILE_CHUNK_LAYER, layer)]);
          (100, []);
          (100, [(ASE_FILE_CHUNK_FLI_COLOR2,
                  color2_body (mkPalette 2 [_rgba 0 0 0 255; _rgba 255 0 0 255]))])]).
  assert (H2 : exists out fop',
             onSave zlib_store 0 three_frames_sprite new_fop = Saved (true, out, fop')
             /\ fits out
             /\ take (length (flat_map frame_bytes frames)) (drop (Z.to_nat 128) (contents out))
                = flat_map frame_bytes frames).
  { eexists _, _. split; [ vm_compute; reflexivity | ].
    split; [ vm_compute; discriminate | vm_compute; reflexivity ]. }
  destruct H2 as (out & fop' & H2 & H3 & H4).
  assert (Hs : saved_frames out 3 frames).
  { split; [ reflexivity | ]. split; [ apply holds_piece; [ lia | exact H4 ] | ].
    repeat constructor; cbn; try lia; discriminate. }
  destruct (indexed_save_palette_chunks zlib_store 0 three_frames_sprite new_fop
              true out fop' eq_refl H2 H3) as (_ & Hall).
  destruct (Hall frames Hs) as (_ & Hok).
  pose proof (Hok 1%nat (100, []) eq_refl) as Hok1. cbn [snd Z.of_nat] in Hok1.
  change (Z.pos (Pos.of_succ_nat 0)) with 1 in Hok1.
  exists out, fop', layer.
  split; [ reflexivity | ]. split; [ exact H2 | ]. split; [ exact H3 | ].
  split; [ exact Hs | ]. split; [ exact Hok1 | ].
  destruct Hok1 as (rest & _ & [(_ & pal & _ & E) | (Hno & _)]);
    [ discriminate | exact Hno ].
Defined.

(** X21: a sprite that is not indexed is saved without any palette
    chunk.  The file that [onSave] wrote for an RGB or a grayscale
    sprite can be read as frames, from offset 128 on one frame for
    every frame of the sprite with the type code of every chunk as the
    16 bit value that is stored, and however it is read so, there is
    nothing behind the frames and no chunk of any frame is a palette
    chunk, of the direct-value kind or of the legacy kind (the file
    stays within the offsets of an [int]). *)
Theorem non_indexed_save_without_palette zl fuel sprite fop ok out fop' :
  getPixelFormat sprite <> IMAGE_INDEXED ->
  onSave zl fuel sprite fop = Saved (ok, out, fop') ->
  fits out ->
  (exists frames, saved_frames out (Z.to_nat (getTotalFrames sprite)) frames)
  /\ forall frames,
       saved_frames out (Z.to_nat (getTotalFrames sprite)) frames ->
       (frames <> [] ->
        file_length out = 128 + Z.of_nat (length (flat_map frame_bytes frames)))
       /\ Forall (fun fr => Forall (fun c => ~ is_palette_chunk c) (snd fr)) frames.
Proof.
  intros Hfmt H Hf.
  destruct (saved_file_read_as_frames _ _ _ _ _ _ _ H Hf)
    as (frames0 & Hs0 & Huniq & Hlen & Hparts).
  split; [ exists frames0; exact Hs0 | ].
  intros frames Hs. rewrite (Huniq frames Hs).
  split; [ exact Hlen | ].
  apply Forall_lookup_2. intros i fr Hi.
  destruct (Hparts i fr Hi) as (due & cs2 & Hdue & HQ & Hcs).
  assert (Hno : due = false).
  { unfold palette_due in Hdue.
    destruct (getPixelFormat sprite); try (injection Hdue as <-; reflexivity).
    contradiction. }
  subst due. rewrite Hcs. exact (layers_and_cels_no_palette _ HQ).
Qed.

Lemma non_indexed_save_without_palette_witness :
  exists out fop' layer,
    getPixelFormat two_frames_rgb_sprite <> IMAGE_INDEXED
    /\ onSave zlib_store 0 two_frames_rgb_sprite new_fop = Saved (true, out, fop')
    /\ fits out
    /\ saved_frames out 2 [(100, [(ASE_FILE_CHUNK_LAYER, layer)]); (100, [])]
    /\ file_length out = 128 + (16 + (6 + Z.of_nat (length layer))) + 16.
Proof.
  set (layer := layer_chunk_body (LayerImage 1 [65] []) [0%nat]).
  set (frames := [(100, [(ASE_FILE_CHUNK_LAYER, layer)]); (100, [])]).
  assert (H : exists out fop',
             onSave zlib_store 0 two_frames_rgb_sprite new_fop = Saved (true, out, fop')
             /\ fits out
             /\ take (length (flat_map frame_bytes frames))
                  (drop (Z.to_nat 128) (contents out))
                = flat_map frame_bytes frames).
  { eexists _, _. split; [ vm_compute; reflexivity | ].
    split; [ vm_compute; discriminate | vm_compute; reflexivity ]. }
  destruct H as (out & fop' & H1 & H2 & H4).
  assert (H0 : getPixelFormat two_frames_rgb_sprite <> IMAGE_INDEXED) by discriminate.
  assert (Hs : saved_frames out 2 frames).
  { split; [ reflexivity | ]. split; [ apply holds_piece; [ lia | exact H4 ] | ].
    repeat constructor; cbn; try lia; discriminate. }
  destruct (non_indexed_save_without_palette _ _ _ _ _ _ _ H0 H1 H2) as (_ & Hall).
  destruct (Hall frames Hs) as (Hlen & _).
  exists out, fop', layer.
  split; [ exact H0 | ]. split; [ exact H1 | ]. split; [ exact H2 | ].
  split; [ exact Hs | ].
  rewrite (Hlen ltac:(discriminate)). vm_compute. reflexivity.
Defined.
